(* ===== verification/_CoqProject ===== *)
-Q . S2P
Prelude.v
Bytes.v
Net.v
NetImpl.v
Text.v
Decimal.v
AddrText.v
AddrSpec.v
Common.v
Proto.v
Slab.v
Etherparse.v
Qos.v
Crypto.v
Room.v
Defense.v
Policy.v
Sorting.v
Rendezvous.v
Discovery.v
F32.v
Path.v
Observability.v
Transport.v
Flood.v
MacTable.v
Dataplane.v
Overlay.v
Delivery.v
Typed.v
Rewrite.v
RewriteDemo.v
Noise.v
Nat.v
NatSpec.v
Config.v
EdgeCore.v
Systems.v
SystemsSpec.v
SystemsDemo.v
Edge.v
EdgeFacts.v
EdgeInv.v
Json.v
Ipc.v
IpcSpec.v
Android.v
AndroidSpec.v
Cli.v
CliSpec.v
CliPrint.v
CliPrintSpec.v
EdgeSpec.v
Serve.v
ServeSpec.v
HandshakeSpec.v
HistorySpec.v
Supernode.v
SupernodeFacts.v
SupernodeSpec.v
Programs.v
RelaySpec.v
Network.v
Tasks.v
Interleave.v
Relayed.v
InviteSpec.v
Membership.v
SupernodeDemo.v
RelayedDemo.v
EdgeDemo.v
MembershipDemo.v
AndroidDemo.v
ClientDemo.v
InviteDemo.v
