(* ===== verification/Prelude.v ===== *)
(** * R2N verification development

    R2N is a peer-to-peer virtual LAN written in Rust.  Edges, one per machine, exchange the
    packets of a TUN or TAP device over UDP; a supernode introduces them to each other, gives
    out addresses and relays what cannot be sent directly.  This development models the
    crates under src/crates and proves what each of them is meant to do, from the header of a
    frame to what an edge and a supernode keep true in every state they reach.

    ** The parts, and the files that model them

    - Foundations.  This file: outcomes of Rust computations (value, error, unwinding), the
      state monad [M] with its [keeps] and [leads] lemmas, machine integers, durations.
      Bytes: buffers and big-endian integers.  Net, NetImpl: addresses and the interface of
      ipnet, with an implementation.  Text, Decimal, AddrText, AddrSpec: the string functions
      the code uses, numbers as decimal text, the printing and parsing of socket addresses and
      that they are inverse.  Sorting: sorts, dedup, minima of slices.
      F32: binary32.  Etherparse: what the packet parser hands over.
    - Common, Proto (r2n-common, r2n-proto): identifiers, invites, control frames and the
      148-byte data header.
    - Slab, Qos, Crypto, Noise (r2n-slab, r2n-qos, r2n-crypto): the packet slab, the scheduler,
      the frame cipher with its replay window, the handshake session.
    - Room (r2n-room): rooms, their leases and the pool that gives networks to rooms.
    - Defense, Flood, MacTable, Path, Dataplane (r2n-dataplane): MSS clamping and ICMP
      answers, duplicate suppression, the MAC table, the paths of a peer, and the handlers of
      the dataplane.  Overlay, Delivery, Typed: what these handlers promise.  Rewrite,
      RewriteDemo: what macOS does to a broadcast.
    - Policy (r2n-policy and the rule commands of r2n-edge-lib/src/ipc.rs), Discovery
      (r2n-discovery), Rendezvous (r2n-rendezvous), Observability (r2n-observability),
      Transport (r2n-transport), Config (r2n-config).
    - Nat, NatSpec (r2n-nat): the NAT probe, port prediction, candidates, port mappings.
    - Systems, SystemsSpec, SystemsDemo (r2n-tun, r2n-route): how a device is made on each
      system, the commands for PowerShell, the reading thread of Wintun, interface indexes.
    - EdgeCore (the stateless parts of r2n-edge-lib/src/lib.rs, r2n-tun and r2n-route) and
      Edge (its state and every handler of [run]); EdgeFacts, EdgeInv, EdgeSpec,
      HandshakeSpec, HistorySpec, EdgeDemo: what they keep and promise.
    - Json (serde_json's values), Ipc (r2n-edge-lib/src/ipc.rs: every request of the local
      server, its answer and what it changes), IpcSpec.  Serve (the connections of that
      server, from bytes to lines to requests, and the channel of the commands), ServeSpec.
      Android, AndroidSpec, AndroidDemo: entering a room on Android and the registration of a
      descriptor as its device.
    - Tasks: tasks that run side by side, one access to what they share at a time.
      Interleave: entering and leaving a room, and adding a rule, as such tasks.
    - Cli (r2n-cli/src/lib.rs: the dialog of every command, port ranges, the start of the
      daemon), CliSpec, ClientDemo.  CliPrint, CliPrintSpec: every line it prints.
    - Supernode (r2n-supernode-lib/src/lib.rs); SupernodeFacts, SupernodeSpec, RelaySpec,
      SupernodeDemo.  Programs (apps/supernode/src/main.rs): its start from a file.  Supernode and edges composed: InviteSpec, InviteDemo, along an invite;
      Relayed, RelayedDemo, along a packet; Membership, MembershipDemo, along a join or leave.
      Network: two nodes and what lies between them, an unreliable or a hostile network.

    The edge owns a dataplane ([Edge.e_dp]), which owns the transport, the slab, the
    scheduler, the metrics and the peers; [Edge.udp_round] passes control frames to the
    handlers of the edge and data frames to [Dataplane.handle_incoming_frame].  A daemon is an
    edge with its IPC server ([Ipc.daemon_step]), whose connections are those of Serve
    ([Serve.serve_step], every step of which is one of the daemon or leaves it as it is); the
    client talks to it ([CliSpec.run_dialog]).  The supernode has its own transport and slab, and the rooms and
    pool of Room.

    ** How the code is modelled

    A struct is a record, an enum an inductive type; [usize] is [nat], the other integers are
    [Z] with their wrap-around, overflow and shifts written out for both build profiles
    ([profile]); HashMap and DashMap are [gmap], a Vec is a list; an [Instant] is a number of
    nanoseconds.  A function that can fail returns an [outcome]; one that changes state is a
    computation of [M].  What the code draws at random, reads from a clock or is answered by
    the operating system is an argument.  A handler of a task is one step, and the order of
    the steps is arbitrary ([Edge.edge_step], [Supernode] steps, [RelaySpec.relay_step], which
    does separate the receipt of a frame from the task that relays it).  Where two handlers
    that run at once do come apart they are modelled again, access by access (Interleave), and
    proved to be the same handlers when they run alone.  A watch channel keeps a value only
    while somebody is subscribed to it ([Nat.publish_snapshot]).

    Third-party crates are type classes with the operations the code calls: ArrayQueue
    (crossbeam), AeadLib (chacha20poly1305), SnowLib (snow), Etherparse, IpNetLib and
    Ipv4NetLib (ipnet), RatelimitLib, Socket and TunIo (the sockets and the device), Postcard,
    InviteCrypto, Hex, Toml, Fs, HistoryLib, Platform, RuleSerde (the derived reader of rules),
    JsonText, Unicode, Resolver, HeaderSlices (etherparse on headers), PowerShell (how it reads
    a quoted string), Percent (a float with one digit).  Where a theorem relies on such a crate
    the law is a class of its own ([..Laws]) stating documented behaviour; the witnesses use
    concrete instances that satisfy the laws.  There are no axioms.

    Loops that are not structural carry fuel: [Room.scan_hosts] the size of the network it
    scans, [Defense.clamp_options] the length of the option area, of which a round consumes at
    least a byte, and [Defense.fold_carry] three rounds, two of which bring a 32-bit sum below
    [2^16]; [Android.recv_fd_loop] has 501 rounds, as five seconds hold 500 pauses of ten
    milliseconds.  The theorems about them show that the fuel does not run out.

    ** What the theorems show

    - Frames: headers and datagrams round-trip, no input unwinds the decoder; no nonce is
      accepted twice under a key and fresh frames are accepted; a sent packet is delivered
      unchanged to the device of the peer; what a frame writes is opened under the key of its
      sender and cannot be repeated, or, while the sender has no key, is taken as it is and
      can be; nothing leaves that the policy forbids; whatever is done to a dataplane, its
      state is well typed and what it sends can be parsed; a well-formed broadcast rewritten
      on macOS has checksums that verify.
    - Addresses: leases are injective, the networks of the pool disjoint, rejoining keeps the
      address; in every reachable state of a supernode this holds across its rooms, but for
      those on the fall-back network, which rooms restored with an exhausted pool share; and
      relays send exactly the bytes they were given.
    - Management: the interface knows only the maps of the start, and answers nobody without
      the token, but for its health.
    - Resources: slab slots are exclusive and conserved, the scheduler refines a priority
      queue, floods are recognised exactly, counters agree with their sums, the buffers of
      Wintun are a queue of packets.
    - Systems: a device has the address, mode and MTU it was made with, and the interfaces of
      macOS are tried in their order; what PowerShell reads is the name that was given, if
      that is ASCII; waiting for a descriptor ends.
    - NAT: the fingerprint agrees with its definition, predicted ports are right, a granted
      mapping never lapses.
    - Edge: edge, dataplane and runtime state agree in every reachable state; every command
      is answered at most once and none is lost; a join takes effect completely, or leaves
      nothing but its error and what is told of a device it made; in silence every supernode
      of the list is tried; the handshake makes both sides install one
      key, or, when both are asked at once, two different ones; ciphers are never reset.
    - Files: a configuration is read back as saved, a supernode runs what its file holds, the
      history keeps the latest rooms.
    - Local control: the status agrees with the state while handlers run one after the other,
      a request changes only what it is for, every command of the client that asks the daemon
      does what it is meant to and prints the answer, except that a history with certain
      invite codes unwinds it, a rule typed as arguments is the rule that is enforced, a
      daemon starts as configured.
    - Composition: the code of a room opens that room for every edge, at an address of its
      own; a packet sent through the supernode comes out of its receiver's device; after a
      join or leave the edges of the room know who is in it; addresses passed on as text
      arrive as they were; over a network that loses, repeats and reorders every packet that
      arrives is written once, and over a hostile one nothing else is; the clients of a daemon
      are answered in order, each with its own answer.
    - Concurrency: entering a room and leaving it at once can end in a room without a device,
      and two rules added at once can lose one.

    ** Not modelled, and why

    - How the IPC server makes its socket or pipe, requests that come before the edge has
      probed its NAT, and the text of JSON (serde_json); clap, which parses the command
      line.
    - Writing wintun.dll to a file ([init_wintun_dll]) and reading and writing a device other
      than Wintun (r2n-tun): calls of the operating system.
    - Logging.
    - The timers of the tasks, whose rounds are steps, and interleavings inside a handler other
      than those of Interleave. *)
From stdpp Require Import base tactics numbers list gmap strings.
From Stdlib Require Import ZArith Lia.

Declare Scope r2n_scope.
Delimit Scope r2n_scope with r2n.
Local Open Scope Z_scope.

(** ** Outcomes of Rust computations

    A Rust function that may fail returns [Ok] or [Err]; one that indexes or
    slices out of range, unwraps a missing value or overflows in a checked build
    unwinds.  [outcome E A] has the three cases. *)
Inductive outcome (E A : Type) : Type :=
| Ok (a : A)
| Err (e : E)
| Panic.
Arguments Ok {E A} a.
Arguments Err {E A} e.
Arguments Panic {E A}.

(** A function whose Rust type is not [Result] has no error value. *)
Abbreviation total A := (outcome Empty_set A).

#[export] Instance outcome_ret E : MRet (outcome E) := λ A a, Ok a.
#[export] Instance outcome_bind E : MBind (outcome E) := λ A B f m,
  match m with Ok a => f a | Err e => Err e | Panic => Panic end.
#[export] Instance outcome_fmap E : FMap (outcome E) := λ A B f m,
  match m with Ok a => Ok (f a) | Err e => Err e | Panic => Panic end.

(** Use of a [total] computation inside a fallible one. *)
Definition lift {E A} (m : total A) : outcome E A :=
  match m with Ok a => Ok a | Err e => match e with end | Panic => Panic end.

(** [ok_or]: an [Option] turned into a [Result]. *)
Definition ok_or {E A} (e : E) (o : option A) : outcome E A :=
  match o with Some a => Ok a | None => Err e end.

(** [map_err]. *)
Definition map_err {E F A} (f : E → F) (m : outcome E A) : outcome F A :=
  match m with Ok a => Ok a | Err e => Err (f e) | Panic => Panic end.

(** [Result::ok], for a computation that does not unwind. *)
Definition ok {E A} (m : outcome E A) : option A :=
  match m with Ok a => Some a | _ => None end.

Definition is_ok {E A} (m : outcome E A) : bool :=
  match m with Ok _ => true | _ => false end.

Lemma bind_Ok {E A B} (m : outcome E A) (f : A → outcome E B) b :
  mbind f m = Ok b → ∃ a, m = Ok a ∧ f a = Ok b.
Proof. destruct m; simpl; naive_solver. Qed.

Lemma bind_Ok_inv {E A B} (m : outcome E A) (f : A → outcome E B) a :
  m = Ok a → mbind f m = f a.
Proof. by intros ->. Qed.

Lemma lift_Ok {E A} (m : total A) (a : A) : lift (E:=E) m = Ok a ↔ m = Ok a.
Proof. destruct m as [| [] |]; simpl; naive_solver. Qed.

Lemma Ok_inj {E A} (a b : A) : Ok (E:=E) a = Ok b → a = b.
Proof. by intros [=]. Qed.

(** ** State threading

    A method on shared state is a function from the state to an outcome and the
    state it leaves, also when it fails. *)
Definition M (S E A : Type) : Type := S → outcome E A * S.

Definition mreturn {S E A} (a : A) : M S E A := λ s, (Ok a, s).
Definition mthrow {S E A} (e : E) : M S E A := λ s, (Err e, s).
Definition mseq {S E A B} (m : M S E A) (f : A → M S E B) : M S E B := λ s,
  match m s with
  | (Ok a, s') => f a s'
  | (Err e, s') => (Err e, s')
  | (Panic, s') => (Panic, s')
  end.
Definition mget {S E} : M S E S := λ s, (Ok s, s).
Definition mgets {S E A} (f : S → A) : M S E A := λ s, (Ok (f s), s).
Definition mmodify {S E} (f : S → S) : M S E unit := λ s, (Ok tt, f s).
Definition mlift {S E A} (m : outcome E A) : M S E A := λ s, (m, s).
(** [let _ = m], or [if let Err(e) = m { log }]: the error of [m] is dropped. *)
Definition mignore {S E A} (m : M S E A) : M S E unit := λ s,
  match m s with
  | (Panic, s') => (Panic, s')
  | (_, s') => (Ok tt, s')
  end.
(** A method on a part of the state, with its error seen as one of the whole. *)
Definition mzoom {S T E F A} (get : S → T) (set : T → S → S) (wrap_error : E → F)
    (m : M T E A) : M S F A := λ s,
  let '(r, t) := m (get s) in (map_err wrap_error r, set t s).
Definition mwhen {S E} (b : bool) (m : M S E unit) : M S E unit :=
  if b then m else mreturn tt.
Fixpoint mforeach {S E A} (f : A → M S E unit) (l : list A) : M S E unit :=
  match l with
  | [] => mreturn tt
  | x :: l' => mseq (f x) (λ _, mforeach f l')
  end.

Notation "'let*' x := m 'in' k" := (mseq m (λ x, k))
  (at level 200, x name, m at level 200, k at level 200) : r2n_scope.
Notation "'let*' ' p := m 'in' k" :=
  (mseq m (λ x, match x with p => k end))
  (at level 200, p strict pattern, m at level 200, k at level 200) : r2n_scope.
Notation "'do*' m 'in' k" := (mseq m (λ _, k))
  (at level 200, m at level 200, k at level 200) : r2n_scope.
Open Scope r2n_scope.

(** The inverse of a monadic bind. *)
Lemma mseq_inv {S E A B} (m : M S E A) (f : A → M S E B) s r :
  mseq m f s = r →
  (∃ a s', m s = (Ok a, s') ∧ f a s' = r) ∨ (∃ e s', m s = (Err e, s') ∧ r = (Err e, s')) ∨
  (∃ s', m s = (Panic, s') ∧ r = (Panic, s')).
Proof. unfold mseq. destruct (m s) as [[a|e|] s']; naive_solver. Qed.

Lemma mseq_Ok {S E A B} (m : M S E A) (f : A → M S E B) s a s' :
  m s = (Ok a, s') → mseq m f s = f a s'.
Proof. unfold mseq. by intros ->. Qed.

Lemma mzoom_run {S T E F A} (get : S → T) (set : T → S → S) (w : E → F) (m : M T E A) s r t :
  m (get s) = (r, t) → mzoom get set w m s = (map_err w r, set t s).
Proof. unfold mzoom. by intros ->. Qed.

(** *** What a program leaves alone

    [keeps view m]: the view of the state is the same after [m], whatever it returns. *)
Definition keeps {S E A X} (view : S → X) (m : M S E A) : Prop := ∀ s, view (m s).2 = view s.

Section Keeps.
Context {S E X : Type} (view : S → X).

Lemma keeps_mseq {A B} (m : M S E A) (f : A → M S E B) :
  keeps view m → (∀ a, keeps view (f a)) → keeps view (mseq m f).
Proof.
  intros Hm Hf s. specialize (Hm s). unfold mseq.
  destruct (m s) as [[a|e|] s']; simpl in *; [|done..]. by rewrite Hf.
Qed.
Lemma keeps_mget : keeps view (mget : M S E S). Proof. done. Qed.
Lemma keeps_mreturn {A} (a : A) : keeps view (mreturn a : M S E A). Proof. done. Qed.
Lemma keeps_mthrow {A} e : keeps view (mthrow e : M S E A). Proof. done. Qed.
Lemma keeps_mlift {A} (o : outcome E A) : keeps view (mlift o). Proof. done. Qed.
Lemma keeps_mmodify f : (∀ s, view (f s) = view s) → keeps view (mmodify f : M S E unit).
Proof. intros Hf s. apply Hf. Qed.
Lemma keeps_mzoom {T F A} (get : S → T) set (w : F → E) (m : M T F A) :
  (∀ t s, view (set t s) = view s) → keeps view (mzoom get set w m).
Proof. intros Hs s. unfold mzoom. destruct (m _). apply Hs. Qed.
Lemma keeps_mignore {A} (m : M S E A) : keeps view m → keeps view (mignore m).
Proof. intros Hm s. specialize (Hm s). unfold mignore. by destruct (m s) as [[] ?]. Qed.
Lemma keeps_mwhen b (m : M S E unit) : keeps view m → keeps view (mwhen b m).
Proof. by destruct b. Qed.
Lemma keeps_mforeach {A} (f : A → M S E unit) l :
  (∀ a, keeps view (f a)) → keeps view (mforeach f l).
Proof. intros Hf. induction l as [|a l IH]; [done|]. by apply keeps_mseq. Qed.
End Keeps.

Create HintDb keeps.
#[export] Hint Resolve keeps_mget keeps_mreturn keeps_mthrow keeps_mlift keeps_mignore
  keeps_mwhen keeps_mforeach : keeps.

(** Follows the program text: binds, branches, then the leaves. *)
Ltac keeps_step :=
  match goal with
  | |- keeps _ (mseq _ _) => apply keeps_mseq; [|intros]
  | |- keeps _ (mmodify _) => apply keeps_mmodify; intros; try reflexivity
  | |- keeps _ (mzoom _ _ _ _) => apply keeps_mzoom; intros; reflexivity
  | |- keeps _ (match ?x with _ => _ end) => destruct x
  | |- keeps _ (let _ := _ in _) => cbv zeta
  | |- keeps _ (mwhen _ _) => apply keeps_mwhen
  | |- keeps _ (mignore _) => apply keeps_mignore
  | |- keeps _ (mforeach _ _) => apply keeps_mforeach; intros
  | |- keeps _ _ => solve [eauto with keeps]
  end.
Ltac keeps := repeat keeps_step.

(** *** Where a program leads

    [leads R m s]: the state [m] leaves when run from [s] is related to [s] by the preorder
    [R], whatever it returns; an invariant [I] is the preorder [λ s s', I s → I s']. *)
Definition leads {S E A} (R : S → S → Prop) (m : M S E A) (s : S) : Prop := R s (m s).2.

Section Leads.
Context {S E : Type} (R : S → S → Prop) `{!PreOrder R}.

Lemma leads_mseq {A B} (m : M S E A) (f : A → M S E B) s :
  leads R m s → (∀ a s', m s = (Ok a, s') → leads R (f a) s') → leads R (mseq m f) s.
Proof.
  unfold leads, mseq. intros Hm Hf.
  destruct (m s) as [[a|e|] s'] eqn:E'; simpl in *; [|done..].
  etrans; [exact Hm|]. by apply Hf.
Qed.
Lemma leads_mget {B} (f : S → M S E B) s : leads R (f s) s → leads R (mseq mget f) s.
Proof. done. Qed.
Lemma leads_mreturn {A} (a : A) s : leads R (mreturn a : M S E A) s.
Proof. unfold leads. by simpl. Qed.
Lemma leads_mthrow {A} e s : leads R (mthrow e : M S E A) s.
Proof. unfold leads. by simpl. Qed.
Lemma leads_mlift {A} (o : outcome E A) s : leads R (mlift o) s.
Proof. unfold leads. by simpl. Qed.
Lemma leads_mmodify f s : R s (f s) → leads R (mmodify f : M S E unit) s.
Proof. done. Qed.
Lemma leads_mignore {A} (m : M S E A) s : leads R m s → leads R (mignore m) s.
Proof. unfold leads, mignore. by destruct (m s) as [[] ?]. Qed.
Lemma leads_mwhen b (m : M S E unit) s : leads R m s → leads R (mwhen b m) s.
Proof. destruct b; [done|]. intros _. apply leads_mreturn. Qed.
Lemma leads_mforeach {A} (f : A → M S E unit) l s :
  (∀ a s, leads R (f a) s) → leads R (mforeach f l) s.
Proof.
  intros Hf. revert s. induction l as [|a l IH]; intros s; [apply leads_mreturn|].
  apply leads_mseq; [done|]. intros _ s' _. apply IH.
Qed.
Lemma leads_view {A X} (view : S → X) (m : M S E A) s :
  keeps view m → leads (λ s s', view s' = view s) m s.
Proof. intros Hk. apply Hk. Qed.
Lemma leads_keeps {A X} (view : S → X) (m : M S E A) s :
  keeps view m → (∀ s', view s' = view s → R s s') → leads R m s.
Proof. intros Hk Hv. apply Hv, Hk. Qed.
End Leads.

#[export] Instance invariant_preorder {S} (I : S → Prop) : PreOrder (λ s s', I s → I s').
Proof. split; [by intros s|]. intros s1 s2 s3 ? ?. tauto. Qed.

#[export] Instance view_preorder {S X} (view : S → X) : PreOrder (λ s s', view s' = view s).
Proof. split; [by intros s|]. by intros s1 s2 s3 <- ->. Qed.

Create HintDb leads.
#[export] Hint Resolve leads_mreturn leads_mthrow leads_mlift : leads.

Ltac leads_step :=
  match goal with
  | |- leads _ (mseq mget _) _ => apply leads_mget
  | |- leads _ (mseq _ _) _ => apply leads_mseq; [typeclasses eauto| |intros]
  | |- leads _ (mforeach _ _) _ => apply leads_mforeach; [typeclasses eauto|intros]
  | |- leads _ (mignore _) _ => apply leads_mignore
  | |- leads _ (mwhen _ _) _ => apply leads_mwhen; [typeclasses eauto|]
  | |- leads _ (match ?x with _ => _ end) _ => destruct x eqn:?
  | |- leads _ (let _ := _ in _) _ => cbv zeta
  | |- leads _ _ _ => solve [eauto with leads typeclass_instances]
  end.
(** Follows the program text as [keeps] does, with the state at hand. *)
Ltac leads := repeat leads_step.

(** ** Machine integers *)

(** [wrap w z]: what a [w]-bit unsigned register keeps of [z]. *)
Definition wrap (w z : Z) : Z := z `mod` 2 ^ w.
Definition u_ok (w z : Z) : Prop := 0 ≤ z < 2 ^ w.

(** Rust checks arithmetic overflow in debug builds and wraps in release builds. *)
Inductive profile := Debug | Release.

Definition checked (p : profile) (w z : Z) : total Z :=
  if bool_decide (0 ≤ z < 2 ^ w) then Ok z
  else match p with Debug => Panic | Release => Ok (wrap w z) end.

(** [x << k] on a [w]-bit integer: a shift amount of [w] or more overflows; the
    release build masks it with [w - 1]. *)
Definition shl (p : profile) (w x k : Z) : total Z :=
  if bool_decide (k < w) then Ok (wrap w (Z.shiftl x k))
  else match p with
       | Debug => Panic
       | Release => Ok (wrap w (Z.shiftl x (k `mod` w)))
       end.

Definition saturating_add (w a b : Z) : Z := Z.min (a + b) (2 ^ w - 1).
Definition saturating_sub (a b : Z) : Z := Z.max 0 (a - b).

Lemma wrap_range w z : 0 ≤ w → u_ok w (wrap w z).
Proof. intros. unfold u_ok, wrap. apply Z.mod_pos_bound. lia. Qed.

Lemma wrap_small w z : u_ok w z → wrap w z = z.
Proof. intros. by apply Z.mod_small. Qed.

Lemma checked_small p w z : u_ok w z → checked p w z = Ok z.
Proof. intros. unfold checked. by rewrite bool_decide_eq_true_2. Qed.

(** ** Time

    An [Instant] is a reading of the monotonic clock in nanoseconds; a
    [Duration] is a number of nanoseconds. *)
Definition secs (n : Z) : Z := n * 1000000000.
Definition millis (n : Z) : Z := n * 1000000.
Definition as_secs (d : Z) : Z := d / 1000000000.
Definition as_millis (d : Z) : Z := d / 1000000.
(** [Instant::duration_since] and [saturating_duration_since]: zero when the
    other reading is later. *)
Definition duration_since (now earlier : Z) : Z := Z.max 0 (now - earlier).

(** ** Tactics and hints shared by the components *)
Create HintDb r2n.
#[export] Hint Rewrite @length_app @length_take @length_drop @length_insert
  @length_fmap @length_replicate : r2n.
#[export] Hint Resolve wrap_range : r2n.

(** Lengths of built lists, then arithmetic. *)
Ltac len := repeat (simpl in *; autorewrite with r2n in *); simpl in *; lia.

(** The same for terms that must not be unfolded. *)
Ltac lens := autorewrite with r2n in *; cbn [length] in *; lia.

(** One step of symbolic execution of an [outcome]. *)
Ltac inv_bind :=
  match goal with
  | H : mbind _ _ = Ok _ |- _ =>
      apply bind_Ok in H; let a := fresh "v" in let E := fresh "E" in
      destruct H as (a & E & H)
  | H : lift _ = Ok _ |- _ => apply lift_Ok in H
  | H : mret _ = Ok _ |- _ => injection H as H
  end.

(** Case analysis on the scrutinee of the innermost match of the goal. *)
Ltac split_match :=
  match goal with
  | |- context [match ?x with _ => _ end] =>
      lazymatch x with
      | context [match _ with _ => _ end] => fail
      | _ => let E := fresh "E" in destruct x eqn:E
      end
  end.
