(* ===== verification/Bytes.v ===== *)
(** Byte buffers: slices and writes that unwind out of range, and the big-endian
    integers of [to_be_bytes] and [from_be_bytes]. *)
From stdpp Require Import base tactics numbers list.
From Stdlib Require Import ZArith Lia.
From S2P Require Import Prelude.
Local Open Scope Z_scope.

(** A byte is an integer below 256; a [&[u8]] is a list of them. *)
Definition byte_ok (b : Z) : Prop := 0 ≤ b < 256.
Definition bytes_ok (l : list Z) : Prop := Forall byte_ok l.

(** ** Indexing and slicing *)

(** [l[i]] *)
Definition index (l : list Z) (i : nat) : total Z :=
  match l !! i with Some b => Ok b | None => Panic end.

(** [&l[a..b]] *)
Definition slice (l : list Z) (a b : nat) : total (list Z) :=
  if bool_decide (a ≤ b ∧ b ≤ length l)%nat
  then Ok (take (b - a) (drop a l)) else Panic.

(** [l[i] = v] *)
Definition set_index (l : list Z) (i : nat) (v : Z) : total (list Z) :=
  if bool_decide (i < length l)%nat then Ok (<[i := v]> l) else Panic.

(** [l[a..b].copy_from_slice(src)] *)
Definition copy_from_slice (l : list Z) (a b : nat) (src : list Z)
  : total (list Z) :=
  if bool_decide (a ≤ b ∧ b ≤ length l ∧ length src = (b - a)%nat)%nat
  then Ok (take a l ++ src ++ drop b l) else Panic.

(** [v.to_be_bytes()] of an [8*n]-bit integer. *)
Fixpoint to_be_bytes (n : nat) (v : Z) : list Z :=
  match n with
  | O => []
  | S n' => to_be_bytes n' (v / 256) ++ [v `mod` 256]
  end.

(** [from_be_bytes(l)] *)
Definition from_be_bytes (l : list Z) : Z := fold_left (λ acc b, acc * 256 + b) l 0.

(** ** Facts about writes *)

Lemma index_lookup l i b : l !! i = Some b → index l i = Ok b.
Proof. unfold index. by intros ->. Qed.

Lemma index_Ok l i b : index l i = Ok b ↔ l !! i = Some b.
Proof. unfold index. destruct (l !! i); naive_solver. Qed.

Lemma index_panic l i : index l i = Panic ↔ (length l ≤ i)%nat.
Proof.
  unfold index. destruct (l !! i) eqn:E.
  - apply lookup_lt_Some in E. split; [done|lia].
  - apply lookup_ge_None in E. done.
Qed.

Lemma set_index_Ok l i v :
  (i < length l)%nat → set_index l i v = Ok (<[i:=v]> l).
Proof. intros. unfold set_index. by rewrite bool_decide_eq_true_2. Qed.

Lemma slice_Ok l a b :
  (a ≤ b)%nat → (b ≤ length l)%nat → slice l a b = Ok (take (b - a) (drop a l)).
Proof. intros. unfold slice. by rewrite bool_decide_eq_true_2. Qed.

Lemma copy_from_slice_Ok l a b src :
  (a ≤ b)%nat → (b ≤ length l)%nat → length src = (b - a)%nat →
  copy_from_slice l a b src = Ok (take a l ++ src ++ drop b l).
Proof. intros. unfold copy_from_slice. by rewrite bool_decide_eq_true_2. Qed.

Lemma copy_from_slice_length l a b src l' :
  copy_from_slice l a b src = Ok l' → length l' = length l.
Proof.
  unfold copy_from_slice. case_bool_decide as H; [|done]. intros [= <-].
  rewrite !length_app, length_take, length_drop. lia.
Qed.

(** Writing a field directly after what has already been written. *)
Lemma copy_append pre rest a b src :
  length pre = a → length src = (b - a)%nat → (a ≤ b)%nat →
  (b - a ≤ length rest)%nat →
  copy_from_slice (pre ++ rest) a b src = Ok ((pre ++ src) ++ drop (b - a) rest).
Proof.
  intros Ha Hs Hab Hr.
  rewrite copy_from_slice_Ok; [|lia|rewrite length_app; lia|done].
  rewrite take_app_length' by done.
  rewrite drop_app, (drop_ge pre) by lia. rewrite app_nil_l.
  by rewrite Ha, <- app_assoc.
Qed.

Lemma set_append pre rest i v :
  length pre = i → (1 ≤ length rest)%nat →
  set_index (pre ++ rest) i v = Ok ((pre ++ [v]) ++ drop 1 rest).
Proof.
  intros Hi Hr. destruct rest as [|r rest]; [simpl in Hr; lia|].
  rewrite set_index_Ok by (rewrite length_app; simpl; lia).
  rewrite insert_app_r_alt by lia.
  replace (i - length pre)%nat with O by lia. simpl.
  by rewrite <- app_assoc.
Qed.

(** Reading back a field from between what precedes and what follows it. *)
Lemma slice_middle pre mid rest a b :
  length pre = a → length mid = (b - a)%nat → (a ≤ b)%nat →
  slice (pre ++ mid ++ rest) a b = Ok mid.
Proof.
  intros Ha Hm Hab. rewrite slice_Ok; [|lia|rewrite !length_app; lia].
  rewrite drop_app_length' by done. by rewrite take_app_length'.
Qed.

Lemma index_middle pre v rest i :
  length pre = i → index (pre ++ v :: rest) i = Ok v.
Proof.
  intros <-. apply index_lookup. by rewrite list_lookup_middle.
Qed.

(** ** Big-endian integers *)

Lemma length_to_be_bytes n v : length (to_be_bytes n v) = n.
Proof.
  revert v. induction n; intros; simpl; [done|].
  rewrite length_app, IHn. simpl. lia.
Qed.
#[export] Hint Rewrite length_to_be_bytes : r2n.

Lemma to_be_bytes_ok n v : bytes_ok (to_be_bytes n v).
Proof.
  revert v. induction n; intros; simpl; [constructor|].
  apply Forall_app. split; [apply IHn|].
  constructor; [|constructor]. unfold byte_ok.
  pose proof (Z.mod_pos_bound v 256). lia.
Qed.
#[export] Hint Resolve to_be_bytes_ok : r2n.

Lemma from_be_bytes_snoc l b : from_be_bytes (l ++ [b]) = from_be_bytes l * 256 + b.
Proof. unfold from_be_bytes. by rewrite fold_left_app. Qed.

Lemma from_to_be_bytes n v :
  0 ≤ v < 2 ^ (8 * Z.of_nat n) → from_be_bytes (to_be_bytes n v) = v.
Proof.
  revert v. induction n as [|n IH]; intros v Hv.
  - simpl in *. unfold from_be_bytes. simpl. lia.
  - cbn [to_be_bytes]. rewrite from_be_bytes_snoc, IH.
    + pose proof (Z.div_mod v 256). lia.
    + replace (8 * Z.of_nat (S n)) with (8 + 8 * Z.of_nat n) in Hv by lia.
      rewrite Z.pow_add_r in Hv by lia. change (2 ^ 8) with 256 in Hv.
      split; [apply Z.div_pos; lia|]. apply Z.div_lt_upper_bound; lia.
Qed.

Lemma from_be_bytes_range l :
  bytes_ok l → 0 ≤ from_be_bytes l < 2 ^ (8 * Z.of_nat (length l)).
Proof.
  induction l as [|b l IH] using rev_ind; intros Hok.
  - unfold from_be_bytes. simpl. lia.
  - apply Forall_app in Hok as [Hl Hb]. specialize (IH Hl).
    inversion Hb as [|? ? Hb' _]; subst. unfold byte_ok in Hb'.
    rewrite from_be_bytes_snoc, length_app. simpl.
    replace (8 * Z.of_nat (length l + 1)) with (8 + 8 * Z.of_nat (length l)) by lia.
    rewrite Z.pow_add_r by lia. change (2 ^ 8) with 256. lia.
Qed.

Lemma to_from_be_bytes l :
  bytes_ok l → to_be_bytes (length l) (from_be_bytes l) = l.
Proof.
  induction l as [|b l IH] using rev_ind; intros Hok; [done|].
  apply Forall_app in Hok as [Hl Hb]. specialize (IH Hl).
  inversion Hb as [|? ? Hb' _]; subst. unfold byte_ok in Hb'.
  rewrite from_be_bytes_snoc, length_app, Nat.add_comm. simpl.
  rewrite Z.div_add_l by lia. rewrite (Z.div_small b) by lia.
  rewrite Z.add_0_r, IH. f_equal.
  rewrite Z.add_comm, Z.mod_add by lia. by rewrite Z.mod_small.
Qed.

Lemma bytes_ok_lookup l i b : bytes_ok l → l !! i = Some b → byte_ok b.
Proof. intros H Hl. unfold bytes_ok in H. rewrite Forall_lookup in H. eauto. Qed.

Lemma bytes_ok_take n l : bytes_ok l → bytes_ok (take n l).
Proof. apply Forall_take. Qed.
Lemma bytes_ok_drop n l : bytes_ok l → bytes_ok (drop n l).
Proof. apply Forall_drop. Qed.
Lemma bytes_ok_app l k : bytes_ok l → bytes_ok k → bytes_ok (l ++ k).
Proof. intros. by apply Forall_app. Qed.
#[export] Hint Resolve bytes_ok_take bytes_ok_drop bytes_ok_app : r2n.

(** ** Reading a buffer built of fields *)

Lemma slice_skip x l a b :
  (length x ≤ a)%nat → (a ≤ b)%nat →
  slice (x ++ l) a b = slice l (a - length x) (b - length x).
Proof.
  intros Hx Hab. unfold slice. rewrite length_app.
  case_bool_decide as H1; case_bool_decide as H2; try lia; [|done].
  rewrite drop_app, (drop_ge x) by done. simpl. by do 2 f_equal; lia.
Qed.

Lemma slice_here x l n : length x = n → slice (x ++ l) 0 n = Ok x.
Proof.
  intros <-. rewrite slice_Ok by (rewrite ?length_app; lia).
  by rewrite Nat.sub_0_r, drop_0, take_app_length.
Qed.

Lemma index_skip x l i :
  (length x ≤ i)%nat → index (x ++ l) i = index l (i - length x).
Proof. intros. unfold index. by rewrite lookup_app_r. Qed.

Lemma index_here b l : index ([b] ++ l) 0 = Ok b.
Proof. done. Qed.

(** Consecutive segments of a buffer join. *)
Lemma take_drop_join (l : list Z) a n m :
  take n (drop a l) ++ take m (drop (a + n) l) = take (n + m) (drop a l).
Proof. rewrite <- drop_drop. by rewrite take_take_drop. Qed.

Lemma slice_Ok_inv l a b s :
  slice l a b = Ok s → s = take (b - a) (drop a l) ∧ length s = (b - a)%nat
    ∧ (a ≤ b ≤ length l)%nat.
Proof.
  unfold slice. case_bool_decide as H; [|done]. intros [= <-].
  rewrite length_take, length_drop. split_and!; [done|lia..].
Qed.

Lemma index_Ok_inv l i b :
  index l i = Ok b → [b] = take 1 (drop i l) ∧ (i < length l)%nat.
Proof.
  rewrite index_Ok. intros H. split; [|by eapply lookup_lt_Some].
  by rewrite (drop_S _ _ _ H).
Qed.

Lemma slice_bytes_ok l a b s : bytes_ok l → slice l a b = Ok s → bytes_ok s.
Proof. intros H Hs. apply slice_Ok_inv in Hs as (-> & _). auto with r2n. Qed.

Lemma index_byte_ok l i b : bytes_ok l → index l i = Ok b → byte_ok b.
Proof. intros H Hs%index_Ok. by eapply bytes_ok_lookup. Qed.

Lemma bytes_ok_check l :
  forallb (λ b, (0 <=? b) && (b <? 256)) l = true → bytes_ok l.
Proof.
  intros H. apply Forall_forall. intros x Hx. apply list_elem_of_In in Hx.
  rewrite List.forallb_forall in H. specialize (H x Hx). unfold byte_ok. lia.
Qed.

(** A write inside the first part of a buffer leaves the rest alone. *)
Lemma set_prefix a rest i v :
  (i < length a)%nat → set_index (a ++ rest) i v = (λ l, l ++ rest) <$> set_index a i v.
Proof.
  intros. rewrite !set_index_Ok by (rewrite ?length_app; lia). simpl.
  by rewrite insert_app_l.
Qed.

Lemma copy_prefix a rest i j src :
  (j ≤ length a)%nat →
  copy_from_slice (a ++ rest) i j src = (λ l, l ++ rest) <$> copy_from_slice a i j src.
Proof.
  intros Hj. unfold copy_from_slice. rewrite length_app.
  case_bool_decide as H1; case_bool_decide as H2; try lia; [|done].
  simpl. rewrite take_app_le by lia. rewrite drop_app_le by lia. by rewrite <- !app_assoc.
Qed.
