(* ===== verification/Net.v ===== *)
(** Addresses of [std::net] and the interface of the [ipnet] crate. *)
From stdpp Require Import base tactics numbers list countable strings.
From Stdlib Require Import ZArith Lia.
From S2P Require Import Prelude Bytes.
Local Open Scope Z_scope.

(** ** [std::net]

    An IPv4 address is its 32-bit value, an IPv6 address its 128-bit value. *)
Inductive IpAddr := V4 (a : Z) | V6 (a : Z).
Record SocketAddr := mkSocketAddr { sa_ip : IpAddr; sa_port : Z }.

#[export] Instance IpAddr_eq_dec : EqDecision IpAddr.
Proof. solve_decision. Defined.
#[export] Instance SocketAddr_eq_dec : EqDecision SocketAddr.
Proof. solve_decision. Defined.
#[export] Instance IpAddr_countable : Countable IpAddr.
Proof.
  apply (inj_countable'
    (λ i, match i with V4 a => inl a | V6 a => inr a end)
    (λ s, match s with inl a => V4 a | inr a => V6 a end)).
  by intros [].
Defined.
#[export] Instance SocketAddr_countable : Countable SocketAddr.
Proof.
  apply (inj_countable' (λ s, (sa_ip s, sa_port s))
    (λ p, mkSocketAddr p.1 p.2)).
  by intros [].
Defined.

Definition is_ipv4 (s : SocketAddr) : bool :=
  match sa_ip s with V4 _ => true | V6 _ => false end.

(** [IpAddr::is_unspecified]: [0.0.0.0] or [::]. *)
Definition is_unspecified (i : IpAddr) : bool :=
  match i with V4 a | V6 a => bool_decide (a = 0) end.

(** [Ipv4Addr::new], [Ipv4Addr::octets] and [From<[u8; 4]>]. *)
Definition ipv4 (a b c d : Z) : Z := from_be_bytes [a; b; c; d].
Definition octets (a : Z) : list Z := to_be_bytes 4 a.
Definition of_octets (l : list Z) : Z := from_be_bytes l.

Lemma of_octets_octets a : u_ok 32 a → of_octets (octets a) = a.
Proof. intros. by apply (from_to_be_bytes 4). Qed.

Lemma octets_inj a b : u_ok 32 a → u_ok 32 b → octets a = octets b → a = b.
Proof.
  intros Ha Hb E. rewrite <- (of_octets_octets a), <- (of_octets_octets b) by done.
  by rewrite E.
Qed.

(** ** The [ipnet] crate

    [Ipv4Net] is an address with a prefix length. *)
Class Ipv4NetLib := {
  Ipv4Net : Type;
  #[global] Ipv4Net_eq_dec :: EqDecision Ipv4Net;
  net_new : Z → Z → option Ipv4Net;
  net_parse : string → option Ipv4Net;
  net_to_string : Ipv4Net → string;
  net_addr : Ipv4Net → Z;
  net_prefix_len : Ipv4Net → Z;
  net_network : Ipv4Net → Z;
  net_broadcast : Ipv4Net → Z;
}.

(** The documented behaviour the code relies on: [new] rejects a prefix above 32,
    [network] clears the host bits and [broadcast] sets them, two nets are equal
    when their fields are, and [Display] prints what [FromStr] reads. *)
Class Ipv4NetLaws (L : Ipv4NetLib) : Prop := {
  net_addr_range : ∀ n, u_ok 32 (net_addr n);
  net_prefix_range : ∀ n, 0 ≤ net_prefix_len n ≤ 32;
  net_new_spec : ∀ a p n,
    net_new a p = Some n → net_addr n = a ∧ net_prefix_len n = p;
  net_new_total : ∀ a p, u_ok 32 a → 0 ≤ p ≤ 32 → is_Some (net_new a p);
  net_network_spec : ∀ n,
    net_network n = net_addr n - net_addr n `mod` 2 ^ (32 - net_prefix_len n);
  net_broadcast_spec : ∀ n,
    net_broadcast n = net_network n + 2 ^ (32 - net_prefix_len n) - 1;
  net_ext : ∀ n m,
    net_addr n = net_addr m → net_prefix_len n = net_prefix_len m → n = m;
  net_parse_to_string : ∀ n, net_parse (net_to_string n) = Some n;
}.

Section NetFacts.
Context `{L : Ipv4NetLib} `{!Ipv4NetLaws L}.

Lemma net_network_range n : u_ok 32 (net_network n).
Proof.
  rewrite net_network_spec. pose proof (net_addr_range n) as [? ?].
  pose proof (net_prefix_range n).
  pose proof (Z.pow_pos_nonneg 2 (32 - net_prefix_len n)).
  pose proof (Z.mod_pos_bound (net_addr n) (2 ^ (32 - net_prefix_len n))).
  pose proof (Z.mod_le (net_addr n) (2 ^ (32 - net_prefix_len n))).
  unfold u_ok. lia.
Qed.

(** The network address is a multiple of the size of the net. *)
Lemma net_network_aligned n :
  ∃ k, 0 ≤ k ∧ net_network n = k * 2 ^ (32 - net_prefix_len n).
Proof.
  pose proof (net_prefix_range n). pose proof (net_addr_range n) as [? ?].
  pose proof (Z.pow_pos_nonneg 2 (32 - net_prefix_len n)).
  exists (net_addr n / 2 ^ (32 - net_prefix_len n)). split.
  - apply Z.div_pos; lia.
  - rewrite net_network_spec.
    pose proof (Z.div_mod (net_addr n) (2 ^ (32 - net_prefix_len n))). lia.
Qed.

Lemma net_broadcast_range n : net_network n ≤ net_broadcast n < 2 ^ 32.
Proof.
  rewrite net_broadcast_spec. pose proof (net_prefix_range n).
  pose proof (net_network_range n) as [? Hlt].
  destruct (net_network_aligned n) as (k & ? & Hk).
  pose proof (Z.pow_pos_nonneg 2 (32 - net_prefix_len n)).
  split; [lia|].
  assert (2 ^ 32 = 2 ^ net_prefix_len n * 2 ^ (32 - net_prefix_len n)) as E.
  { rewrite <- Z.pow_add_r by lia. f_equal. lia. }
  rewrite Hk, E in *. nia.
Qed.
End NetFacts.
