(* ===== verification/NetImpl.v ===== *)
(** An implementation of the [ipnet] interface on pairs of an address and a prefix
    length, with dotted-decimal text: it shows that the laws of [Ipv4NetLaws] can
    hold, and makes the definitions that use them run. *)
From Stdlib Require Import ZArith Lia Ascii.
From stdpp Require Import base tactics numbers list strings pretty.
From S2P Require Import Prelude Bytes Net.
Local Open Scope Z_scope.

(** ** Decimal text *)
Definition digit (c : ascii) : option Z :=
  let n := Z.of_nat (nat_of_ascii c) in
  if bool_decide (48 ≤ n ≤ 57) then Some (n - 48) else None.

(** Reads digits until something else comes. *)
Fixpoint read_dec (acc : Z) (s : string) : Z * string :=
  match s with
  | EmptyString => (acc, EmptyString)
  | String c s' =>
      match digit c with
      | Some d => read_dec (acc * 10 + d) s'
      | None => (acc, s)
      end
  end.

Fixpoint all_digits (s : string) : bool :=
  match s with
  | EmptyString => true
  | String c s' => match digit c with Some _ => all_digits s' | None => false end
  end.

(** Text that starts with no digit. *)
Definition stops (s : string) : bool :=
  match s with
  | EmptyString => true
  | String c _ => match digit c with Some _ => false | None => true end
  end.

Lemma read_dec_app acc s r :
  all_digits s = true → stops r = true →
  read_dec acc (s +:+ r) = ((read_dec acc s).1, r).
Proof.
  intros Hs Hr. revert acc Hs. induction s as [|c s IH]; intros acc Hs; simpl in *.
  - destruct r as [|c r]; [done|]. simpl in *. by destruct (digit c).
  - destruct (digit c); [|done]. by apply IH.
Qed.

(** A byte in decimal is read back. *)
Lemma read_dec_byte b r :
  byte_ok b → stops r = true → read_dec 0 (pretty b +:+ r) = (b, r).
Proof.
  intros Hb Hr.
  assert (forallb (λ n, let s := pretty (Z.of_nat n) in
    all_digits s && bool_decide ((read_dec 0 s).1 = Z.of_nat n)) (seq 0 256) = true)
    as Ht by (vm_compute; reflexivity).
  rewrite List.forallb_forall in Ht. specialize (Ht (Z.to_nat b)).
  unfold byte_ok in Hb. rewrite Z2Nat.id in Ht by lia.
  rewrite andb_true_iff, bool_decide_eq_true in Ht.
  destruct Ht as [H1 H2]; [apply List.in_seq; lia|].
  by rewrite read_dec_app, H2.
Qed.

(** ** Networks *)
Definition cidr_ok (p : Z * Z) : bool :=
  bool_decide (0 ≤ p.1 < 2 ^ 32) && bool_decide (0 ≤ p.2 ≤ 32).
Record Cidr := mkCidr { cidr_pair : Z * Z; cidr_valid : Is_true (cidr_ok cidr_pair) }.

Lemma cidr_ext a b : cidr_pair a = cidr_pair b → a = b.
Proof.
  destruct a as [p Hp], b as [q Hq]. simpl. intros ->. f_equal. apply proof_irrel.
Qed.

#[export] Instance Cidr_eq_dec : EqDecision Cidr.
Proof.
  intros a b. destruct (decide (cidr_pair a = cidr_pair b)) as [H|H].
  - left. by apply cidr_ext.
  - right. by intros ->.
Defined.

Definition cidr_make (a p : Z) : option Cidr :=
  match decide (Is_true (cidr_ok (a, p))) with
  | left H => Some (mkCidr (a, p) H)
  | right _ => None
  end.

Definition cidr_network (n : Cidr) : Z :=
  (cidr_pair n).1 - (cidr_pair n).1 `mod` 2 ^ (32 - (cidr_pair n).2).

Definition cidr_to_string (n : Cidr) : string :=
  match octets (cidr_pair n).1 with
  | [a; b; c; d] =>
      pretty a +:+ String "."%char (pretty b +:+ String "."%char
        (pretty c +:+ String "."%char (pretty d +:+ String "/"%char
          (pretty (cidr_pair n).2 +:+ EmptyString))))
  | _ => EmptyString
  end.

Definition expect (c : ascii) (s : string) : option string :=
  match s with
  | String c' s' => if Ascii.eqb c c' then Some s' else None
  | EmptyString => None
  end.

Definition cidr_parse (s : string) : option Cidr :=
  let '(a, s) := read_dec 0 s in s ← expect "."%char s;
  let '(b, s) := read_dec 0 s in s ← expect "."%char s;
  let '(c, s) := read_dec 0 s in s ← expect "."%char s;
  let '(d, s) := read_dec 0 s in s ← expect "/"%char s;
  let '(p, s) := read_dec 0 s in
  if bool_decide (s = EmptyString ∧ Forall (λ x, 0 ≤ x < 256) [a; b; c; d])
  then cidr_make (of_octets [a; b; c; d]) p else None.

Lemma cidr_make_inv a p n : cidr_make a p = Some n → cidr_pair n = (a, p).
Proof. unfold cidr_make. destruct (decide _); [|done]. by intros [= <-]. Qed.

Lemma cidr_bounds n :
  u_ok 32 (cidr_pair n).1 ∧ 0 ≤ (cidr_pair n).2 ≤ 32.
Proof.
  destruct n as [p Hp0]. pose proof (Is_true_eq_true _ Hp0) as Hp. unfold cidr_ok in Hp.
  rewrite andb_true_iff, !bool_decide_eq_true in Hp. done.
Qed.

Lemma cidr_make_total a p : u_ok 32 a → 0 ≤ p ≤ 32 → is_Some (cidr_make a p).
Proof.
  intros Ha Hp. unfold cidr_make. destruct (decide _) as [|Hn]; [by eexists|].
  exfalso. apply Hn. apply Is_true_eq_left. unfold cidr_ok.
  by rewrite andb_true_iff, !bool_decide_eq_true.
Qed.

Lemma octets_bytes a :
  u_ok 32 a →
  ∃ w x y z, octets a = [w; x; y; z] ∧ Forall (λ b, 0 ≤ b < 256) [w; x; y; z].
Proof.
  intros _. unfold octets. simpl. do 4 eexists. split; [reflexivity|].
  repeat constructor; try apply Z.mod_pos_bound; lia.
Qed.

Lemma cidr_parse_to_string n : cidr_parse (cidr_to_string n) = Some n.
Proof.
  destruct (cidr_bounds n) as [Ha Hp]. unfold cidr_to_string.
  destruct (octets_bytes _ Ha) as (w & x & y & z & E & Hb).
  pose proof (of_octets_octets _ Ha) as Hoct. rewrite E in *.
  assert (byte_ok (cidr_pair n).2) by (unfold byte_ok; lia).
  pose proof Hb as Hb'. rewrite !Forall_cons in Hb'.
  destruct Hb' as (? & ? & ? & ? & _).
  unfold cidr_parse. rewrite read_dec_byte by done. simpl.
  do 4 (rewrite read_dec_byte by done; simpl).
  rewrite bool_decide_eq_true_2 by done. rewrite Hoct.
  destruct (cidr_make_total _ _ Ha Hp) as [m Hm]. rewrite Hm. f_equal.
  apply cidr_ext. rewrite (cidr_make_inv _ _ _ Hm). by destruct (cidr_pair n).
Qed.

#[export] Instance cidr_lib : Ipv4NetLib := {
  Ipv4Net := Cidr;
  net_new := cidr_make;
  net_parse := cidr_parse;
  net_to_string := cidr_to_string;
  net_addr n := (cidr_pair n).1;
  net_prefix_len n := (cidr_pair n).2;
  net_network := cidr_network;
  net_broadcast n := cidr_network n + 2 ^ (32 - (cidr_pair n).2) - 1;
}.

#[export] Instance cidr_laws : Ipv4NetLaws cidr_lib.
Proof.
  split; simpl.
  - intros n. apply cidr_bounds.
  - intros n. apply cidr_bounds.
  - intros a p n ->%cidr_make_inv. done.
  - apply cidr_make_total.
  - done.
  - done.
  - intros n m H1 H2. apply cidr_ext.
    destruct (cidr_pair n), (cidr_pair m). simpl in *. by subst.
  - apply cidr_parse_to_string.
Qed.

(** The net a witness uses. *)
Definition net_10_0_0_0_24 : Cidr :=
  mkCidr (ipv4 10 0 0 0, 24) I.
