(* ===== verification/Text.v ===== *)
(** Strings as the standard library of Rust sees them: UTF-8 bytes, white space and
    [str::trim], hexadecimal digits and the [Display] of socket addresses. *)
From Stdlib Require Import ZArith Lia.
From stdpp Require Import base tactics numbers list strings pretty.
From S2P Require Import Prelude Bytes Net.
Local Open Scope Z_scope.

(** ** Bytes of a string *)
Fixpoint bytes_of (s : string) : list Z :=
  match s with
  | EmptyString => []
  | String c s => Z.of_N (Ascii.N_of_ascii c) :: bytes_of s
  end.

Fixpoint string_of (l : list Z) : string :=
  match l with
  | [] => EmptyString
  | z :: l => String (Ascii.ascii_of_N (Z.to_N z)) (string_of l)
  end.

Lemma string_of_bytes_of s : string_of (bytes_of s) = s.
Proof. induction s as [|c s IH]; simpl; [done|]. by rewrite N2Z.id, Ascii.ascii_N_embedding, IH. Qed.

Definition byte_char (z : Z) : Prop := 0 ≤ z < 256.

Lemma bytes_of_string_of l : Forall byte_char l → bytes_of (string_of l) = l.
Proof.
  induction 1 as [|z l [Hz1 Hz2] _ IH]; simpl; [done|]. rewrite IH.
  rewrite Ascii.N_ascii_embedding by lia. by rewrite Z2N.id by lia.
Qed.

Lemma bytes_of_chars s : Forall byte_char (bytes_of s).
Proof.
  induction s as [|c s IH]; simpl; constructor; [|done].
  pose proof (Ascii.N_ascii_bounded c). unfold byte_char. lia.
Qed.

(** ** White space: [char::is_whitespace] on one, two and three bytes of UTF-8 *)
Definition space1 (a : Z) : bool := bool_decide (9 ≤ a ≤ 13) || bool_decide (a = 32).
Definition space2 (a b : Z) : bool :=
  bool_decide (a = 194) && (bool_decide (b = 133) || bool_decide (b = 160)).
Definition space3 (a b c : Z) : bool :=
  bool_decide ((a, b, c) = (225, 154, 128))
  || (bool_decide ((a, b) = (226, 128))
      && (bool_decide (128 ≤ c ≤ 138) || bool_decide (c = 168) || bool_decide (c = 169)
          || bool_decide (c = 175)))
  || bool_decide ((a, b, c) = (226, 129, 159))
  || bool_decide ((a, b, c) = (227, 128, 128)).

(** The white space in front, for a way of reading two and three bytes. *)
Section Strip.
Context (s2 : Z → Z → bool) (s3 : Z → Z → Z → bool).

Fixpoint strip (l : list Z) : list Z :=
  match l with
  | [] => []
  | a :: l1 =>
      if space1 a then strip l1 else
      match l1 with
      | [] => l
      | b :: l2 =>
          if s2 a b then strip l2 else
          match l2 with
          | [] => l
          | c :: l3 => if s3 a b c then strip l3 else l
          end
      end
  end.

Definition starts (l : list Z) : bool :=
  match l with
  | [] => false
  | a :: l1 => space1 a ||
      match l1 with
      | [] => false
      | b :: l2 => s2 a b || match l2 with [] => false | c :: _ => s3 a b c end
      end
  end.

Lemma strip_fixed l : starts l = false → strip l = l.
Proof.
  destruct l as [|a [|b [|c l]]]; simpl; try done;
    rewrite ?orb_false_iff; intros; destruct_and?; repeat case_match; congruence.
Qed.

Lemma strip_suffix l : ∃ k, strip l = drop k l ∧ starts (strip l) = false.
Proof.
  remember (length l) as n eqn:Hn. revert l Hn.
  induction n as [n IH] using (well_founded_induction lt_wf). intros l ->.
  assert (∀ j l', l' = drop j l → (length l' < length l)%nat →
    ∃ k, strip l' = drop k l ∧ starts (strip l') = false) as Hrec.
  { intros j l' -> Hlt. destruct (IH _ Hlt _ eq_refl) as (k & Hk & Hs).
    exists (j + k)%nat. split; [by rewrite Hk, drop_drop|done]. }
  destruct (starts l) eqn:Hs; [|exists 0%nat; by rewrite strip_fixed].
  destruct l as [|a l1]; [done|]. simpl in Hs |- *.
  destruct (space1 a); [apply (Hrec 1%nat); simpl; [done|lia]|].
  destruct l1 as [|b l2]; [done|]. destruct (s2 a b); [apply (Hrec 2%nat); simpl; [done|lia]|].
  destruct l2 as [|c l3]; [done|]. simpl in Hs. rewrite Hs.
  apply (Hrec 3%nat); simpl; [done|lia].
Qed.

Lemma starts_app l k : starts l = true → starts (l ++ k) = true.
Proof.
  destruct l as [|a [|b [|c l]]]; simpl; try done;
    rewrite ?orb_false_r, ?orb_true_iff; naive_solver.
Qed.
End Strip.

Definition trim_start (l : list Z) : list Z := strip space2 space3 l.
Definition trim_end (l : list Z) : list Z :=
  rev (strip (λ b a, space2 a b) (λ c b a, space3 a b c) (rev l)).

(** [str::trim] *)
Definition trim (s : string) : string := string_of (trim_end (trim_start (bytes_of s))).
(** [s.trim().is_empty()] *)
Definition blank (s : string) : bool := bool_decide (trim s = EmptyString).

Lemma trim_end_prefix l : ∃ k, l = trim_end l ++ k.
Proof.
  unfold trim_end. destruct (strip_suffix (λ b a, space2 a b) (λ c b a, space3 a b c) (rev l))
    as (k & -> & _).
  exists (rev (take k (rev l))). by rewrite <- rev_app_distr, take_drop, rev_involutive.
Qed.

Lemma trim_end_chars l : Forall byte_char l → Forall byte_char (trim_end l).
Proof.
  destruct (trim_end_prefix l) as [k E]. rewrite E at 1. rewrite Forall_app. by intros [].
Qed.

Lemma trim_start_chars l : Forall byte_char l → Forall byte_char (trim_start l).
Proof.
  unfold trim_start. destruct (strip_suffix space2 space3 l) as (k & -> & _). apply Forall_drop.
Qed.

Lemma trim_trim s : trim (trim s) = trim s.
Proof.
  unfold trim. rewrite bytes_of_string_of by (by apply trim_end_chars, trim_start_chars, bytes_of_chars).
  set (l := trim_start (bytes_of s)). f_equal.
  assert (starts space2 space3 l = false) as Hl.
  { unfold l, trim_start. by destruct (strip_suffix space2 space3 (bytes_of s)) as (k & _ & ?). }
  assert (trim_start (trim_end l) = trim_end l) as ->.
  { apply strip_fixed. destruct (trim_end_prefix l) as [k Hk].
    destruct (starts space2 space3 (trim_end l)) eqn:E; [|done].
    apply (starts_app _ _ _ k) in E. by rewrite <- Hk, Hl in E. }
  unfold trim_end. rewrite rev_involutive. f_equal. apply strip_fixed.
  by destruct (strip_suffix (λ b a, space2 a b) (λ c b a, space3 a b c) (rev l)) as (k & _ & ?).
Qed.

Lemma blank_trim s : blank (trim s) = blank s.
Proof. unfold blank. by rewrite trim_trim. Qed.

Example trim_spaces : trim "  a b	 " = "a b"%string.
Proof. vm_compute. reflexivity. Qed.

(** ** The [hex] crate *)
Class Hex := {
  hex_encode : list Z → string;
  hex_decode : string → option (list Z);
}.
Class HexLaws (H : Hex) : Prop := {
  hex_decode_encode : ∀ l, bytes_ok l → hex_decode (hex_encode l) = Some l;
}.

(** ** Addresses as text *)
Local Open Scope string_scope.

Definition hex_char (z : Z) : string :=
  String (Ascii.ascii_of_N (Z.to_N (if bool_decide (z < 10) then 48 + z else 87 + z))) "".

(** The digits without the zeros in front, one at least. *)
Fixpoint skip_zeros (ds : list Z) : list Z :=
  match ds with
  | d :: ds' => if bool_decide (d = 0) && negb (bool_decide (ds' = [])) then skip_zeros ds' else ds
  | [] => []
  end.

(** [{:x}] of an integer of 16 bits. *)
Definition hex_u16 (n : Z) : string :=
  let digits := [n / 4096; (n / 256) `mod` 16; (n / 16) `mod` 16; n `mod` 16] in
  foldr (λ d s, hex_char d +:+ s) "" (skip_zeros digits).

Definition join (sep : string) (l : list string) : string :=
  match l with
  | [] => ""
  | x :: l => x +:+ foldr (λ y s, sep +:+ y +:+ s) "" l
  end.

Definition show_v4 (a : Z) : string := join "." (pretty <$> octets a).

Fixpoint segments_of (l : list Z) : list Z :=
  match l with
  | hi :: lo :: l => hi * 256 + lo :: segments_of l
  | _ => []
  end.

(** The first of the longest runs of zeros, as start and length. *)
Fixpoint zero_run (segs : list Z) (i start len best_start best_len : nat) : nat * nat :=
  match segs with
  | [] => (best_start, best_len)
  | x :: segs =>
      if bool_decide (x = 0) then
        let start := if bool_decide (len = 0%nat) then i else start in
        let len := S len in
        if bool_decide (best_len < len)%nat then zero_run segs (S i) start len start len
        else zero_run segs (S i) start len best_start best_len
      else zero_run segs (S i) 0 0 best_start best_len
  end.

Definition show_v6 (a : Z) : string :=
  let bytes := to_be_bytes 16 a in
  if bool_decide (take 12 bytes = (replicate 10 0 ++ [255; 255])%list) then
    "::ffff:" +:+ show_v4 (from_be_bytes (drop 12 bytes))
  else
    let segs := segments_of bytes in
    let '(start, len) := zero_run segs 0 0 0 0 0 in
    let show l := join ":" (hex_u16 <$> l) in
    if bool_decide (1 < len)%nat
    then show (take start segs) +:+ "::" +:+ show (drop (start + len) segs)
    else show segs.

(** [Display] of a socket address without scope. *)
Definition show_addr (a : SocketAddr) : string :=
  match sa_ip a with
  | V4 ip => show_v4 ip +:+ ":" +:+ pretty (sa_port a)
  | V6 ip => "[" +:+ show_v6 ip +:+ "]:" +:+ pretty (sa_port a)
  end.

Example show_loopback : show_addr (mkSocketAddr (V4 (ipv4 127 0 0 1)) 7777) = "127.0.0.1:7777".
Proof. vm_compute. reflexivity. Qed.
Example show_ipv6 :
  show_addr (mkSocketAddr (V6 (from_be_bytes
    [32; 1; 13; 184; 0; 0; 0; 0; 0; 0; 0; 0; 0; 0; 0; 1])) 80) = "[2001:db8::1]:80".
Proof. vm_compute. reflexivity. Qed.

Definition plain_hex : Hex := {| hex_encode l := string_of l; hex_decode s := Some (bytes_of s) |}.
