(* ===== verification/Decimal.v ===== *)
(** Numbers as decimal text: the digits that are printed, and what they are worth. *)
From Stdlib Require Import ZArith Lia.
From stdpp Require Import base tactics numbers list strings pretty.
From S2P Require Import Prelude Bytes Text.
Local Open Scope Z_scope.

(** The worth of digits read after a number [acc]. *)
Definition numeral (radix : Z) (ds : list Z) (acc : Z) : Z :=
  fold_left (λ a d, a * radix + d) ds acc.
Definition digit (radix d : Z) : Prop := 0 ≤ d < radix.
(** The character of a decimal digit. *)
Definition digit_char (d : Z) : Z := 48 + d.

Lemma numeral_app radix ds ds' acc :
  numeral radix (ds ++ ds') acc = numeral radix ds' (numeral radix ds acc).
Proof. apply fold_left_app. Qed.

(** Digits to come only make it larger. *)
Lemma numeral_length radix ds acc : Forall (digit radix) ds → 0 ≤ acc → 0 < radix →
  acc * radix ^ Z.of_nat (length ds) ≤ numeral radix ds acc.
Proof.
  intros H Hacc Hr. revert acc Hacc. induction H as [|d ds Hd _ IH]; intros acc Hacc; [cbn; lia|].
  unfold digit in Hd. simpl length. rewrite Nat2Z.inj_succ, Z.pow_succ_r by lia.
  cbn [numeral fold_left]. fold (numeral radix ds (acc * radix + d)).
  specialize (IH (acc * radix + d) ltac:(nia)).
  assert (0 ≤ radix ^ Z.of_nat (length ds)) by lia. nia.
Qed.

Lemma numeral_le radix ds acc : Forall (digit radix) ds → 0 ≤ acc → 0 < radix →
  acc ≤ numeral radix ds acc.
Proof.
  intros H Hacc Hr. pose proof (numeral_length radix ds acc H Hacc Hr).
  assert (0 < radix ^ Z.of_nat (length ds)) by (apply Z.pow_pos_nonneg; lia). nia.
Qed.

Lemma bytes_of_app s t : bytes_of (s +:+ t) = (bytes_of s ++ bytes_of t)%list.
Proof. induction s as [|a s IH]; [done|]. cbn. by rewrite <- IH. Qed.

(** The digits of a number: at least one, and no zero in front of others. *)
Definition digits_of (z : Z) (ds : list Z) : Prop :=
  Forall (digit 10) ds ∧ numeral 10 ds 0 = z ∧ ds ≠ [] ∧ (head ds = Some 0 → ds = [0]).

Lemma digit_byte x : (x < 10)%N →
  Z.of_N (Ascii.N_of_ascii (pretty_N_char x)) = digit_char (Z.of_N x).
Proof.
  intros Hx.
  assert (x = 0 ∨ x = 1 ∨ x = 2 ∨ x = 3 ∨ x = 4 ∨ x = 5 ∨ x = 6 ∨ x = 7 ∨ x = 8 ∨ x = 9)%N
    as Hd by lia.
  repeat (destruct Hd as [->|Hd]; [done|]). by rewrite Hd.
Qed.

Lemma printed_digits (x : N) s : ∃ ds,
  bytes_of (pretty_N_go x s) = ((digit_char <$> ds) ++ bytes_of s)%list ∧ Forall (digit 10) ds ∧
  numeral 10 ds 0 = Z.of_N x ∧ (if decide (x = 0)%N then ds = [] else ds ≠ [] ∧ head ds ≠ Some 0).
Proof.
  revert s. induction (N.lt_wf_0 x) as [x _ IH]; intros s.
  assert (x = 0 ∨ 0 < x)%N as [->|Hx] by lia.
  { exists []. by rewrite pretty_N_go_0. }
  rewrite pretty_N_go_step by done.
  destruct (IH (x `div` 10)%N (N.div_lt x 10 Hx eq_refl) (String (pretty_N_char (x `mod` 10)) s))
    as (ds & -> & Hds & Hv & Hh).
  assert (x `mod` 10 < 10)%N as Hm by (by apply N.mod_lt).
  pose proof (N.div_mod x 10 ltac:(done)) as Hdm.
  revert Hv Hh Hm Hdm. generalize (x `div` 10)%N, (x `mod` 10)%N. intros q r Hv Hh Hm Hdm.
  exists (ds ++ [Z.of_N r]). split_and!.
  - rewrite fmap_app, <- app_assoc. cbn [bytes_of fmap list_fmap app]. by rewrite digit_byte.
  - apply Forall_app_2; [done|]. apply Forall_singleton. unfold digit. lia.
  - rewrite numeral_app, Hv. cbn. lia.
  - rewrite decide_False by lia. split; [by destruct ds|].
    case_decide; subst; cbn; [intros [= ?]; lia|]. destruct Hh as [Hne Hh]. by destruct ds.
Qed.

Lemma pretty_digits (z : Z) : 0 ≤ z →
  ∃ ds, bytes_of (pretty z) = digit_char <$> ds ∧ digits_of z ds.
Proof.
  intros Hz. destruct z as [|p|p]; [|clear Hz|lia].
  { exists [0]. repeat split; [|done]. by apply Forall_singleton. }
  destruct (printed_digits (Npos p) "") as (ds & E & H1 & H2 & H3 & H4).
  exists ds. rewrite app_nil_r in E. split; [exact E|]. by repeat split.
Qed.

(** A number of at most [n] digits. *)
Lemma digits_few z ds n : digits_of z ds → z < 10 ^ Z.of_nat n → (0 < n)%nat →
  (length ds ≤ n)%nat.
Proof.
  intros (Hd & <- & Hne & Hz) Hlt Hn. destruct ds as [|d ds]; [done|].
  destruct (decide (d = 0)) as [->|Hd0].
  { rewrite Hz by done. cbn. lia. }
  apply Forall_cons in Hd as [Hdd Hd]. unfold digit in Hdd.
  pose proof (numeral_length 10 ds d Hd ltac:(lia) ltac:(lia)) as Hl.
  change (numeral 10 (d :: ds) 0) with (numeral 10 ds d) in Hlt.
  assert (10 ^ Z.of_nat (length ds) < 10 ^ Z.of_nat n) as H by nia.
  apply Z.pow_lt_mono_r_iff in H; [|lia|lia]. simpl. lia.
Qed.
