(* ===== verification/AddrText.v ===== *)
(** [FromStr] of [std::net::SocketAddr]: the recursive-descent parser of the standard
    library, on bytes.  A scope id is read and dropped: addresses carry none here. *)
From Stdlib Require Import ZArith Lia.
From stdpp Require Import base tactics numbers list strings.
From S2P Require Import Prelude Bytes Net Text.
Local Open Scope Z_scope.

(** A parser gives its value and the bytes left. *)
Definition parser (A : Type) : Type := list Z → option (A * list Z).

Definition digit_of (radix c : Z) : option Z :=
  d ← (if bool_decide (48 ≤ c ≤ 57) then Some (c - 48)
       else if bool_decide (97 ≤ c ≤ 122) then Some (c - 87)
       else if bool_decide (65 ≤ c ≤ 90) then Some (c - 55)
       else None);
  if bool_decide (d < radix) then Some d else None.

Definition read_char (c : Z) : parser unit := λ l,
  match l with
  | x :: l => if bool_decide (x = c) then Some (tt, l) else None
  | [] => None
  end.

(** The loop of [read_number]: the value, the count of digits and the rest; nothing when the
    value or the count is too large. *)
Fixpoint read_digits (radix bound : Z) (max_digits : option nat) (l : list Z) (acc : Z)
    (count : nat) : option (Z * nat * list Z) :=
  match l with
  | c :: l' =>
      match digit_of radix c with
      | Some d =>
          let acc := acc * radix + d in
          if bool_decide (bound ≤ acc) || (match max_digits with
                                          | Some m => bool_decide (m < S count)%nat
                                          | None => false
                                          end)
          then None else read_digits radix bound max_digits l' acc (S count)
      | None => Some (acc, count, l)
      end
  | [] => Some (acc, count, l)
  end.

Definition read_number (radix bound : Z) (max_digits : option nat) (allow_zero_prefix : bool)
    : parser Z := λ l,
  '(v, count, rest) ← read_digits radix bound max_digits l 0 0;
  if bool_decide (count = 0%nat) then None
  else if negb allow_zero_prefix && bool_decide (head l = Some 48) && bool_decide (1 < count)%nat
  then None else Some (v, rest).

(** [read_separator]: the separator comes first, except before the element of index zero. *)
Definition read_separator {A} (sep : Z) (index : nat) (p : parser A) : parser A := λ l,
  match index with
  | O => p l
  | S _ => '(_, l) ← read_char sep l; p l
  end.

Definition read_ipv4_addr : parser Z := λ l,
  let octet i := read_separator 46 i (read_number 10 256 (Some 3%nat) false) in
  '(a, l) ← octet 0%nat l; '(b, l) ← octet 1%nat l;
  '(c, l) ← octet 2%nat l; '(d, l) ← octet 3%nat l;
  Some (ipv4 a b c d, l).

(** [read_groups] into [left] places from index [i]: the groups, whether the last two are an
    IPv4 address, and the rest. *)
Fixpoint read_groups (left i : nat) (l : list Z) : list Z * bool * list Z :=
  match left with
  | O => ([], false, l)
  | S left' =>
      match (if bool_decide (0 < left')%nat then read_separator 58 i read_ipv4_addr l else None)
      with
      | Some (v4, l) => ([v4 / 65536; v4 `mod` 65536], true, l)
      | None =>
          match read_separator 58 i (read_number 16 65536 (Some 4%nat) true) l with
          | Some (group, l) =>
              let '(groups, v4, l) := read_groups left' (S i) l in (group :: groups, v4, l)
          | None => ([], false, l)
          end
      end
  end.

Definition of_groups (gs : list Z) : Z := fold_left (λ a g, a * 65536 + g) gs 0.

Definition read_ipv6_addr : parser Z := λ l,
  let '(front, front_v4, l) := read_groups 8 0 l in
  if bool_decide (length front = 8%nat) then Some (of_groups front, l)
  else if front_v4 : bool then None
  else
    '(_, l) ← read_char 58 l; '(_, l) ← read_char 58 l;
    let '(back, _, l) := read_groups (8 - S (length front)) 0 l in
    Some (of_groups (front ++ replicate (8 - length front - length back) 0 ++ back), l).

Definition read_port : parser Z := λ l,
  '(_, l) ← read_char 58 l; read_number 10 65536 None true l.

Definition read_scope_id : parser Z := λ l,
  '(_, l) ← read_char 37 l; read_number 10 (2 ^ 32) None true l.

Definition read_socket_addr_v4 : parser SocketAddr := λ l,
  '(ip, l) ← read_ipv4_addr l; '(port, l) ← read_port l; Some (mkSocketAddr (V4 ip) port, l).

Definition read_socket_addr_v6 : parser SocketAddr := λ l,
  '(_, l) ← read_char 91 l;
  '(ip, l) ← read_ipv6_addr l;
  let l := match read_scope_id l with Some (_, l) => l | None => l end in
  '(_, l) ← read_char 93 l;
  '(port, l) ← read_port l;
  Some (mkSocketAddr (V6 ip) port, l).

(** All of the text must be read. *)
Definition parse_socket_addr (s : string) : option SocketAddr :=
  '(a, rest) ← match read_socket_addr_v4 (bytes_of s) with
               | Some r => Some r
               | None => read_socket_addr_v6 (bytes_of s)
               end;
  if bool_decide (rest = []) then Some a else None.

Example parse_v4 : parse_socket_addr "139.196.85.193:7777"
  = Some (mkSocketAddr (V4 (ipv4 139 196 85 193)) 7777).
Proof. vm_compute. reflexivity. Qed.
Example parse_v6 : parse_socket_addr "[2001:db8::ffff:1.2.3.4%7]:80"
  = Some (mkSocketAddr (V6 (of_groups [8193; 3512; 0; 0; 0; 65535; 258; 772])) 80).
Proof. vm_compute. reflexivity. Qed.
Example parse_not : List.map parse_socket_addr
  ["01.2.3.4:5"; "1.2.3:5"; "1.2.3.4:65536"; "1.2.3.4"; "stun.example:3478"; "1.2.3.4:5 "]%string
  = [None; None; None; None; None; None].
Proof. vm_compute. reflexivity. Qed.
