(* ===== verification/AddrSpec.v ===== *)
(** A socket address that is printed is read back: [Display] and [FromStr] of the standard
    library agree, for IPv4 and IPv6. *)
From Stdlib Require Import ZArith Lia.
From stdpp Require Import base tactics numbers list strings pretty.
From S2P Require Import Prelude Bytes Net Text Decimal AddrText.
Local Open Scope Z_scope.
Local Open Scope list_scope.

(** ** Numbers *)
Lemma read_char_ok c l : read_char c (c :: l) = Some (tt, l).
Proof. cbn. by rewrite bool_decide_eq_true_2. Qed.

(** The characters of digits. *)
Definition spells (radix : Z) (cs ds : list Z) : Prop :=
  Forall2 (λ c d, digit_of radix c = Some d) cs ds.
(** A text no digit comes first in. *)
Definition no_digit (radix : Z) (rest : list Z) : Prop :=
  match rest with c :: _ => digit_of radix c = None | [] => True end.

Lemma digit_of_digit radix c d : digit_of radix c = Some d → digit radix d.
Proof.
  unfold digit_of, digit. intros H. simplify_option_eq; repeat case_bool_decide; simplify_eq; lia.
Qed.

Lemma spells_digits radix cs ds : spells radix cs ds → Forall (digit radix) ds.
Proof. induction 1; constructor; eauto using digit_of_digit. Qed.

Definition within (max_digits : option nat) (n : nat) : Prop :=
  match max_digits with Some m => (n ≤ m)%nat | None => True end.

Lemma read_digits_ok radix bound m cs ds rest acc count :
  0 < radix → spells radix cs ds → no_digit radix rest → 0 ≤ acc →
  numeral radix ds acc < bound → within m (count + length ds) →
  read_digits radix bound m (cs ++ rest) acc count
  = Some (numeral radix ds acc, (count + length ds)%nat, rest).
Proof.
  intros Hr Hs Hrest. revert acc count. induction Hs as [|c d cs ds Hc Hs IH]; intros acc count
    Hacc Hb Hm.
  - rewrite Nat.add_0_r. destruct rest as [|c rest]; [done|]. cbn in *. by rewrite Hrest.
  - cbn [app read_digits]. rewrite Hc. pose proof (digit_of_digit _ _ _ Hc) as Hd.
    unfold digit in Hd. cbn [numeral fold_left] in Hb. fold (numeral radix ds (acc * radix + d)) in Hb.
    pose proof (numeral_le radix ds (acc * radix + d) (spells_digits _ _ _ Hs) ltac:(nia) Hr).
    rewrite bool_decide_eq_false_2 by lia. cbn [orb length] in *.
    assert (match m with Some m => bool_decide (m < S count)%nat | None => false end = false) as ->.
    { destruct m; [|done]. apply bool_decide_eq_false_2. cbn in Hm. lia. }
    rewrite IH by (first [lia | nia | by replace (S count + length ds)%nat with (count + S (length ds))%nat by lia]).
    by rewrite <- Nat.add_succ_comm.
Qed.

Lemma read_number_ok radix bound m zeros cs ds rest :
  0 < radix → spells radix cs ds → no_digit radix rest → numeral radix ds 0 < bound →
  within m (length ds) → ds ≠ [] → (zeros = true ∨ (head ds = Some 0 → ds = [0])) →
  read_number radix bound m zeros (cs ++ rest) = Some (numeral radix ds 0, rest).
Proof.
  intros Hr Hs Hrest Hb Hm Hne Hz. unfold read_number.
  rewrite (read_digits_ok _ _ _ _ ds) by done. cbn [mbind option_bind Nat.add].
  rewrite bool_decide_eq_false_2 by (by destruct ds).
  destruct zeros; [done|]. destruct Hz as [|Hz]; [done|]. cbn [negb andb].
  destruct Hs as [|c d cs ds Hc Hs]; [done|]. cbn [app head].
  destruct (decide (c = 48)) as [->|Hc48].
  - assert (d = 0) as -> by (change (digit_of radix 48) with (if bool_decide (0 < radix) then Some 0 else None) in Hc;
      by case_bool_decide; simplify_eq).
    injection (Hz eq_refl) as ->. inversion Hs. cbn. by rewrite andb_false_r.
  - by rewrite (bool_decide_eq_false_2 (Some c = Some 48)) by congruence.
Qed.

Lemma digit_char_of radix d : digit 10 d → 10 ≤ radix → digit_of radix (digit_char d) = Some d.
Proof.
  unfold digit, digit_of, digit_char. intros Hd Hr.
  rewrite bool_decide_eq_true_2 by lia. cbn. rewrite bool_decide_eq_true_2 by lia. f_equal. lia.
Qed.

Lemma decimal_spells ds : Forall (digit 10) ds → spells 10 (digit_char <$> ds) ds.
Proof.
  intros H. apply Forall2_fmap_l, Forall2_same_length_lookup.
  split; [done|]. intros i x y Hx Hy. rewrite Forall_lookup in H. simplify_eq.
  apply digit_char_of; [eauto|done].
Qed.

(** A printed number is read. *)
Lemma read_pretty z bound n zeros rest :
  0 ≤ z < bound → (0 < n)%nat → z < 10 ^ Z.of_nat n → no_digit 10 rest →
  read_number 10 bound (Some n) zeros (bytes_of (pretty z) ++ rest) = Some (z, rest).
Proof.
  intros Hz Hn Hlt Hrest. destruct (pretty_digits z) as (ds & -> & Hd); [lia|].
  pose proof (digits_few _ _ _ Hd Hlt Hn) as Hl. destruct Hd as (Hd & Hv & Hne & Hz0).
  rewrite (read_number_ok _ _ _ _ _ ds); rewrite ?Hv; try done; [by apply decimal_spells|lia|]. by right.
Qed.

Lemma read_pretty_port z rest : 0 ≤ z < 65536 → no_digit 10 rest →
  read_port (58 :: bytes_of (pretty z) ++ rest) = Some (z, rest).
Proof.
  intros Hz Hrest. destruct (pretty_digits z) as (ds & -> & Hd & Hv & Hne & Hz0); [lia|].
  unfold read_port. rewrite read_char_ok. cbn.
  rewrite (read_number_ok _ _ _ _ _ ds); rewrite ?Hv; try done; [by apply decimal_spells|lia|]. by left.
Qed.

(** ** IPv4 *)
Lemma read_octet i z rest : 0 ≤ z < 256 → no_digit 10 rest →
  read_separator 46 (S i) (read_number 10 256 (Some 3%nat) false) (46 :: bytes_of (pretty z) ++ rest)
  = Some (z, rest).
Proof.
  intros Hz Hr. cbn [read_separator]. rewrite read_char_ok. cbn.
  apply read_pretty; try done; cbn; lia.
Qed.

Lemma read_first_octet z rest : 0 ≤ z < 256 → no_digit 10 rest →
  read_separator 46 0 (read_number 10 256 (Some 3%nat) false) (bytes_of (pretty z) ++ rest)
  = Some (z, rest).
Proof. intros Hz Hr. apply read_pretty; try done; cbn; lia. Qed.

Lemma octets_spec a : u_ok 32 a → ∃ b0 b1 b2 b3, octets a = [b0; b1; b2; b3] ∧
  Forall (λ b, 0 ≤ b < 256) [b0; b1; b2; b3] ∧ ipv4 b0 b1 b2 b3 = a.
Proof.
  intros Ha. pose proof (of_octets_octets a Ha) as H. pose proof (to_be_bytes_ok 4 a) as Hb.
  unfold octets in *. cbn [to_be_bytes app] in *. eauto 10.
Qed.

Lemma show_v4_bytes b0 b1 b2 b3 a : octets a = [b0; b1; b2; b3] →
  bytes_of (show_v4 a) = bytes_of (pretty b0) ++ 46 :: bytes_of (pretty b1) ++ 46 ::
    bytes_of (pretty b2) ++ 46 :: bytes_of (pretty b3).
Proof.
  intros E. unfold show_v4. rewrite E. cbn [fmap list_fmap join foldr].
  rewrite !bytes_of_app. cbn [bytes_of]. by rewrite app_nil_r.
Qed.

Lemma read_show_v4 a rest : u_ok 32 a → no_digit 10 rest →
  read_ipv4_addr (bytes_of (show_v4 a) ++ rest) = Some (a, rest).
Proof.
  intros Ha Hrest. destruct (octets_spec a Ha) as (b0 & b1 & b2 & b3 & E & Hb & Hv).
  rewrite (show_v4_bytes b0 b1 b2 b3) by done.
  repeat (apply Forall_cons in Hb as [? Hb]).
  unfold read_ipv4_addr. cbn zeta. rewrite <- app_assoc, read_first_octet by done.
  do 3 (cbn [mbind option_bind app]; rewrite <- ?app_assoc; rewrite read_octet by done).
  cbn [mbind option_bind]. by rewrite Hv.
Qed.

(** ** Groups of an IPv6 address *)
Definition u16 (s : Z) : Prop := 0 ≤ s < 65536.

Lemma skip_zeros_spec radix ds : Forall (digit radix) ds → ds ≠ [] →
  numeral radix (skip_zeros ds) 0 = numeral radix ds 0 ∧ Forall (digit radix) (skip_zeros ds) ∧
  skip_zeros ds ≠ [] ∧ (length (skip_zeros ds) ≤ length ds)%nat.
Proof.
  induction ds as [|d ds IH]; intros Hd Hne; [done|]. cbn [skip_zeros].
  destruct (bool_decide (d = 0) && _) eqn:E; [|split_and!; done || lia].
  apply andb_true_iff in E as [->%bool_decide_eq_true E].
  apply negb_true_iff, bool_decide_eq_false in E.
  apply Forall_cons in Hd as [_ Hd]. destruct (IH Hd E) as (-> & H1 & H2 & H3).
  split_and!; [done|done|done|cbn; lia].
Qed.

Lemma hex_char_bytes d : digit 16 d → ∃ c, bytes_of (hex_char d) = [c] ∧ digit_of 16 c = Some d ∧ c ≠ 46.
Proof.
  intros [H1 H2]. exists (if bool_decide (d < 10) then 48 + d else 87 + d).
  assert (d ∈ seqZ 0 16) as Hd by (apply elem_of_seqZ; lia).
  clear H1 H2. revert d Hd. apply Forall_forall. by repeat constructor.
Qed.

Lemma spelled_digits ds : Forall (digit 16) ds → ∃ cs,
  bytes_of (foldr (λ d s, hex_char d +:+ s) "" ds) = cs ∧ spells 16 cs ds ∧ Forall (λ c, c ≠ 46) cs.
Proof.
  induction 1 as [|d ds Hd _ IH]; [by eexists; repeat constructor|].
  destruct IH as (cs & E & Hs & Hn), (hex_char_bytes d Hd) as (c & Ec & Hc & Hc46).
  exists (c :: cs). cbn [foldr]. rewrite bytes_of_app, E, Ec. by repeat constructor.
Qed.

(** The characters of a group, and what they are worth. *)
Lemma hex_u16_spec s : u16 s → ∃ cs ds,
  bytes_of (hex_u16 s) = cs ∧ spells 16 cs ds ∧ Forall (λ c, c ≠ 46) cs ∧
  numeral 16 ds 0 = s ∧ ds ≠ [] ∧ (length ds ≤ 4)%nat.
Proof.
  intros Hs. unfold u16 in Hs. unfold hex_u16.
  set (ds := [s / 4096; (s / 256) `mod` 16; (s / 16) `mod` 16; s `mod` 16]).
  assert (Forall (digit 16) ds) as Hd.
  { repeat constructor; try (apply Z.mod_pos_bound; lia); [apply Z.div_pos; lia|].
    apply Z.div_lt_upper_bound; lia. }
  destruct (skip_zeros_spec 16 ds Hd ltac:(done)) as (Hv & Hd' & Hne & Hl).
  destruct (spelled_digits _ Hd') as (cs & E & Hsp & Hn).
  exists cs, (skip_zeros ds). split_and!; try done. rewrite Hv. subst ds. cbn.
  Z.to_euclidean_division_equations. lia.
Qed.

(** What comes after a group. *)
Definition stops (rest : list Z) : Prop := ∃ c l, rest = c :: l ∧ (c = 58 ∨ c = 93).
Lemma stops_no_digit radix rest : radix ≤ 16 → stops rest → no_digit radix rest.
Proof. by intros _ (c & l & -> & [-> | ->]). Qed.

Lemma read_group s rest : u16 s → stops rest →
  read_number 16 65536 (Some 4%nat) true (bytes_of (hex_u16 s) ++ rest) = Some (s, rest).
Proof.
  intros Hs Hr. destruct (hex_u16_spec s Hs) as (cs & ds & -> & Hsp & _ & Hv & Hne & Hl).
  rewrite (read_number_ok _ _ _ _ _ ds); rewrite ?Hv; try done; [by apply stops_no_digit| |by left].
  apply Hs.
Qed.

(** A group is not the start of an IPv4 address. *)
Lemma read_digits_no_dot bound m cs rest acc count v n r :
  Forall (λ c, c ≠ 46) cs → stops rest →
  read_digits 10 bound m (cs ++ rest) acc count = Some (v, n, r) → head r ≠ Some 46.
Proof.
  intros Hcs (c & l & -> & Hc). revert acc count. induction Hcs as [|c' cs Hc' _ IH]; intros acc count.
  - cbn. destruct Hc as [-> | ->]; cbn; by intros [= <- <- <-].
  - cbn. destruct (digit_of 10 c'); [|intros [= <- <- <-]; cbn; congruence].
    destruct (_ || _); [done|]. apply IH.
Qed.

Lemma group_not_v4 s rest : u16 s → stops rest →
  read_ipv4_addr (bytes_of (hex_u16 s) ++ rest) = None.
Proof.
  intros Hs Hr. destruct (hex_u16_spec s Hs) as (cs & ds & -> & _ & Hn & _).
  unfold read_ipv4_addr. cbn zeta.
  change (read_separator 46 0 ?p ?l) with (p l).
  destruct (read_number _ _ _ _ _) as [[v r]|] eqn:E; [|done]. cbn [mbind option_bind].
  unfold read_number in E. destruct (read_digits _ _ _ _ _ _) as [[[v' n] r']|] eqn:E'; [|done].
  apply read_digits_no_dot in E' as Hh; [|done|done]. cbn in E.
  repeat (case_match; [done|]). injection E as -> ->.
  destruct r as [|c r]; [done|]. cbn in Hh |- *. by rewrite bool_decide_eq_false_2 by congruence.
Qed.

(** The text of groups, the first of which has index [i]. *)
Fixpoint groups_text (i : nat) (segs : list Z) : list Z :=
  match segs with
  | [] => []
  | s :: segs =>
      match i with O => [] | S _ => [58] end ++ bytes_of (hex_u16 s) ++ groups_text (S i) segs
  end.

Lemma join_bytes segs :
  bytes_of (join ":" (hex_u16 <$> segs)) = groups_text 0 segs.
Proof.
  destruct segs as [|s segs]; [done|]. cbn [fmap list_fmap join groups_text app].
  rewrite bytes_of_app. f_equal. generalize 0%nat.
  induction segs as [|s' segs IH]; intros i; [done|].
  cbn [fmap list_fmap foldr groups_text]. rewrite !bytes_of_app, (IH (S i)). done.
Qed.

(** What the groups of an address are followed by: the rest of it, or its end. *)
Definition halts (rest : list Z) : Prop := ∃ l, rest = 58 :: 58 :: l ∨ rest = 93 :: l.

Lemma halts_stops rest : halts rest → stops rest.
Proof. intros (l & [-> | ->]); repeat eexists; auto. Qed.
Lemma groups_stop i segs rest : stops rest → stops (groups_text (S i) segs ++ rest).
Proof. destruct segs; [done|]. intros _. repeat eexists. by left. Qed.

Lemma read_group_at i s rest {A} (p : parser A) :
  read_separator 58 i p ((match i with O => [] | S _ => [58] end ++ bytes_of (hex_u16 s)) ++ rest)
  = p (bytes_of (hex_u16 s) ++ rest).
Proof. by destruct i. Qed.

Lemma no_more_groups left i rest : halts rest → read_groups left i rest = ([], false, rest).
Proof.
  intros (l & H). destruct left as [|left]; [done|]. cbn [read_groups].
  assert (read_separator 58 i read_ipv4_addr rest = None
    ∧ read_separator 58 i (read_number 16 65536 (Some 4%nat) true) rest = None) as [-> ->]
    by (by destruct i, H as [-> | ->]).
  by case_bool_decide.
Qed.

Lemma read_groups_ok segs left i rest :
  (length segs ≤ left)%nat → Forall u16 segs → halts rest →
  read_groups left i (groups_text i segs ++ rest) = (segs, false, rest).
Proof.
  intros Hl Hs Hr. revert left i Hl. induction Hs as [|s segs Hs _ IH]; intros left i Hl.
  { by apply no_more_groups. }
  destruct left as [|left]; [cbn in Hl; lia|]. cbn [groups_text].
  rewrite (app_assoc _ (bytes_of _) (groups_text _ _)), <- (app_assoc _ (groups_text _ _)).
  cbn [read_groups]. rewrite !read_group_at.
  pose proof (groups_stop i segs rest (halts_stops _ Hr)) as Hst.
  rewrite group_not_v4, read_group by done.
  replace (if bool_decide (0 < left)%nat then None else None) with (@None (Z * list Z))
    by (by case_bool_decide).
  rewrite IH by (cbn in Hl; lia). done.
Qed.

Lemma segments_of_bytes n l acc : length l = (2 * n)%nat → bytes_ok l →
  length (segments_of l) = n ∧ Forall u16 (segments_of l) ∧
  fold_left (λ a g, a * 65536 + g) (segments_of l) acc = fold_left (λ a b, a * 256 + b) l acc.
Proof.
  revert l acc. induction n as [|n IH]; intros l acc Hn Hl.
  { by destruct l. }
  destruct l as [|x [|y l]]; [simpl in Hn; lia..|].
  apply Forall_cons in Hl as [Hx [Hy Hl]%Forall_cons]. unfold byte_ok in Hx, Hy.
  destruct (IH l (acc * 65536 + (x * 256 + y)) ltac:(simpl in Hn; lia) Hl) as (H1 & H2 & H3).
  cbn [segments_of fold_left length]. split_and!; [by rewrite H1|constructor; [|done]|].
  - unfold u16. lia.
  - rewrite H3. f_equal. lia.
Qed.

Lemma segments_spec a : 0 ≤ a < 2 ^ 128 →
  let segs := segments_of (to_be_bytes 16 a) in
  length segs = 8%nat ∧ Forall u16 segs ∧ of_groups segs = a.
Proof.
  intros Ha. pose proof (from_to_be_bytes 16 a Ha) as Hv. revert Hv.
  generalize (length_to_be_bytes 16 a), (to_be_bytes_ok 16 a).
  generalize (to_be_bytes 16 a). intros l Hl Hb Hv.
  destruct (segments_of_bytes 8 l 0 Hl Hb) as (H1 & H2 & H3).
  split_and!; [done|done|]. unfold of_groups. by rewrite H3.
Qed.

(** ** The run of zeros that is left out *)
Definition zeros_at (all : list Z) (start len : nat) : Prop :=
  ∃ pre post, all = pre ++ replicate len 0 ++ post ∧ length pre = start.

Lemma zero_run_spec pre segs start len bs bl :
  (∃ pre', pre = pre' ++ replicate len 0 ∧ (0 < len → length pre' = start)%nat) →
  zeros_at (pre ++ segs) bs bl →
  let '(s, n) := zero_run segs (length pre) start len bs bl in zeros_at (pre ++ segs) s n.
Proof.
  revert pre start len bs bl. induction segs as [|x segs IH]; intros pre start len bs bl Hcur Hbest;
    [done|].
  cbn [zero_run]. rewrite cons_middle, app_assoc in Hbest |- *.
  assert (S (length pre) = length (pre ++ [x])) as El by (rewrite length_app; cbn; lia).
  case_bool_decide as Hx; [subst x|].
  - destruct Hcur as (pre' & Epre & Hstart).
    set (start' := if bool_decide (len = 0%nat) then length pre else start).
    assert (length pre' = start') as Hs'.
    { subst start'. case_bool_decide as Hlen; [|apply Hstart; lia].
      subst len pre. by rewrite app_nil_r. }
    assert (pre ++ [0] = pre' ++ replicate (S len) 0) as Epre'.
    { rewrite Epre, <- app_assoc, <- replicate_S_end. done. }
    rewrite El. case_bool_decide; apply IH; try done; try (by exists pre').
    exists pre', segs. by rewrite Epre', <- app_assoc.
  - rewrite El. apply IH; [|done]. exists (pre ++ [x]). rewrite app_nil_r. split; [done|lia].
Qed.

Lemma longest_zeros segs : let '(s, n) := zero_run segs 0 0 0 0 0 in zeros_at segs s n.
Proof. apply (zero_run_spec []); [by exists []|by exists [], segs]. Qed.

(** ** IPv6 *)
Lemma read_front_back front back gap rest :
  (length front + S gap + length back = 8)%nat → (0 < gap)%nat →
  Forall u16 front → Forall u16 back → halts rest →
  read_ipv6_addr (groups_text 0 front ++ 58 :: 58 :: groups_text 0 back ++ rest)
  = Some (of_groups (front ++ replicate (S gap) 0 ++ back), rest).
Proof.
  intros Hl Hg Hf Hb Hr. unfold read_ipv6_addr.
  rewrite read_groups_ok; [|lia|done|by eexists; left].
  rewrite bool_decide_eq_false_2 by lia. do 2 (rewrite read_char_ok; cbn [mbind option_bind]).
  rewrite read_groups_ok by (done || lia).
  by replace (8 - length front - length back)%nat with (S gap) by lia.
Qed.

Lemma read_full segs rest :
  length segs = 8%nat → Forall u16 segs → halts rest →
  read_ipv6_addr (groups_text 0 segs ++ rest) = Some (of_groups segs, rest).
Proof.
  intros Hl Hs Hr. unfold read_ipv6_addr. rewrite read_groups_ok by (done || lia).
  by rewrite bool_decide_eq_true_2.
Qed.

(** An IPv4 address as the last two groups. *)
Lemma read_mapped b0 b1 b2 b3 rest : bytes_ok [b0; b1; b2; b3] →
  read_ipv6_addr (58 :: 58 :: bytes_of "ffff:" ++
    bytes_of (show_v4 (from_be_bytes [b0; b1; b2; b3])) ++ 93 :: rest)
  = Some (of_groups [0; 0; 0; 0; 0; 65535; b0 * 256 + b1; b2 * 256 + b3], 93 :: rest).
Proof.
  intros Hb. set (v := from_be_bytes [b0; b1; b2; b3]).
  assert (u_ok 32 v) as Hv.
  { apply (from_be_bytes_range [b0; b1; b2; b3]) in Hb. exact Hb. }
  set (l := bytes_of (show_v4 v) ++ 93 :: rest).
  assert (read_groups 7 0 (bytes_of "ffff:" ++ l) = ([65535; v / 65536; v `mod` 65536], true, 93 :: rest))
    as Hg.
  { change (bytes_of "ffff:" ++ l) with (bytes_of (hex_u16 65535) ++ 58 :: l).
    remember 6%nat as six. cbn [read_groups].
    change (read_separator 58 0 ?p ?x) with (p x).
    rewrite group_not_v4, read_group; [|done|by repeat eexists; left|done|by repeat eexists; left].
    subst six. cbn [bool_decide decide_rel]. rewrite bool_decide_eq_true_2 by lia.
    remember 5%nat as five. cbn [read_groups]. subst five. rewrite bool_decide_eq_true_2 by lia.
    cbn [read_separator]. rewrite read_char_ok. cbn [mbind option_bind]. subst l. by rewrite read_show_v4. }
  unfold read_ipv6_addr. rewrite no_more_groups by (by eexists; left).
  rewrite bool_decide_eq_false_2 by done. do 2 (rewrite read_char_ok; cbn [mbind option_bind]).
  cbn [length Nat.sub].
  rewrite Hg. cbn [length Nat.sub replicate app].
  assert (v / 65536 = b0 * 256 + b1 ∧ v `mod` 65536 = b2 * 256 + b3) as [-> ->]; [|done].
  subst v. apply Forall_cons in Hb as [? [? [? [? _]%Forall_cons]%Forall_cons]%Forall_cons].
  unfold byte_ok, from_be_bytes in *. cbn. Z.to_euclidean_division_equations. lia.
Qed.

Lemma read_show_v6 a rest : 0 ≤ a < 2 ^ 128 →
  read_ipv6_addr (bytes_of (show_v6 a) ++ 93 :: rest) = Some (a, 93 :: rest).
Proof.
  intros Ha. destruct (segments_spec a Ha) as (H1 & H2 & H3).
  pose proof (length_to_be_bytes 16 a) as Hl. pose proof (to_be_bytes_ok 16 a) as Hb.
  unfold show_v6. revert Hl Hb H1 H2 H3. generalize (to_be_bytes 16 a). intros l Hl Hb H1 H2 H3.
  assert (halts (93 :: rest)) as Hr by (eexists; by right).
  case_bool_decide as Hm.
  - assert (∃ b0 b1 b2 b3, drop 12 l = [b0; b1; b2; b3]) as (b0 & b1 & b2 & b3 & Ed).
    { pose proof (length_drop l 12) as H. rewrite Hl in H.
      destruct (drop 12 l) as [|b0 [|b1 [|b2 [|b3 []]]]]; try done. eauto. }
    assert (bytes_ok [b0; b1; b2; b3]) as Hd by (rewrite <- Ed; by apply bytes_ok_drop).
    rewrite Ed, bytes_of_app, <- app_assoc.
    rewrite <- H3. rewrite <- (take_drop 12 l), Hm, Ed. by apply read_mapped.
  - pose proof (longest_zeros (segments_of l)) as Hz. destruct (zero_run _ _ _ _ _ _) as [s n].
    destruct Hz as (pre & post & E & Hpre). case_bool_decide as Hn.
    + destruct n as [|[|n]]; [lia..|]. rewrite E in *.
      rewrite !bytes_of_app, !join_bytes, <- !app_assoc. cbn [app].
      rewrite (take_app_length' pre) by done.
      rewrite (app_assoc pre (replicate _ _)), (drop_app_length' (pre ++ _)).
      2: { rewrite length_app, length_replicate. lia. }
      apply Forall_app in H2 as [Hf [_ Hk]%Forall_app]. rewrite !length_app, length_replicate in H1.
      change (bytes_of "::") with [58; 58]. cbn [app].
      rewrite (read_front_back _ _ (S n)) by (done || lia). by rewrite <- H3.
    + rewrite join_bytes. rewrite read_full by done. by rewrite H3.
Qed.

(** ** Socket addresses *)
Definition addr_ok (a : SocketAddr) : Prop :=
  match sa_ip a with V4 ip => u_ok 32 ip | V6 ip => 0 ≤ ip < 2 ^ 128 end ∧ 0 ≤ sa_port a < 65536.

Lemma addr_read a : addr_ok a → parse_socket_addr (show_addr a) = Some a.
Proof.
  destruct a as [ip port]. intros [Hip Hport]. cbn in Hip, Hport.
  unfold parse_socket_addr, show_addr. cbn [sa_ip sa_port].
  destruct ip as [ip|ip]; rewrite !bytes_of_app.
  - unfold read_socket_addr_v4. rewrite read_show_v4 by done. cbn [mbind option_bind].
    rewrite <- (app_nil_r (bytes_of (pretty port))).
    change (bytes_of ":" ++ ?l) with (58 :: l). by rewrite read_pretty_port.
  - change (bytes_of "[" ++ ?l) with (91 :: l).
    assert (∀ l, read_socket_addr_v4 (91 :: l) = None) as -> by done.
    unfold read_socket_addr_v6.
    rewrite read_char_ok. cbn [mbind option_bind].
    change (bytes_of "]:" ++ ?l) with (93 :: 58 :: l). rewrite read_show_v6 by done.
    cbn [mbind option_bind read_scope_id read_char]. rewrite bool_decide_eq_false_2 by done.
    cbn [mbind option_bind]. rewrite read_char_ok. cbn [mbind option_bind].
    rewrite <- (app_nil_r (bytes_of (pretty port))). by rewrite read_pretty_port.
Qed.

(** Whatever socket address [Display] prints, [FromStr] reads back. *)
Theorem socket_addr_roundtrip a : addr_ok a → parse_socket_addr (show_addr a) = Some a.
Proof. apply addr_read. Qed.

Lemma socket_addr_roundtrip_witness :
  let a := mkSocketAddr (V6 (of_groups [8193; 3512; 0; 0; 1; 0; 0; 1])) 7777 in
  show_addr a = "[2001:db8::1:0:0:1]:7777"%string ∧ parse_socket_addr (show_addr a) = Some a.
Proof. split; [by vm_compute|]. apply socket_addr_roundtrip. vm_compute. by repeat split. Defined.
