(* ===== verification/Common.v ===== *)
(** Identifiers, invites and addresses shared by the crates
    ([crates/r2n-common/src/lib.rs]). *)
From Stdlib Require Import ZArith Lia Ascii.
From stdpp Require Import base tactics numbers list countable strings pretty sets.
From S2P Require Import Prelude Bytes.
Local Open Scope Z_scope.

(** ** Identifiers *)
Record NodeId := mkNodeId { node_bytes : list Z }.
Record RoomId := mkRoomId { room_bytes : list Z }.
Record SessionId := mkSessionId { session_u64 : Z }.
Record PacketId := mkPacketId { packet_u64 : Z }.
Record VirtualIp := mkVirtualIp { vip_octets : list Z }.
Record InviteCode := mkInviteCode { invite_code : string }.

Inductive NatType := Open | Cone | Symmetric | Unknown.

#[export] Instance NodeId_eq_dec : EqDecision NodeId.
Proof. solve_decision. Defined.
#[export] Instance RoomId_eq_dec : EqDecision RoomId.
Proof. solve_decision. Defined.
#[export] Instance SessionId_eq_dec : EqDecision SessionId.
Proof. solve_decision. Defined.
#[export] Instance PacketId_eq_dec : EqDecision PacketId.
Proof. solve_decision. Defined.
#[export] Instance VirtualIp_eq_dec : EqDecision VirtualIp.
Proof. solve_decision. Defined.
#[export] Instance InviteCode_eq_dec : EqDecision InviteCode.
Proof. solve_decision. Defined.
#[export] Instance NatType_eq_dec : EqDecision NatType.
Proof. solve_decision. Defined.
#[export] Instance NodeId_countable : Countable NodeId.
Proof. apply (inj_countable' node_bytes mkNodeId). by intros []. Defined.
#[export] Instance RoomId_countable : Countable RoomId.
Proof. apply (inj_countable' room_bytes mkRoomId). by intros []. Defined.
#[export] Instance PacketId_countable : Countable PacketId.
Proof. apply (inj_countable' packet_u64 mkPacketId). by intros []. Defined.
#[export] Instance VirtualIp_countable : Countable VirtualIp.
Proof. apply (inj_countable' vip_octets mkVirtualIp). by intros []. Defined.

(** What the Rust array types guarantee. *)
Definition node_ok (n : NodeId) : Prop :=
  length (node_bytes n) = 32%nat ∧ bytes_ok (node_bytes n).
Definition room_ok (r : RoomId) : Prop :=
  length (room_bytes r) = 16%nat ∧ bytes_ok (room_bytes r).

(** [impl Display for VirtualIp]: dotted decimal. *)
Definition VirtualIp_to_string (v : VirtualIp) : string :=
  match vip_octets v with
  | [a; b; c; d] =>
      (pretty a +:+ "." +:+ pretty b +:+ "." +:+ pretty c +:+ "." +:+ pretty d)%string
  | _ => EmptyString
  end.

(** ** Invites *)
Record InviteData := mkInviteData {
  version : Z;
  primary_supernode : string;
  fallback_supernodes : list string;
  supernode_addr : string;
  room_id : RoomId;
  room_pub_key : list Z;
  virtual_cidr : option string;
  token : option string;
  expires_at : option Z;
  signature : option (list Z);
}.

Definition VERSION : Z := 2.

Definition set_signature (s : option (list Z)) (i : InviteData) : InviteData :=
  mkInviteData (version i) (primary_supernode i) (fallback_supernodes i)
    (supernode_addr i) (room_id i) (room_pub_key i) (virtual_cidr i) (token i)
    (expires_at i) s.

Definition is_empty (s : string) : bool := bool_decide (s = EmptyString).

Definition primary_supernode_addr (i : InviteData) : string :=
  if is_empty (primary_supernode i) then supernode_addr i else primary_supernode i.

(** The loop of [all_supernodes] over [fallback_supernodes]. *)
Definition push_supernode (nodes : list string) (node : string) : list string :=
  if negb (is_empty node) && negb (bool_decide (node ∈ nodes))
  then nodes ++ [node] else nodes.

Definition all_supernodes (i : InviteData) : list string :=
  let primary := primary_supernode_addr i in
  let nodes := if negb (is_empty primary) then [primary] else [] in
  fold_left push_supernode (fallback_supernodes i) nodes.

(** *** Signing and encoding

    [postcard], [base64] and [ed25519_dalek] are other crates: their functions
    are the fields of this class. *)
Class InviteCrypto := {
  SigningKey : Type;
  VerifyingKey : Type;
  Signature : Type;
  to_stdvec : InviteData → option (list Z);
  from_bytes : list Z → option InviteData;
  b64_encode : list Z → string;
  b64_decode : string → option (list Z);
  verifying_key : SigningKey → VerifyingKey;
  ed_sign : SigningKey → list Z → Signature;
  sig_to_vec : Signature → list Z;
  sig_from_slice : list Z → option Signature;
  ed_verify : VerifyingKey → list Z → Signature → bool;
}.

(** Serialisation and base64 invert their decoders; a signature verifies under
    the key that made it. *)
Class InviteCryptoLaws (C : InviteCrypto) : Prop := {
  from_to_stdvec : ∀ i, ∃ l, to_stdvec i = Some l ∧ from_bytes l = Some i;
  b64_decode_encode : ∀ l, b64_decode (b64_encode l) = Some l;
  sig_from_to_vec : ∀ s, sig_from_slice (sig_to_vec s) = Some s;
  ed_verify_sign : ∀ k m, ed_verify (verifying_key k) m (ed_sign k m) = true;
}.

Section Invite.
Context `{C : InviteCrypto}.

Definition unwrap_or_default (o : option (list Z)) : list Z := default [] o.

Definition sign (key : SigningKey) (i : InviteData) : InviteData :=
  let i := set_signature None i in
  let bytes := unwrap_or_default (to_stdvec i) in
  set_signature (Some (sig_to_vec (ed_sign key bytes))) i.

Definition verify (pub_key : VerifyingKey) (i : InviteData) : bool :=
  match signature i with
  | None => false
  | Some sig_bytes =>
      let bytes := unwrap_or_default (to_stdvec (set_signature None i)) in
      match sig_from_slice sig_bytes with
      | None => false
      | Some sig => ed_verify pub_key bytes sig
      end
  end.

Definition encode_invite (i : InviteData) : string :=
  b64_encode (unwrap_or_default (to_stdvec i)).

Definition decode_invite (s : string) : option InviteData :=
  bytes ← b64_decode s; from_bytes bytes.

Lemma decode_encode_invite `{!InviteCryptoLaws C} i :
  decode_invite (encode_invite i) = Some i.
Proof.
  unfold decode_invite, encode_invite.
  destruct (from_to_stdvec i) as (l & -> & Hl).
  rewrite b64_decode_encode. simpl. done.
Qed.
End Invite.

(** ** The supernode list of an invite *)
Section Supernodes.
Lemma push_supernode_fold nodes fb :
  NoDup nodes → EmptyString ∉ nodes →
  let r := fold_left push_supernode fb nodes in
  NoDup r ∧ EmptyString ∉ r ∧ nodes `prefix_of` r ∧
  (∀ s, s ∈ r ↔ s ∈ nodes ∨ (s ∈ fb ∧ s ≠ EmptyString)).
Proof.
  revert nodes. induction fb as [|f fb IH]; intros nodes Hn He; simpl.
  { repeat split; [done..| |]; set_solver. }
  assert (NoDup (push_supernode nodes f) ∧ EmptyString ∉ push_supernode nodes f
          ∧ nodes `prefix_of` push_supernode nodes f
          ∧ (∀ s, s ∈ push_supernode nodes f ↔
               s ∈ nodes ∨ (s = f ∧ s ≠ EmptyString))) as (H1 & H2 & H3 & H4).
  { unfold push_supernode, is_empty.
    destruct (decide (f = EmptyString)) as [->|Hf].
    { repeat split; try done; naive_solver. }
    rewrite (bool_decide_eq_false_2 _ Hf). simpl.
    case_bool_decide as Hin; simpl.
    { repeat split; try done; naive_solver. }
    split_and!; [|set_solver|by eexists|set_solver].
    apply NoDup_app. split_and!; [done|set_solver|apply NoDup_singleton]. }
  destruct (IH _ H1 H2) as (G1 & G2 & G3 & G4). repeat split; [done|done| | |].
  - etrans; eauto.
  - rewrite G4, H4. set_solver.
  - rewrite G4, H4. set_solver.
Qed.
End Supernodes.

(** A concrete codec and signature scheme: the record's countable code for
    [postcard], the key in front of the message for a signature. *)
#[export] Instance InviteData_eq_dec : EqDecision InviteData.
Proof. solve_decision. Defined.

Definition invite_tuple (i : InviteData) :=
  (version i, primary_supernode i, fallback_supernodes i, supernode_addr i,
   room_id i, room_pub_key i, virtual_cidr i, token i, expires_at i, signature i).
#[export] Instance InviteData_countable : Countable InviteData.
Proof.
  apply (inj_countable' invite_tuple
    (λ '(a, b, c, d, e, f, g, h, i, j), mkInviteData a b c d e f g h i j)).
  by intros [].
Defined.

Fixpoint pos_to_string (p : positive) : string :=
  match p with
  | xH => EmptyString
  | xO p => String "0"%char (pos_to_string p)
  | xI p => String "1"%char (pos_to_string p)
  end.
Fixpoint string_to_pos (s : string) : positive :=
  match s with
  | EmptyString => xH
  | String c s => if Ascii.eqb c "0"%char then xO (string_to_pos s) else xI (string_to_pos s)
  end.
Lemma string_to_pos_to_string p : string_to_pos (pos_to_string p) = p.
Proof. induction p; simpl; congruence. Qed.

Definition toy_crypto : InviteCrypto := {|
  SigningKey := Z; VerifyingKey := Z; Signature := list Z;
  to_stdvec i := Some [Z.pos (encode i)];
  from_bytes l := match l with [Z.pos p] => decode p | _ => None end;
  b64_encode l := pos_to_string (encode l);
  b64_decode s := decode (string_to_pos s);
  verifying_key k := k; ed_sign k m := k :: m; sig_to_vec s := s;
  sig_from_slice l := Some l;
  ed_verify k m s := bool_decide (s = k :: m);
|}.
Lemma toy_crypto_laws : InviteCryptoLaws toy_crypto.
Proof.
  split; simpl.
  - intros i. eexists. split; [done|]. apply decode_encode.
  - intros l. rewrite string_to_pos_to_string. apply decode_encode.
  - done.
  - intros k m. by apply bool_decide_eq_true_2.
Qed.

(** ** Properties *)

(** An invite that a key signed and that is shared as a code decodes to an
    invite with every field as it was, and verifies under that key. *)
Theorem shared_invite_verifies `{C : InviteCrypto} `{!InviteCryptoLaws C} key i :
  ∃ j, decode_invite (encode_invite (sign key i)) = Some j
    ∧ set_signature None j = set_signature None i
    ∧ verify (verifying_key key) j = true.
Proof.
  exists (sign key i). split; [apply decode_encode_invite|]. split; [done|].
  unfold verify, sign. simpl. rewrite sig_from_to_vec.
  apply ed_verify_sign.
Qed.

Definition sample_invite : InviteData :=
  mkInviteData VERSION "127.0.0.1:7777" ["127.0.0.2:7777"] "127.0.0.1:7777"
    (mkRoomId (replicate 16 9)) (replicate 32 3) (Some "10.66.1.0/24"%string)
    (Some "token-123"%string) (Some 123456) None.

Lemma shared_invite_verifies_witness :
  ∃ j, decode_invite (C:=toy_crypto) (encode_invite (C:=toy_crypto)
         (sign (C:=toy_crypto) 7 sample_invite)) = Some j
    ∧ set_signature None j = set_signature None sample_invite
    ∧ verify (C:=toy_crypto) 7 j = true.
Proof.
  exact (@shared_invite_verifies toy_crypto toy_crypto_laws 7 sample_invite).
Defined.

(** The supernodes of an invite are its primary one first, then the
    fallbacks: none empty, none twice, and every non-empty one is there. *)
Theorem all_supernodes_spec i :
  NoDup (all_supernodes i)
  ∧ EmptyString ∉ all_supernodes i
  ∧ (∀ s, s ∈ all_supernodes i ↔
       s ≠ EmptyString ∧ (s = primary_supernode_addr i ∨ s ∈ fallback_supernodes i))
  ∧ (primary_supernode_addr i ≠ EmptyString →
       head (all_supernodes i) = Some (primary_supernode_addr i)).
Proof.
  unfold all_supernodes, is_empty.
  destruct (decide (primary_supernode_addr i = EmptyString)) as [E|E].
  - rewrite bool_decide_eq_true_2 by done. simpl.
    destruct (push_supernode_fold [] (fallback_supernodes i)) as (A & B & C & D);
      [constructor|set_solver|].
    split_and!; [done|done| |done].
    intros s. rewrite D. set_solver.
  - rewrite bool_decide_eq_false_2 by done. simpl.
    destruct (push_supernode_fold [primary_supernode_addr i] (fallback_supernodes i))
      as (A & B & C & D); [apply NoDup_singleton|set_solver|].
    split_and!; [done|done| |].
    + intros s. rewrite D. set_solver.
    + destruct C as [k Hk]. intros _. by rewrite Hk.
Qed.
