(* ===== verification/Proto.v ===== *)
(** The wire protocol: control frames and the 148-byte dataplane header
    ([crates/r2n-proto/src/lib.rs]). *)
From stdpp Require Import base tactics numbers list countable strings.
From Stdlib Require Import ZArith Lia.
From S2P Require Import Prelude Bytes Net Common.
Local Open Scope Z_scope.

Definition PROTOCOL_VERSION : Z := 2.
(** [b"R2NC"] and [b"R2ND"]. *)
Definition CONTROL_MAGIC : list Z := [82; 50; 78; 67].
Definition DATA_MAGIC : list Z := [82; 50; 78; 68].
Definition DATA_HEADER_SIZE : nat := 148.

(** ** Candidates and control frames *)
Inductive CandidateKind :=
| HostLan | HostIpv6 | ServerReflexive | PortPredicted | KindRelay.

Inductive CandidateSource :=
| LocalInterface | StunPrimary | StunSecondary | PortMapping | PeerReflexive
| PortPrediction | RelayFallback.

#[export] Instance CandidateKind_eq_dec : EqDecision CandidateKind.
Proof. solve_decision. Defined.
#[export] Instance CandidateSource_eq_dec : EqDecision CandidateSource.
Proof. solve_decision. Defined.

Record Candidate := mkCandidate {
  kind : CandidateKind;
  source : CandidateSource;
  addr : SocketAddr;
  priority : Z;
  rtt_hint_ms : option Z;
}.
#[export] Instance Candidate_eq_dec : EqDecision Candidate.
Proof. solve_decision. Defined.

Record RoomDescription := mkRoomDescription {
  rd_room_id : RoomId;
  rd_name : string;
  rd_member_count : nat;
}.

Record PeerInfo := mkPeerInfo {
  peer_node_id : NodeId;
  peer_virtual_ip : VirtualIp;
  peer_nickname : string;
  peer_public_key : list Z;
}.

Inductive PeerAction := ActionAdd | ActionRemove | ActionUpdate.

Inductive ControlFrame :=
| Hello (node_id : NodeId) (version : Z)
| CreateRoom (name : string)
| RoomCreated (room_id : RoomId) (assigned_ip : VirtualIp) (virtual_cidr : string)
    (invite_code : string)
| JoinRoom (room_id : RoomId) (token : option string) (room_name : option string)
| JoinAccept (room_id : RoomId) (assigned_ip : VirtualIp) (virtual_cidr : string)
    (room_name : option string)
| JoinReject (reason : string)
| RegisterNode (node_id : NodeId) (nat_type : NatType)
    (external_addr : option SocketAddr) (public_key : list Z)
    (candidates : list Candidate) (nickname : string) (local_networks : list string)
| RegisterOk
| PeerList (peers : list PeerInfo)
| PeerUpdate (peer : PeerInfo) (action : PeerAction)
| PunchRequest (target : NodeId) (candidates : list Candidate)
| PunchCandidate (from : NodeId) (candidates : list Candidate)
| RelayOffer (target : NodeId)
| RelayAccept (relay_id : string)
| Heartbeat
| LeaveRoom (room_id : RoomId)
| Handshake (from : NodeId) (payload : list Z)
| ErrorFrame (code : Z) (message : string)
| QueryRooms
| RoomsList (rooms : list RoomDescription).

(** ** Dataplane packet types *)
Inductive DataPacketType :=
| IPv4 | IPv6 | Broadcast | Multicast | Discovery | Keepalive | Ping | Pong
| Ethernet.

#[export] Instance DataPacketType_eq_dec : EqDecision DataPacketType.
Proof. solve_decision. Defined.

Definition as_u8 (t : DataPacketType) : Z :=
  match t with
  | IPv4 => 0 | IPv6 => 1 | Broadcast => 2 | Multicast => 3 | Discovery => 4
  | Keepalive => 5 | Ping => 6 | Pong => 7 | Ethernet => 8
  end.

Definition from_u8 (value : Z) : option DataPacketType :=
  match value with
  | 0 => Some IPv4 | 1 => Some IPv6 | 2 => Some Broadcast | 3 => Some Multicast
  | 4 => Some Discovery | 5 => Some Keepalive | 6 => Some Ping | 7 => Some Pong
  | 8 => Some Ethernet | _ => None
  end.

(** ** The dataplane header *)
Record DataHeader := mkDataHeader {
  h_version : Z;
  h_flags : Z;
  h_packet_type : DataPacketType;
  h_reserved : Z;
  h_ttl : Z;
  h_room_id : RoomId;
  h_src_node : NodeId;
  h_dst_node : NodeId;
  h_origin_node : NodeId;
  h_session_id : SessionId;
  h_nonce : Z;
  h_packet_id : PacketId;
  h_payload_len : Z;
}.

Inductive DataHeaderError :=
| BufferTooShort | InvalidMagic | InvalidPacketType | UnsupportedVersion
| InvalidPayloadLength.

Definition encode_into (h : DataHeader) (buf : list Z)
  : outcome DataHeaderError (list Z) :=
  if bool_decide (length buf < DATA_HEADER_SIZE)%nat then Err BufferTooShort
  else lift (
    buf ← copy_from_slice buf 0 4 DATA_MAGIC;
    buf ← set_index buf 4 (h_version h);
    buf ← set_index buf 5 (h_flags h);
    buf ← set_index buf 6 (as_u8 (h_packet_type h));
    buf ← set_index buf 7 (h_ttl h);
    buf ← copy_from_slice buf 8 24 (room_bytes (h_room_id h));
    buf ← copy_from_slice buf 24 56 (node_bytes (h_src_node h));
    buf ← copy_from_slice buf 56 88 (node_bytes (h_dst_node h));
    buf ← copy_from_slice buf 88 120 (node_bytes (h_origin_node h));
    buf ← copy_from_slice buf 120 128 (to_be_bytes 8 (session_u64 (h_session_id h)));
    buf ← copy_from_slice buf 128 136 (to_be_bytes 8 (h_nonce h));
    buf ← copy_from_slice buf 136 144 (to_be_bytes 8 (packet_u64 (h_packet_id h)));
    buf ← copy_from_slice buf 144 146 (to_be_bytes 2 (h_payload_len h));
    buf ← set_index buf 146 (h_reserved h);
    set_index buf 147 0).

Definition decode (buf : list Z) : outcome DataHeaderError DataHeader :=
  if bool_decide (length buf < DATA_HEADER_SIZE)%nat then Err BufferTooShort
  else
    magic ← lift (slice buf 0 4);
    if negb (bool_decide (magic = DATA_MAGIC)) then Err InvalidMagic else
    version ← lift (index buf 4);
    if negb (bool_decide (version = PROTOCOL_VERSION)) then Err UnsupportedVersion
    else
    type_byte ← lift (index buf 6);
    packet_type ← ok_or InvalidPacketType (from_u8 type_byte);
    flags ← lift (index buf 5);
    reserved ← lift (index buf 146);
    ttl ← lift (index buf 7);
    room ← lift (slice buf 8 24);
    src ← lift (slice buf 24 56);
    dst ← lift (slice buf 56 88);
    origin ← lift (slice buf 88 120);
    session ← lift (slice buf 120 128);
    nonce ← lift (slice buf 128 136);
    packet_id ← lift (slice buf 136 144);
    len ← lift (slice buf 144 146);
    Ok (mkDataHeader version flags packet_type reserved ttl (mkRoomId room)
          (mkNodeId src) (mkNodeId dst) (mkNodeId origin)
          (mkSessionId (from_be_bytes session)) (from_be_bytes nonce)
          (mkPacketId (from_be_bytes packet_id)) (from_be_bytes len)).

(** [payload_range] as its two ends. *)
Definition payload_range (h : DataHeader) : nat * nat :=
  (DATA_HEADER_SIZE, (DATA_HEADER_SIZE + Z.to_nat (h_payload_len h))%nat).

Definition frame_len (h : DataHeader) : nat :=
  (DATA_HEADER_SIZE + Z.to_nat (h_payload_len h))%nat.

(** What the Rust field types guarantee of a header. *)
Record header_ok (h : DataHeader) : Prop := {
  ok_version : byte_ok (h_version h);
  ok_flags : byte_ok (h_flags h);
  ok_reserved : byte_ok (h_reserved h);
  ok_ttl : byte_ok (h_ttl h);
  ok_room : room_ok (h_room_id h);
  ok_src : node_ok (h_src_node h);
  ok_dst : node_ok (h_dst_node h);
  ok_origin : node_ok (h_origin_node h);
  ok_session : u_ok 64 (session_u64 (h_session_id h));
  ok_nonce : u_ok 64 (h_nonce h);
  ok_packet_id : u_ok 64 (packet_u64 (h_packet_id h));
  ok_payload_len : u_ok 16 (h_payload_len h);
}.

(** ** The layout of an encoded header *)

(** The 148 bytes [encode_into] writes, field after field. *)
Definition header_bytes (h : DataHeader) : list Z :=
  DATA_MAGIC ++ [h_version h] ++ [h_flags h] ++ [as_u8 (h_packet_type h)]
  ++ [h_ttl h] ++ room_bytes (h_room_id h) ++ node_bytes (h_src_node h)
  ++ node_bytes (h_dst_node h) ++ node_bytes (h_origin_node h)
  ++ to_be_bytes 8 (session_u64 (h_session_id h)) ++ to_be_bytes 8 (h_nonce h)
  ++ to_be_bytes 8 (packet_u64 (h_packet_id h))
  ++ to_be_bytes 2 (h_payload_len h) ++ [h_reserved h] ++ [0].

Lemma length_header_bytes h :
  header_ok h → length (header_bytes h) = DATA_HEADER_SIZE.
Proof.
  intros []. destruct ok_room0, ok_src0, ok_dst0, ok_origin0.
  unfold header_bytes, DATA_HEADER_SIZE.
  rewrite !length_app, !length_to_be_bytes. simpl.
  lia.
Qed.

(** One sequential write of [encode_into]: the prefix grows by a field. *)
Ltac write_field :=
  first
  [ erewrite copy_append by (autorewrite with r2n; simpl; lia); cbn [mbind outcome_bind]
  | erewrite set_append by (autorewrite with r2n; simpl; lia); cbn [mbind outcome_bind] ].

Lemma encode_into_bytes h buf :
  header_ok h → (DATA_HEADER_SIZE ≤ length buf)%nat →
  encode_into h buf = Ok (header_bytes h ++ drop DATA_HEADER_SIZE buf).
Proof.
  intros [] Hl. destruct ok_room0 as [Hr _], ok_src0 as [Hs _], ok_dst0 as [Hd _],
    ok_origin0 as [Ho _].
  unfold encode_into, DATA_HEADER_SIZE in *.
  rewrite bool_decide_eq_false_2 by lia.
  change buf with ([] ++ buf) at 1.
  do 15 write_field.
  rewrite !drop_drop. unfold header_bytes. cbn [lift].
  rewrite <- !app_assoc. do 2 f_equal.
Qed.

(** Reads of [decode] over a buffer written field after field. *)
Ltac read_field :=
  first
  [ rewrite slice_here by (autorewrite with r2n; simpl; lia)
  | rewrite slice_skip by (autorewrite with r2n; simpl; lia);
    rewrite ?length_to_be_bytes; cbn [length DATA_MAGIC Nat.sub]
  | rewrite index_skip by (autorewrite with r2n; simpl; lia);
    rewrite ?length_to_be_bytes; cbn [length DATA_MAGIC Nat.sub]
  | rewrite index_here ].

Lemma from_u8_as_u8 t : from_u8 (as_u8 t) = Some t.
Proof. by destruct t. Qed.

Lemma as_u8_from_u8 v t : from_u8 v = Some t → as_u8 t = v.
Proof.
  unfold from_u8. intros H. repeat (destruct v as [|v|v]; try done;
    repeat (destruct v as [v|v|]; try done)); by injection H as <-.
Qed.

Lemma header_bytes_fields h rest (H : header_ok h) :
  let l := header_bytes h ++ rest in
  slice l 0 4 = Ok DATA_MAGIC ∧ index l 4 = Ok (h_version h)
  ∧ index l 5 = Ok (h_flags h) ∧ index l 6 = Ok (as_u8 (h_packet_type h))
  ∧ index l 7 = Ok (h_ttl h) ∧ slice l 8 24 = Ok (room_bytes (h_room_id h))
  ∧ slice l 24 56 = Ok (node_bytes (h_src_node h))
  ∧ slice l 56 88 = Ok (node_bytes (h_dst_node h))
  ∧ slice l 88 120 = Ok (node_bytes (h_origin_node h))
  ∧ slice l 120 128 = Ok (to_be_bytes 8 (session_u64 (h_session_id h)))
  ∧ slice l 128 136 = Ok (to_be_bytes 8 (h_nonce h))
  ∧ slice l 136 144 = Ok (to_be_bytes 8 (packet_u64 (h_packet_id h)))
  ∧ slice l 144 146 = Ok (to_be_bytes 2 (h_payload_len h))
  ∧ index l 146 = Ok (h_reserved h).
Proof.
  destruct H. destruct ok_room0 as [Hr _], ok_src0 as [Hs _], ok_dst0 as [Hd _],
    ok_origin0 as [Ho _].
  intros l. subst l. unfold header_bytes. rewrite <- !app_assoc.
  split_and!; repeat (read_field; rewrite ?Hr, ?Hs, ?Hd, ?Ho; cbn [Nat.sub]); done.
Qed.

Lemma decode_header_bytes h rest :
  header_ok h → h_version h = PROTOCOL_VERSION →
  decode (header_bytes h ++ rest) = Ok h.
Proof.
  intros H Hv. pose proof (header_bytes_fields h rest H) as
    (F1 & F2 & F3 & F4 & F5 & F6 & F7 & F8 & F9 & F10 & F11 & F12 & F13 & F14).
  unfold decode. rewrite bool_decide_eq_false_2
    by (rewrite length_app, length_header_bytes by done; lia).
  rewrite F1, F2, F3, F4, F5, F6, F7, F8, F9, F10, F11, F12, F13, F14.
  cbn [lift mbind outcome_bind ok_or].
  rewrite from_u8_as_u8, (bool_decide_eq_true_2 _ eq_refl), (bool_decide_eq_true_2 _ Hv).
  cbn [lift mbind outcome_bind ok_or negb].
  destruct H. rewrite !from_to_be_bytes by done.
  by destruct h as [? ? ? ? ? [] [] [] [] [] ? [] ?].
Qed.

(** Facts about the slices and bytes [decode] read, by forward reasoning. *)
Ltac slice_facts Hb :=
  repeat match goal with
  | E : slice _ _ _ = Ok ?s |- _ =>
      lazymatch goal with
      | _ : bytes_ok s |- _ => fail
      | _ => pose proof (slice_bytes_ok _ _ _ _ Hb E);
             let L := fresh "L" in
             pose proof (slice_Ok_inv _ _ _ _ E) as (L & ? & ?)
      end
  | E : index _ _ = Ok ?b |- _ =>
      lazymatch goal with
      | _ : byte_ok b |- _ => fail
      | _ => pose proof (index_byte_ok _ _ _ Hb E);
             let L := fresh "L" in
             pose proof (index_Ok_inv _ _ _ E) as (L & ?)
      end
  end.

Lemma be_range_of_length l n :
  bytes_ok l → length l = n → u_ok (8 * Z.of_nat n) (from_be_bytes l).
Proof. intros H <-. by apply from_be_bytes_range. Qed.

Lemma to_from_be_bytes_length l n :
  bytes_ok l → length l = n → to_be_bytes n (from_be_bytes l) = l.
Proof. intros H <-. by apply to_from_be_bytes. Qed.

(** A decoded header is the encoding of the bytes it was read from. *)
Lemma decode_Ok_inv buf h :
  bytes_ok buf → decode buf = Ok h →
  header_ok h ∧ h_version h = PROTOCOL_VERSION
  ∧ header_bytes h = take 147 buf ++ [0].
Proof.
  intros Hb. unfold decode. case_bool_decide as Hl; [done|]. intros H.
  repeat (first [inv_bind | case_bool_decide; [|done]; cbn [negb] in *
                | case_bool_decide; cbn [negb] in *; [|done] ]).
  assert (from_u8 v1 = Some v2) as Ht by (by destruct (from_u8 v1); simplify_eq/=).
  injection H as <-. slice_facts Hb.
  split_and!; [|done|].
  - split; cbn; try done; try (by apply (be_range_of_length _ 8));
      by apply (be_range_of_length _ 2).
  - unfold header_bytes. cbn [h_version h_flags h_packet_type h_reserved h_ttl
      h_room_id h_src_node h_dst_node h_origin_node h_session_id h_nonce
      h_packet_id h_payload_len session_u64 packet_u64 room_bytes node_bytes].
    rewrite (as_u8_from_u8 _ _ Ht), !(to_from_be_bytes_length _ 8),
      (to_from_be_bytes_length _ 2) by done.
    subst v. rewrite L. rewrite L0, L1, L2, L3, L4, L5, L6, L7, L8, L9, L10, L11, L12.
    cbn [Nat.sub]. rewrite !app_assoc.
    change (drop 0 buf) with buf.
    change (take 4 buf) with (take 4 (drop 0 buf)).
    rewrite !(take_drop_join buf 0). cbn [Nat.add]. done.
Qed.

(** ** Properties *)

(** A header written over any buffer of at least 148 bytes is read back
    unchanged, and nothing after the header is touched. *)
Theorem data_header_roundtrip h buf :
  header_ok h → h_version h = PROTOCOL_VERSION → (DATA_HEADER_SIZE ≤ length buf)%nat →
  ∃ buf', encode_into h buf = Ok buf' ∧ decode buf' = Ok h
    ∧ drop DATA_HEADER_SIZE buf' = drop DATA_HEADER_SIZE buf
    ∧ length buf' = length buf.
Proof.
  intros H Hv Hl. eexists. split; [by apply encode_into_bytes|].
  split; [by apply decode_header_bytes|].
  pose proof (length_header_bytes h H) as Hh. split.
  - by rewrite drop_app_length'.
  - rewrite length_app, length_drop, Hh. lia.
Qed.

Definition sample_header : DataHeader :=
  mkDataHeader PROTOCOL_VERSION 17 IPv4 0 1 (mkRoomId (replicate 16 7))
    (mkNodeId (replicate 32 1)) (mkNodeId (replicate 32 2)) (mkNodeId (replicate 32 1))
    (mkSessionId 42) 99 (mkPacketId 123) 512.

Lemma sample_header_ok : header_ok sample_header.
Proof.
  split; cbn; unfold byte_ok, u_ok, PROTOCOL_VERSION; try lia;
    (split; [done|by apply bytes_ok_check]).
Qed.

Lemma data_header_roundtrip_witness :
  ∃ buf', encode_into sample_header (replicate 200 5) = Ok buf'
    ∧ decode buf' = Ok sample_header
    ∧ drop DATA_HEADER_SIZE buf' = drop DATA_HEADER_SIZE (replicate 200 5)
    ∧ length buf' = length (replicate 200 5).
Proof.
  apply data_header_roundtrip.
  - exact sample_header_ok.
  - reflexivity.
  - vm_compute. lia.
Defined.

(** Conversely, re-encoding a decoded header over the bytes it came from
    changes nothing but byte 147, which [decode] ignores and [encode_into]
    clears: the authenticated header is the received one. *)
Theorem data_header_reencode buf h :
  bytes_ok buf → decode buf = Ok h → encode_into h buf = Ok (<[147%nat:=0]> buf).
Proof.
  intros Hb Hd.
  assert (DATA_HEADER_SIZE ≤ length buf)%nat as Hl.
  { unfold decode in Hd. case_bool_decide; [done|]. lia. }
  destruct (decode_Ok_inv _ _ Hb Hd) as (H & _ & Hh).
  rewrite encode_into_bytes, Hh by done. unfold DATA_HEADER_SIZE in *.
  rewrite insert_take_drop by lia. by rewrite <- app_assoc.
Qed.

Definition sample_frame : list Z := header_bytes sample_header ++ replicate 20 5.

Lemma data_header_reencode_witness :
  encode_into sample_header sample_frame = Ok (<[147%nat:=0]> sample_frame).
Proof.
  apply data_header_reencode.
  - apply bytes_ok_check. vm_compute. reflexivity.
  - vm_compute. reflexivity.
Defined.

(** [decode] never unwinds, and which of its errors it returns is decided by
    the first failing test: length, magic, version, packet type. *)
Theorem decode_outcome buf :
  match decode buf with
  | Panic => False
  | Err BufferTooShort => (length buf < 148)%nat
  | Err InvalidMagic => (148 ≤ length buf)%nat ∧ take 4 buf ≠ DATA_MAGIC
  | Err UnsupportedVersion =>
      (148 ≤ length buf)%nat ∧ take 4 buf = DATA_MAGIC ∧ buf !! 4%nat ≠ Some 2
  | Err InvalidPacketType =>
      (148 ≤ length buf)%nat ∧ take 4 buf = DATA_MAGIC ∧ buf !! 4%nat = Some 2
      ∧ buf !! 6%nat ≫= from_u8 = None
  | Err InvalidPayloadLength => False
  | Ok h =>
      (148 ≤ length buf)%nat ∧ take 4 buf = DATA_MAGIC ∧ buf !! 4%nat = Some 2
      ∧ buf !! 6%nat ≫= from_u8 = Some (h_packet_type h)
  end.
Proof.
  unfold decode, DATA_HEADER_SIZE. case_bool_decide as Hl; [done|].
  rewrite (slice_Ok buf 0 4) by lia. cbn [lift mbind outcome_bind].
  change (take (4 - 0) (drop 0 buf)) with (take 4 buf).
  case_bool_decide as Hm; cbn [negb]; [|split; [lia|done]].
  destruct (lookup_lt_is_Some_2 buf 4) as [v Hv]; [lia|].
  rewrite (index_lookup _ _ _ Hv). cbn [lift mbind outcome_bind].
  case_bool_decide as Hver; cbn [negb]; [|split_and!; [lia|done|naive_solver]].
  destruct (lookup_lt_is_Some_2 buf 6) as [t Ht]; [lia|].
  rewrite (index_lookup _ _ _ Ht). cbn [lift mbind outcome_bind].
  destruct (lookup_lt_is_Some_2 buf 5) as [x5 H5]; [lia|].
  destruct (lookup_lt_is_Some_2 buf 146) as [x146 H146]; [lia|].
  destruct (lookup_lt_is_Some_2 buf 7) as [x7 H7]; [lia|].
  destruct (from_u8 t) eqn:Et; cbn [ok_or mbind outcome_bind];
    [|rewrite Ht; cbn; split_and!; [lia|done|naive_solver|done]].
  rewrite (index_lookup _ _ _ H5), (index_lookup _ _ _ H146), (index_lookup _ _ _ H7).
  rewrite !slice_Ok by lia. cbn [lift mbind outcome_bind h_packet_type].
  rewrite Ht. cbn. split_and!; [lia|done|naive_solver|done].
Qed.
