(* ===== verification/Slab.v ===== *)
(** The packet slab: fixed frames handed out by slot number
    ([crates/r2n-slab/src/lib.rs]). *)
From stdpp Require Import base tactics numbers list relations.
From Stdlib Require Import ZArith Lia.
From S2P Require Import Prelude Bytes.
Local Open Scope Z_scope.

Definition DEFAULT_FRAME_CAP : nat := 1600.
Definition DEFAULT_HEADROOM : nat := 128.

Inductive TrafficClass := Control | Realtime | Interactive | Bulk.

Record PacketDesc := mkPacketDesc {
  slot : Z;
  data_offset : nat;
  payload_offset : nat;
  len : nat;
  class : TrafficClass;
}.

(** ** [crossbeam_queue::ArrayQueue]

    A bounded queue of [u32]; [q_contents] and [q_cap] name what it holds and how
    much it may hold. *)
Class ArrayQueue := {
  Queue : Type;
  q_contents : Queue → list Z;
  q_cap : Queue → nat;
  q_new : nat → total Queue;
  q_push : Queue → Z → option Queue;
  q_pop : Queue → option (Z * Queue);
  q_len : Queue → nat;
}.

(** Its documentation: [new] panics on capacity zero, [push] returns its element
    when the queue is full, [pop] takes the oldest element. *)
Class ArrayQueueLaws (A : ArrayQueue) : Prop := {
  q_new_zero : q_new 0 = Panic;
  q_new_spec : ∀ c, (0 < c)%nat →
    ∃ q, q_new c = Ok q ∧ q_contents q = [] ∧ q_cap q = c;
  q_push_spec : ∀ q x, (length (q_contents q) < q_cap q)%nat →
    ∃ q', q_push q x = Some q' ∧ q_contents q' = q_contents q ++ [x]
      ∧ q_cap q' = q_cap q;
  q_push_full : ∀ q x, (q_cap q ≤ length (q_contents q))%nat → q_push q x = None;
  q_pop_empty : ∀ q, q_contents q = [] → q_pop q = None;
  q_pop_cons : ∀ q x l, q_contents q = x :: l →
    ∃ q', q_pop q = Some (x, q') ∧ q_contents q' = l ∧ q_cap q' = q_cap q;
  q_len_spec : ∀ q, q_len q = length (q_contents q);
}.

Section Slab.
Context `{A : ArrayQueue}.

(** [PacketSlab<FRAME_CAP>]; each of [slots] is a buffer of [FRAME_CAP] bytes. *)
Record PacketSlab := mkPacketSlab {
  slots : list (list Z);
  free : Queue;
  headroom : nat;
}.

(** [let _ = queue.push(x)]: a push onto a full queue is dropped. *)
Definition push_ignore (q : Queue) (x : Z) : Queue := default q (q_push q x).

Definition new (FRAME_CAP capacity headroom : nat) : total PacketSlab :=
  free ← q_new capacity;
  let free := fold_left push_ignore
                (List.map (λ i, wrap 32 (Z.of_nat i)) (seq 0 capacity)) free in
  Ok (mkPacketSlab (replicate capacity (replicate FRAME_CAP 0)) free headroom).

Definition default_pool (capacity : nat) : total PacketSlab :=
  new DEFAULT_FRAME_CAP capacity DEFAULT_HEADROOM.

Definition acquire (s : PacketSlab) : option PacketDesc * PacketSlab :=
  match q_pop (free s) with
  | Some (slot, q) =>
      (Some (mkPacketDesc slot 0 (headroom s) 0 Bulk),
       mkPacketSlab (slots s) q (headroom s))
  | None => (None, s)
  end.

Definition release (desc : PacketDesc) (s : PacketSlab) : PacketSlab :=
  mkPacketSlab (slots s) (push_ignore (free s) (slot desc)) (headroom s).

Definition available (s : PacketSlab) : nat := q_len (free s).

(** [self.slots[desc.slot as usize]] *)
Definition slot_frame (s : PacketSlab) (desc : PacketDesc) : total (list Z) :=
  match slots s !! Z.to_nat (slot desc) with Some f => Ok f | None => Panic end.

(** The closure may fail or unwind; what it wrote before stays in the slot. *)
Definition with_slot_mut {E R} (desc : PacketDesc) (func : M (list Z) E R)
  : M PacketSlab E R := λ s,
  match slots s !! Z.to_nat (slot desc) with
  | None => (Panic, s)
  | Some buf =>
      let '(r, buf') := func buf in
      (r, mkPacketSlab (<[Z.to_nat (slot desc) := buf']> (slots s)) (free s) (headroom s))
  end.

Definition get_slot_slice (desc : PacketDesc) (s : PacketSlab) : total (list Z) :=
  slot_frame s desc.

(** ** Ownership of the slots

    The [unsafe] accesses are sound when no two live descriptors name one slot.
    A configuration pairs a slab with the descriptors its users hold; a user may
    change any field of its descriptor but the slot. *)
Definition config : Type := PacketSlab * list PacketDesc.

Inductive slab_step : config → config → Prop :=
| step_acquire s held d s' :
    acquire s = (Some d, s') → slab_step (s, held) (s', d :: held)
| step_acquire_none s held s' :
    acquire s = (None, s') → slab_step (s, held) (s', held)
| step_release s held1 d held2 :
    slab_step (s, held1 ++ d :: held2) (release d s, held1 ++ held2)
| step_edit s held1 d d' held2 :
    slot d' = slot d →
    slab_step (s, held1 ++ d :: held2) (s, held1 ++ d' :: held2)
| step_write {E R} s held d (func : M (list Z) E R) r s' :
    d ∈ held → with_slot_mut d func s = (r, s') → slab_step (s, held) (s', held).

Definition slot_numbers (n : nat) : list Z := List.map Z.of_nat (seq 0 n).

(** Free and held slots are together each slot number once. *)
Definition slab_inv (n : nat) (c : config) : Prop :=
  q_contents (free c.1) ++ List.map slot c.2 ≡ₚ slot_numbers n
  ∧ q_cap (free c.1) = n ∧ length (slots c.1) = n.

Lemma slot_numbers_NoDup n : NoDup (slot_numbers n).
Proof.
  unfold slot_numbers. apply (NoDup_fmap_2 Z.of_nat). apply NoDup_seq.
Qed.

Lemma elem_of_slot_numbers n z : z ∈ slot_numbers n ↔ 0 ≤ z < Z.of_nat n.
Proof.
  unfold slot_numbers. rewrite (list_elem_of_fmap Z.of_nat). split.
  - intros (i & -> & Hi%elem_of_seq). lia.
  - intros Hz. exists (Z.to_nat z). rewrite elem_of_seq. lia.
Qed.

Context `{!ArrayQueueLaws A}.

Lemma push_all_contents l q :
  (length (q_contents q) + length l ≤ q_cap q)%nat →
  let r := fold_left push_ignore l q in
  q_contents r = q_contents q ++ l ∧ q_cap r = q_cap q.
Proof.
  revert q. induction l as [|x l IH]; intros q Hq; simpl in *.
  { by rewrite app_nil_r. }
  destruct (q_push_spec q x) as (q' & Hp & Hc & Hcap); [lia|].
  unfold push_ignore at 2 4. rewrite Hp. simpl.
  destruct (IH q') as [-> ->].
  { rewrite Hc, Hcap, length_app. simpl. lia. }
  by rewrite Hc, <- app_assoc.
Qed.

Lemma wrap_slot_numbers n :
  Z.of_nat n ≤ 2 ^ 32 →
  List.map (λ i, wrap 32 (Z.of_nat i)) (seq 0 n) = slot_numbers n.
Proof.
  intros Hn. apply List.map_ext_in. intros i Hi%List.in_seq.
  apply wrap_small. unfold u_ok. lia.
Qed.

(** A new slab is free in slot order, and every frame is zero. *)
Lemma new_spec cap_bytes n h :
  (0 < n)%nat → Z.of_nat n ≤ 2 ^ 32 →
  ∃ s, new cap_bytes n h = Ok s ∧ q_contents (free s) = slot_numbers n
    ∧ q_cap (free s) = n ∧ slots s = replicate n (replicate cap_bytes 0)
    ∧ headroom s = h.
Proof.
  intros H0 Hn. destruct (q_new_spec n H0) as (q & Hq & Hc & Hcap).
  unfold new. rewrite Hq. simpl. eexists. split; [done|]. simpl.
  rewrite wrap_slot_numbers by done.
  destruct (push_all_contents (slot_numbers n) q) as [H1 H2].
  { rewrite Hc, Hcap. unfold slot_numbers. rewrite List.length_map, length_seq. simpl. lia. }
  by rewrite H1, H2, Hc, Hcap.
Qed.

Lemma slab_inv_step n c c' : slab_step c c' → slab_inv n c → slab_inv n c'.
Proof.
  destruct 1 as [s held d s' Ha|s held s' Ha|s h1 d h2|s h1 d d' h2 Hd|E R s held d func r s' Hd Hw];
    intros (Hp & Hcap & Hlen); unfold slab_inv in *; cbn [fst snd] in *.
  - unfold acquire in Ha. destruct (q_contents (free s)) as [|x l] eqn:Hc.
    { rewrite q_pop_empty in Ha by done. done. }
    destruct (q_pop_cons _ _ _ Hc) as (q & Hq & Hql & Hqc). rewrite Hq in Ha.
    simplify_eq/=. rewrite Hqc. split; [|done].
    rewrite <- Hp. by rewrite Permutation_middle.
  - unfold acquire in Ha. by repeat case_match; simplify_eq.
  - rewrite List.map_app in Hp. simpl in Hp. unfold release, push_ignore. simpl.
    destruct (q_push_spec (free s) (slot d)) as (q & Hq & Hqc & Hqcap).
    { apply Permutation_length in Hp. revert Hp. unfold slot_numbers.
      rewrite !length_app. cbn [length]. rewrite !List.length_map, length_seq. lia. }
    rewrite Hq. simpl. rewrite Hqc, Hqcap, List.map_app. split; [|done].
    rewrite <- Hp, <- app_assoc. apply Permutation_app_head. simpl.
    by rewrite Permutation_middle.
  - rewrite List.map_app in *. simpl in *. by rewrite Hd.
  - unfold with_slot_mut in Hw. destruct (slots s !! _) eqn:Hl; [|by simplify_eq].
    destruct (func l). simplify_eq/=. by rewrite length_insert.
Qed.

Lemma slab_inv_reachable n c c' :
  rtc slab_step c c' → slab_inv n c → slab_inv n c'.
Proof. induction 1; eauto using slab_inv_step. Qed.

Lemma slab_inv_new cap_bytes n h s :
  Z.of_nat n ≤ 2 ^ 32 → new cap_bytes n h = Ok s → slab_inv n (s, []).
Proof.
  intros Hn Hs. destruct (decide (n = 0)%nat) as [->|H0].
  { unfold new in Hs. by rewrite q_new_zero in Hs. }
  destruct (new_spec cap_bytes n h) as (s' & Hs' & Hc & Hcap & Hsl & _); [lia|done|].
  assert (s' = s) as -> by congruence. unfold slab_inv. cbn [fst snd].
  rewrite Hc, Hcap, Hsl. simpl. rewrite app_nil_r, length_replicate. done.
Qed.
End Slab.

(** ** Properties *)

(** C39: descriptors acquired and not yet released never share a slot, whatever
    interleaving of acquisitions, releases and writes led there; each names an
    existing frame, so no access unwinds; and the free count is what is left. *)
Theorem slab_exclusive `{A : ArrayQueue} `{!ArrayQueueLaws A} cap_bytes n h s s' held :
  Z.of_nat n ≤ 2 ^ 32 → new cap_bytes n h = Ok s → rtc slab_step (s, []) (s', held) →
  NoDup (List.map slot held)
  ∧ (∀ d, d ∈ held → ∃ f, slot_frame s' d = Ok f)
  ∧ (available s' + length held = n)%nat.
Proof.
  intros Hn Hs Hr.
  destruct (slab_inv_reachable n _ _ Hr (slab_inv_new _ _ _ _ Hn Hs)) as (Hp & _ & Hl).
  cbn [fst snd] in *. pose proof (slot_numbers_NoDup n) as Hnd.
  rewrite <- Hp in Hnd. split_and!.
  - by apply NoDup_app in Hnd as (_ & _ & ?).
  - intros d Hd. assert (slot d ∈ slot_numbers n) as Hin.
    { rewrite <- Hp. apply elem_of_app. right. by apply (list_elem_of_fmap_2 slot). }
    apply elem_of_slot_numbers in Hin. unfold slot_frame.
    destruct (lookup_lt_is_Some_2 (slots s') (Z.to_nat (slot d))) as [f Hf]; [lia|].
    rewrite Hf. eauto.
  - unfold available. rewrite q_len_spec. apply Permutation_length in Hp.
    revert Hp. unfold slot_numbers.
    by rewrite length_app, !List.length_map, length_seq.
Qed.

(** A queue as a list with its capacity. *)
Definition list_queue : ArrayQueue := {|
  Queue := list Z * nat;
  q_contents q := q.1; q_cap q := q.2;
  q_new c := match c with O => Panic | _ => Ok ([], c) end;
  q_push q x := if bool_decide (length q.1 < q.2)%nat then Some (q.1 ++ [x], q.2) else None;
  q_pop q := match q.1 with [] => None | x :: l => Some (x, (l, q.2)) end;
  q_len q := length q.1;
|}.
#[export] Instance list_queue_laws : ArrayQueueLaws list_queue.
Proof.
  split; simpl; try done.
  - intros [|c]; [lia|]. eauto.
  - intros [l c] x H. simpl in *. rewrite bool_decide_eq_true_2 by done. eauto.
  - intros [l c] x H. simpl in *. rewrite bool_decide_eq_false_2 by lia. done.
  - intros [l c] H. simpl in *. by subst.
  - intros [l c] x l' H. simpl in *. subst. eauto.
Qed.

Definition two_slots : PacketSlab (A:=list_queue) :=
  mkPacketSlab (A:=list_queue) (replicate 2 (replicate 8 0)) ([0; 1], 2%nat) 4.
Definition one_held : PacketSlab (A:=list_queue) :=
  mkPacketSlab (A:=list_queue) (replicate 2 (replicate 8 0)) ([1], 2%nat) 4.
Definition both_held : PacketSlab (A:=list_queue) :=
  mkPacketSlab (A:=list_queue) (replicate 2 (replicate 8 0)) ([], 2%nat) 4.

Lemma slab_exclusive_witness :
  let held := [mkPacketDesc 1 0 4 0 Bulk; mkPacketDesc 0 0 4 0 Bulk] in
  NoDup (List.map slot held)
  ∧ (∀ d, d ∈ held → ∃ f, slot_frame (A:=list_queue) both_held d = Ok f)
  ∧ (available (A:=list_queue) both_held + length held = 2)%nat.
Proof.
  apply (slab_exclusive (A:=list_queue) 8 2 4 two_slots both_held).
  - lia.
  - reflexivity.
  - eapply (rtc_l _ _ (one_held, [mkPacketDesc 0 0 4 0 Bulk])).
    { apply step_acquire. reflexivity. }
    eapply rtc_l; [|apply rtc_refl]. apply step_acquire. reflexivity.
Defined.
