(* ===== verification/Etherparse.v ===== *)
(** The interface of the [etherparse] crate: what its parsers hand to the code. *)
From stdpp Require Import base tactics numbers list.
From Stdlib Require Import ZArith Lia.
From S2P Require Import Prelude Bytes Net.
Local Open Scope Z_scope.

(** [etherparse::IpHeader], the fields the code reads. *)
Inductive IpHeader :=
| Version4 (source destination : list Z) (protocol : Z)
| Version6 (next_header : Z).

(** [etherparse::InternetSlice]: source and destination address. *)
Inductive InternetSlice :=
| SliceIpv4 (source destination : Z)
| SliceIpv6 (source destination : Z).

(** [etherparse::TransportSlice]: TCP and UDP with their two ports. *)
Inductive TransportSlice :=
| SliceIcmpv4
| SliceIcmpv6
| SliceUdp (source_port destination_port : Z)
| SliceTcp (source_port destination_port : Z)
| SliceUnknown.

(** [IpHeader::from_slice] gives the header and the bytes after it;
    [SlicedPacket::from_ip] the network and transport slices. *)
Class Etherparse := {
  ip_from_slice : list Z → option (IpHeader * list Z);
  sliced_from_ip : list Z → option (option InternetSlice * option TransportSlice);
}.

(** ** A parser of plain IPv4 packets *)
Definition byte_at (l : list Z) (i : nat) : Z := nth i l 0.
Definition u16_at (l : list Z) (i : nat) : Z := byte_at l i * 256 + byte_at l (S i).

Definition plain_ip (l : list Z) : option (IpHeader * list Z) :=
  let ihl := (Z.to_nat (byte_at l 0 `mod` 16) * 4)%nat in
  if bool_decide (byte_at l 0 / 16 = 4) && bool_decide (20 ≤ ihl ≤ length l)%nat then
    Some (Version4 (take 4 (drop 12 l)) (take 4 (drop 16 l)) (byte_at l 9), drop ihl l)
  else None.

Definition plain_sliced (l : list Z)
  : option (option InternetSlice * option TransportSlice) :=
  match plain_ip l with
  | Some (Version4 src dst protocol, rest) =>
      let transport :=
        if bool_decide (protocol = 6) then Some (SliceTcp (u16_at rest 0) (u16_at rest 2))
        else if bool_decide (protocol = 17) then Some (SliceUdp (u16_at rest 0) (u16_at rest 2))
        else if bool_decide (protocol = 1) then Some SliceIcmpv4
        else Some SliceUnknown in
      Some (Some (SliceIpv4 (of_octets src) (of_octets dst)), transport)
  | _ => None
  end.

Definition plain_etherparse : Etherparse := {|
  ip_from_slice := plain_ip; sliced_from_ip := plain_sliced |}.
