(* ===== verification/Qos.v ===== *)
(** Traffic classes and the packet scheduler ([crates/r2n-qos/src/lib.rs]). *)
From stdpp Require Import base tactics numbers list.
From Stdlib Require Import ZArith Lia.
From S2P Require Import Prelude Bytes Proto Etherparse.
Local Open Scope Z_scope.

Inductive TrafficClass := Control | Realtime | Interactive | Bulk.
#[export] Instance TrafficClass_eq_dec : EqDecision TrafficClass.
Proof. solve_decision. Defined.

(** ** Classification *)
Section Classify.
Context `{P : Etherparse}.

Definition classify_ip_packet (payload : list Z) : TrafficClass :=
  match ip_from_slice payload with
  | Some (ip, remainder) =>
      let protocol := match ip with
                      | Version4 _ _ protocol => protocol
                      | Version6 next_header => next_header
                      end in
      if bool_decide (protocol = 1) || bool_decide (protocol = 58) then Control
      else if bool_decide (protocol = 17) && bool_decide (length payload ≤ 512)%nat
      then Realtime
      else if bool_decide (protocol = 6) then
        if bool_decide (14 ≤ length remainder)%nat
           && negb (bool_decide (Z.land (nth 13 remainder 0) 2 = 0))
        then Interactive else Bulk
      else Interactive
  | None => Realtime
  end.

Definition classify_packet (packet_type : DataPacketType) (payload : list Z)
  : TrafficClass :=
  match packet_type with
  | Keepalive | Ping | Pong => Control
  | Broadcast | Multicast | Discovery | Ethernet => Realtime
  | IPv4 | IPv6 => classify_ip_packet payload
  end.
End Classify.

(** ** The scheduler *)
Section Scheduler.
Context {T : Type}.

(** Each [VecDeque] is a list, oldest first. *)
Record QosScheduler := mkQosScheduler {
  control : list T;
  realtime : list T;
  interactive : list T;
  bulk : list T;
  bulk_capacity : nat;
}.

Definition new (bulk_capacity : nat) : QosScheduler :=
  mkQosScheduler [] [] [] [] bulk_capacity.

Definition push (class : TrafficClass) (item : T) (s : QosScheduler) : QosScheduler :=
  let '(mkQosScheduler c r i b cap) := s in
  match class with
  | Control => mkQosScheduler (c ++ [item]) r i b cap
  | Realtime => mkQosScheduler c (r ++ [item]) i b cap
  | Interactive => mkQosScheduler c r (i ++ [item]) b cap
  | Bulk =>
      let b := if bool_decide (cap ≤ length b)%nat then tail b else b in
      mkQosScheduler c r i (b ++ [item]) cap
  end.

Definition pop (s : QosScheduler) : option T * QosScheduler :=
  match s with
  | mkQosScheduler (x :: c) r i b cap => (Some x, mkQosScheduler c r i b cap)
  | mkQosScheduler [] (x :: r) i b cap => (Some x, mkQosScheduler [] r i b cap)
  | mkQosScheduler [] [] (x :: i) b cap => (Some x, mkQosScheduler [] [] i b cap)
  | mkQosScheduler [] [] [] (x :: b) cap => (Some x, mkQosScheduler [] [] [] b cap)
  | mkQosScheduler [] [] [] [] cap => (None, s)
  end.

(** ** What the scheduler promises

    One queue of classified items in arrival order.  Taking an item takes the
    oldest of the most urgent class waiting; a bulk item that arrives when
    [cap] bulk items wait first displaces the oldest of them. *)
Abbreviation spec := (list (TrafficClass * T)).

Definition of_class (c : TrafficClass) (q : spec) : list T :=
  snd <$> filter (λ e, e.1 = c) q.

(** Removes the oldest item of a class. *)
Fixpoint take_class (c : TrafficClass) (q : spec) : option (T * spec) :=
  match q with
  | [] => None
  | (c', x) :: q' =>
      if decide (c' = c) then Some (x, q')
      else match take_class c q' with
           | Some (y, r) => Some (y, (c', x) :: r)
           | None => None
           end
  end.

Definition spec_push (cap : nat) (c : TrafficClass) (x : T) (q : spec) : spec :=
  let q := match c with
           | Bulk => if bool_decide (cap ≤ length (of_class Bulk q))%nat
                     then match take_class Bulk q with
                          | Some (_, r) => r
                          | None => q
                          end
                     else q
           | _ => q
           end in
  q ++ [(c, x)].

Fixpoint first_of (cs : list TrafficClass) (q : spec) : option T * spec :=
  match cs with
  | [] => (None, q)
  | c :: cs' => match take_class c q with
                | Some (x, r) => (Some x, r)
                | None => first_of cs' q
                end
  end.

Definition spec_pop (q : spec) : option T * spec :=
  first_of [Control; Realtime; Interactive; Bulk] q.

Inductive op := Push (c : TrafficClass) (x : T) | Pop.

Fixpoint run (ops : list op) (s : QosScheduler) : list (option T) :=
  match ops with
  | [] => []
  | Push c x :: ops' => run ops' (push c x s)
  | Pop :: ops' => let '(o, s') := pop s in o :: run ops' s'
  end.

Fixpoint spec_run (cap : nat) (ops : list op) (q : spec) : list (option T) :=
  match ops with
  | [] => []
  | Push c x :: ops' => spec_run cap ops' (spec_push cap c x q)
  | Pop :: ops' => let '(o, q') := spec_pop q in o :: spec_run cap ops' q'
  end.

(** The scheduler that stands for a queue. *)
Definition split_queue (cap : nat) (q : spec) : QosScheduler :=
  mkQosScheduler (of_class Control q) (of_class Realtime q) (of_class Interactive q)
    (of_class Bulk q) cap.

Lemma of_class_app c q q' : of_class c (q ++ q') = of_class c q ++ of_class c q'.
Proof. unfold of_class. by rewrite filter_app, fmap_app. Qed.

Lemma of_class_snoc c q c' x :
  of_class c (q ++ [(c', x)]) = of_class c q ++ (if decide (c' = c) then [x] else []).
Proof.
  rewrite of_class_app. f_equal. unfold of_class.
  rewrite filter_cons, filter_nil. simpl. by case_decide.
Qed.

Lemma take_class_None c q : take_class c q = None → of_class c q = [].
Proof.
  induction q as [|[c' x] q IH]; simpl; [done|]. unfold of_class.
  rewrite filter_cons. simpl. case_decide; [done|]. destruct (take_class c q) as [[]|]; [done|].
  intros _. by apply IH.
Qed.

Lemma of_class_cons c q c' x :
  of_class c ((c', x) :: q) = (if decide (c' = c) then [x] else []) ++ of_class c q.
Proof. unfold of_class. rewrite filter_cons. simpl. by case_decide. Qed.

Lemma take_class_Some c q x r :
  take_class c q = Some (x, r) →
  of_class c q = x :: of_class c r ∧ ∀ c', c' ≠ c → of_class c' r = of_class c' q.
Proof.
  revert r. induction q as [|[c0 y] q IH]; intros r; simpl; [done|].
  rewrite of_class_cons. case_decide as Hd.
  - intros [= -> ->]. split; [done|]. intros c' Hc'. rewrite of_class_cons.
    by rewrite decide_False by congruence.
  - destruct (take_class c q) as [[z r']|] eqn:E; [|done].
    intros [= -> <-]. destruct (IH r' eq_refl) as [H1 H2]. split.
    + rewrite of_class_cons. rewrite decide_False by done. done.
    + intros c' Hc'. rewrite !of_class_cons. by rewrite H2.
Qed.

Lemma of_class_length_tail c q x r :
  take_class c q = Some (x, r) → of_class c r = tail (of_class c q).
Proof. intros [-> _]%take_class_Some. done. Qed.

Lemma push_split cap c x q :
  push c x (split_queue cap q) = split_queue cap (spec_push cap c x q).
Proof.
  unfold split_queue, spec_push. destruct c; simpl; rewrite !of_class_snoc;
    simpl; rewrite ?app_nil_r; try done.
  case_bool_decide as Hc; [|done].
  destruct (take_class Bulk q) as [[y r]|] eqn:E.
  - rewrite (of_class_length_tail _ _ _ _ E).
    apply take_class_Some in E as [_ E].
    by rewrite !E.
  - apply take_class_None in E. by rewrite E.
Qed.

Lemma pop_split cap q :
  pop (split_queue cap q) = let '(o, q') := spec_pop q in (o, split_queue cap q').
Proof.
  unfold spec_pop, split_queue. simpl.
  repeat lazymatch goal with
  | |- context [take_class ?c q] =>
      let E := fresh "E" in
      destruct (take_class c q) as [[? ?]|] eqn:E;
      [apply take_class_Some in E as [E ?]|apply take_class_None in E];
      rewrite ?E
  end;
  repeat match goal with
  | H : ∀ c', c' ≠ _ → of_class c' _ = of_class c' q |- _ =>
      rewrite ?(H Control), ?(H Realtime), ?(H Interactive), ?(H Bulk) by done; clear H
  end;
  repeat match goal with H : of_class _ q = _ |- _ => rewrite H; clear H end; done.
Qed.

Lemma run_split cap ops q : run ops (split_queue cap q) = spec_run cap ops q.
Proof.
  revert q. induction ops as [|[c x|] ops IH]; intros q; cbn [run spec_run]; [done| |].
  - by rewrite push_split.
  - rewrite pop_split. destruct (spec_pop q) as [o q']. by rewrite IH.
Qed.
End Scheduler.
Arguments QosScheduler : clear implicits.

(** ** Properties *)

(** C40: a scheduler answers every sequence of pushes and pops as the single
    queue that serves the oldest item of the most urgent class and displaces the
    oldest bulk item when the bulk class is full. *)
Theorem qos_refines_priority_queue {T} (cap : nat) (ops : list (op (T:=T))) :
  run ops (new cap) = spec_run cap ops [].
Proof. apply (run_split cap ops []). Qed.

(** The bulk class stays within its capacity under every operation (a
    capacity of zero still holds one item), so waiting bulk traffic is bounded. *)
Theorem bulk_bounded {T} (s : QosScheduler T) c x :
  (length (bulk s) ≤ Nat.max 1 (bulk_capacity s))%nat →
  (length (bulk (push c x s)) ≤ Nat.max 1 (bulk_capacity (push c x s)))%nat
  ∧ (length (bulk (pop s).2) ≤ Nat.max 1 (bulk_capacity (pop s).2))%nat.
Proof.
  destruct s as [l1 l2 l3 bs cap]. intros H. simpl in H. split.
  - destruct c; simpl; try lia. case_bool_decide; rewrite length_app; simpl;
      [destruct bs; simpl in *; lia|lia].
  - destruct l1, l2, l3, bs; simpl in *; lia.
Qed.

Lemma bulk_bounded_witness :
  let s := push Bulk true (new 1) in
  (length (bulk (push Bulk false s)) ≤ Nat.max 1 (bulk_capacity (push Bulk false s)))%nat
  ∧ (length (bulk (pop s).2) ≤ Nat.max 1 (bulk_capacity (pop s).2))%nat.
Proof. apply (bulk_bounded (push Bulk true (new 1))). vm_compute. lia. Defined.
