(* ===== verification/Crypto.v ===== *)
(** Dataplane ciphers and their replay window ([crates/r2n-crypto/src/lib.rs]). *)
From stdpp Require Import base tactics numbers list gmap.
From Stdlib Require Import ZArith Lia.
From S2P Require Import Prelude Bytes.
Local Open Scope Z_scope.

(** [CryptoError]; the [snow] case arises in the handshake only. *)
Inductive CryptoError := Snow | Aead.

(** ** The AEAD of [chacha20poly1305]

    Keys, 12-byte nonces and 16-byte tags; [aead_seal] is
    [encrypt_in_place_detached], [aead_open] is [decrypt_in_place_detached]. *)
Class AeadLib := {
  AeadKey : Type;
  aead_new : list Z → total AeadKey;
  aead_seal : AeadKey → list Z → list Z → list Z → option (list Z * list Z);
  aead_open : AeadKey → list Z → list Z → list Z → list Z → option (list Z);
  aead_encrypt : AeadKey → list Z → list Z → option (list Z);
  aead_decrypt : AeadKey → list Z → list Z → option (list Z);
}.

Class AeadLaws (A : AeadLib) : Prop := {
  aead_seal_lengths : ∀ k n a m c t,
    aead_seal k n a m = Some (c, t) → length c = length m ∧ length t = 16%nat;
  aead_open_seal : ∀ k n a m c t,
    aead_seal k n a m = Some (c, t) → aead_open k n a c t = Some m;
  aead_open_length : ∀ k n a c t m,
    aead_open k n a c t = Some m → length m = length c;
}.

(** ** The replay window *)
Record ReplayWindow := mkReplayWindow { last_nonce : Z; bitmap : Z }.

(** The bit of [1 << diff] in a 64-bit word. *)
Definition check_window (p : profile) (nonce : Z) (win : ReplayWindow)
  : outcome CryptoError unit :=
  if bool_decide (nonce ≤ last_nonce win) then
    let diff := last_nonce win - nonce in
    if bool_decide (64 ≤ diff) then Err Aead
    else
      bit ← lift (shl p 64 1 diff);
      if negb (bool_decide (Z.land (bitmap win) bit = 0)) then Err Aead else Ok tt
  else Ok tt.

Definition advance_window (p : profile) (nonce : Z) (win : ReplayWindow)
  : total ReplayWindow :=
  if bool_decide (last_nonce win < nonce) then
    let shift := Z.min (nonce - last_nonce win) 64 in
    shifted ← shl p 64 (bitmap win) shift;
    Ok (mkReplayWindow nonce (Z.lor shifted 1))
  else
    let diff := last_nonce win - nonce in
    bit ← shl p 64 1 diff;
    Ok (mkReplayWindow (last_nonce win) (Z.lor (bitmap win) bit)).

(** ** The cipher

    The window is behind a mutex, which is poisoned when its holder unwinds. *)
Section Cipher.
Context `{A : AeadLib}.

Record Cipher := mkCipher {
  inner : AeadKey;
  window : ReplayWindow;
  poisoned : bool;
}.

Definition new (key : list Z) : total Cipher :=
  k ← aead_new key; Ok (mkCipher k (mkReplayWindow 0 0) false).

(** [n[4..12].copy_from_slice(&nonce.to_be_bytes())] in twelve zero bytes. *)
Definition nonce_bytes (nonce : Z) : list Z := replicate 4 0 ++ to_be_bytes 8 nonce.

Definition encrypt (c : Cipher) (nonce : Z) (payload : list Z)
  : outcome CryptoError (list Z) :=
  ok_or Aead (aead_encrypt (inner c) (nonce_bytes nonce) payload).

(** The result is the sealed length and the buffer. *)
Definition encrypt_in_place (c : Cipher) (nonce : Z) (aad buffer : list Z)
    (payload_len : nat) : outcome CryptoError (nat * list Z) :=
  payload ← lift (slice buffer 0 payload_len);
  '(ct, tag) ← ok_or Aead (aead_seal (inner c) (nonce_bytes nonce) aad payload);
  buffer ← lift (copy_from_slice buffer 0 payload_len ct);
  buffer ← lift (copy_from_slice buffer payload_len (payload_len + 16) tag);
  Ok ((payload_len + 16)%nat, buffer).

Definition check_replay_window (p : profile) (nonce : Z) : M Cipher CryptoError unit :=
  λ c, if poisoned c then (Panic, c) else (check_window p nonce (window c), c).

Definition advance_replay_window (p : profile) (nonce : Z) : M Cipher CryptoError unit :=
  λ c,
  if poisoned c then (Panic, c)
  else match advance_window p nonce (window c) with
       | Ok w => (Ok tt, mkCipher (inner c) w false)
       | Err e => match e with end
       | Panic => (Panic, mkCipher (inner c) (window c) true)
       end.

Definition decrypt (p : profile) (nonce : Z) (ciphertext : list Z)
  : M Cipher CryptoError (list Z) :=
  do* check_replay_window p nonce in
  let* c := mget in
  let* decrypted :=
    mlift (ok_or Aead (aead_decrypt (inner c) (nonce_bytes nonce) ciphertext)) in
  do* advance_replay_window p nonce in
  mreturn decrypted.

(** The result is the payload length and the buffer: the payload in front, the
    tag bytes after it. *)
Definition decrypt_in_place (p : profile) (nonce : Z) (aad buffer : list Z)
  : M Cipher CryptoError (nat * list Z) :=
  do* check_replay_window p nonce in
  if bool_decide (length buffer < 16)%nat then mthrow Aead else
  let payload_len := (length buffer - 16)%nat in
  let payload := take payload_len buffer in
  let tag := drop payload_len buffer in
  let* c := mget in
  let* m := mlift (ok_or Aead (aead_open (inner c) (nonce_bytes nonce) aad payload tag)) in
  do* advance_replay_window p nonce in
  mreturn (payload_len, m ++ tag).

(** ** Sequences of incoming frames *)
Record frame := mkFrame { f_nonce : Z; f_aad : list Z; f_buffer : list Z }.

(** The nonces of the frames that were accepted, in order. *)
Fixpoint accepted (p : profile) (fs : list frame) (c : Cipher) : list Z :=
  match fs with
  | [] => []
  | f :: fs' =>
      match decrypt_in_place p (f_nonce f) (f_aad f) (f_buffer f) c with
      | (Ok _, c') => f_nonce f :: accepted p fs' c'
      | (_, c') => accepted p fs' c'
      end
  end.
End Cipher.
Arguments Cipher : clear implicits.

(** ** The window as a set of accepted nonces *)

(** The window never forgets an accepted nonce it could accept again. *)
Definition window_covers (S : gset Z) (w : ReplayWindow) : Prop :=
  u_ok 64 (bitmap w)
  ∧ ∀ n, n ∈ S → n ≤ last_nonce w
      ∧ (last_nonce w - n < 64 → Z.testbit (bitmap w) (last_nonce w - n) = true).

(** ... and, while no jump of 64 or more has been made, remembers nothing else. *)
Definition window_exact (S : gset Z) (w : ReplayWindow) : Prop :=
  window_covers S w
  ∧ ∀ i, 0 ≤ i < 64 → Z.testbit (bitmap w) i = true → last_nonce w - i ∈ S.

Lemma shl_one p d : 0 ≤ d < 64 → shl p 64 1 d = Ok (2 ^ d).
Proof.
  intros Hd. unfold shl. rewrite bool_decide_eq_true_2 by lia.
  rewrite Z.shiftl_1_l. f_equal. apply wrap_small. unfold u_ok.
  pose proof (Z.pow_lt_mono_r 2 d 64). lia.
Qed.

Lemma land_pow2_zero b d : 0 ≤ d → Z.land b (2 ^ d) = 0 ↔ Z.testbit b d = false.
Proof.
  intros Hd. split.
  - intros H. assert (Z.testbit (Z.land b (2 ^ d)) d = false) as Ht
      by (by rewrite H, Z.testbit_0_l).
    rewrite Z.land_spec, Z.pow2_bits_true, andb_true_r in Ht; done.
  - intros H. apply Z.bits_inj'. intros i Hi. rewrite Z.testbit_0_l, Z.land_spec.
    rewrite Z.pow2_bits_eqb by done. destruct (Z.eqb_spec d i) as [->|];
      [by rewrite H|by rewrite andb_false_r].
Qed.

(** What [check_window] accepts. *)
Lemma check_window_Ok p n w :
  0 ≤ n →
  check_window p n w = Ok tt ↔
  last_nonce w < n ∨ (last_nonce w - n < 64 ∧ Z.testbit (bitmap w) (last_nonce w - n) = false).
Proof.
  intros Hn. unfold check_window. case_bool_decide as Hle.
  - case_bool_decide as Hd; [naive_solver lia|].
    rewrite shl_one by lia. cbn [lift mbind outcome_bind].
    rewrite <- land_pow2_zero by lia.
    case_bool_decide; simpl; naive_solver lia.
  - naive_solver lia.
Qed.

Lemma check_window_result p n w :
  0 ≤ n → check_window p n w = Ok tt ∨ check_window p n w = Err Aead.
Proof.
  intros Hn. unfold check_window. case_bool_decide; [|by left].
  case_bool_decide; [by right|]. rewrite shl_one by lia. simpl.
  case_bool_decide; simpl; auto.
Qed.

Lemma lor_u_ok w a b : 0 ≤ w → u_ok w a → u_ok w b → u_ok w (Z.lor a b).
Proof.
  intros Hw Ha Hb. destruct (decide (a = 0)) as [->|]; [by rewrite Z.lor_0_l|].
  destruct (decide (b = 0)) as [->|]; [by rewrite Z.lor_0_r|].
  unfold u_ok in *. split; [apply Z.lor_nonneg; lia|].
  assert (Z.log2 a < w ∧ Z.log2 b < w) as [? ?]
    by (split; apply Z.log2_lt_pow2; lia).
  apply Z.log2_lt_pow2; [|rewrite Z.log2_lor by lia; lia].
  assert (0 ≤ Z.lor a b) by (apply Z.lor_nonneg; lia).
  destruct (decide (Z.lor a b = 0)) as [E|]; [|lia].
  apply Z.lor_eq_0_iff in E. lia.
Qed.

(** The shifted bitmap of an advance, for a shift that does not overflow. *)
Lemma shl_small p b k : k < 64 → shl p 64 b k = Ok (wrap 64 (Z.shiftl b k)).
Proof. intros. unfold shl. by rewrite bool_decide_eq_true_2. Qed.

Lemma wrap_shiftl_testbit b k i :
  0 ≤ k → 0 ≤ i < 64 →
  Z.testbit (wrap 64 (Z.shiftl b k)) i = (k <=? i) && Z.testbit b (i - k).
Proof.
  intros Hk Hi. unfold wrap. rewrite Z.mod_pow2_bits_low, Z.shiftl_spec by lia.
  destruct (Z.leb_spec k i); [done|]. by rewrite Z.testbit_neg_r by lia.
Qed.

(** A shift of 64 is a shift of zero in the release build. *)
Lemma shl_64 p b :
  u_ok 64 b → shl p 64 b 64 = match p with Debug => Panic | Release => Ok b end.
Proof.
  intros Hb. unfold shl. rewrite bool_decide_eq_false_2 by lia.
  destruct p; [done|]. rewrite Z_mod_same_full, Z.shiftl_0_r. by rewrite wrap_small.
Qed.

Lemma lor_1_testbit r i : 0 < i → Z.testbit (Z.lor r 1) i = Z.testbit r i.
Proof.
  intros. rewrite Z.lor_spec. change 1 with (2 ^ 0).
  rewrite Z.pow2_bits_false by lia. apply orb_false_r.
Qed.

Lemma lor_1_testbit_0 r : Z.testbit (Z.lor r 1) 0 = true.
Proof. rewrite Z.lor_spec. by rewrite orb_true_r. Qed.

Lemma u_ok_lor_1 r : u_ok 64 r → u_ok 64 (Z.lor r 1).
Proof. intros. apply lor_u_ok; [lia|done|unfold u_ok; lia]. Qed.

Lemma u_ok_pow2 d : 0 ≤ d < 64 → u_ok 64 (2 ^ d).
Proof.
  intros. pose proof (Z.pow_lt_mono_r 2 d 64). pose proof (Z.pow_pos_nonneg 2 d).
  unfold u_ok. lia.
Qed.

(** Advancing keeps what was accepted and adds the new nonce. *)
Lemma advance_covers p S n w w' :
  0 ≤ n → window_covers S w → check_window p n w = Ok tt →
  advance_window p n w = Ok w' → window_covers ({[n]} ∪ S) w'.
Proof.
  intros Hn [Hb HS] Hc Ha. apply check_window_Ok in Hc; [|done].
  unfold advance_window in Ha. case_bool_decide as Hlt.
  - destruct (decide (n - last_nonce w < 64)) as [Hs|Hs].
    + rewrite Z.min_l, shl_small in Ha by lia. injection Ha as <-. split; cbn.
      { apply u_ok_lor_1, wrap_range. lia. }
      intros m [->%elem_of_singleton|Hm]%elem_of_union.
      { split; [lia|]. rewrite Z.sub_diag. intros _. apply lor_1_testbit_0. }
      destruct (HS m Hm) as [Hml Hbit]. split; [lia|]. intros Hd.
      rewrite lor_1_testbit, wrap_shiftl_testbit by lia.
      destruct (Z.leb_spec (n - last_nonce w) (n - m)); [|lia].
      replace (n - m - (n - last_nonce w)) with (last_nonce w - m) by lia.
      apply Hbit. lia.
    + rewrite Z.min_r, shl_64 in Ha by (done || lia). destruct p; [done|].
      injection Ha as <-. split; cbn; [by apply u_ok_lor_1|].
      intros m [->%elem_of_singleton|Hm]%elem_of_union.
      { split; [lia|]. rewrite Z.sub_diag. intros _. apply lor_1_testbit_0. }
      destruct (HS m Hm) as [Hml _]. split; lia.
  - destruct Hc as [?|[Hd Hbit]]; [lia|].
    rewrite shl_one in Ha by lia. injection Ha as <-. split; cbn.
    { apply lor_u_ok; [lia|done|apply u_ok_pow2; lia]. }
    intros m [->%elem_of_singleton|Hm]%elem_of_union.
    { split; [lia|]. intros _. rewrite Z.lor_spec, Z.pow2_bits_true by lia.
      apply orb_true_r. }
    destruct (HS m Hm) as [Hml Hm']. split; [done|]. intros. rewrite Z.lor_spec.
    by rewrite Hm' by done.
Qed.

(** A nonce the window took is refused from then on. *)
Lemma window_spent p n w w' :
  0 ≤ n → check_window p n w = Ok tt → advance_window p n w = Ok w' →
  check_window p n w' = Err Aead.
Proof.
  intros Hn Hc Ha. destruct (check_window_result p n w' Hn) as [H|]; [exfalso|done].
  apply check_window_Ok in H; [|done]. apply check_window_Ok in Hc; [|done].
  unfold advance_window in Ha. case_bool_decide as Hlt.
  - destruct (shl _ _ _ _) as [r|[]|]; simpl in Ha; [|done]. injection Ha as <-. cbn in H.
    rewrite Z.sub_diag, lor_1_testbit_0 in H. intuition (lia || done).
  - destruct Hc as [?|[Hd _]]; [lia|]. rewrite shl_one in Ha by lia. injection Ha as <-.
    cbn in H. rewrite Z.lor_spec, Z.pow2_bits_true, orb_true_r in H by lia.
    intuition (lia || done).
Qed.

(** A jump below 64 neither unwinds nor forgets or invents an accepted nonce. *)
Lemma advance_exact p S n w :
  0 ≤ n → n - last_nonce w < 64 → window_exact S w → check_window p n w = Ok tt →
  ∃ w', advance_window p n w = Ok w' ∧ window_exact ({[n]} ∪ S) w'
    ∧ last_nonce w' = Z.max n (last_nonce w).
Proof.
  intros Hn Hj [Hcov Hex] Hc.
  enough (∃ w', advance_window p n w = Ok w' ∧ last_nonce w' = Z.max n (last_nonce w)
    ∧ ∀ i, 0 ≤ i < 64 → Z.testbit (bitmap w') i = true →
        last_nonce w' - i ∈ ({[n]} ∪ S : gset Z)) as (w' & Ha & Hl & He).
  { exists w'. split_and!; [done| |done]. split; [|done]. by eapply advance_covers. }
  apply check_window_Ok in Hc; [|done].
  unfold advance_window. case_bool_decide as Hlt.
  - rewrite Z.min_l, shl_small by lia. eexists. split; [done|]. cbn.
    split; [lia|]. intros i Hi.
    destruct (decide (i = 0)) as [->|]; [rewrite Z.sub_0_r; set_solver|].
    rewrite lor_1_testbit, wrap_shiftl_testbit by lia.
    intros [Hle Ht]%andb_true_iff. apply elem_of_union_r.
    replace (n - i) with (last_nonce w - (i - (n - last_nonce w))) by lia.
    apply Hex; [lia|done].
  - destruct Hc as [?|[Hd Hbit]]; [lia|]. rewrite shl_one by lia.
    eexists. split; [done|]. cbn. split; [lia|]. intros i Hi.
    rewrite Z.lor_spec, orb_true_iff, Z.pow2_bits_eqb by lia.
    intros [Ht|Ht%Z.eqb_eq]; apply elem_of_union; [right; auto|left].
    apply elem_of_singleton. lia.
Qed.

(** ** Decryption steps *)
Section Steps.
Context `{A : AeadLib}.

(** The cipher after a sequence of frames. *)
Fixpoint deliver (p : profile) (fs : list frame) (c : Cipher A) : Cipher A :=
  match fs with
  | [] => c
  | f :: fs' =>
      deliver p fs' (decrypt_in_place p (f_nonce f) (f_aad f) (f_buffer f) c).2
  end.

(** No frame of the sequence jumps 64 or more ahead of the window. *)
Fixpoint small_jumps (p : profile) (fs : list frame) (c : Cipher A) : Prop :=
  match fs with
  | [] => True
  | f :: fs' =>
      f_nonce f - last_nonce (window c) < 64
      ∧ small_jumps p fs' (decrypt_in_place p (f_nonce f) (f_aad f) (f_buffer f) c).2
  end.

(** What the AEAD says of a frame. *)
Definition frame_open (c : Cipher A) (f : frame) : option (list Z) :=
  if bool_decide (length (f_buffer f) < 16)%nat then None
  else aead_open (inner c) (nonce_bytes (f_nonce f)) (f_aad f)
         (take (length (f_buffer f) - 16) (f_buffer f))
         (drop (length (f_buffer f) - 16) (f_buffer f)).

Lemma decrypt_in_place_Ok p n aad buf c r c' :
  decrypt_in_place p n aad buf c = (Ok r, c') →
  poisoned c = false ∧ check_window p n (window c) = Ok tt
  ∧ advance_window p n (window c) = Ok (window c')
  ∧ inner c' = inner c ∧ poisoned c' = false
  ∧ is_Some (frame_open c (mkFrame n aad buf)).
Proof.
  unfold decrypt_in_place, mseq, check_replay_window, mget, mlift, mthrow, mreturn,
    advance_replay_window, frame_open. cbn.
  destruct (poisoned c) eqn:Hp; [done|].
  destruct (check_window p n (window c)) as [[]| |] eqn:Hc; try done.
  case_bool_decide; [done|]. destruct (aead_open _ _ _ _ _) eqn:Ho; [|done].
  cbn. rewrite Hp. destruct (advance_window p n (window c)) as [w|[]|] eqn:Ha; [|done].
  intros [= <- <-]. cbn. eauto 10.
Qed.

(** A frame that is not accepted leaves the window as it was. *)
Lemma decrypt_in_place_rejected p n aad buf c :
  is_ok (decrypt_in_place p n aad buf c).1 = false →
  window (decrypt_in_place p n aad buf c).2 = window c
  ∧ inner (decrypt_in_place p n aad buf c).2 = inner c.
Proof.
  unfold decrypt_in_place, mseq, check_replay_window, mget, mlift, mthrow, mreturn,
    advance_replay_window. cbn.
  destruct (poisoned c) eqn:Hp; [done|].
  destruct (check_window p n (window c)) as [[]| |] eqn:Hc; try done.
  case_bool_decide; [done|]. destruct (aead_open _ _ _ _ _) eqn:Ho; [|done].
  cbn. rewrite Hp. by destruct (advance_window p n (window c)) as [w|[]|] eqn:Ha.
Qed.

(** A fresh authentic frame within reach of the window is accepted. *)
Lemma decrypt_in_place_accepts p n aad buf c w' :
  poisoned c = false → check_window p n (window c) = Ok tt →
  advance_window p n (window c) = Ok w' →
  is_Some (frame_open c (mkFrame n aad buf)) →
  is_ok (decrypt_in_place p n aad buf c).1 = true
  ∧ (decrypt_in_place p n aad buf c).2 = mkCipher (inner c) w' false.
Proof.
  unfold decrypt_in_place, mseq, check_replay_window, mget, mlift, mthrow, mreturn,
    advance_replay_window, frame_open. cbn.
  intros Hp Hc Ha Ho. rewrite Hp, Hc. case_bool_decide; [by destruct Ho|].
  destruct Ho as [m ->]. cbn. by rewrite Hp, Ha.
Qed.

(** What an accepted frame gives. *)
Lemma decrypt_in_place_run p n aad ct tag c w' m :
  poisoned c = false → check_window p n (window c) = Ok tt →
  advance_window p n (window c) = Ok w' → length tag = 16%nat →
  aead_open (inner c) (nonce_bytes n) aad ct tag = Some m →
  decrypt_in_place p n aad (ct ++ tag) c
  = (Ok (length ct, m ++ tag), mkCipher (inner c) w' false).
Proof.
  intros Hp Hc Ha Ht Ho.
  unfold decrypt_in_place, mseq, check_replay_window, mget, mlift, mreturn,
    advance_replay_window.
  rewrite Hp, Hc. rewrite length_app, Ht.
  rewrite bool_decide_eq_false_2 by lia.
  replace (length ct + 16 - 16)%nat with (length ct) by lia.
  rewrite take_app_length, drop_app_length, Ho. cbn. by rewrite Hp, Ha.
Qed.

Lemma accepted_fresh p fs c S :
  Forall (λ f, 0 ≤ f_nonce f) fs → window_covers S (window c) →
  NoDup (accepted p fs c) ∧ ∀ n, n ∈ accepted p fs c → n ∉ S.
Proof.
  revert c S. induction fs as [|f fs IH]; intros c S Hf HS; cbn [accepted].
  { split; [constructor|set_solver]. }
  inversion Hf as [|? ? Hn Hfs]; subst.
  destruct (decrypt_in_place p _ _ _ c) as [[r| |] c'] eqn:E.
  - apply decrypt_in_place_Ok in E as (_ & Hc & Ha & _).
    destruct (IH c' ({[f_nonce f]} ∪ S) Hfs) as [H1 H2];
      [by eapply advance_covers|].
    assert (f_nonce f ∉ S) as Hnew.
    { intros Hin. destruct (proj2 HS _ Hin) as [Hle Hbit].
      apply check_window_Ok in Hc; [|done].
      destruct Hc as [?|[Hd Hf0]]; [lia|]. rewrite Hbit in Hf0 by done. done. }
    split; [constructor; [|done]|]; set_solver.
  - pose proof (decrypt_in_place_rejected p (f_nonce f) (f_aad f) (f_buffer f) c) as Hr.
    rewrite E in Hr. destruct (Hr eq_refl) as [Hw _]. apply IH; [done|]. cbn in Hw.
    by rewrite Hw.
  - pose proof (decrypt_in_place_rejected p (f_nonce f) (f_aad f) (f_buffer f) c) as Hr.
    rewrite E in Hr. destruct (Hr eq_refl) as [Hw _]. apply IH; [done|]. cbn in Hw.
    by rewrite Hw.
Qed.

(** Within reach of an exact window a frame is accepted, or nothing changes. *)
Lemma decrypt_in_place_exact p f c S :
  0 ≤ f_nonce f → poisoned c = false → window_exact S (window c) →
  f_nonce f - last_nonce (window c) < 64 →
  let r := decrypt_in_place p (f_nonce f) (f_aad f) (f_buffer f) c in
  (∃ v w', r = (Ok v, mkCipher (inner c) w' false) ∧ window_exact ({[f_nonce f]} ∪ S) w')
  ∨ r = (Err Aead, c).
Proof.
  intros Hn Hp HS Hj.
  destruct (check_window_result p (f_nonce f) (window c) Hn) as [Hc|Hc].
  - destruct (advance_exact p S _ _ Hn Hj HS Hc) as (w' & Ha & Hex & _).
    destruct (frame_open c f) as [m|] eqn:Ho.
    + destruct (decrypt_in_place_accepts p (f_nonce f) (f_aad f) (f_buffer f) c w')
        as [H1 H2]; [done..|destruct f; by eexists|].
      left. destruct (decrypt_in_place _ _ _ _ _) as [[v| |] c'] eqn:E; try done.
      cbn in H2. subst. eauto.
    + right. unfold frame_open in Ho.
      unfold decrypt_in_place, mseq, check_replay_window, mget, mlift, mthrow.
      rewrite Hp, Hc. case_bool_decide; [done|]. by rewrite Ho.
  - right. unfold decrypt_in_place, mseq, check_replay_window.
    by rewrite Hp, Hc.
Qed.

Lemma deliver_exact p fs c S :
  Forall (λ f, 0 ≤ f_nonce f) fs → poisoned c = false → window_exact S (window c) →
  small_jumps p fs c →
  poisoned (deliver p fs c) = false ∧ inner (deliver p fs c) = inner c
  ∧ window_exact (list_to_set (accepted p fs c) ∪ S) (window (deliver p fs c)).
Proof.
  revert c S. induction fs as [|f fs IH]; intros c S Hf Hp HS Hj;
    cbn [deliver accepted small_jumps] in *.
  { split_and!; [done..|]. cbn. by rewrite (left_id_L ∅ union). }
  inversion Hf as [|? ? Hn Hfs]; subst. destruct Hj as [Hj Hjs].
  destruct (decrypt_in_place_exact p f c S Hn Hp HS Hj) as [(v & w' & E & Hex)|E];
    rewrite E in *; cbn [snd] in *.
  - destruct (IH (mkCipher (inner c) w' false) _ Hfs eq_refl Hex Hjs) as (H1 & H2 & H3).
    split_and!; [done|done|]. revert H3. generalize (accepted p fs (mkCipher (inner c) w' false)).
    intros l. by assert (list_to_set (f_nonce f :: l) ∪ S
      = list_to_set l ∪ ({[f_nonce f]} ∪ S) :> gset Z) as -> by set_solver.
  - by apply IH.
Qed.

Lemma new_window (key : list Z) c :
  new key = Ok c →
  window c = mkReplayWindow 0 0 ∧ poisoned c = false.
Proof. unfold new. intros H. inv_bind. by injection H as <-. Qed.

Lemma window_exact_initial : window_exact ∅ (mkReplayWindow 0 0).
Proof.
  split; [split|]; cbn; [unfold u_ok; lia|set_solver|].
  intros i _. by rewrite Z.testbit_0_l.
Qed.
End Steps.

(** ** Properties *)

(** C1: whatever frames arrive in whatever order, in debug and release builds, a
    cipher never accepts the same nonce twice. *)
Theorem replay_never_accepted_twice `{A : AeadLib} p key c fs :
  new key = Ok c → Forall (λ f, 0 ≤ f_nonce f) fs → NoDup (accepted p fs c).
Proof.
  intros Hnew Hf. apply new_window in Hnew as [Hw _].
  apply (accepted_fresh p fs c ∅ Hf). rewrite Hw. apply window_exact_initial.
Qed.

(** C2: after any frames that never jump 64 ahead, an authentic frame whose nonce
    was not accepted before and is not 64 or more behind is accepted: the window
    rejects nothing but replays and stale frames. *)
Theorem fresh_frame_accepted `{A : AeadLib} p key c fs f :
  new key = Ok c → Forall (λ f, 0 ≤ f_nonce f) (f :: fs) →
  small_jumps p fs c →
  f_nonce f - last_nonce (window (deliver p fs c)) < 64 →
  last_nonce (window (deliver p fs c)) - f_nonce f < 64 →
  f_nonce f ∉ accepted p fs c →
  is_Some (frame_open c f) →
  is_ok (decrypt_in_place p (f_nonce f) (f_aad f) (f_buffer f) (deliver p fs c)).1 = true.
Proof.
  intros Hnew Hf Hj Hj' Hb Hnin Ho. apply new_window in Hnew as [Hw Hp].
  inversion Hf as [|? ? Hn Hfs]; subst.
  destruct (deliver_exact p fs c ∅ Hfs Hp) as (Hp' & Hi & Hex);
    [rewrite Hw; apply window_exact_initial|done|].
  assert (check_window p (f_nonce f) (window (deliver p fs c)) = Ok tt) as Hc.
  { apply check_window_Ok; [done|].
    destruct (Z.lt_ge_cases (last_nonce (window (deliver p fs c))) (f_nonce f));
      [by left|right]. split; [done|]. apply not_true_iff_false. intros Ht.
    apply (proj2 Hex) in Ht; [|lia]. apply Hnin.
    replace (last_nonce (window (deliver p fs c))
      - (last_nonce (window (deliver p fs c)) - f_nonce f)) with (f_nonce f) in Ht by lia.
    set_solver. }
  destruct (advance_exact p _ _ _ Hn Hj' Hex Hc) as (w' & Ha & _).
  destruct (decrypt_in_place_accepts p (f_nonce f) (f_aad f) (f_buffer f)
    (deliver p fs c) w' Hp' Hc Ha) as [? _]; [|done].
  unfold frame_open in *. rewrite Hi. destruct f. exact Ho.
Qed.

(** A jump of 64 or more breaks the window: in a debug build the shift
    overflows, the cipher unwinds and its mutex stays poisoned; in a release
    build the shift amount wraps to zero, so the bits of the old nonces are kept
    for nonces never received, and authentic frames under those are rejected. *)
Theorem replay_window_jump `{A : AeadLib} n (c : Cipher A) :
  poisoned c = false → u_ok 64 (bitmap (window c)) → 64 ≤ n - last_nonce (window c) →
  (advance_replay_window Debug n c
     = (Panic, mkCipher (inner c) (window c) true))
  ∧ (∀ i, 0 < i < 64 → 0 ≤ n - i → Z.testbit (bitmap (window c)) i = true →
       let c' := (advance_replay_window Release n c).2 in
       check_replay_window Release (n - i) c' = (Err Aead, c')
       ∧ last_nonce (window c) < n - i).
Proof.
  intros Hp Hb Hj. unfold advance_replay_window, check_replay_window. rewrite Hp.
  unfold advance_window. rewrite (bool_decide_eq_true_2 (last_nonce _ < n)) by lia.
  rewrite Z.min_r, !shl_64 by (done || lia). split; [done|].
  intros i Hi Hni Ht. cbn. split; [|lia].
  destruct (check_window_result Release (n - i)
    (mkReplayWindow n (Z.lor (bitmap (window c)) 1)) Hni) as [H|H]; [|by rewrite H].
  apply check_window_Ok in H; [|done]. cbn in H.
  destruct H as [?|[_ H]]; [lia|].
  replace (n - (n - i)) with i in H by lia. rewrite lor_1_testbit in H by lia. congruence.
Qed.

(** Sealing a payload in place and opening the result with the same nonce and
    associated data gives the payload back, in front of the buffer, for every
    nonce the window admits. *)
Theorem in_place_roundtrip `{A : AeadLib} `{!AeadLaws A} p c n aad buffer len l sealed :
  poisoned c = false → (len + 16 ≤ length buffer)%nat →
  check_window p n (window c) = Ok tt → is_ok (advance_window p n (window c)) = true →
  encrypt_in_place c n aad buffer len = Ok (l, sealed) →
  l = (len + 16)%nat
  ∧ length sealed = length buffer
  ∧ ∃ out c', decrypt_in_place p n aad (take l sealed) c = (Ok (len, out), c')
      ∧ take len out = take len buffer.
Proof.
  intros Hp Hl Hc Ha He. unfold encrypt_in_place in He.
  rewrite slice_Ok in He by lia. cbn [lift mbind outcome_bind] in He.
  rewrite Nat.sub_0_r, drop_0 in He.
  destruct (aead_seal _ _ _ _) as [[ct tag]|] eqn:Hs; [|done].
  pose proof (aead_seal_lengths _ _ _ _ _ _ Hs) as [Hct Htag].
  rewrite length_take in Hct. cbn [ok_or mbind outcome_bind] in He.
  rewrite copy_from_slice_Ok in He by lia. cbn [lift mbind outcome_bind] in He.
  rewrite take_0, app_nil_l in He. rewrite copy_append in He
    by (rewrite ?length_drop; lia).
  injection He as <- <-. split; [done|]. split.
  { rewrite !length_app, !length_drop. lia. }
  rewrite take_app_length' by (rewrite length_app; lia).
  unfold decrypt_in_place, mseq, check_replay_window, mget, mlift, mreturn,
    advance_replay_window.
  rewrite Hp, Hc. rewrite bool_decide_eq_false_2 by (rewrite length_app; lia).
  replace (length (ct ++ tag) - 16)%nat with len by (rewrite length_app; lia).
  rewrite take_app_length', drop_app_length' by lia.
  rewrite (aead_open_seal _ _ _ _ _ _ Hs). cbn. rewrite Hp.
  destruct (advance_window p n (window c)) as [w|[]|]; [|done].
  eexists _, _. split; [done|]. rewrite take_app_length'; [done|].
  rewrite length_take. lia.
Qed.

(** ** A concrete AEAD

    The ciphertext is the payload; the tag repeats a checksum of everything. *)
Definition toy_tag (k n a m : list Z) : list Z :=
  replicate 16 (wrap 8 (fold_left Z.add (k ++ n ++ a ++ m) 0)).
Definition toy_aead : AeadLib := {|
  AeadKey := list Z; aead_new k := Ok k;
  aead_seal k n a m := Some (m, toy_tag k n a m);
  aead_open k n a c t := if bool_decide (t = toy_tag k n a c) then Some c else None;
  aead_encrypt k n m := Some (m ++ toy_tag k n [] m);
  aead_decrypt k n c := Some (take (length c - 16) c);
|}.
#[export] Instance toy_aead_laws : AeadLaws toy_aead.
Proof.
  split; cbn -[replicate].
  - intros ? ? ? ? ? ? [= <- <-]. split; [done|]. unfold toy_tag. apply length_replicate.
  - intros ? ? ? ? ? ? [= <- <-]. by rewrite bool_decide_eq_true_2.
  - intros ? ? ? ? ? ?. case_bool_decide; [|done]. by intros [= ->].
Qed.

Definition toy_cipher : Cipher toy_aead :=
  mkCipher (A:=toy_aead) [1; 2; 3] (mkReplayWindow 0 0) false.
Definition toy_frame (n : Z) : frame :=
  mkFrame n [7] ([104; 105] ++ toy_tag [1; 2; 3] (nonce_bytes n) [7] [104; 105]).

Lemma replay_never_accepted_twice_witness :
  NoDup (accepted (A:=toy_aead) Release [toy_frame 5; toy_frame 5; toy_frame 3] toy_cipher).
Proof.
  apply (replay_never_accepted_twice (A:=toy_aead) Release [1; 2; 3]).
  - reflexivity.
  - repeat constructor; vm_compute; congruence.
Defined.

Lemma fresh_frame_accepted_witness :
  is_ok (decrypt_in_place (A:=toy_aead) Debug (f_nonce (toy_frame 4)) [7] (f_buffer (toy_frame 4))
    (deliver (A:=toy_aead) Debug [toy_frame 5; toy_frame 3] toy_cipher)).1 = true.
Proof.
  apply (fresh_frame_accepted (A:=toy_aead) Debug [1; 2; 3] toy_cipher
    [toy_frame 5; toy_frame 3] (toy_frame 4)).
  - reflexivity.
  - repeat constructor; vm_compute; congruence.
  - vm_compute. repeat split; reflexivity.
  - vm_compute. reflexivity.
  - vm_compute. reflexivity.
  - apply (bool_decide_unpack _). vm_compute. exact I.
  - vm_compute. eauto.
Defined.

(** Nonces 10 and 11 were received; 100 arrives; 99 was never received. *)
Definition jumped_cipher : Cipher toy_aead :=
  mkCipher (A:=toy_aead) [1; 2; 3] (mkReplayWindow 11 3) false.

Lemma replay_window_jump_witness :
  (advance_replay_window (A:=toy_aead) Debug 100 jumped_cipher
     = (Panic, mkCipher (A:=toy_aead) [1; 2; 3] (mkReplayWindow 11 3) true))
  ∧ (∀ i, 0 < i < 64 → 0 ≤ 100 - i → Z.testbit 3 i = true →
       let c' := (advance_replay_window (A:=toy_aead) Release 100 jumped_cipher).2 in
       check_replay_window (A:=toy_aead) Release (100 - i) c' = (Err Aead, c')
       ∧ 11 < 100 - i).
Proof.
  apply (replay_window_jump (A:=toy_aead) 100 jumped_cipher).
  - reflexivity.
  - split; vm_compute; congruence.
  - vm_compute. congruence.
Defined.

Lemma in_place_roundtrip_witness :
  let sealed := f_buffer (toy_frame 9) in
  18%nat = (2 + 16)%nat ∧ length sealed = length (104 :: 105 :: replicate 16 0)
  ∧ ∃ out c', decrypt_in_place (A:=toy_aead) Debug 9 [7] (take 18 sealed) toy_cipher
        = (Ok (2%nat, out), c')
      ∧ take 2 out = take 2 (104 :: 105 :: replicate 16 0).
Proof.
  apply (in_place_roundtrip (A:=toy_aead) Debug toy_cipher 9 [7]).
  - reflexivity.
  - vm_compute. lia.
  - reflexivity.
  - reflexivity.
  - vm_compute. reflexivity.
Defined.
