(* ===== verification/Room.v ===== *)
(** Rooms and their virtual addresses: crates/r2n-room/src/lib.rs.

    A room hands its members addresses of one virtual network and remembers them as
    leases; the address pool hands rooms disjoint subnets of one network. *)
From Stdlib Require Import ZArith Lia.
From stdpp Require Import base tactics numbers list gmap strings pretty.
From S2P Require Import Prelude Bytes Net NetImpl Common.
Local Open Scope Z_scope.

(** ** Data *)
Inductive MemberRole := Owner | Admin | Guest.
#[export] Instance MemberRole_eq_dec : EqDecision MemberRole.
Proof. solve_decision. Defined.

Record Member := mkMember {
  node_id : NodeId;
  virtual_ip : VirtualIp;
  nickname : string;
  role : MemberRole;
}.

Inductive RoomError :=
| InvalidCidr (s : string)
| AddressPoolExhausted
| InvalidAddressPool (s : string).

Record Room := mkRoom {
  r_room_id : RoomId;
  r_name : string;
  r_owner : NodeId;
  r_virtual_cidr : string;
  r_join_token : string;
  members : gmap NodeId Member;
  ip_leases : gmap NodeId VirtualIp;
}.

Definition Room_new (room_id : RoomId) (name : string) (owner : NodeId)
    (virtual_cidr join_token : string) : Room :=
  mkRoom room_id name owner virtual_cidr join_token ∅ ∅.

Definition set_members (ms : gmap NodeId Member) (r : Room) : Room :=
  mkRoom (r_room_id r) (r_name r) (r_owner r) (r_virtual_cidr r) (r_join_token r)
    ms (ip_leases r).
Definition set_leases (ls : gmap NodeId VirtualIp) (r : Room) : Room :=
  mkRoom (r_room_id r) (r_name r) (r_owner r) (r_virtual_cidr r) (r_join_token r)
    (members r) ls.

Definition add_member (member : Member) (r : Room) : Room :=
  let r := set_leases (<[node_id member := virtual_ip member]> (ip_leases r)) r in
  set_members (<[node_id member := member]> (members r)) r.

Definition remove_member (n : NodeId) (r : Room) : Room :=
  set_members (delete n (members r)) r.

(** [VirtualIp(Ipv4Addr::from(a).octets())]. *)
Definition vip (a : Z) : VirtualIp := mkVirtualIp (octets a).

Definition values {A} (m : gmap NodeId A) : list A := (map_to_list m).*2.

(** The addresses of the members and of the leases, left or not. *)
Definition used_ips (r : Room) : gset VirtualIp :=
  list_to_set (virtual_ip <$> values (members r)) ∪ list_to_set (values (ip_leases r)).

Definition preferred_host (role : MemberRole) : Z :=
  if decide (role = Owner) then 1 else 2.

(** [for host in preferred_host..]: one host per round; [broadcast - network] rounds
    reach the broadcast address. *)
Fixpoint scan_hosts (fuel : nat) (network broadcast : Z) (used : gset VirtualIp)
    (host : Z) : option VirtualIp :=
  match fuel with
  | O => None
  | S fuel =>
      let candidate := saturating_add 32 network host in
      if bool_decide (broadcast ≤ candidate) then None
      else if bool_decide (vip candidate ∉ used) then Some (vip candidate)
      else scan_hosts fuel network broadcast used (host + 1)
  end.

Section Room.
Context `{L : Ipv4NetLib}.

Definition allocate_ip (n : NodeId) (role : MemberRole) : M Room RoomError VirtualIp :=
  λ r,
  let leased :=
    ip ← ip_leases r !! n;
    if bool_decide (Exists (λ m, node_id m ≠ n ∧ virtual_ip m = ip) (values (members r)))
    then None else Some ip in
  match leased with
  | Some ip => (Ok ip, r)
  | None =>
      match net_parse (r_virtual_cidr r) with
      | None => (Err (InvalidCidr (r_virtual_cidr r)), r)
      | Some network =>
          let network_u32 := net_network network in
          let broadcast_u32 := net_broadcast network in
          match scan_hosts (Z.to_nat (broadcast_u32 - network_u32)) network_u32
                  broadcast_u32 (used_ips r) (preferred_host role) with
          | Some ip => (Ok ip, set_leases (<[n := ip]> (ip_leases r)) r)
          | None => (Err AddressPoolExhausted, r)
          end
      end
  end.

Definition add_or_reuse_member (n : NodeId) (nick : string) (role : MemberRole)
    : M Room RoomError VirtualIp :=
  let* ip := allocate_ip n role in
  do* mmodify (add_member (mkMember n ip nick role)) in
  mreturn ip.

(** The calls the supernode makes on a room. *)
Inductive room_step : Room → Room → Prop :=
| step_add r n nick role :
    room_step r (add_or_reuse_member n nick role r).2
| step_remove r n : room_step r (remove_member n r).

Inductive room_reachable : Room → Prop :=
| room_start id name owner cidr token :
    room_reachable (Room_new id name owner cidr token)
| room_next r r' : room_reachable r → room_step r r' → room_reachable r'.

(** ** Address pools *)
Record RoomAddressPool := mkPool {
  pool : Ipv4Net;
  room_prefix_len : Z;
  allocations : gmap RoomId Ipv4Net;
}.

Definition set_allocations (a : gmap RoomId Ipv4Net) (p : RoomAddressPool) :=
  mkPool (pool p) (room_prefix_len p) a.

Definition RoomAddressPool_new (s : string) (room_prefix_len : Z)
    : outcome RoomError RoomAddressPool :=
  pool ← ok_or (InvalidAddressPool s) (net_parse s);
  if bool_decide (room_prefix_len < net_prefix_len pool) || bool_decide (30 < room_prefix_len)
  then Err (InvalidAddressPool
              (net_to_string pool +:+ " with room prefix " +:+ pretty room_prefix_len))
  else Ok (mkPool pool room_prefix_len ∅).

(** [1u32.checked_shl(k).unwrap_or(0)]. *)
Definition checked_shl_1 (k : Z) : Z := if bool_decide (k < 32) then Z.shiftl 1 k else 0.

Definition candidate_indices (pool : Ipv4Net) (room_prefix_len room_count : Z) : list Z :=
  if bool_decide (net_network pool = ipv4 192 168 0 0)
     && bool_decide (net_prefix_len pool = 16)
     && bool_decide (room_prefix_len = 24)
     && bool_decide (room_count = 256)
  then seqZ 200 56 ++ seqZ 4 27 ++ seqZ 32 168 ++ [0; 1; 2; 3; 31]
  else seqZ 0 room_count.

Definition ipv4_nets_overlap (a b : Ipv4Net) : bool :=
  bool_decide (net_network a ≤ net_broadcast b)
  && bool_decide (net_network b ≤ net_broadcast a).

(** The body of the loop over the indices, [u32] arithmetic under profile [pr]. *)
Fixpoint try_candidates (pr : profile) (pool_base subnet_size : Z) (avoid : list Ipv4Net)
    (room : RoomId) (indices : list Z) : M RoomAddressPool RoomError Ipv4Net :=
  match indices with
  | [] => mthrow AddressPoolExhausted
  | index :: indices =>
      let* offset := mlift (lift (checked pr 32 (index * subnet_size))) in
      let* network := mlift (lift (checked pr 32 (pool_base + offset))) in
      let* p := mget in
      let* candidate := mlift (ok_or (InvalidAddressPool (net_to_string (pool p)))
                                 (net_new network (room_prefix_len p))) in
      if negb (bool_decide (Exists (λ u, u = candidate) (map_to_list (allocations p)).*2))
         && negb (existsb (λ blocked, ipv4_nets_overlap blocked candidate) avoid)
      then
        do* mmodify (set_allocations (<[room := candidate]> (allocations p))) in
        mreturn candidate
      else try_candidates pr pool_base subnet_size avoid room indices
  end.

Definition allocate_with_avoidance (pr : profile) (room : RoomId) (avoid : list Ipv4Net)
    : M RoomAddressPool RoomError Ipv4Net :=
  let* p := mget in
  match allocations p !! room with
  | Some existing => mreturn existing
  | None =>
      let pool_prefix := net_prefix_len (pool p) in
      let* d := mlift (lift (checked pr 8 (room_prefix_len p - pool_prefix))) in
      let room_count := checked_shl_1 d in
      let* h := mlift (lift (checked pr 8 (32 - room_prefix_len p))) in
      let subnet_size := checked_shl_1 h in
      let pool_base := net_network (pool p) in
      try_candidates pr pool_base subnet_size avoid room
        (candidate_indices (pool p) (room_prefix_len p) room_count)
  end.

Definition allocate (pr : profile) (room : RoomId) : M RoomAddressPool RoomError Ipv4Net :=
  allocate_with_avoidance pr room [].

Definition release (room : RoomId) (p : RoomAddressPool) : RoomAddressPool :=
  set_allocations (delete room (allocations p)) p.

(** [Default]: [expect] unwinds when the literal is refused. *)
Definition RoomAddressPool_default : total RoomAddressPool :=
  match RoomAddressPool_new "192.168.0.0/16" 24 with Ok p => Ok p | _ => Panic end.

Inductive pool_step (pr : profile) : RoomAddressPool → RoomAddressPool → Prop :=
| step_allocate p room avoid :
    pool_step pr p (allocate_with_avoidance pr room avoid p).2
| step_release p room : pool_step pr p (release room p).

Inductive pool_reachable (pr : profile) : RoomAddressPool → Prop :=
| pool_start s len p : RoomAddressPool_new s len = Ok p → 0 ≤ len → pool_reachable pr p
| pool_next p p' : pool_reachable pr p → pool_step pr p p' → pool_reachable pr p'.

End Room.

(** ** Facts about the address arithmetic *)
Lemma vip_inj a b : u_ok 32 a → u_ok 32 b → vip a = vip b → a = b.
Proof. intros ?? E. apply octets_inj; [done..|]. exact (f_equal vip_octets E). Qed.

(** The scan stops at the first unused host, or has seen all of them used. *)
Lemma scan_hosts_spec fuel network broadcast used host :
  broadcast < 2 ^ 32 → broadcast - network - host < Z.of_nat fuel →
  match scan_hosts fuel network broadcast used host with
  | Some ip => ∃ h, host ≤ h ∧ network + h < broadcast ∧ ip = vip (network + h) ∧
      ip ∉ used ∧ ∀ h', host ≤ h' < h → vip (network + h') ∈ used
  | None => ∀ h, host ≤ h → network + h < broadcast → vip (network + h) ∈ used
  end.
Proof.
  intros Hb. revert host. induction fuel as [|fuel IH]; intros host Hf; simpl.
  - intros h ??. lia.
  - unfold saturating_add. case_bool_decide as Hc; [intros h ??; lia|].
    rewrite Z.min_l by lia. case_bool_decide as Hu.
    + exists host. repeat split; try done; try lia.
    + specialize (IH (host + 1) ltac:(lia)).
      destruct (scan_hosts _ _ _ _ _) as [ip|].
      * destruct IH as (h & ? & ? & ? & ? & Hall). exists h. repeat split; try done; try lia.
        intros h' ?. destruct (decide (h' = host)) as [->|]; [done|]. apply Hall; lia.
      * intros h ??. destruct (decide (h = host)) as [->|]; [done|]. apply IH; lia.
Qed.

Lemma elem_values {A} (m : gmap NodeId A) x : x ∈ values m ↔ ∃ n, m !! n = Some x.
Proof.
  unfold values. rewrite list_elem_of_fmap. split.
  - intros ([n y] & -> & H). apply elem_of_map_to_list in H. eauto.
  - intros [n H]. exists (n, x). by rewrite elem_of_map_to_list.
Qed.

(** ** Rooms *)
Section RoomFacts.
Context `{L : Ipv4NetLib} `{HL : !Ipv4NetLaws L}.

(** What holds of the leases and members of every room. *)
Record room_inv (r : Room) : Prop := {
  inv_host : ∀ n ip, ip_leases r !! n = Some ip →
    ∃ net h, net_parse (r_virtual_cidr r) = Some net ∧ 1 ≤ h ∧
      net_network net + h < net_broadcast net ∧ ip = vip (net_network net + h);
  inv_inj : ∀ n1 n2 ip,
    ip_leases r !! n1 = Some ip → ip_leases r !! n2 = Some ip → n1 = n2;
  inv_member : ∀ n m, members r !! n = Some m →
    node_id m = n ∧ ip_leases r !! n = Some (virtual_ip m);
}.

Lemma used_ips_leases r ip :
  room_inv r → ip ∈ used_ips r ↔ ∃ n, ip_leases r !! n = Some ip.
Proof.
  intros H. unfold used_ips. rewrite elem_of_union, !elem_of_list_to_set, list_elem_of_fmap.
  split.
  - intros [(m & -> & Hm)|Hl]; [|by apply elem_values].
    apply elem_values in Hm as [n Hm]. destruct (inv_member r H n m Hm). eauto.
  - intros Hl. right. by apply elem_values.
Qed.

(** A node that has a lease gets it back. *)
Lemma allocate_ip_leased r n role ip :
  room_inv r → ip_leases r !! n = Some ip → allocate_ip n role r = (Ok ip, r).
Proof.
  intros H Hip. unfold allocate_ip. rewrite Hip. simpl.
  rewrite bool_decide_eq_false_2; [done|]. rewrite Exists_exists.
  intros (m & Hm & Hne & Heq). apply elem_values in Hm as [n' Hm].
  destruct (inv_member r H n' m Hm) as [Hid Hl]. rewrite Heq in Hl.
  pose proof (inv_inj r H n' n ip Hl Hip). congruence.
Qed.

(** A node without one gets the least free host from its preferred one on. *)
Lemma allocate_ip_fresh r n role :
  room_inv r → ip_leases r !! n = None →
  match allocate_ip n role r with
  | (Ok ip, r') => r' = set_leases (<[n := ip]> (ip_leases r)) r ∧
      ∃ net h, net_parse (r_virtual_cidr r) = Some net ∧ preferred_host role ≤ h ∧
        net_network net + h < net_broadcast net ∧ ip = vip (net_network net + h) ∧
        (∀ n', ip_leases r !! n' ≠ Some ip) ∧
        ∀ h', preferred_host role ≤ h' < h →
          ∃ n', ip_leases r !! n' = Some (vip (net_network net + h'))
  | (Err (InvalidCidr s), r') =>
      r' = r ∧ s = r_virtual_cidr r ∧ net_parse (r_virtual_cidr r) = None
  | (Err AddressPoolExhausted, r') => r' = r ∧
      ∃ net, net_parse (r_virtual_cidr r) = Some net ∧
        ∀ h, preferred_host role ≤ h → net_network net + h < net_broadcast net →
          ∃ n', ip_leases r !! n' = Some (vip (net_network net + h))
  | _ => False
  end.
Proof.
  intros H Hn. unfold allocate_ip. rewrite Hn. simpl.
  destruct (net_parse _) as [net|] eqn:Hp; [|done].
  pose proof (net_broadcast_range net) as [? ?].
  assert (1 ≤ preferred_host role) by (unfold preferred_host; case_decide; lia).
  epose proof (scan_hosts_spec (Z.to_nat (net_broadcast net - net_network net))
    (net_network net) (net_broadcast net) (used_ips r) (preferred_host role)
    ltac:(done) ltac:(lia)) as Hs.
  destruct (scan_hosts _ _ _ _ _) as [ip|].
  - split; [done|]. destruct Hs as (h & ? & ? & -> & Hu & Hall).
    rewrite used_ips_leases in Hu by done.
    exists net, h. repeat split; try done; [naive_solver|].
    intros h' Hh'. by apply used_ips_leases, Hall.
  - split; [done|]. exists net. split; [done|]. intros h ??.
    by apply used_ips_leases, Hs.
Qed.

Lemma room_inv_add r n nick role : room_inv r → room_inv (add_or_reuse_member n nick role r).2.
Proof.
  intros H. unfold add_or_reuse_member, mseq. destruct (ip_leases r !! n) as [ip|] eqn:Hn.
  - rewrite (allocate_ip_leased r n role ip) by done. simpl.
    split; simpl; rewrite (insert_id (ip_leases r)) by done; [apply H|apply H|].
    intros n' m [[<- <-]|[? ?]]%lookup_insert_Some; [done|by apply (inv_member r H)].
  - pose proof (allocate_ip_fresh r n role H Hn) as Ha.
    destruct (allocate_ip n role r) as [[ip|e|] r']; simpl;
      [|by destruct e; destruct_and? Ha; subst|done].
    destruct Ha as (-> & net & h & Hp & ? & ? & -> & Hfr & _). simpl.
    assert (1 ≤ preferred_host role) by (unfold preferred_host; case_decide; lia).
    split; simpl; rewrite insert_insert_eq.
    + intros n' ip [[<- <-]|[? ?]]%lookup_insert_Some; [|by eapply H].
      exists net, h. repeat split; try done. lia.
    + intros n1 n2 ip. rewrite !lookup_insert_Some.
      intros [[<- <-]|[? ?]] [[<- ?]|[? ?]]; try done; [naive_solver|naive_solver|].
      by eapply (inv_inj r H).
    + intros n' m [[<- <-]|[? Hm]]%lookup_insert_Some; simpl.
      * by rewrite lookup_insert_eq.
      * rewrite lookup_insert_ne by done. by apply (inv_member r H).
Qed.

Lemma room_inv_remove r n : room_inv r → room_inv (remove_member n r).
Proof.
  intros H. split; simpl; [apply H|apply H|].
  intros n' m [? ?]%lookup_delete_Some. by apply (inv_member r H).
Qed.

Lemma room_reachable_inv r : room_reachable r → room_inv r.
Proof.
  induction 1 as [|? ? _ IH Hs]; [|destruct Hs].
  - split; simpl; intros *; by rewrite ?lookup_empty.
  - by apply room_inv_add.
  - by apply room_inv_remove.
Qed.

(** A lease outlives every call. *)
Lemma lease_kept r r' n ip :
  room_inv r → room_step r r' → ip_leases r !! n = Some ip → ip_leases r' !! n = Some ip.
Proof.
  intros H Hs Hn. destruct Hs as [r0 n' nick role|r0 n']; [|done].
  unfold add_or_reuse_member, mseq. destruct (ip_leases r0 !! n') as [ip'|] eqn:Hn'.
  - rewrite (allocate_ip_leased r0 n' role ip') by done. simpl. by rewrite (insert_id (ip_leases r0)).
  - pose proof (allocate_ip_fresh r0 n' role H Hn') as Ha.
    destruct (allocate_ip n' role r0) as [[ip'|e|] r']; simpl;
      [|by destruct e; destruct_and? Ha; subst|done].
    destruct Ha as (-> & _). simpl. rewrite insert_insert_eq, lookup_insert_ne; [done|].
    intros ->. congruence.
Qed.

(** C3: in every room reached by joins and leaves, each member holds the lease of its
    node, no two nodes hold the same address, and every address lies strictly between
    the network and the broadcast address of the room. *)
Theorem room_addresses r :
  room_reachable r →
  (∀ n m, members r !! n = Some m →
     node_id m = n ∧ ip_leases r !! n = Some (virtual_ip m)) ∧
  (∀ n1 n2 ip, ip_leases r !! n1 = Some ip → ip_leases r !! n2 = Some ip → n1 = n2) ∧
  (∀ n ip, ip_leases r !! n = Some ip →
     ∃ net a, net_parse (r_virtual_cidr r) = Some net ∧ ip = vip a ∧
       net_network net < a < net_broadcast net).
Proof.
  intros H%room_reachable_inv. split; [apply H|]. split; [apply H|].
  intros n ip Hn. destruct (inv_host r H n ip Hn) as (net & h & ? & ? & ? & ->).
  exists net, (net_network net + h). repeat split; try done; lia.
Qed.

(** Once a node holds an address in a room it gets the same address from every
    later join, whatever joins and leaves come between. *)
Theorem rejoin_keeps_address r r' n ip nick role :
  room_reachable r → ip_leases r !! n = Some ip → rtc room_step r r' →
  (add_or_reuse_member n nick role r').1 = Ok ip.
Proof.
  intros Hr Hn Hs. apply room_reachable_inv in Hr.
  induction Hs as [r|r r1 r' Hstep Hs IH].
  - unfold add_or_reuse_member, mseq. by rewrite (allocate_ip_leased r n role ip).
  - apply IH; [|by eapply lease_kept].
    destruct Hstep; [by apply room_inv_add|by apply room_inv_remove].
Qed.

(** The first join of a node: it gets the least host, from 1 for the owner and 2
    for the others, that no lease holds, and becomes a member with that lease; the
    join fails, and changes nothing, exactly when the room's network does not parse or
    every such host is leased. *)
Theorem first_join_outcome r n nick role :
  room_reachable r → ip_leases r !! n = None →
  match add_or_reuse_member n nick role r with
  | (Ok ip, r') =>
      members r' = <[n := mkMember n ip nick role]> (members r) ∧
      ip_leases r' = <[n := ip]> (ip_leases r) ∧
      ∃ net h, net_parse (r_virtual_cidr r) = Some net ∧ preferred_host role ≤ h ∧
        net_network net + h < net_broadcast net ∧ ip = vip (net_network net + h) ∧
        (∀ n', ip_leases r !! n' ≠ Some ip) ∧
        ∀ h', preferred_host role ≤ h' < h →
          ∃ n', ip_leases r !! n' = Some (vip (net_network net + h'))
  | (Err (InvalidCidr s), r') =>
      r' = r ∧ s = r_virtual_cidr r ∧ net_parse (r_virtual_cidr r) = None
  | (Err AddressPoolExhausted, r') => r' = r ∧
      ∃ net, net_parse (r_virtual_cidr r) = Some net ∧
        ∀ h, preferred_host role ≤ h → net_network net + h < net_broadcast net →
          ∃ n', ip_leases r !! n' = Some (vip (net_network net + h))
  | _ => False
  end.
Proof.
  intros Hr Hn. apply room_reachable_inv in Hr. unfold add_or_reuse_member, mseq.
  pose proof (allocate_ip_fresh r n role Hr Hn) as Ha.
  destruct (allocate_ip n role r) as [[ip|e|] r']; simpl; [|done|done].
  destruct Ha as (-> & Ha). simpl. by rewrite insert_insert_eq.
Qed.

End RoomFacts.

(** ** Address pools *)
Section PoolFacts.
Context `{L : Ipv4NetLib} `{HL : !Ipv4NetLaws L}.
Implicit Types (p : RoomAddressPool) (c : Ipv4Net).

(** The number of room subnets, and the [i]-th of them. *)
Definition subnets p : Z := 2 ^ (room_prefix_len p - net_prefix_len (pool p)).
Definition is_subnet p (i : Z) c : Prop :=
  0 ≤ i < subnets p ∧ net_prefix_len c = room_prefix_len p ∧
  net_addr c = net_network (pool p) + i * 2 ^ (32 - room_prefix_len p).

Definition pool_ok p : Prop :=
  0 ≤ room_prefix_len p ≤ 30 ∧ net_prefix_len (pool p) ≤ room_prefix_len p.

Record pool_inv p : Prop := {
  pinv_ok : pool_ok p;
  pinv_subnet : ∀ r c, allocations p !! r = Some c → ∃ i, is_subnet p i c;
  pinv_inj : ∀ r1 r2 c,
    allocations p !! r1 = Some c → allocations p !! r2 = Some c → r1 = r2;
}.

Lemma subnets_size p :
  pool_ok p →
  0 < subnets p ∧ 0 < 2 ^ (32 - room_prefix_len p) ∧
  2 ^ (32 - net_prefix_len (pool p)) = subnets p * 2 ^ (32 - room_prefix_len p).
Proof.
  intros [? ?]. unfold subnets. pose proof (net_prefix_range (pool p)).
  split_and!; [apply Z.pow_pos_nonneg; lia..|].
  rewrite <- Z.pow_add_r by lia. f_equal. lia.
Qed.

(** A subnet starts at its address, ends before the next and lies in the pool. *)
Lemma subnet_bounds p i c :
  pool_ok p → is_subnet p i c →
  net_network c = net_network (pool p) + i * 2 ^ (32 - room_prefix_len p) ∧
  net_broadcast c = net_network (pool p) + (i + 1) * 2 ^ (32 - room_prefix_len p) - 1 ∧
  net_broadcast c ≤ net_broadcast (pool p).
Proof.
  intros Hok (Hi & Hl & Ha). destruct (subnets_size p Hok) as (? & ? & Hs).
  destruct (net_network_aligned (pool p)) as (k & ? & Hk).
  assert (net_network c = net_addr c) as Hn.
  { rewrite net_network_spec, Hl, Ha, Hk, Hs, Z.mul_assoc.
    rewrite <- Z.mul_add_distr_r, Z.mod_mul by lia. lia. }
  rewrite !net_broadcast_spec, Hn, Hl, Ha. split_and!; [done|lia|].
  rewrite Hs. nia.
Qed.

Lemma subnets_disjoint p i j c d :
  pool_ok p → is_subnet p i c → is_subnet p j d → i ≠ j → ipv4_nets_overlap c d = false.
Proof.
  intros Hok Hc Hd Hne. destruct (subnet_bounds p i c Hok Hc) as (H1 & H2 & _).
  destruct (subnet_bounds p j d Hok Hd) as (H3 & H4 & _).
  destruct (subnets_size p Hok) as (_ & ? & _).
  unfold ipv4_nets_overlap. rewrite H1, H2, H3, H4.
  apply andb_false_iff. rewrite !bool_decide_eq_false. nia.
Qed.

(** Why a subnet cannot be given out. *)
Definition unavailable p (avoid : list Ipv4Net) c : Prop :=
  (∃ r, allocations p !! r = Some c) ∨
  (∃ b, b ∈ avoid ∧ ipv4_nets_overlap b c = true).

Lemma elem_allocations p c :
  c ∈ (map_to_list (allocations p)).*2 ↔ ∃ r, allocations p !! r = Some c.
Proof.
  rewrite list_elem_of_fmap. split.
  - intros ([r y] & -> & Hy). exists r. by apply elem_of_map_to_list.
  - intros [r Hr]. exists (r, c). by rewrite elem_of_map_to_list.
Qed.

Lemma candidate_test p avoid c :
  if negb (bool_decide (Exists (λ u, u = c) (map_to_list (allocations p)).*2))
       && negb (existsb (λ b, ipv4_nets_overlap b c) avoid)
  then ¬ unavailable p avoid c else unavailable p avoid c.
Proof.
  unfold unavailable.
  case_bool_decide as Ha; simpl; rewrite Exists_exists in Ha.
  - left. apply elem_allocations. by destruct Ha as (x & Hx & ->).
  - destruct (existsb _ avoid) eqn:Hb; simpl.
    + right. apply existsb_exists in Hb as (b & ? & ?). exists b.
      by rewrite list_elem_of_In.
    + apply not_true_iff_false in Hb. rewrite existsb_exists in Hb.
      intros [Hc%elem_allocations|(b & Hin & ?)]; [naive_solver|]. apply Hb. exists b.
      by rewrite <- list_elem_of_In.
Qed.

(** Which call result a list of candidate indices gives. *)
Definition allocation_result p avoid room (indices : list Z)
    (res : outcome RoomError Ipv4Net * RoomAddressPool) : Prop :=
  match res with
  | (Ok c, p') => p' = set_allocations (<[room := c]> (allocations p)) p ∧
      ∃ pre i post, indices = pre ++ i :: post ∧ is_subnet p i c ∧
        ¬ unavailable p avoid c ∧
        ∀ j d, j ∈ pre → is_subnet p j d → unavailable p avoid d
  | (Err AddressPoolExhausted, p') => p' = p ∧
      ∀ i d, i ∈ indices → is_subnet p i d → unavailable p avoid d
  | _ => False
  end.

Lemma subnet_unique p i c d : is_subnet p i c → is_subnet p i d → c = d.
Proof. intros (_ & ? & ?) (_ & ? & ?). apply net_ext; congruence. Qed.

(** Neither profile overflows, and no candidate is refused. *)
Lemma candidate_made pr p size i :
  pool_ok p → 0 ≤ i < subnets p → i * size = i * 2 ^ (32 - room_prefix_len p) →
  ∃ c, is_subnet p i c ∧ checked pr 32 (i * size) = Ok (i * size) ∧
    checked pr 32 (net_network (pool p) + i * size) = Ok (net_network (pool p) + i * size) ∧
    net_new (net_network (pool p) + i * size) (room_prefix_len p) = Some c.
Proof.
  intros Hok Hi Hsize. destruct (subnets_size p Hok) as (? & ? & Hs).
  pose proof (net_broadcast_range (pool p)) as [_ Hb].
  pose proof (net_network_range (pool p)) as [? _].
  rewrite net_broadcast_spec, Hs in Hb. rewrite Hsize.
  assert (u_ok 32 (net_network (pool p) + i * 2 ^ (32 - room_prefix_len p))) as Hu
    by (unfold u_ok; nia).
  destruct Hok as [? ?].
  destruct (net_new_total _ (room_prefix_len p) Hu ltac:(lia)) as [c Hc].
  exists c. split_and!; try done.
  - apply net_new_spec in Hc as [? ?]. done.
  - apply checked_small. unfold u_ok in *. nia.
  - by apply checked_small.
Qed.

Lemma try_candidates_spec pr p size avoid room indices :
  pool_ok p →
  (∀ i, i ∈ indices → 0 ≤ i < subnets p ∧ i * size = i * 2 ^ (32 - room_prefix_len p)) →
  allocation_result p avoid room indices
    (try_candidates pr (net_network (pool p)) size avoid room indices p).
Proof.
  intros Hok. induction indices as [|i indices IH]; intros Hi; simpl.
  - split; [done|]. intros i d ?%elem_of_nil. done.
  - destruct (Hi i) as [Hr Hsz]; [by left|].
    destruct (candidate_made pr p size i) as (c & Hc & E1 & E2 & E3); [done..|].
    unfold mseq, mlift, mget. rewrite E1. simpl. rewrite E2. simpl. rewrite E3. simpl.
    pose proof (candidate_test p avoid c) as Ht. destruct (negb _ && negb _).
    + simpl. split; [done|]. exists [], i, indices. split_and!; try done.
      intros j d ?%elem_of_nil. done.
    + specialize (IH ltac:(intros; apply Hi; by right)).
      destruct (try_candidates _ _ _ _ _ _ _) as [[d|[]|] p']; simpl in *; try done.
      * destruct IH as (-> & pre & j & post & -> & ? & ? & Hpre). split; [done|].
        exists (i :: pre), j, post. split_and!; try done.
        intros k e [->|?]%elem_of_cons ?; [|by eapply Hpre].
        by rewrite (subnet_unique p i e c).
      * destruct IH as [-> IH]. split; [done|].
        intros k e [->|?]%elem_of_cons ?; [|by eapply IH].
        by rewrite (subnet_unique p i e c).
Qed.

(** The candidates are the indices of all the subnets, in some order. *)
Lemma candidate_indices_all p i :
  pool_ok p →
  i ∈ candidate_indices (pool p) (room_prefix_len p)
        (checked_shl_1 (room_prefix_len p - net_prefix_len (pool p))) ↔
  0 ≤ i < subnets p.
Proof.
  intros [? ?]. pose proof (net_prefix_range (pool p)).
  unfold checked_shl_1. rewrite bool_decide_eq_true_2 by lia.
  rewrite Z.shiftl_1_l. fold (subnets p). unfold candidate_indices.
  destruct (_ && bool_decide (subnets p = 256)) eqn:Hs.
  - apply andb_true_iff in Hs as [_ Hs%bool_decide_eq_true]. rewrite Hs.
    rewrite !elem_of_app, !elem_of_seqZ. set_unfold. lia.
  - rewrite elem_of_seqZ. lia.
Qed.

Lemma subnet_size_agrees p i :
  pool_ok p → 0 ≤ i < subnets p →
  i * checked_shl_1 (32 - room_prefix_len p) = i * 2 ^ (32 - room_prefix_len p).
Proof.
  intros [? ?] Hi. unfold checked_shl_1. case_bool_decide; [by rewrite Z.shiftl_1_l|].
  pose proof (net_prefix_range (pool p)). unfold subnets in Hi.
  replace (room_prefix_len p - net_prefix_len (pool p)) with 0 in Hi by lia. lia.
Qed.

Lemma allocate_new pr p avoid room :
  pool_ok p → allocations p !! room = None →
  allocation_result p avoid room
    (candidate_indices (pool p) (room_prefix_len p) (subnets p))
    (allocate_with_avoidance pr room avoid p).
Proof.
  intros Hok Hn. pose proof (net_prefix_range (pool p)).
  unfold allocate_with_avoidance, mseq, mget, mlift. rewrite Hn.
  pose proof Hok as [? ?].
  rewrite !checked_small by (unfold u_ok; lia). simpl.
  assert (checked_shl_1 (room_prefix_len p - net_prefix_len (pool p)) = subnets p) as E.
  { unfold checked_shl_1. rewrite bool_decide_eq_true_2 by lia. apply Z.shiftl_1_l. }
  rewrite E. apply try_candidates_spec; [done|]. intros i Hi.
  rewrite <- E in Hi. apply candidate_indices_all in Hi; [|done].
  split; [done|]. by apply subnet_size_agrees.
Qed.

Lemma pool_new_inv s len p :
  RoomAddressPool_new s len = Ok p → 0 ≤ len → pool_inv p.
Proof.
  unfold RoomAddressPool_new. destruct (net_parse s) as [n|]; [|done]. simpl.
  case_bool_decide; [done|]. case_bool_decide; [done|]. intros [= <-] ?.
  split; simpl; [split; simpl; lia|..]; intros *; by rewrite lookup_empty.
Qed.

Lemma pool_inv_step pr p p' : pool_inv p → pool_step pr p p' → pool_inv p'.
Proof.
  intros H Hs. destruct Hs as [p room avoid|p room].
  - destruct (allocations p !! room) as [c|] eqn:Hr.
    { unfold allocate_with_avoidance, mseq, mget. by rewrite Hr. }
    pose proof (allocate_new pr p avoid room (pinv_ok p H) Hr) as Ha.
    destruct (allocate_with_avoidance _ _ _ _) as [[c|[]|] p']; simpl in *; try done;
      [|by destruct Ha as [-> _]].
    destruct Ha as (-> & _ & i & _ & _ & Hc & Hun & _). split; simpl.
    + apply H.
    + intros r d [[<- <-]|[? ?]]%lookup_insert_Some; [by exists i|by eapply (pinv_subnet p H)].
    + intros r1 r2 d. rewrite !lookup_insert_Some.
      intros [[<- <-]|[? ?]] [[<- ?]|[? ?]]; try done; subst;
        try (exfalso; apply Hun; left; by eauto).
      by eapply (pinv_inj p H).
  - split; simpl; [apply H|..].
    + intros r d [? ?]%lookup_delete_Some. by eapply (pinv_subnet p H).
    + intros r1 r2 d [? ?]%lookup_delete_Some [? ?]%lookup_delete_Some.
      by eapply (pinv_inj p H).
Qed.

Lemma pool_reachable_inv pr p : pool_reachable pr p → pool_inv p.
Proof.
  induction 1; [by eapply pool_new_inv|by eapply pool_inv_step].
Qed.

(** In every pool reached by allocations and releases, the networks of two rooms
    share no address, and each has the room prefix and lies inside the pool. *)
Theorem pool_rooms_disjoint pr p :
  pool_reachable pr p →
  (∀ r1 r2 c1 c2, allocations p !! r1 = Some c1 → allocations p !! r2 = Some c2 →
     r1 ≠ r2 → ipv4_nets_overlap c1 c2 = false) ∧
  (∀ r c, allocations p !! r = Some c →
     net_prefix_len c = room_prefix_len p ∧
     net_network (pool p) ≤ net_network c ∧ net_network c < net_broadcast c ∧
     net_broadcast c ≤ net_broadcast (pool p)).
Proof.
  intros H%pool_reachable_inv. pose proof (pinv_ok p H) as Hok. split.
  - intros r1 r2 c1 c2 H1 H2 Hne.
    destruct (pinv_subnet p H _ _ H1) as [i Hi], (pinv_subnet p H _ _ H2) as [j Hj].
    apply (subnets_disjoint p i j); [done..|]. intros ->.
    rewrite (subnet_unique p j c1 c2) in H1 by done. by apply Hne, (pinv_inj p H r1 r2 c2).
  - intros r c Hc. destruct (pinv_subnet p H _ _ Hc) as [i Hi].
    destruct (subnet_bounds p i c Hok Hi) as (E1 & E2 & ?).
    pose proof Hi as (? & ? & ?). split; [done|].
    assert (2 ^ 2 ≤ 2 ^ (32 - room_prefix_len p))
      by (apply Z.pow_le_mono_r; destruct Hok; lia).
    rewrite E1 in *. rewrite E2. split_and!; [nia|lia|by rewrite <- E2].
Qed.

(** What an allocation returns, in either build: the network the room has already;
    otherwise the first subnet in the order of preference that no room has and no
    network to avoid overlaps; and [AddressPoolExhausted], with nothing changed, only
    when every subnet of the pool is taken or overlapped. *)
Theorem pool_allocate_outcome pr p room avoid :
  pool_reachable pr p →
  match allocations p !! room with
  | Some c => allocate_with_avoidance pr room avoid p = (Ok c, p)
  | None =>
      match allocate_with_avoidance pr room avoid p with
      | (Ok c, p') => p' = set_allocations (<[room := c]> (allocations p)) p ∧
          ∃ pre i post,
            candidate_indices (pool p) (room_prefix_len p) (subnets p) = pre ++ i :: post ∧
            is_subnet p i c ∧ ¬ unavailable p avoid c ∧
            ∀ j d, j ∈ pre → is_subnet p j d → unavailable p avoid d
      | (Err AddressPoolExhausted, p') => p' = p ∧
          ∀ i d, is_subnet p i d → unavailable p avoid d
      | _ => False
      end
  end.
Proof.
  intros H%pool_reachable_inv. destruct (allocations p !! room) as [c|] eqn:Hr.
  - unfold allocate_with_avoidance, mseq, mget. by rewrite Hr.
  - pose proof (allocate_new pr p avoid room (pinv_ok p H) Hr) as Ha.
    destruct (allocate_with_avoidance _ _ _ _) as [[c|[]|] p']; simpl in *; try done.
    destruct Ha as [-> Ha]. split; [done|]. intros i d Hd. apply (Ha i d); [|done].
    assert (subnets p = checked_shl_1 (room_prefix_len p - net_prefix_len (pool p))) as ->.
    { destruct (pinv_ok p H). pose proof (net_prefix_range (pool p)).
      unfold checked_shl_1. rewrite bool_decide_eq_true_2 by lia. by rewrite Z.shiftl_1_l. }
    apply candidate_indices_all; [apply H|apply Hd].
Qed.

End PoolFacts.

(** ** The theorems on a concrete room and pool *)
Definition demo_node (k : Z) : NodeId := mkNodeId (replicate 32 k).
Definition demo_room_id (k : Z) : RoomId := mkRoomId (replicate 16 k).
Definition demo_room : Room :=
  Room_new (demo_room_id 1) "room" (demo_node 1) "192.168.7.0/24" "token".
Definition demo_joined : Room :=
  (add_or_reuse_member (demo_node 2) "peer" Guest demo_room).2.
Definition demo_left : Room := remove_member (demo_node 2) demo_joined.

Lemma demo_joined_reachable : room_reachable demo_joined.
Proof. eapply room_next; [apply room_start|apply step_add]. Qed.

Example demo_first_ip :
  ip_leases demo_joined !! demo_node 2 = Some (mkVirtualIp [192; 168; 7; 2]).
Proof. vm_compute. reflexivity. Qed.

Lemma room_addresses_witness :
  ∃ net a, net_parse (r_virtual_cidr demo_joined) = Some net ∧
    mkVirtualIp [192; 168; 7; 2] = vip a ∧ net_network net < a < net_broadcast net.
Proof.
  exact (proj2 (proj2 (room_addresses demo_joined demo_joined_reachable))
           (demo_node 2) _ demo_first_ip).
Defined.

Lemma rejoin_keeps_address_witness :
  (add_or_reuse_member (demo_node 2) "again" Admin demo_left).1
  = Ok (mkVirtualIp [192; 168; 7; 2]).
Proof.
  apply (rejoin_keeps_address demo_joined).
  - apply demo_joined_reachable.
  - apply demo_first_ip.
  - apply rtc_once, step_remove.
Defined.

Lemma first_join_outcome_witness :
  match add_or_reuse_member (demo_node 3) "third" Guest demo_joined with
  | (Ok ip, r') => ip = mkVirtualIp [192; 168; 7; 3] ∧
      members r' = <[demo_node 3 := mkMember (demo_node 3) ip "third" Guest]>
                     (members demo_joined)
  | _ => False
  end.
Proof.
  pose proof (first_join_outcome demo_joined (demo_node 3) "third" Guest
    demo_joined_reachable ltac:(vm_compute; reflexivity)) as H.
  assert ((add_or_reuse_member (demo_node 3) "third" Guest demo_joined).1
          = Ok (mkVirtualIp [192; 168; 7; 3])) as E by (vm_compute; reflexivity).
  destruct (add_or_reuse_member (demo_node 3) "third" Guest demo_joined) as [res r'].
  simpl in E. subst res. simpl in H. split; [reflexivity|apply H].
Defined.

Definition demo_pool : RoomAddressPool :=
  match RoomAddressPool_default with
  | Ok p => p
  | _ => mkPool (net_10_0_0_0_24 : Ipv4Net) 24 ∅
  end.
Definition demo_pool_1 : RoomAddressPool := (allocate Debug (demo_room_id 1) demo_pool).2.
Definition demo_pool_2 : RoomAddressPool := (allocate Debug (demo_room_id 2) demo_pool_1).2.

Lemma demo_pool_made : RoomAddressPool_new "192.168.0.0/16" 24 = Ok demo_pool.
Proof.
  assert (is_ok RoomAddressPool_default = true) as E by (vm_compute; reflexivity).
  unfold demo_pool, RoomAddressPool_default in *.
  by destruct (RoomAddressPool_new "192.168.0.0/16" 24).
Qed.

Lemma demo_pool_reachable : pool_reachable Debug demo_pool_2.
Proof.
  apply (pool_next _ demo_pool_1); [|exact (step_allocate Debug demo_pool_1 (demo_room_id 2) [])].
  apply (pool_next _ demo_pool); [|exact (step_allocate Debug demo_pool (demo_room_id 1) [])].
  apply (pool_start _ "192.168.0.0/16" 24); [exact demo_pool_made|lia].
Qed.

(** The default pool exists, and its first rooms get 192.168.200.0 and 192.168.201.0. *)
Example demo_pool_nets :
  net_to_string <$> map (λ k, default (net_10_0_0_0_24 : Ipv4Net)
    (allocations demo_pool_2 !! demo_room_id k)) [1; 2]
  = ["192.168.200.0/24"%string; "192.168.201.0/24"%string].
Proof. vm_compute. reflexivity. Qed.

Lemma pool_rooms_disjoint_witness :
  ∃ c1 c2, allocations demo_pool_2 !! demo_room_id 1 = Some c1 ∧
    allocations demo_pool_2 !! demo_room_id 2 = Some c2 ∧
    ipv4_nets_overlap c1 c2 = false.
Proof.
  pose proof (proj1 (pool_rooms_disjoint Debug demo_pool_2 demo_pool_reachable)) as H.
  assert (bool_decide (is_Some (allocations demo_pool_2 !! demo_room_id 1)
    ∧ is_Some (allocations demo_pool_2 !! demo_room_id 2)) = true) as [[c1 E1] [c2 E2]]%bool_decide_eq_true
    by (vm_compute; reflexivity).
  exists c1, c2. split_and!; [exact E1|exact E2|]. apply (H _ _ _ _ E1 E2).
  vm_compute. discriminate.
Defined.

Lemma pool_allocate_outcome_witness :
  ∃ c, (allocate_with_avoidance Release (demo_room_id 1)
          [net_10_0_0_0_24 : Ipv4Net] demo_pool).1 = Ok c ∧
    ¬ unavailable demo_pool [net_10_0_0_0_24 : Ipv4Net] c.
Proof.
  assert (pool_reachable Release demo_pool) as Hp
    by (apply (pool_start _ "192.168.0.0/16" 24); [exact demo_pool_made|lia]).
  pose proof (pool_allocate_outcome Release demo_pool (demo_room_id 1)
    [net_10_0_0_0_24 : Ipv4Net] Hp) as H.
  assert (is_ok (allocate_with_avoidance Release (demo_room_id 1)
    [net_10_0_0_0_24 : Ipv4Net] demo_pool).1 = true) as E by (vm_compute; reflexivity).
  assert (bool_decide (allocations demo_pool !! demo_room_id 1 = None) = true)
    as E0%bool_decide_eq_true by (vm_compute; reflexivity).
  rewrite E0 in H.
  destruct (allocate_with_avoidance _ _ _ _) as [[c|[]|] p']; try discriminate E.
  exists c. split; [reflexivity|]. by destruct H as (_ & ? & ? & ? & _ & _ & H & _).
Defined.
