(* ===== verification/Defense.v ===== *)
(** Packet rewriting on the way into the overlay (crates/r2n-dataplane/src/defense.rs):
    clamping of the TCP maximum segment size, the ICMP message for packets that are too
    large, and the Internet checksum. *)
From Stdlib Require Import ZArith Lia.
From stdpp Require Import base tactics numbers list.
From S2P Require Import Prelude Bytes.
Local Open Scope Z_scope.

(** ** The Internet checksum *)

(** The loop over 16-bit words, an odd last byte padded with zero; the accumulator is a
    [u32]. *)
Fixpoint sum_words (pr : profile) (sum : Z) (l : list Z) : total Z :=
  match l with
  | [] => Ok sum
  | [a] => checked pr 32 (sum + from_be_bytes [a; 0])
  | a :: b :: l => s ← checked pr 32 (sum + from_be_bytes [a; b]); sum_words pr s l
  end.

(** [while (sum >> 16) != 0]: for a [u32], two rounds bring the sum below [2^16]. *)
Fixpoint fold_carry (fuel : nat) (sum : Z) : Z :=
  match fuel with
  | O => sum
  | S fuel =>
      if bool_decide (Z.shiftr sum 16 = 0) then sum
      else fold_carry fuel (Z.land sum 65535 + Z.shiftr sum 16)
  end.
Definition carry_rounds : nat := 3.

(** [!(sum as u16)] *)
Definition not_u16 (sum : Z) : Z := 65535 - wrap 16 sum.

Definition ip_checksum (pr : profile) (data : list Z) : total Z :=
  sum ← sum_words pr 0 data;
  Ok (not_u16 (fold_carry carry_rounds sum)).

(** Both slices are taken from the IPv4 header; the segment's own checksum is cleared
    first. *)
Definition recompute_tcp_checksum (pr : profile) (ipv4_hdr tcp_segment : list Z)
    : total (list Z) :=
  seg ← set_index tcp_segment 16 0;
  seg ← set_index seg 17 0;
  src_ip ← slice ipv4_hdr 12 16;
  dst_ip ← slice ipv4_hdr 16 20;
  sum ← sum_words pr 0 (src_ip ++ dst_ip);
  sum ← checked pr 32 (sum + 6);
  sum ← checked pr 32 (sum + wrap 32 (Z.of_nat (length seg)));
  sum ← sum_words pr sum seg;
  copy_from_slice seg 16 18 (to_be_bytes 2 (not_u16 (fold_carry carry_rounds sum))).

(** ** Clamping the segment size *)

(** The header length in the low four bits of the first byte. *)
Definition ihl_of (b0 : Z) : nat := (Z.to_nat (Z.land b0 15) * 4)%nat.
Definition data_offset_of (b : Z) : nat := (Z.to_nat (Z.shiftr b 4) * 4)%nat.
Definition max_mss (ihl : nat) (safe_payload_mtu : Z) : Z :=
  wrap 16 (saturating_sub safe_payload_mtu (Z.of_nat ihl + 20)).

(** The walk over the TCP options; [i] grows in every round. *)
Fixpoint clamp_options (fuel : nat) (tcp_start tcp_len data_offset : nat) (max : Z)
    (packet : list Z) (clamped : bool) (i : nat) : total (bool * list Z) :=
  match fuel with
  | O => Ok (clamped, packet)
  | S fuel =>
      if bool_decide (i < data_offset ∧ i + 1 < tcp_len)%nat then
        kind ← index packet (tcp_start + i);
        if bool_decide (kind = 0) then Ok (clamped, packet)
        else if bool_decide (kind = 1) then
          clamp_options fuel tcp_start tcp_len data_offset max packet clamped (i + 1)
        else
          l ← index packet (tcp_start + i + 1);
          let opt_len := Z.to_nat l in
          if bool_decide (opt_len < 2 ∨ data_offset < i + opt_len)%nat
          then Ok (clamped, packet)
          else
            r ←
              (if bool_decide (kind = 2 ∧ opt_len = 4%nat) then
                 hi ← index packet (tcp_start + i + 2);
                 lo ← index packet (tcp_start + i + 3);
                 if bool_decide (max < from_be_bytes [hi; lo]) then
                   packet ← copy_from_slice packet (tcp_start + i + 2) (tcp_start + i + 4)
                              (to_be_bytes 2 max);
                   Ok (true, packet)
                 else Ok (clamped, packet)
               else Ok (clamped, packet));
            clamp_options fuel tcp_start tcp_len data_offset max r.2 r.1 (i + opt_len)
      else Ok (clamped, packet)
  end.

Definition clamp_mss (pr : profile) (packet : list Z) (safe_payload_mtu : Z)
    : total (bool * list Z) :=
  let packet_len := length packet in
  if bool_decide (packet_len < 40)%nat then Ok (false, packet) else
  b0 ← index packet 0;
  if negb (bool_decide (Z.shiftr b0 4 = 4)) then Ok (false, packet) else
  let ihl := ihl_of b0 in
  if bool_decide (packet_len < ihl + 20)%nat then Ok (false, packet) else
  protocol ← index packet 9;
  if negb (bool_decide (protocol = 6)) then Ok (false, packet) else
  let tcp_len := (packet_len - ihl)%nat in
  if bool_decide (tcp_len < 20)%nat then Ok (false, packet) else
  b12 ← index packet (ihl + 12);
  let data_offset := data_offset_of b12 in
  r ←
    (if bool_decide (20 < data_offset)%nat then
       flags ← index packet (ihl + 13);
       if negb (bool_decide (Z.land flags 2 = 0)) then
         clamp_options data_offset ihl tcp_len data_offset (max_mss ihl safe_payload_mtu)
           packet false 20
       else Ok (false, packet)
     else Ok (false, packet));
  if r.1 : bool then
    seg ← recompute_tcp_checksum pr (take ihl r.2) (drop ihl r.2);
    Ok (true, take ihl r.2 ++ seg)
  else Ok (false, r.2).

(** ** The ICMP message *)
Definition build_icmp_frag_needed (pr : profile) (original_ipv4 : list Z)
    (next_hop_mtu : Z) : total (option (list Z)) :=
  b0 ← index original_ipv4 0;
  let icmp_data_len := (ihl_of b0 + 8)%nat in
  if bool_decide (length original_ipv4 < icmp_data_len)%nat then Ok None else
  let total_len := (20 + 8 + icmp_data_len)%nat in
  let pkt := replicate total_len 0 in
  src_ip ← slice original_ipv4 12 16;
  dst_ip ← slice original_ipv4 16 20;
  let ip_hdr := take 20 pkt in
  ip_hdr ← set_index ip_hdr 0 69;
  ip_hdr ← set_index ip_hdr 1 0;
  ip_hdr ← copy_from_slice ip_hdr 2 4 (to_be_bytes 2 (wrap 16 (Z.of_nat total_len)));
  ip_hdr ← copy_from_slice ip_hdr 6 8 (to_be_bytes 2 0);
  ip_hdr ← set_index ip_hdr 8 64;
  ip_hdr ← set_index ip_hdr 9 1;
  ip_hdr ← copy_from_slice ip_hdr 12 16 dst_ip;
  ip_hdr ← copy_from_slice ip_hdr 16 20 src_ip;
  ip_cksum ← ip_checksum pr ip_hdr;
  ip_hdr ← copy_from_slice ip_hdr 10 12 (to_be_bytes 2 ip_cksum);
  let icmp := drop 20 pkt in
  icmp ← set_index icmp 0 3;
  icmp ← set_index icmp 1 4;
  icmp ← copy_from_slice icmp 6 8 (to_be_bytes 2 next_hop_mtu);
  data ← slice original_ipv4 0 icmp_data_len;
  icmp ← copy_from_slice icmp 8 (8 + icmp_data_len) data;
  icmp_cksum ← ip_checksum pr icmp;
  icmp ← copy_from_slice icmp 2 4 (to_be_bytes 2 icmp_cksum);
  Ok (Some (ip_hdr ++ icmp)).

(** ** Facts about the checksum *)

(** The sum of the words, without a width. *)
Fixpoint words (l : list Z) : Z :=
  match l with
  | [] => 0
  | [a] => a * 256
  | a :: b :: l => a * 256 + b + words l
  end.

Lemma pair_ind (P : list Z → Prop) :
  P [] → (∀ a, P [a]) → (∀ a b l, P l → P (a :: b :: l)) → ∀ l, P l.
Proof.
  intros H0 H1 H2. fix IH 1. intros [|a [|b l]]; [exact H0|apply H1|apply H2, IH].
Qed.

Lemma words_range l :
  bytes_ok l → 0 ≤ words l ∧ 2 * words l ≤ 65535 * (Z.of_nat (length l) + 1).
Proof.
  induction l as [|a|a b l IH] using pair_ind; intros Hl; simpl.
  - lia.
  - apply Forall_cons in Hl as [? _]. unfold byte_ok in *. lia.
  - unfold bytes_ok in *. rewrite !Forall_cons in Hl. destruct Hl as (? & ? & Hl). specialize (IH Hl).
    unfold byte_ok in *. lia.
Qed.

Lemma words_app l k :
  Nat.Even (length l) → words (l ++ k) = words l + words k.
Proof.
  induction l as [|a|a b l IH] using pair_ind; intros He; simpl in *; [lia| |].
  - destruct He as [m ?]. lia.
  - rewrite IH; [lia|]. destruct He as [m ?]. exists (m - 1)%nat. lia.
Qed.

Lemma words_pair v : u_ok 16 v → words (to_be_bytes 2 v) = v.
Proof.
  unfold u_ok. intros Hv. simpl.
  rewrite (Z.mod_small (v / 256)) by (split; [apply Z.div_pos|apply Z.div_lt_upper_bound]; lia).
  pose proof (Z.div_mod v 256). lia.
Qed.

(** Below 128 KiB of data no addition overflows. *)
Lemma sum_words_small pr sum l :
  bytes_ok l → 0 ≤ sum → sum + words l < 2 ^ 32 → sum_words pr sum l = Ok (sum + words l).
Proof.
  revert sum. induction l as [|a|a b l IH] using pair_ind; intros sum Hl Hs Hw; simpl in *.
  - f_equal. lia.
  - rewrite checked_small; [f_equal; unfold from_be_bytes; simpl; lia|].
    apply Forall_cons in Hl as [? _]. unfold byte_ok, u_ok, from_be_bytes in *. simpl. lia.
  - unfold bytes_ok in *. rewrite !Forall_cons in Hl. destruct Hl as (? & ? & Hl).
    pose proof (words_range l Hl). unfold byte_ok in *.
    rewrite checked_small by (unfold u_ok, from_be_bytes; simpl; lia). simpl.
    rewrite IH by (unfold from_be_bytes; simpl; try lia; done).
    f_equal. unfold from_be_bytes. simpl. lia.
Qed.

Lemma fold_round s :
  0 ≤ s → Z.land s 65535 + Z.shiftr s 16 = s - 65535 * (s / 65536).
Proof.
  intros. change 65535 with (Z.ones 16) at 1. rewrite Z.land_ones by lia.
  rewrite Z.shiftr_div_pow2 by lia. pose proof (Z.div_mod s (2 ^ 16)).
  change (2 ^ 16) with 65536 in *. lia.
Qed.

(** The folded sum is the sum modulo 65535, with 65535 for a nonzero multiple. *)
Lemma fold_carry_spec s :
  0 ≤ s < 2 ^ 32 →
  0 ≤ fold_carry carry_rounds s ≤ 65535 ∧
  (∃ k, fold_carry carry_rounds s = s - 65535 * k) ∧
  (fold_carry carry_rounds s = 0 ↔ s = 0).
Proof.
  intros Hs. unfold carry_rounds. cbn [fold_carry].
  assert (∀ t, 0 ≤ t → Z.shiftr t 16 = t / 65536) as Hsh
    by (intros; by rewrite Z.shiftr_div_pow2).
  assert (∀ t, 0 ≤ t → t / 65536 = 0 → t < 65536) as Hlt
    by (intros t ??; pose proof (Z.div_mod t 65536); pose proof (Z.mod_pos_bound t 65536); lia).
  assert (∀ t, 0 ≤ t → 65536 * (t / 65536) ≤ t < 65536 * (t / 65536) + 65536) as Hd
    by (intros t ?; pose proof (Z.div_mod t 65536); pose proof (Z.mod_pos_bound t 65536); lia).
  pose proof (Hd s).
  assert (0 ≤ s / 65536) by (apply Z.div_pos; lia).
  case_bool_decide as Hz1; rewrite Hsh in Hz1 by lia.
  { apply Hlt in Hz1; [|lia]. split_and!; [lia|lia|exists 0; lia|lia]. }
  rewrite fold_round by lia. set (t := s - 65535 * (s / 65536)).
  pose proof (Hd t). assert (0 ≤ t / 65536) by (apply Z.div_pos; lia).
  case_bool_decide as Hz2; rewrite Hsh in Hz2 by lia.
  { apply Hlt in Hz2; [|lia]. split_and!; [lia|lia|exists (s / 65536); lia|lia]. }
  rewrite fold_round by lia. set (u := t - 65535 * (t / 65536)).
  assert (t / 65536 = 1) by lia.
  case_bool_decide as Hz3; rewrite Hsh in Hz3 by lia.
  { apply Hlt in Hz3; [|lia].
    split_and!; [lia|lia|exists (s / 65536 + t / 65536); lia|lia]. }
  exfalso. apply Hz3. apply Z.div_small. lia.
Qed.

Lemma not_u16_range s : 0 ≤ s ≤ 65535 → not_u16 s = 65535 - s ∧ u_ok 16 (not_u16 s).
Proof.
  intros. unfold not_u16, u_ok. rewrite wrap_small by (unfold u_ok; lia). lia.
Qed.

(** Adding the complement of the folded sum folds to all ones. *)
Lemma fold_complement s :
  0 ≤ s → s + 65535 < 2 ^ 32 →
  fold_carry carry_rounds (s + not_u16 (fold_carry carry_rounds s)) = 65535.
Proof.
  intros H0 H1. destruct (fold_carry_spec s) as (Hr & [k Hk] & Hz); [lia|].
  destruct (not_u16_range _ Hr) as [-> _].
  destruct (fold_carry_spec (s + (65535 - fold_carry carry_rounds s)))
    as (Hr' & [k' Hk'] & Hz'); [lia|].
  assert (fold_carry carry_rounds (s + (65535 - fold_carry carry_rounds s)) ≠ 0) by lia.
  lia.
Qed.

(** A checksum written over a cleared field at an even offset makes the data verify. *)
Lemma checksum_verifies pr pre post c :
  bytes_ok pre → bytes_ok post → Nat.Even (length pre) →
  Z.of_nat (length pre + length post) < 2 ^ 16 →
  ip_checksum pr (pre ++ [0; 0] ++ post) = Ok c →
  ip_checksum pr (pre ++ to_be_bytes 2 c ++ post) = Ok 0.
Proof.
  intros Hpre Hpost He Hlen. unfold ip_checksum.
  pose proof (words_range pre Hpre). pose proof (words_range post Hpost).
  assert (∀ v, u_ok 16 v →
    words (pre ++ to_be_bytes 2 v ++ post) = words pre + v + words post) as Hw.
  { intros v Hv. rewrite words_app by done. rewrite words_app by (exists 1%nat; done).
    rewrite words_pair by done. lia. }
  assert (∀ v, bytes_ok (pre ++ to_be_bytes 2 v ++ post)) as Hb
    by (intros v; apply bytes_ok_app, bytes_ok_app; [done|apply to_be_bytes_ok|done]).
  assert (u_ok 16 0) as H00 by (unfold u_ok; lia).
  change [0; 0] with (to_be_bytes 2 0).
  rewrite (sum_words_small pr 0 (pre ++ to_be_bytes 2 0 ++ post));
    [|apply Hb|lia|rewrite (Hw _ H00); lia].
  rewrite (Hw _ H00). cbn [mbind outcome_bind]. intros <-%Ok_inj.
  set (s := 0 + (words pre + 0 + words post)).
  destruct (fold_carry_spec s) as (Hr & _ & _); [lia|].
  destruct (not_u16_range _ Hr) as [E Hu].
  rewrite sum_words_small; [|apply Hb|lia|rewrite (Hw _ Hu), E; lia].
  rewrite (Hw _ Hu). cbn [mbind outcome_bind]. f_equal.
  replace (0 + (words pre + not_u16 (fold_carry carry_rounds s) + words post))
    with (s + not_u16 (fold_carry carry_rounds s)) by lia.
  rewrite fold_complement by lia. reflexivity.
Qed.

(** ** The TCP checksum *)

(** The sum a receiver takes: pseudo header and segment. *)
Definition tcp_sum (ipv4_hdr seg : list Z) : Z :=
  words (take 8 (drop 12 ipv4_hdr)) + 6 + Z.of_nat (length seg) + words seg.
Definition tcp_checksum_valid (ipv4_hdr seg : list Z) : Prop :=
  fold_carry carry_rounds (tcp_sum ipv4_hdr seg) = 65535.

Lemma clear_field (l : list Z) i :
  (i + 2 ≤ length l)%nat →
  <[S i := 0]> (<[i := 0]> l) = take i l ++ [0; 0] ++ drop (i + 2) l.
Proof.
  revert i. induction l as [|x l IH]; intros [|i] Hi; simpl in *; [lia|lia| |].
  - destruct l; [simpl in Hi; lia|]. done.
  - f_equal. apply IH. lia.
Qed.

Lemma recompute_spec pr hdr seg :
  bytes_ok hdr → bytes_ok seg → (20 ≤ length hdr ≤ 60)%nat →
  (18 ≤ length seg)%nat → Z.of_nat (length seg) < 65536 →
  ∃ c, u_ok 16 c ∧
    recompute_tcp_checksum pr hdr seg
    = Ok (take 16 seg ++ to_be_bytes 2 c ++ drop 18 seg) ∧
    tcp_checksum_valid hdr (take 16 seg ++ to_be_bytes 2 c ++ drop 18 seg).
Proof.
  intros Hh Hs Hlh Hls Hl. unfold recompute_tcp_checksum.
  rewrite set_index_Ok by lia. cbn [mbind outcome_bind].
  rewrite set_index_Ok by lens. cbn [mbind outcome_bind].
  rewrite (clear_field seg 16) by lia. change (16 + 2)%nat with 18%nat.
  rewrite !slice_Ok by lia. cbn [mbind outcome_bind].
  change (16 - 12)%nat with 4%nat. change (20 - 16)%nat with 4%nat.
  change (drop 16 hdr) with (drop (12 + 4) hdr). rewrite take_drop_join.
  change (4 + 4)%nat with 8%nat.
  pose proof (bytes_ok_take 8 _ (bytes_ok_drop 12 _ Hh)) as Hp.
  pose proof (words_range _ Hp) as Hpr.
  replace (length (take 8 (drop 12 hdr))) with 8%nat in Hpr by lens.
  assert (∀ v, u_ok 16 v → let seg' := take 16 seg ++ to_be_bytes 2 v ++ drop 18 seg in
    bytes_ok seg' ∧ length seg' = length seg ∧
    words seg' = words (take 16 seg) + v + words (drop 18 seg)) as Hw.
  { intros v Hv seg'. subst seg'. split_and!.
    - apply bytes_ok_app, bytes_ok_app; auto using to_be_bytes_ok with r2n.
    - lens.
    - rewrite words_app by (exists 8%nat; lens). rewrite words_app by (exists 1%nat; done).
      rewrite words_pair by done. lia. }
  assert (u_ok 16 0) as H00 by (unfold u_ok; lia).
  pose proof (words_range _ (bytes_ok_take 16 _ Hs)) as Hr1.
  pose proof (words_range _ (bytes_ok_drop 18 _ Hs)) as Hr2.
  rewrite length_take in Hr1. rewrite length_drop in Hr2.
  destruct (Hw 0 H00) as (Hb0 & Hl0 & Hw0).
  change (to_be_bytes 2 0) with [0; 0] in *.
  rewrite (sum_words_small pr 0 (take 8 (drop 12 hdr))) by (done || lia).
  cbn [mbind outcome_bind]. rewrite checked_small by (unfold u_ok; lia).
  cbn [mbind outcome_bind]. rewrite Hl0.
  rewrite (wrap_small 32 (Z.of_nat (length seg))) by (unfold u_ok; lia).
  rewrite checked_small by (unfold u_ok; lia). cbn [mbind outcome_bind].
  rewrite sum_words_small; [|done|lia|rewrite Hw0; lia]. cbn [mbind outcome_bind].
  rewrite Hw0.
  set (s := 0 + words (take 8 (drop 12 hdr)) + 6 + Z.of_nat (length seg) +
            (words (take 16 seg) + 0 + words (drop 18 seg))).
  destruct (fold_carry_spec s) as (Hr & _ & _); [lia|].
  destruct (not_u16_range _ Hr) as [E Hu].
  exists (not_u16 (fold_carry carry_rounds s)). split_and!; [done| |].
  - rewrite copy_append by lens. by rewrite <- app_assoc.
  - unfold tcp_checksum_valid, tcp_sum.
    destruct (Hw _ Hu) as (_ & -> & ->).
    replace (_ + _) with (s + not_u16 (fold_carry carry_rounds s)) by lia.
    apply fold_complement; lia.
Qed.

(** ** The options a walk sees *)

(** The option at [i]: none (the walk ends), a no-op, a segment size, or another one of
    a number of bytes. *)
Inductive tcp_opt := OptEnd | OptNop | OptMss (v : Z) | OptOther (n : nat).

Definition option_at (tcp_start tcp_len data_offset : nat) (packet : list Z) (i : nat)
    : tcp_opt :=
  let kind := packet !!! (tcp_start + i)%nat in
  let opt_len := Z.to_nat (packet !!! (tcp_start + i + 1)%nat) in
  if negb (bool_decide (i < data_offset ∧ i + 1 < tcp_len)%nat) then OptEnd
  else if bool_decide (kind = 0) then OptEnd
  else if bool_decide (kind = 1) then OptNop
  else if bool_decide (opt_len < 2 ∨ data_offset < i + opt_len)%nat then OptEnd
  else if bool_decide (kind = 2 ∧ opt_len = 4%nat) then
    OptMss (from_be_bytes [packet !!! (tcp_start + i + 2)%nat;
                           packet !!! (tcp_start + i + 3)%nat])
  else OptOther opt_len.

(** The values of the MSS options, in order, from [i] on. *)
Fixpoint mss_values (fuel tcp_start tcp_len data_offset : nat) (packet : list Z)
    (i : nat) : list Z :=
  match fuel with
  | O => []
  | S fuel =>
      match option_at tcp_start tcp_len data_offset packet i with
      | OptEnd => []
      | OptNop => mss_values fuel tcp_start tcp_len data_offset packet (i + 1)
      | OptMss v => v :: mss_values fuel tcp_start tcp_len data_offset packet (i + 4)
      | OptOther n => mss_values fuel tcp_start tcp_len data_offset packet (i + n)
      end
  end.

(** A TCP SYN segment with options in an IPv4 packet. *)
Definition tcp_syn (packet : list Z) : bool :=
  let ihl := ihl_of (packet !!! 0%nat) in
  bool_decide (40 ≤ length packet)%nat
  && (bool_decide (Z.shiftr (packet !!! 0%nat) 4 = 4)
  && (bool_decide (ihl + 20 ≤ length packet)%nat
  && (bool_decide (packet !!! 9%nat = 6)
  && (bool_decide (20 < data_offset_of (packet !!! (ihl + 12)%nat))%nat
  && negb (bool_decide (Z.land (packet !!! (ihl + 13)%nat) 2 = 0)))))).

(** Its MSS options. *)
Definition packet_mss (packet : list Z) : list Z :=
  let ihl := ihl_of (packet !!! 0%nat) in
  let data_offset := data_offset_of (packet !!! (ihl + 12)%nat) in
  if tcp_syn packet
  then mss_values data_offset ihl (length packet - ihl) data_offset packet 20
  else [].

Lemma index_total (l : list Z) i : (i < length l)%nat → index l i = Ok (l !!! i).
Proof.
  intros Hi. apply index_lookup. by apply list_lookup_lookup_total_lt.
Qed.

Lemma total_lookup_eq (l k : list Z) i : l !! i = k !! i → l !!! i = k !!! i.
Proof. intros E. rewrite !list_lookup_total_alt. by rewrite E. Qed.

(** A 16-bit field written inside a packet. *)
Lemma write_field (p : list Z) i v :
  (i + 2 ≤ length p)%nat → bytes_ok p →
  let q := take i p ++ to_be_bytes 2 v ++ drop (i + 2) p in
  copy_from_slice p i (i + 2) (to_be_bytes 2 v) = Ok q ∧ length q = length p ∧ bytes_ok q ∧
  (∀ j, (j < i ∨ i + 2 ≤ j)%nat → q !! j = p !! j) ∧
  (u_ok 16 v → from_be_bytes [q !!! i; q !!! (i + 1)%nat] = v).
Proof.
  intros Hi Hp q. subst q. split_and!.
  - apply copy_from_slice_Ok; [lia|lia|]. rewrite length_to_be_bytes. lia.
  - lens.
  - apply bytes_ok_app, bytes_ok_app; auto using to_be_bytes_ok with r2n.
  - intros j [Hj|Hj].
    + rewrite lookup_app_l by lens. by apply lookup_take_lt.
    + rewrite lookup_app_r by lens. rewrite lookup_app_r by lens.
      rewrite lookup_drop. f_equal. lens.
  - intros Hv. assert (∀ k, (k < 2)%nat →
      (take i p ++ to_be_bytes 2 v ++ drop (i + 2) p) !! (i + k)%nat = to_be_bytes 2 v !! k)
      as Hq.
    { intros k Hk. rewrite lookup_app_r by lens. rewrite lookup_app_l by lens.
      f_equal. lens. }
    pose proof (Hq 0%nat ltac:(lia)) as H0. pose proof (Hq 1%nat ltac:(lia)) as H1.
    rewrite Nat.add_0_r in H0. rewrite !list_lookup_total_alt, H0, H1.
    exact (from_to_be_bytes 2 v Hv).
Qed.

Section Walk.
Context (ts tl off : nat) (max : Z) (Hoff : (off ≤ tl)%nat) (Hmax : u_ok 16 max).

Definition width (o : tcp_opt) : nat :=
  match o with OptEnd => 0 | OptNop => 1 | OptMss _ => 4 | OptOther n => n end.

Lemma option_at_bounds p i :
  option_at ts tl off p i ≠ OptEnd → (0 < width (option_at ts tl off p i))%nat ∧
  (i + width (option_at ts tl off p i) ≤ off)%nat.
Proof.
  unfold option_at. repeat case_bool_decide; simpl; try done; intros _; lia.
Qed.

(** An option is determined by its own bytes. *)
Lemma option_at_ext p q i :
  option_at ts tl off p i ≠ OptEnd →
  (∀ j, (ts + i ≤ j < ts + i + width (option_at ts tl off p i))%nat → q !! j = p !! j) →
  option_at ts tl off q i = option_at ts tl off p i.
Proof.
  unfold option_at. case_bool_decide as H1; [|done].
  case_bool_decide as H2; [done|]. case_bool_decide as H3.
  { intros _ Hq. rewrite !(total_lookup_eq q p (ts + i)) by (apply Hq; simpl; lia).
    by rewrite (bool_decide_eq_false_2 _ H2), (bool_decide_eq_true_2 _ H3). }
  case_bool_decide as H4; [done|]. intros _ Hq.
  assert (∀ (b : bool) v, 2 ≤ width (if b
    then OptMss v else OptOther (Z.to_nat (p !!! (ts + i + 1)%nat))))%nat as Hw
    by (intros [] v; simpl; lia).
  cbn [negb] in Hq.
  rewrite !(total_lookup_eq q p (ts + i)), !(total_lookup_eq q p (ts + i + 1))
    by (apply Hq; match goal with |- context [width (if ?b then OptMss ?v else _)] =>
          pose proof (Hw b v) end; lia).
  rewrite (bool_decide_eq_false_2 _ H2), (bool_decide_eq_false_2 _ H3),
    (bool_decide_eq_false_2 _ H4). simpl.
  case_bool_decide as H5; [|done]. simpl in Hq.
  by rewrite !(total_lookup_eq q p (ts + i + 2)), !(total_lookup_eq q p (ts + i + 3))
    by (apply Hq; lia).
Qed.

Lemma mss_values_ext fuel p q i :
  (∀ j, (ts + i ≤ j)%nat → q !! j = p !! j) →
  mss_values fuel ts tl off q i = mss_values fuel ts tl off p i.
Proof.
  revert i. induction fuel as [|fuel IH]; intros i Hpq; [done|]. simpl.
  assert (option_at ts tl off q i = option_at ts tl off p i) as ->.
  { unfold option_at. by rewrite !(total_lookup_eq q p) by (apply Hpq; lia). }
  destruct (option_at ts tl off p i); [done|..]; rewrite IH; try done;
    intros; apply Hpq; lia.
Qed.

(** One round of the loop, by the option it meets. *)
Lemma clamp_options_step fuel p clamped i :
  (length p = ts + tl)%nat →
  clamp_options (S fuel) ts tl off max p clamped i =
  match option_at ts tl off p i with
  | OptEnd => Ok (clamped, p)
  | OptNop => clamp_options fuel ts tl off max p clamped (i + 1)
  | OptMss v =>
      if bool_decide (max < v) then
        p ← copy_from_slice p (ts + i + 2) (ts + i + 4) (to_be_bytes 2 max);
        clamp_options fuel ts tl off max p true (i + 4)
      else clamp_options fuel ts tl off max p clamped (i + 4)
  | OptOther n => clamp_options fuel ts tl off max p clamped (i + n)
  end.
Proof.
  intros Hl. cbn [clamp_options]. unfold option_at.
  case_bool_decide as H1; [|done]. cbn [negb].
  rewrite (index_total p (ts + i)) by lia. cbn [mbind outcome_bind].
  case_bool_decide; [done|]. case_bool_decide; [done|].
  rewrite (index_total p (ts + i + 1)) by lia. cbn [mbind outcome_bind].
  case_bool_decide as H4; [done|]. case_bool_decide as H5; [|done].
  destruct H5 as [_ H5]. rewrite H5 in *.
  rewrite (index_total p (ts + i + 2)), (index_total p (ts + i + 3)) by lia.
  cbn [mbind outcome_bind].
  case_bool_decide; [|done].
  by destruct (copy_from_slice _ _ _ _) as [q|[]|].
Qed.

(** A lowered segment size is read back, by an option still of the same bytes. *)
Lemma option_at_written p q i v :
  option_at ts tl off p i = OptMss v →
  (∀ j, (j < ts + i + 2)%nat → q !! j = p !! j) →
  from_be_bytes [q !!! (ts + i + 2)%nat; q !!! (ts + i + 3)%nat] = max →
  option_at ts tl off q i = OptMss max.
Proof.
  unfold option_at. intros Ho Hq Hv.
  rewrite !(total_lookup_eq q p (ts + i)), !(total_lookup_eq q p (ts + i + 1))
    by (apply Hq; lia).
  repeat case_bool_decide; try done. simpl in *. by rewrite Hv.
Qed.

(** Every option of the walk is lowered to the maximum, and nothing else changes. *)
Lemma clamp_options_spec fuel p clamped i :
  bytes_ok p → (length p = ts + tl)%nat →
  ∃ p', clamp_options fuel ts tl off max p clamped i
        = Ok (clamped || existsb (λ v, bool_decide (max < v)) (mss_values fuel ts tl off p i), p') ∧
    length p' = length p ∧ bytes_ok p' ∧
    (∀ j, (j < ts + i ∨ ts + off ≤ j)%nat → p' !! j = p !! j) ∧
    mss_values fuel ts tl off p' i = map (Z.min max) (mss_values fuel ts tl off p i) ∧
    (existsb (λ v, bool_decide (max < v)) (mss_values fuel ts tl off p i) = false → p' = p).
Proof.
  revert p clamped i. induction fuel as [|fuel IH]; intros p clamped i Hp Hl.
  { exists p. simpl. by rewrite orb_false_r. }
  rewrite clamp_options_step by done. cbn [mss_values].
  pose proof (option_at_bounds p i) as Hbd.
  pose proof (λ q, option_at_ext p q i) as Hext.
  destruct (option_at ts tl off p i) as [| |v|n] eqn:Ho.
  - exists p. rewrite orb_false_r, Ho. done.
  - destruct (IH p clamped (i + 1)%nat Hp Hl) as (p' & -> & ? & ? & Hsame & Hm & ?).
    exists p'. split_and!; try done; [intros; apply Hsame; lia|].
    rewrite (Hext p') by (done || intros; apply Hsame; simpl in *; lia). done.
  - destruct Hbd as [_ Hbd]; [done|]. simpl in Hbd. cbn [map existsb].
    case_bool_decide as Hv.
    + destruct (write_field p (ts + i + 2) max) as (Hw & Hwl & Hwb & Hwj & Hwv); [lia|done|].
      replace (ts + i + 2 + 2)%nat with (ts + i + 4)%nat in * by lia.
      replace (ts + i + 2 + 1)%nat with (ts + i + 3)%nat in * by lia.
      rewrite Hw. cbn [mbind outcome_bind].
      set (q := take _ p ++ _) in *.
      destruct (IH q true (i + 4)%nat Hwb ltac:(congruence))
        as (p' & -> & ? & ? & Hsame & Hm & _).
      exists p'. split_and!; try done; [by rewrite orb_true_r|congruence| |].
      * intros j Hj. rewrite Hsame by lia. apply Hwj. lia.
      * rewrite (option_at_written p p' i v); try done.
        -- rewrite Hm. rewrite (mss_values_ext fuel p q) by (intros; apply Hwj; lia).
           f_equal. lia.
        -- intros j Hj. rewrite Hsame by lia. apply Hwj. lia.
        -- rewrite !(total_lookup_eq p' q) by (apply Hsame; lia). by apply Hwv.
    + destruct (IH p clamped (i + 4)%nat Hp Hl) as (p' & -> & ? & ? & Hsame & Hm & Hn).
      exists p'. split_and!; try done; [intros; apply Hsame; lia|].
      rewrite (Hext p') by (done || intros; apply Hsame; simpl in *; lia).
      rewrite Hm. f_equal. lia.
  - destruct Hbd as [? Hbd]; [done|]. simpl in *.
    destruct (IH p clamped (i + n)%nat Hp Hl) as (p' & -> & ? & ? & Hsame & Hm & ?).
    exists p'. split_and!; try done; [intros; apply Hsame; lia|].
    rewrite (Hext p') by (done || intros; apply Hsame; simpl in *; lia). done.
Qed.

End Walk.

(** ** What the rewriting promises *)

(** A TCP segment of an IPv4 packet whose headers fit: a header of at least 20 bytes and
    a data offset inside the segment.  Other packets are not concerned. *)
Definition headers_fit (packet : list Z) : Prop :=
  let ihl := ihl_of (packet !!! 0%nat) in
  (20 ≤ ihl)%nat ∧
  (data_offset_of (packet !!! (ihl + 12)%nat) ≤ length packet - ihl)%nat.

Lemma ihl_of_max b : byte_ok b → (ihl_of b ≤ 60)%nat.
Proof.
  intros [? ?]. unfold ihl_of. change 15 with (Z.ones 4). rewrite Z.land_ones by lia.
  pose proof (Z.mod_pos_bound b (2 ^ 4)). lia.
Qed.

Lemma total_byte_ok p i : bytes_ok p → (i < length p)%nat → byte_ok (p !!! i).
Proof. intros Hp Hi. by eapply bytes_ok_lookup, list_lookup_lookup_total_lt. Qed.

(** The clamped packet and its checksum, once the options are written. *)
Lemma clamp_checksum pr ihl p :
  bytes_ok p → (20 ≤ ihl ≤ 60)%nat → (ihl + 20 ≤ length p)%nat →
  Z.of_nat (length p) < 65536 →
  ∃ seg, recompute_tcp_checksum pr (take ihl p) (drop ihl p) = Ok seg ∧
    length (take ihl p ++ seg) = length p ∧ tcp_checksum_valid (take ihl p) seg ∧
    (∀ j, j ≠ (ihl + 16)%nat → j ≠ (ihl + 17)%nat → (take ihl p ++ seg) !! j = p !! j).
Proof.
  intros Hp Hi Hl Hlt.
  destruct (recompute_spec pr (take ihl p) (drop ihl p)) as (c & _ & E & Hv);
    [auto with r2n..|rewrite length_take; lia|rewrite length_drop; lia
    |rewrite length_drop; lia|].
  eexists. split; [exact E|]. split; [|split; [exact Hv|]].
  - lens.
  - intros j H1 H2. transitivity ((take ihl p ++ drop ihl p) !! j); [|by rewrite take_drop].
    destruct (decide (j < ihl)%nat).
    { by rewrite !lookup_app_l by lens. }
    rewrite !(lookup_app_r (take ihl p)) by lens.
    rewrite length_take, Nat.min_l by lia.
    destruct (decide (j - ihl < 16)%nat).
    { rewrite lookup_app_l by lens. by apply lookup_take_lt. }
    rewrite lookup_app_r by lens. rewrite lookup_app_r by lens.
    rewrite (lookup_drop (drop ihl p)). f_equal. lens.
Qed.

Lemma tcp_syn_length p :
  tcp_syn p = true →
  (40 ≤ length p)%nat ∧ (ihl_of (p !!! 0%nat) + 20 ≤ length p)%nat.
Proof.
  unfold tcp_syn. rewrite !andb_true_iff, !bool_decide_eq_true. tauto.
Qed.

Lemma clamp_mss_unfold pr packet mtu :
  clamp_mss pr packet mtu =
  let ihl := ihl_of (packet !!! 0%nat) in
  let off := data_offset_of (packet !!! (ihl + 12)%nat) in
  if tcp_syn packet then
    r ← clamp_options off ihl (length packet - ihl) off (max_mss ihl mtu) packet false 20;
    if r.1 : bool then
      seg ← recompute_tcp_checksum pr (take ihl r.2) (drop ihl r.2);
      Ok (true, take ihl r.2 ++ seg)
    else Ok (false, r.2)
  else Ok (false, packet).
Proof.
  unfold clamp_mss, tcp_syn.
  destruct (decide (40 ≤ length packet)%nat) as [H40|H40]; cycle 1.
  { by rewrite (bool_decide_eq_true_2 (length packet < 40)%nat),
      (bool_decide_eq_false_2 (40 ≤ length packet)%nat) by lia. }
  rewrite (bool_decide_eq_false_2 (length packet < 40)%nat),
    (bool_decide_eq_true_2 (40 ≤ length packet)%nat) by lia. cbn [andb].
  rewrite (index_total packet 0) by lia. cbn [mbind outcome_bind].
  case_bool_decide; [|done]. cbn [andb negb].
  set (ihl := ihl_of (packet !!! 0%nat)).
  destruct (decide (ihl + 20 ≤ length packet)%nat) as [Hl|Hl]; cycle 1.
  { by rewrite (bool_decide_eq_true_2 (length packet < ihl + 20)%nat),
      (bool_decide_eq_false_2 (ihl + 20 ≤ length packet)%nat) by lia. }
  rewrite (bool_decide_eq_false_2 (length packet < ihl + 20)%nat),
    (bool_decide_eq_true_2 (ihl + 20 ≤ length packet)%nat) by lia. cbn [andb].
  rewrite (index_total packet 9) by lia. cbn [mbind outcome_bind].
  case_bool_decide; [|done]. cbn [andb negb].
  rewrite (bool_decide_eq_false_2 (length packet - ihl < 20)%nat) by lia.
  rewrite (index_total packet (ihl + 12)) by lia. cbn [mbind outcome_bind].
  case_bool_decide; [|done]. cbn [andb].
  rewrite (index_total packet (ihl + 13)) by lia. cbn [mbind outcome_bind].
  by destruct (negb _).
Qed.

(** C29: clamping a packet whose headers fit never unwinds: it lowers every MSS option of
    a SYN segment to the maximum for the link and reports whether one was larger; a
    packet with none is left as it is; otherwise the length and the IP header are kept
    and the TCP checksum of the result is valid. *)
Theorem clamp_mss_correct pr packet mtu :
  bytes_ok packet → Z.of_nat (length packet) < 65536 → headers_fit packet →
  let ihl := ihl_of (packet !!! 0%nat) in
  let clamped := existsb (λ v, bool_decide (max_mss ihl mtu < v)) (packet_mss packet) in
  ∃ packet', clamp_mss pr packet mtu = Ok (clamped, packet') ∧
    length packet' = length packet ∧
    packet_mss packet' = map (Z.min (max_mss ihl mtu)) (packet_mss packet) ∧
    if clamped
    then take ihl packet' = take ihl packet ∧
         tcp_checksum_valid (take ihl packet') (drop ihl packet')
    else packet' = packet.
Proof.
  intros Hp Hlt [Hihl Hoff] ihl clamped. subst clamped. unfold packet_mss.
  rewrite clamp_mss_unfold. cbv zeta. fold ihl in Hihl, Hoff |- *.
  set (off := data_offset_of (packet !!! (ihl + 12)%nat)) in *.
  destruct (tcp_syn packet) eqn:Hsyn; [|exists packet; by rewrite Hsyn].
  cbv iota. pose proof (tcp_syn_length packet Hsyn) as [Hl40 Hl]. fold ihl in Hl.
  destruct (clamp_options_spec ihl (length packet - ihl) off (max_mss ihl mtu) Hoff
    ltac:(by apply wrap_range) off packet false 20 Hp ltac:(lia))
    as (p1 & E & Hl1 & Hb1 & Hsame & Hm & Hn).
  rewrite E. cbn [mbind outcome_bind fst snd orb].
  pose proof (ihl_of_max _ (total_byte_ok packet 0 Hp ltac:(lia))) as Hi60.
  destruct (existsb _ _) eqn:Hex.
  - destruct (clamp_checksum pr ihl p1) as (seg & E2 & Hlen & Hv & Hother);
      [done|split; done|by rewrite Hl1|by rewrite Hl1|].
    rewrite E2. cbn [mbind outcome_bind].
    set (p2 := take ihl p1 ++ seg) in *.
    assert (∀ j, (j < ihl + 16 ∨ ihl + 18 ≤ j < ihl + 20)%nat → p2 !! j = packet !! j)
      as Hhead by (intros j ?; rewrite Hother by lia; apply Hsame; lia).
    assert (tcp_syn p2 = true ∧ p2 !!! 0%nat = packet !!! 0%nat ∧
      p2 !!! (ihl + 12)%nat = packet !!! (ihl + 12)%nat) as (Hsyn2 & E0 & E12).
    { rewrite <- Hsyn. unfold tcp_syn. rewrite Hlen, Hl1.
      rewrite !(total_lookup_eq p2 packet 0), !(total_lookup_eq p2 packet 9) by (apply Hhead; lia).
      fold ihl.
      by rewrite !(total_lookup_eq p2 packet (ihl + 12)), !(total_lookup_eq p2 packet (ihl + 13))
        by (apply Hhead; lia). }
    exists p2. rewrite Hsyn2, E0. fold ihl. rewrite E12. fold off.
    split; [done|split; [congruence|split]].
    + rewrite Hlen, Hl1, <- Hm. apply mss_values_ext; [done..|]. intros j Hj. apply Hother; lia.
    + rewrite <- (take_drop ihl p2).
      assert (take ihl p2 = take ihl p1) as ->
        by (unfold p2; rewrite take_app_length'; [done|lens]).
      assert (drop ihl p2 = seg) as ->
        by (unfold p2; rewrite drop_app_length'; [done|lens]).
      rewrite take_app_length', drop_app_length' by lens. split; [|done].
      apply list_eq. intros j. destruct (decide (j < ihl)%nat).
      * rewrite !lookup_take_lt by done. apply Hsame. lia.
      * rewrite !lookup_take_ge; done || lia.
  - exists packet. rewrite (Hn eq_refl) in *. rewrite Hsyn. split_and!; try done.
Qed.


(** The layout of the ICMP message, around its two checksums. *)
Definition icmp_ip_header (total : Z) (src dst cksum : list Z) : list Z :=
  [69; 0] ++ to_be_bytes 2 total ++ [0; 0; 0; 0; 64; 1] ++ cksum ++ src ++ dst.
Definition icmp_body (mtu : Z) (quoted cksum : list Z) : list Z :=
  [3; 4] ++ cksum ++ [0; 0] ++ to_be_bytes 2 mtu ++ quoted.

Lemma four_bytes (l : list Z) : length l = 4%nat → ∃ a b c d, l = [a; b; c; d].
Proof.
  destruct l as [|a [|b [|c [|d [|]]]]]; simpl; try lia. intros _. eauto.
Qed.

Lemma two_bytes v : to_be_bytes 2 v = [(v / 256) `mod` 256; v `mod` 256].
Proof. reflexivity. Qed.

(** Runs the next write, on a list whose first elements are known. *)
Ltac run_write :=
  match goal with
  | |- mbind _ ?m = _ =>
      let v := eval vm_compute in m in change m with v; cbn [mbind outcome_bind]
  end.

Lemma build_icmp_eq pr original mtu n :
  n = (ihl_of (original !!! 0%nat) + 8)%nat → (n ≤ length original)%nat →
  (20 ≤ length original)%nat → bytes_ok original →
  build_icmp_frag_needed pr original mtu =
  let header := icmp_ip_header (Z.of_nat (28 + n)) (take 4 (drop 16 original))
                  (take 4 (drop 12 original)) in
  let body := icmp_body mtu (take n original) in
  ip_cksum ← ip_checksum pr (header [0; 0]);
  icmp_cksum ← ip_checksum pr (body [0; 0]);
  Ok (Some (header (to_be_bytes 2 ip_cksum) ++ body (to_be_bytes 2 icmp_cksum))).
Proof.
  intros Hn Hle H20 Hb. unfold build_icmp_frag_needed.
  rewrite (index_total original 0) by lia. cbn [mbind outcome_bind]. rewrite <- Hn.
  rewrite bool_decide_eq_false_2 by lia. rewrite !slice_Ok by lia.
  cbn [mbind outcome_bind]. change (16 - 12)%nat with 4%nat. change (20 - 16)%nat with 4%nat.
  rewrite Nat.sub_0_r, drop_0.
  destruct (four_bytes (take 4 (drop 12 original))) as (s0 & s1 & s2 & s3 & ->); [lens|].
  destruct (four_bytes (take 4 (drop 16 original))) as (d0 & d1 & d2 & d3 & ->); [lens|].
  rewrite (wrap_small 16) by
    (pose proof (ihl_of_max _ (total_byte_ok original 0 Hb ltac:(lia))); unfold u_ok; lia).
  assert (length (take n original) = n) as Hq by lens.
  revert Hq. generalize (take n original) as q. intros q Hq.
  change (20 + 8 + n)%nat with (28 + n)%nat. cbv zeta. unfold icmp_ip_header, icmp_body.
  rewrite !two_bytes.
  generalize ((Z.of_nat (28 + n) / 256) `mod` 256) as t0.
  generalize (Z.of_nat (28 + n) `mod` 256) as t1.
  generalize ((mtu / 256) `mod` 256) as m0. generalize (mtu `mod` 256) as m1. intros.
  do 8 run_write. cbn [app].
  destruct (ip_checksum pr _) as [c|[]|]; [|done]. cbn [mbind outcome_bind].
  rewrite (two_bytes c). generalize ((c / 256) `mod` 256) as c0. generalize (c `mod` 256) as c1.
  intros. do 4 run_write.
  match goal with |- mbind _ (copy_from_slice _ 8 _ _) = _ =>
    change (3 :: 4 :: 0 :: 0 :: 0 :: 0 :: m0 :: m1 :: _)
      with ([3; 4; 0; 0; 0; 0; m0; m1] ++ replicate n 0) at 1 end.
  rewrite copy_append by (cbn [length]; autorewrite with r2n; lia).
  rewrite drop_ge by (autorewrite with r2n; lia). rewrite app_nil_r. cbn [mbind outcome_bind app].
  destruct (ip_checksum pr (3 :: _)) as [c'|[]|]; [|done]. cbn [mbind outcome_bind].
  rewrite (two_bytes c'). run_write. done.
Qed.

Lemma ip_checksum_total pr l :
  bytes_ok l → Z.of_nat (length l) < 65536 → ∃ c, ip_checksum pr l = Ok c.
Proof.
  intros Hl Hlt. unfold ip_checksum. pose proof (words_range l Hl).
  rewrite sum_words_small by (done || lia). by eexists.
Qed.

Lemma icmp_header_verifies pr total src dst :
  bytes_ok src → bytes_ok dst → length src = 4%nat → length dst = 4%nat →
  ∃ c, ip_checksum pr (icmp_ip_header total src dst [0; 0]) = Ok c ∧
    ip_checksum pr (icmp_ip_header total src dst (to_be_bytes 2 c)) = Ok 0.
Proof.
  intros Hs Hd Hls Hld. unfold icmp_ip_header.
  set (pre := [69; 0] ++ to_be_bytes 2 total ++ [0; 0; 0; 0; 64; 1]).
  assert (∀ k, [69; 0] ++ to_be_bytes 2 total ++ [0; 0; 0; 0; 64; 1] ++ k ++ src ++ dst
               = pre ++ k ++ src ++ dst) as Hpre by (intros; unfold pre; by rewrite <- !app_assoc).
  assert (bytes_ok pre) as Hb.
  { unfold pre. apply bytes_ok_app; [by apply bytes_ok_check|].
    apply bytes_ok_app; [apply to_be_bytes_ok|by apply bytes_ok_check]. }
  rewrite Hpre. destruct (ip_checksum_total pr (pre ++ [0; 0] ++ src ++ dst)) as [c Hc].
  - apply bytes_ok_app, bytes_ok_app; auto with r2n. by apply bytes_ok_check.
  - rewrite !length_app, Hls, Hld. unfold pre. lens.
  - exists c. split; [done|]. rewrite Hpre. apply checksum_verifies; auto with r2n.
    + by exists 5%nat.
    + rewrite !length_app, Hls, Hld. unfold pre. lens.
Qed.

Lemma icmp_body_verifies pr mtu q :
  bytes_ok q → (length q ≤ 1000)%nat →
  ∃ c, ip_checksum pr (icmp_body mtu q [0; 0]) = Ok c ∧
    ip_checksum pr (icmp_body mtu q (to_be_bytes 2 c)) = Ok 0.
Proof.
  intros Hq Hl. unfold icmp_body.
  assert (bytes_ok ([0; 0] ++ to_be_bytes 2 mtu ++ q)) as Hb.
  { apply bytes_ok_app; [by apply bytes_ok_check|].
    apply bytes_ok_app; [apply to_be_bytes_ok|done]. }
  assert (bytes_ok [3; 4]) by by apply bytes_ok_check.
  destruct (ip_checksum_total pr ([3; 4] ++ [0; 0] ++ [0; 0] ++ to_be_bytes 2 mtu ++ q))
    as [c Hc].
  - apply bytes_ok_app; [done|]. apply bytes_ok_app; [by apply bytes_ok_check|done].
  - lens.
  - exists c. split; [done|]. apply checksum_verifies; try done.
    + by exists 1%nat.
    + lens.
Qed.

(** The message for a packet that is too large.  It unwinds only on an empty packet,
    and on one shorter than an IPv4 header whose header length field is small enough;
    otherwise it is [None] on a truncated packet and else a packet of the right length
    that goes back from the destination to the source, names the next-hop MTU, quotes
    the header and eight bytes, and whose two checksums verify. *)
Theorem icmp_frag_needed_correct pr original mtu :
  bytes_ok original → u_ok 16 mtu →
  let n := (ihl_of (original !!! 0%nat) + 8)%nat in
  match build_icmp_frag_needed pr original mtu with
  | Panic => (length original < 20)%nat ∧ (original = [] ∨ n ≤ length original)%nat
  | Err _ => False
  | Ok None => original ≠ [] ∧ (length original < n)%nat
  | Ok (Some pkt) =>
      length pkt = (28 + n)%nat ∧
      take 4 (drop 12 pkt) = take 4 (drop 16 original) ∧
      take 4 (drop 16 pkt) = take 4 (drop 12 original) ∧
      from_be_bytes (take 2 (drop 2 pkt)) = Z.of_nat (length pkt) ∧
      take 2 (drop 20 pkt) = [3; 4] ∧ from_be_bytes (take 2 (drop 26 pkt)) = mtu ∧
      drop 28 pkt = take n original ∧
      ip_checksum pr (take 20 pkt) = Ok 0 ∧ ip_checksum pr (drop 20 pkt) = Ok 0
  end.
Proof.
  intros Hb Hm n. destruct (decide (original = [])) as [->|Hne].
  { simpl. split; [lia|by left]. }
  assert (0 < length original)%nat as Hpos by (destruct original; simpl; [done|lia]).
  destruct (decide (length original < n)%nat) as [Hlt|Hge].
  { unfold build_icmp_frag_needed. rewrite index_total by lia. cbn [mbind outcome_bind].
    by rewrite bool_decide_eq_true_2. }
  destruct (decide (20 ≤ length original)%nat) as [H20|H20]; cycle 1.
  { unfold build_icmp_frag_needed. rewrite index_total by lia. cbn [mbind outcome_bind].
    fold n. rewrite bool_decide_eq_false_2 by lia. unfold slice.
    repeat case_bool_decide; simpl; lia. }
  pose proof (ihl_of_max _ (total_byte_ok original 0 Hb Hpos)) as H60.
  rewrite (build_icmp_eq pr original mtu n) by (done || lia). cbv zeta.
  destruct (four_bytes (take 4 (drop 12 original))) as (s0 & s1 & s2 & s3 & Es); [lens|].
  destruct (four_bytes (take 4 (drop 16 original))) as (d0 & d1 & d2 & d3 & Ed); [lens|].
  assert (bytes_ok [s0; s1; s2; s3]) by (rewrite <- Es; auto with r2n).
  assert (bytes_ok [d0; d1; d2; d3]) by (rewrite <- Ed; auto with r2n).
  assert (length (take n original) = n) as Hq by lens.
  assert (bytes_ok (take n original)) as Hqb by auto with r2n.
  rewrite Es, Ed. generalize dependent (take n original). intros q Hq Hqb.
  destruct (icmp_header_verifies pr (Z.of_nat (28 + n)) [d0; d1; d2; d3] [s0; s1; s2; s3])
    as (c1 & -> & V1); [done..|].
  destruct (icmp_body_verifies pr mtu q) as (c2 & -> & V2); [done|lia|].
  cbn [mbind outcome_bind].
  assert (length (icmp_ip_header (Z.of_nat (28 + n)) [d0; d1; d2; d3] [s0; s1; s2; s3]
    (to_be_bytes 2 c1)) = 20%nat) as HL by done.
  assert (length (icmp_ip_header (Z.of_nat (28 + n)) [d0; d1; d2; d3] [s0; s1; s2; s3]
    (to_be_bytes 2 c1) ++ icmp_body mtu q (to_be_bytes 2 c2)) = (28 + n)%nat) as HT
    by (rewrite length_app, HL; unfold icmp_body; lens).
  split_and!; try done.
  - rewrite HT. apply (from_to_be_bytes 2). unfold u_ok. lia.
  - by apply (from_to_be_bytes 2).
Qed.

(** A segment size option cut off by the end of the packet unwinds, whatever the
    build: the walk checks the option's length against the data offset, not against the
    bytes that are there. *)
Theorem clamp_mss_truncated_option pr mtu :
  let packet := [69; 0; 0; 42; 0; 0; 0; 0; 64; 6; 0; 0; 10; 0; 0; 1; 10; 0; 0; 2] ++
                replicate 12 0 ++ [240; 2] ++ replicate 6 0 ++ [2; 4] in
  length packet = 42%nat ∧ clamp_mss pr packet mtu = Panic.
Proof. done. Qed.

(** ** The theorems on concrete packets *)

(** A SYN of 44 bytes that announces a segment size of 1460. *)
Definition demo_syn : list Z :=
  [69; 0; 0; 44; 0; 0; 0; 0; 64; 6; 0; 0; 10; 0; 0; 1; 10; 0; 0; 2] ++
  replicate 12 0 ++ [96; 2] ++ replicate 6 0 ++ [2; 4; 5; 180].

Lemma clamp_mss_correct_witness :
  packet_mss demo_syn = [1460] ∧
  ∃ packet', clamp_mss Debug demo_syn 1280 = Ok (true, packet') ∧
    packet_mss packet' = [1240] ∧
    tcp_checksum_valid (take 20 packet') (drop 20 packet').
Proof.
  split; [reflexivity|].
  destruct (clamp_mss_correct Debug demo_syn 1280) as (p & E & _ & Hm & _ & Hv).
  - apply bytes_ok_check. reflexivity.
  - reflexivity.
  - split; vm_compute; lia.
  - exists p. split; [exact E|]. split; [exact Hm|exact Hv].
Defined.

Lemma icmp_frag_needed_correct_witness :
  ∃ pkt, build_icmp_frag_needed Debug demo_syn 1280 = Ok (Some pkt) ∧
    length pkt = 56%nat ∧ ip_checksum Debug (take 20 pkt) = Ok 0.
Proof.
  pose proof (icmp_frag_needed_correct Debug demo_syn 1280
    ltac:(apply bytes_ok_check; reflexivity) ltac:(unfold u_ok; lia)) as H.
  destruct (build_icmp_frag_needed Debug demo_syn 1280) as [[pkt|]|[]|] eqn:E;
    try (vm_compute in E; discriminate).
  destruct H as (H1 & _ & _ & _ & _ & _ & _ & H2 & _).
  exists pkt. split; [reflexivity|]. split; [exact H1|exact H2].
Defined.
