(* ===== verification/Policy.v ===== *)
(** The traffic policy (crates/r2n-policy/src/lib.rs) and the commands that change it
    (crates/r2n-edge-lib/src/ipc.rs). *)
From Stdlib Require Import ZArith Lia.
From stdpp Require Import base tactics numbers list sets strings.
From S2P Require Import Prelude Bytes Net Etherparse.
Local Open Scope Z_scope.

(** [ipnet::IpNet] and [IpNet::contains]. *)
Class IpNetLib := {
  IpNet : Type;
  ipnet_contains : IpNet → IpAddr → bool;
}.

(** ** Data *)
Inductive TrafficAction := Allow | Deny.
Inductive TrafficDirection := Inbound | Outbound | Both.
Inductive TrafficProtocol := AnyProtocol | Tcp | Udp | Icmp.
#[export] Instance TrafficAction_eq_dec : EqDecision TrafficAction.
Proof. solve_decision. Defined.
#[export] Instance TrafficDirection_eq_dec : EqDecision TrafficDirection.
Proof. solve_decision. Defined.
#[export] Instance TrafficProtocol_eq_dec : EqDecision TrafficProtocol.
Proof. solve_decision. Defined.

Definition direction_matches (d actual : TrafficDirection) : bool :=
  bool_decide (d = Both) || bool_decide (d = actual).

Record PortRange := mkPortRange { range_start : Z; range_end : Z }.
Definition range_contains (r : PortRange) (port : Z) : bool :=
  bool_decide (range_start r ≤ port) && bool_decide (port ≤ range_end r).

Definition default_enabled : bool := true.
Definition default_protocol : TrafficProtocol := AnyProtocol.

Record PacketMeta := mkPacketMeta {
  meta_src : IpAddr;
  meta_dst : IpAddr;
  meta_protocol : TrafficProtocol;
  meta_src_port : option Z;
  meta_dst_port : option Z;
}.

Inductive PolicyError := UnsupportedPacket.

(** ** Reading a packet *)
Definition transport_meta (transport : option TransportSlice)
    : TrafficProtocol * option Z * option Z :=
  match transport with
  | Some (SliceTcp sp dp) => (Tcp, Some sp, Some dp)
  | Some (SliceUdp sp dp) => (Udp, Some sp, Some dp)
  | Some SliceIcmpv4 | Some SliceIcmpv6 => (Icmp, None, None)
  | _ => (AnyProtocol, None, None)
  end.

Definition packet_meta `{Etherparse} (packet : list Z) : outcome PolicyError PacketMeta :=
  '(ip, transport) ← ok_or UnsupportedPacket (sliced_from_ip packet);
  let '(protocol, src_port, dst_port) := transport_meta transport in
  match ip with
  | Some (SliceIpv4 s d) => Ok (mkPacketMeta (V4 s) (V4 d) protocol src_port dst_port)
  | Some (SliceIpv6 s d) => Ok (mkPacketMeta (V6 s) (V6 d) protocol src_port dst_port)
  | None => Err UnsupportedPacket
  end.

Section Policy.
Context `{N : IpNetLib}.

Record TrafficRule := mkRule {
  rule_id : string;
  rule_enabled : bool;
  rule_action : TrafficAction;
  rule_direction : TrafficDirection;
  rule_src_cidr : option IpNet;
  rule_dst_cidr : option IpNet;
  rule_protocol : TrafficProtocol;
  rule_src_ports : list PortRange;
  rule_dst_ports : list PortRange;
  rule_description : option string;
}.

Record TrafficPolicy := mkPolicy {
  policy_enabled : bool;
  default_action : TrafficAction;
  rules : list TrafficRule;
}.

Definition TrafficPolicy_default : TrafficPolicy := mkPolicy true Allow [].

(** ** Decisions *)
Definition cidr_test (cidr : option IpNet) (a : IpAddr) : bool :=
  match cidr with Some c => ipnet_contains c a | None => true end.

Definition ports_test (ports : list PortRange) (port : option Z) : bool :=
  match ports with
  | [] => true
  | _ => match port with
         | Some p => existsb (λ r, range_contains r p) ports
         | None => false
         end
  end.

Definition rule_matches (rule : TrafficRule) (direction : TrafficDirection)
    (meta : PacketMeta) : bool :=
  if negb (rule_enabled rule) || negb (direction_matches (rule_direction rule) direction)
  then false
  else if negb (bool_decide (rule_protocol rule = AnyProtocol))
          && negb (bool_decide (rule_protocol rule = meta_protocol meta)) then false
  else if negb (cidr_test (rule_src_cidr rule) (meta_src meta)) then false
  else if negb (cidr_test (rule_dst_cidr rule) (meta_dst meta)) then false
  else if negb (ports_test (rule_src_ports rule) (meta_src_port meta)) then false
  else ports_test (rule_dst_ports rule) (meta_dst_port meta).

Definition decision_for_meta (p : TrafficPolicy) (direction : TrafficDirection)
    (meta : PacketMeta) : TrafficAction :=
  if negb (policy_enabled p) then Allow
  else match List.find (λ r, rule_matches r direction meta) (rules p) with
       | Some r => rule_action r
       | None => default_action p
       end.

Definition decision `{Etherparse} (p : TrafficPolicy) (direction : TrafficDirection)
    (packet : list Z) : TrafficAction :=
  if negb (policy_enabled p) then Allow
  else match packet_meta packet with
       | Ok meta => decision_for_meta p direction meta
       | _ => default_action p
       end.

Definition allows `{Etherparse} (p : TrafficPolicy) (direction : TrafficDirection)
    (packet : list Z) : bool :=
  bool_decide (decision p direction packet = Allow).

(** ** The commands *)
Inductive RuleError := RuleExists (id : string) | RuleNotFound.

Definition set_rules (rs : list TrafficRule) (p : TrafficPolicy) : TrafficPolicy :=
  mkPolicy (policy_enabled p) (default_action p) rs.

Definition rules_add (rule : TrafficRule) : M TrafficPolicy RuleError unit :=
  let* p := mget in
  if existsb (λ r, bool_decide (rule_id r = rule_id rule)) (rules p)
  then mthrow (RuleExists (rule_id rule))
  else mmodify (set_rules (rules p ++ [rule])).

Definition rules_remove (id : string) : M TrafficPolicy RuleError unit :=
  let* p := mget in
  let kept := List.filter (λ r, negb (bool_decide (rule_id r = id))) (rules p) in
  if bool_decide (length kept = length (rules p)) then mthrow RuleNotFound
  else mmodify (set_rules kept).

Definition rules_enable (enabled : bool) : M TrafficPolicy RuleError unit :=
  mmodify (λ p, mkPolicy enabled (default_action p) (rules p)).

Inductive rule_cmd :=
| RulesAdd (rule : TrafficRule) | RulesRemove (id : string) | RulesEnable (enabled : bool).

Definition run_rule_cmd (c : rule_cmd) : M TrafficPolicy RuleError unit :=
  match c with
  | RulesAdd r => rules_add r
  | RulesRemove id => rules_remove id
  | RulesEnable b => rules_enable b
  end.

Definition run_rule_cmds (cs : list rule_cmd) (p : TrafficPolicy) : TrafficPolicy :=
  fold_left (λ p c, (run_rule_cmd c p).2) cs p.

(** ** What a rule asks of a packet *)
Definition port_listed (ports : list PortRange) (port : option Z) : Prop :=
  ports = [] ∨ ∃ p r, port = Some p ∧ r ∈ ports ∧ range_start r ≤ p ≤ range_end r.

Record rule_applies (r : TrafficRule) (d : TrafficDirection) (m : PacketMeta) : Prop := {
  app_enabled : rule_enabled r = true;
  app_direction : rule_direction r = Both ∨ rule_direction r = d;
  app_protocol : rule_protocol r = AnyProtocol ∨ rule_protocol r = meta_protocol m;
  app_src : ∀ c, rule_src_cidr r = Some c → ipnet_contains c (meta_src m) = true;
  app_dst : ∀ c, rule_dst_cidr r = Some c → ipnet_contains c (meta_dst m) = true;
  app_sport : port_listed (rule_src_ports r) (meta_src_port m);
  app_dport : port_listed (rule_dst_ports r) (meta_dst_port m);
}.

Lemma ports_test_spec ports port :
  ports_test ports port = true ↔ port_listed ports port.
Proof.
  unfold ports_test, port_listed. destruct ports as [|r0 ports]; [naive_solver|].
  destruct port as [p|]; [|naive_solver]. rewrite existsb_exists.
  unfold range_contains. setoid_rewrite andb_true_iff.
  setoid_rewrite bool_decide_eq_true. setoid_rewrite <- list_elem_of_In. naive_solver.
Qed.

Lemma cidr_test_spec cidr a :
  cidr_test cidr a = true ↔ ∀ c, cidr = Some c → ipnet_contains c a = true.
Proof. destruct cidr; simpl; naive_solver. Qed.

Lemma rule_matches_spec r d m : rule_matches r d m = true ↔ rule_applies r d m.
Proof.
  assert (rule_applies r d m ↔
    rule_enabled r = true ∧ direction_matches (rule_direction r) d = true ∧
    (bool_decide (rule_protocol r = AnyProtocol)
      || bool_decide (rule_protocol r = meta_protocol m)) = true ∧
    cidr_test (rule_src_cidr r) (meta_src m) = true ∧
    cidr_test (rule_dst_cidr r) (meta_dst m) = true ∧
    ports_test (rule_src_ports r) (meta_src_port m) = true ∧
    ports_test (rule_dst_ports r) (meta_dst_port m) = true) as ->.
  { unfold direction_matches. rewrite !orb_true_iff, !bool_decide_eq_true,
      !ports_test_spec, !cidr_test_spec.
    split; [by intros []|]. intros (?&?&?&?&?&?&?). by split. }
  unfold rule_matches.
  destruct (rule_enabled r), (direction_matches _ _), (bool_decide (_ = AnyProtocol)),
    (bool_decide (rule_protocol r = _)), (cidr_test _ _), (cidr_test _ _), (ports_test _ _);
    simpl; naive_solver.
Qed.

(** C8: an enabled policy decides a readable packet by its first rule that applies, and
    by the default when none does; an unreadable packet gets the default; a disabled
    policy allows everything. *)
Theorem policy_first_match `{Etherparse} p d packet :
  match policy_enabled p, packet_meta packet with
  | false, _ => decision p d packet = Allow
  | true, Ok m =>
      (∃ pre r post, rules p = pre ++ r :: post ∧ rule_applies r d m ∧
         (∀ r', r' ∈ pre → ¬ rule_applies r' d m) ∧ decision p d packet = rule_action r) ∨
      ((∀ r, r ∈ rules p → ¬ rule_applies r d m) ∧ decision p d packet = default_action p)
  | true, _ => decision p d packet = default_action p
  end.
Proof.
  unfold decision. destruct (policy_enabled p) eqn:He; [|done]. simpl.
  destruct (packet_meta packet) as [m|e|]; [|done..].
  unfold decision_for_meta. rewrite He. simpl. setoid_rewrite <- rule_matches_spec.
  induction (rules p) as [|r rs IH]; simpl; [right; split; [set_solver|done]|].
  destruct (rule_matches r d m) eqn:Hr.
  - left. exists [], r, rs. split_and!; [done..|set_solver|done].
  - destruct IH as [(pre & r' & post & -> & Hr' & Hpre & E)|[Hnone E]].
    + left. exists (r :: pre), r', post. split_and!; try done.
      intros r'' [->|?]%elem_of_cons; [by rewrite Hr|by apply Hpre].
    + right. split; [|done]. intros r' [->|?]%elem_of_cons; [by rewrite Hr|by apply Hnone].
Qed.

Lemma filter_sublist {A} (f : A → bool) l : sublist (List.filter f l) l.
Proof.
  induction l as [|x l IH]; simpl; [constructor|]. destruct (f x); by constructor.
Qed.

Lemma filter_length_eq {A} (f : A → bool) l :
  length (List.filter f l) = length l → List.filter f l = l.
Proof.
  induction l as [|x l IH]; simpl; [done|]. pose proof (List.filter_length_le f l).
  destruct (f x); simpl; intros; [f_equal; apply IH|]; lia.
Qed.

(** Whatever commands arrive, the rules keep distinct ids; and what a command does:
    [add] appends a rule whose id is new and fails otherwise, [remove] takes out exactly
    the rules of the id and fails when there is none, [enable] only sets the switch. *)
Theorem rule_commands cs p :
  NoDup (rule_id <$> rules p) →
  let q := run_rule_cmds cs p in
  NoDup (rule_id <$> rules q) ∧
  (∀ r, rules_add r q =
     if decide (rule_id r ∈ rule_id <$> rules q) then (Err (RuleExists (rule_id r)), q)
     else (Ok tt, set_rules (rules q ++ [r]) q)) ∧
  (∀ id, match rules_remove id q with
     | (Ok _, q') => id ∈ rule_id <$> rules q ∧
         (∀ r, r ∈ rules q' ↔ r ∈ rules q ∧ rule_id r ≠ id) ∧
         default_action q' = default_action q
     | (_, q') => q' = q ∧ id ∉ rule_id <$> rules q
     end) ∧
  (∀ b, rules_enable b q = (Ok tt, mkPolicy b (default_action q) (rules q))).
Proof.
  intros Hnd q.
  assert (∀ r p, existsb (λ r', bool_decide (rule_id r' = rule_id r)) (rules p) = true
    ↔ rule_id r ∈ rule_id <$> rules p) as Hex.
  { intros r p0. rewrite existsb_exists, list_elem_of_fmap.
    setoid_rewrite bool_decide_eq_true. setoid_rewrite <- list_elem_of_In. naive_solver. }
  assert (∀ r p, rules_add r p =
     if decide (rule_id r ∈ rule_id <$> rules p) then (Err (RuleExists (rule_id r)), p)
     else (Ok tt, set_rules (rules p ++ [r]) p)) as Hadd.
  { intros r p0. unfold rules_add, mseq, mget.
    destruct (existsb _ _) eqn:E; case_decide as Hd; try done.
    - apply Hex in E. done.
    - apply Hex in Hd. congruence. }
  split; [|split; [|split]].
  - subst q. unfold run_rule_cmds. revert p Hnd.
    induction cs as [|c cs IH]; intros p Hnd; [done|]. apply IH.
    destruct c as [r|id|b]; cbn [run_rule_cmd]; [| |done].
    + rewrite Hadd. case_decide as Hd; [done|]. simpl. rewrite fmap_app. simpl.
      apply NoDup_app. split; [done|]. split; [|apply NoDup_singleton].
      intros x Hx ->%list_elem_of_singleton. done.
    + unfold rules_remove, mseq, mget. case_bool_decide; [done|]. simpl.
      eapply sublist_NoDup; [exact Hnd|]. apply fmap_sublist, filter_sublist.
  - intros r. apply Hadd.
  - intros id. unfold rules_remove, mseq, mget. case_bool_decide as Hlen; simpl.
    + split; [done|]. intros (r & -> & Hr)%list_elem_of_fmap.
      rewrite <- (filter_length_eq _ _ Hlen) in Hr. apply list_elem_of_In, List.filter_In in Hr as [_ Hr].
      by rewrite bool_decide_eq_true_2 in Hr.
    + split; [|split; [|done]].
      * destruct (decide (id ∈ rule_id <$> rules q)) as [|Hn]; [done|].
        exfalso. apply Hlen. f_equal. clear Hlen.
        induction (rules q) as [|r rs IH]; [done|]. simpl in *.
        rewrite bool_decide_eq_false_2 by set_solver. simpl. f_equal. apply IH. set_solver.
      * intros r. rewrite !list_elem_of_In, List.filter_In, negb_true_iff,
          bool_decide_eq_false. done.
  - done.
Qed.

End Policy.

(** ** Two rules *)
Definition any_net : IpNetLib := {| IpNet := unit; ipnet_contains _ _ := true |}.
Definition demo_rule (id : string) : TrafficRule (N:=any_net) :=
  mkRule (N:=any_net) id true Deny Both None None Tcp [] [] None.

Lemma rule_commands_witness :
  let q := run_rule_cmds [RulesAdd (demo_rule "a"); RulesAdd (demo_rule "b"); RulesRemove "a"]
             TrafficPolicy_default in
  (rule_id <$> rules q) = ["b"%string] ∧ NoDup (rule_id <$> rules q) ∧
  rules_add (demo_rule "b") q = (Err (RuleExists "b"), q).
Proof.
  destruct (rule_commands (N:=any_net)
    [RulesAdd (demo_rule "a"); RulesAdd (demo_rule "b"); RulesRemove "a"]
    TrafficPolicy_default (NoDup_nil_2)) as (H1 & H2 & _).
  split; [reflexivity|]. split; [exact H1|]. exact (H2 (demo_rule "b")).
Defined.
