(* ===== verification/Sorting.v ===== *)
(** [slice::sort_by_key] (stable), [slice::sort], [Vec::dedup_by], [Iterator::min_by_key] (the
    first minimum) and [Iterator::max_by_key] (the last maximum). *)
From Stdlib Require Import ZArith Lia Sorting.Sorted.
From stdpp Require Import base tactics numbers list sets.
From S2P Require Import Prelude.
Local Open Scope Z_scope.

Section Sort.
Context {A : Type} (key : A → Z).

Fixpoint insert_by_key (x : A) (l : list A) : list A :=
  match l with
  | [] => [x]
  | y :: l' => if bool_decide (key x ≤ key y) then x :: l else y :: insert_by_key x l'
  end.
Definition sort_by_key (l : list A) : list A := foldr insert_by_key [] l.

Definition by_key (x y : A) : Prop := key x ≤ key y.

Lemma insert_by_key_perm x l : insert_by_key x l ≡ₚ x :: l.
Proof.
  induction l as [|y l IH]; simpl; [done|]. case_bool_decide; [done|].
  rewrite IH. apply Permutation_swap.
Qed.

Lemma sort_by_key_perm l : sort_by_key l ≡ₚ l.
Proof. induction l as [|x l IH]; simpl; [done|]. by rewrite insert_by_key_perm, IH. Qed.

Lemma insert_by_key_sorted x l :
  StronglySorted by_key l → StronglySorted by_key (insert_by_key x l).
Proof.
  induction 1 as [|y l Hs IH Hy]; simpl; [repeat constructor|].
  case_bool_decide as Hxy.
  - constructor; [by constructor|]. constructor; [done|].
    eapply Forall_impl; [exact Hy|]. unfold by_key. lia.
  - constructor; [done|]. rewrite insert_by_key_perm. constructor; [unfold by_key; lia|done].
Qed.

Lemma sort_by_key_sorted l : StronglySorted by_key (sort_by_key l).
Proof. induction l; simpl; [constructor|by apply insert_by_key_sorted]. Qed.

(** Elements of one key keep their order. *)
Lemma insert_by_key_stable k x l :
  List.filter (λ y, bool_decide (key y = k)) (insert_by_key x l)
  = List.filter (λ y, bool_decide (key y = k)) (x :: l).
Proof.
  induction l as [|y l IH]; [done|]. cbn [insert_by_key].
  case_bool_decide as Hxy; [done|]. simpl in *. rewrite IH.
  repeat case_bool_decide; try done. lia.
Qed.

Lemma sort_by_key_stable k l :
  List.filter (λ y, bool_decide (key y = k)) (sort_by_key l)
  = List.filter (λ y, bool_decide (key y = k)) l.
Proof.
  induction l as [|x l IH]; [done|]. simpl. rewrite insert_by_key_stable. simpl. by rewrite IH.
Qed.

End Sort.

Section Min.
Context {A K : Type} (key : A → K) (lt : K → K → bool).

(** Keeps the earlier element unless a later one is strictly below it. *)
Definition min_by_key (l : list A) : option A :=
  match l with
  | [] => None
  | x :: l => Some (fold_left (λ best y, if lt (key y) (key best) then y else best) l x)
  end.

Context (lt_trans : ∀ a b c, lt b a = false → lt c b = false → lt c a = false).
Context (lt_asym : ∀ a b, lt a b = true → lt b a = false) (lt_irrefl : ∀ a, lt a a = false).

(** Nothing is below the minimum. *)
Lemma min_by_key_spec l m :
  min_by_key l = Some m → m ∈ l ∧ ∀ y, y ∈ l → lt (key y) (key m) = false.
Proof.
  destruct l as [|x l]; [done|]. intros [= <-].
  assert (∀ l best, let m := fold_left (λ best y, if lt (key y) (key best) then y else best) l best in
    (m = best ∨ m ∈ l) ∧ lt (key best) (key m) = false ∧
    ∀ y, y ∈ l → lt (key y) (key m) = false) as H.
  { clear l x. induction l as [|y l IH]; intros best; simpl.
    - split_and!; [by left|apply lt_irrefl|set_solver].
    - destruct (lt (key y) (key best)) eqn:E.
      + destruct (IH y) as (H1 & H2 & H3). split_and!.
        * right. destruct H1 as [->|?]; set_solver.
        * apply (lt_trans _ (key y)); [done|]. by apply lt_asym.
        * intros z [->|?]%elem_of_cons; [done|by apply H3].
      + destruct (IH best) as (H1 & H2 & H3). split_and!.
        * destruct H1 as [->|?]; set_solver.
        * done.
        * intros z [->|?]%elem_of_cons; [by apply (lt_trans _ (key best))|by apply H3]. }
  destruct (H l x) as (H1 & H2 & H3). split.
  - destruct H1 as [->|?]; set_solver.
  - intros y [->|?]%elem_of_cons; [done|by apply H3].
Qed.
End Min.

(** [sort] by a total order on values that are equal when neither is below the other. *)
Section SortWith.
Context {A : Type} (le : A → A → bool).

Fixpoint insert_with (x : A) (l : list A) : list A :=
  match l with
  | [] => [x]
  | y :: l' => if le x y then x :: l else y :: insert_with x l'
  end.
Definition sort_with (l : list A) : list A := foldr insert_with [] l.

Lemma insert_with_perm x l : insert_with x l ≡ₚ x :: l.
Proof.
  induction l as [|y l IH]; simpl; [done|]. destruct (le x y); [done|].
  rewrite IH. apply Permutation_swap.
Qed.

Lemma sort_with_perm l : sort_with l ≡ₚ l.
Proof. induction l as [|x l IH]; simpl; [done|]. by rewrite insert_with_perm, IH. Qed.
End SortWith.

(** [dedup_by]: an element goes when it is the same as the last one kept. *)
Section Dedup.
Context {A : Type} (same : A → A → bool).

Fixpoint dedup_from (kept : A) (l : list A) : list A :=
  match l with
  | [] => []
  | x :: l => if same x kept then dedup_from kept l else x :: dedup_from x l
  end.
Definition dedup_by (l : list A) : list A :=
  match l with [] => [] | x :: l => x :: dedup_from x l end.

Lemma dedup_from_sublist kept l : dedup_from kept l `sublist_of` l.
Proof.
  revert kept. induction l as [|x l IH]; intros kept; simpl; [constructor|].
  destruct (same x kept); constructor; apply IH.
Qed.
Lemma dedup_by_sublist l : dedup_by l `sublist_of` l.
Proof. destruct l as [|x l]; simpl; constructor. apply dedup_from_sublist. Qed.

(** In a sorted list nothing is lost up to [same], and the one kept does not come after. *)
Context (R : A → A → Prop) (R_refl : ∀ x, R x x) (same_refl : ∀ x, same x x = true).

Lemma dedup_from_covers kept l x :
  StronglySorted R (kept :: l) → x ∈ l →
  (same x kept = true ∧ R kept x) ∨ ∃ y, y ∈ dedup_from kept l ∧ same x y = true ∧ R y x.
Proof.
  revert kept. induction l as [|y l IH]; intros kept Hs Hx; [by apply elem_of_nil in Hx|].
  apply StronglySorted_inv in Hs as [Hs Hk]. simpl. destruct (same y kept) eqn:E.
  - apply elem_of_cons in Hx as [->|Hx].
    + left. split; [done|]. by apply Forall_cons in Hk as [? _].
    + apply IH; [|done]. apply StronglySorted_inv in Hs as [Hs _]. constructor; [done|].
      by apply Forall_cons in Hk as [_ ?].
  - right. apply elem_of_cons in Hx as [->|Hx].
    + exists y. split; [by apply elem_of_cons; left|done].
    + destruct (IH y Hs Hx) as [Hr|(z & Hz & Hr)].
      * exists y. split; [by apply elem_of_cons; left|done].
      * exists z. split; [by apply elem_of_cons; right|done].
Qed.
Lemma dedup_by_covers l x :
  StronglySorted R l → x ∈ l → ∃ y, y ∈ dedup_by l ∧ same x y = true ∧ R y x.
Proof.
  destruct l as [|y l]; intros Hs Hx; [by apply elem_of_nil in Hx|]. simpl.
  apply elem_of_cons in Hx as [->|Hx].
  - exists y. split; [by apply elem_of_cons; left|done].
  - destruct (dedup_from_covers y l x Hs Hx) as [Hr|(z & Hz & Hr)].
    + exists y. split; [by apply elem_of_cons; left|done].
    + exists z. split; [by apply elem_of_cons; right|done].
Qed.
End Dedup.

Section Max.
Context {A : Type} (key : A → Z).

(** A later element replaces the best one unless its key is below. *)
Definition max_by_key (l : list A) : option A :=
  match l with
  | [] => None
  | x :: l => Some (fold_left (λ best y, if bool_decide (key y < key best) then best else y) l x)
  end.

Lemma max_by_key_spec l m :
  max_by_key l = Some m → m ∈ l ∧ ∀ y, y ∈ l → key y ≤ key m.
Proof.
  destruct l as [|x l]; [done|]. intros [= <-]. revert x.
  induction l as [|y l IH]; intros x; simpl.
  { split; [by apply elem_of_cons; left|]. by intros y ->%list_elem_of_singleton. }
  destruct (IH (if bool_decide (key y < key x) then x else y)) as [H1 H2]. split.
  - revert H1. case_bool_decide; set_solver.
  - intros z Hz. case_bool_decide as Hyx.
    + assert (key x ≤ key (fold_left (λ best y, if bool_decide (key y < key best) then best else y) l x))
        by (apply H2; set_solver).
      set_unfold in Hz. destruct Hz as [->|[->|Hz]]; [done|lia|]. apply H2. set_solver.
    + assert (key y ≤ key (fold_left (λ best y, if bool_decide (key y < key best) then best else y) l y))
        by (apply H2; set_solver).
      set_unfold in Hz. destruct Hz as [->|[->|Hz]]; [lia|done|]. apply H2. set_solver.
Qed.
End Max.
