(* ===== verification/Rendezvous.v ===== *)
(** Candidate pairs and path upgrades: crates/r2n-rendezvous/src/lib.rs. *)
From Stdlib Require Import ZArith Lia Sorting.Sorted.
From stdpp Require Import base tactics numbers list sets.
From S2P Require Import Prelude Bytes Net Common Proto Sorting.
Local Open Scope Z_scope.

Record CandidatePair := mkPair { p_local : Candidate; p_remote : Candidate; p_score : Z }.

Record PathScore := mkPathScore {
  ps_addr : SocketAddr;
  ps_rtt : option Z;
  ps_loss_basis_points : Z;
  ps_relay : bool;
}.

Record PathUpgrade := mkPathUpgrade {
  up_peer : NodeId;
  up_preferred : SocketAddr;
  up_relay_fallback : option SocketAddr;
}.

Definition locality_bonus (left_c right_c : Candidate) : Z :=
  match kind left_c, kind right_c with
  | HostLan, HostLan => 40
  | HostIpv6, HostIpv6 => 30
  | ServerReflexive, ServerReflexive => 20
  | KindRelay, KindRelay => 0
  | _, _ => 10
  end.

(** The [u32] sum of two priorities and the bonus. *)
Definition pair_score (pr : profile) (left_c right_c : Candidate) : total Z :=
  s ← checked pr 32 (priority left_c + priority right_c);
  checked pr 32 (s + locality_bonus left_c right_c).

Fixpoint pairs_with (pr : profile) (left_c : Candidate) (remote : list Candidate)
    : total (list CandidatePair) :=
  match remote with
  | [] => Ok []
  | right_c :: remote =>
      score ← pair_score pr left_c right_c;
      rest ← pairs_with pr left_c remote;
      Ok (mkPair left_c right_c score :: rest)
  end.

Fixpoint all_pairs (pr : profile) (local remote : list Candidate)
    : total (list CandidatePair) :=
  match local with
  | [] => Ok []
  | left_c :: local =>
      here ← pairs_with pr left_c remote;
      rest ← all_pairs pr local remote;
      Ok (here ++ rest)
  end.

(** [Reverse(pair.score)] as a key. *)
Definition build_candidate_pairs (pr : profile) (local remote : list Candidate)
    : total (list CandidatePair) :=
  pairs ← all_pairs pr local remote;
  Ok (sort_by_key (λ p, - p_score p) pairs).

(** [(path.relay, path.rtt.unwrap_or(999ms))], ordered lexicographically. *)
Definition path_key (p : PathScore) : bool * Z :=
  (ps_relay p, default (millis 999) (ps_rtt p)).
Definition key_lt (a b : bool * Z) : bool :=
  match a.1, b.1 with
  | false, true => true
  | true, false => false
  | _, _ => bool_decide (a.2 < b.2)
  end.

Definition choose_upgrade (peer : NodeId) (relay_fallback : option SocketAddr)
    (scored_paths : list PathScore) : option PathUpgrade :=
  p ← min_by_key path_key key_lt scored_paths;
  Some (mkPathUpgrade peer (ps_addr p) relay_fallback).

(** ** Facts *)
Definition good_priority (c : Candidate) : Prop := 0 ≤ priority c < 2 ^ 31 - 40.

Definition exact_pair (l r : Candidate) : CandidatePair :=
  mkPair l r (priority l + priority r + locality_bonus l r).

Lemma pair_score_small pr l r :
  good_priority l → good_priority r → pair_score pr l r = Ok (p_score (exact_pair l r)).
Proof.
  unfold good_priority, pair_score. intros.
  assert (0 ≤ locality_bonus l r ≤ 40) by (unfold locality_bonus; repeat split_match; lia).
  rewrite checked_small by (unfold u_ok; lia). simpl.
  by rewrite checked_small by (unfold u_ok; lia).
Qed.

Lemma all_pairs_exact pr local remote :
  Forall good_priority local → Forall good_priority remote →
  all_pairs pr local remote
  = Ok (l ← local; r ← remote; [exact_pair l r]).
Proof.
  intros Hl Hr.
  assert (∀ l, good_priority l →
    pairs_with pr l remote = Ok (r ← remote; [exact_pair l r])) as Hw.
  { intros l Hg. clear Hl. induction Hr as [|r remote Hgr _ IH]; [done|]. simpl.
    rewrite pair_score_small by done. simpl. by rewrite IH. }
  induction Hl as [|l local Hg _ IH]; [done|]. simpl. rewrite Hw by done. simpl.
  by rewrite IH.
Qed.

(** With priorities below [2^31 - 40] neither build overflows: the result is every
    pair of a local and a remote candidate with the sum of their priorities and the
    bonus, the best first, and pairs of one score in the order they were built. *)
Theorem candidate_pairs_ranked pr local remote :
  Forall good_priority local → Forall good_priority remote →
  ∃ pairs, build_candidate_pairs pr local remote = Ok pairs ∧
    (∀ p, p ∈ pairs ↔ ∃ l r, l ∈ local ∧ r ∈ remote ∧ p = exact_pair l r) ∧
    length pairs = (length local * length remote)%nat ∧
    StronglySorted (λ p q, p_score q ≤ p_score p) pairs ∧
    ∀ k, List.filter (λ p, bool_decide (p_score p = k)) pairs
       = List.filter (λ p, bool_decide (p_score p = k)) (l ← local; r ← remote; [exact_pair l r]).
Proof.
  intros Hl Hr. unfold build_candidate_pairs. rewrite all_pairs_exact by done. simpl.
  set (all := l ← local; r ← remote; [exact_pair l r]).
  eexists. split; [done|]. split; [|split; [|split]].
  - intros p. rewrite sort_by_key_perm. unfold all. rewrite list_elem_of_bind.
    setoid_rewrite list_elem_of_bind. setoid_rewrite list_elem_of_singleton. naive_solver.
  - rewrite sort_by_key_perm. unfold all. clear. induction local as [|l local IH]; [done|].
    rewrite bind_cons, length_app, IH. simpl. f_equal. clear IH.
    induction remote as [|r remote IH]; [done|]. rewrite bind_cons, length_app, IH. done.
  - assert (∀ l, StronglySorted (by_key (λ p, - p_score p)) l →
      StronglySorted (λ p q, p_score q ≤ p_score p) l) as Himp.
    { induction 1 as [|x l' Hs IH Hx]; constructor; [done|].
      eapply Forall_impl; [exact Hx|]. unfold by_key. intros ??; simpl in *; lia. }
    apply Himp, sort_by_key_sorted.
  - intros k. pose proof (sort_by_key_stable (λ p, - p_score p) (- k) all) as H.
    assert (∀ l, List.filter (λ p, bool_decide (p_score p = k)) l
      = List.filter (λ p, bool_decide (- p_score p = - k)) l) as E.
    { intros l. apply List.filter_ext. intros p. apply bool_decide_ext. lia. }
    by rewrite !E.
Qed.

(** The upgrade prefers a path that no other beats: a direct one when there is any,
    and the one of least round-trip time among those of its kind, 999 ms being assumed
    when it is not known; there is none only when there is no path. *)
Theorem choose_upgrade_best peer fallback paths :
  match choose_upgrade peer fallback paths with
  | None => paths = []
  | Some u => up_peer u = peer ∧ up_relay_fallback u = fallback ∧
      ∃ best, best ∈ paths ∧ up_preferred u = ps_addr best ∧
        ∀ p, p ∈ paths →
          (ps_relay best = true → ps_relay p = true) ∧
          (ps_relay p = ps_relay best →
           default (millis 999) (ps_rtt best) ≤ default (millis 999) (ps_rtt p))
  end.
Proof.
  unfold choose_upgrade. destruct (min_by_key _ _ paths) as [best|] eqn:E; simpl; cycle 1.
  { by destruct paths. }
  split; [done|]. split; [done|].
  apply min_by_key_spec in E as [Hin Hmin].
  - exists best. split_and!; [done..|]. intros p Hp. specialize (Hmin p Hp).
    unfold key_lt, path_key in Hmin. simpl in Hmin.
    destruct (ps_relay best), (ps_relay p); try done;
      rewrite ?bool_decide_eq_false in Hmin; split; intros; done || lia.
  - intros [[] a] [[] b] [[] c]; unfold key_lt; simpl; try done;
      rewrite ?bool_decide_eq_false; lia.
  - intros [[] a] [[] b]; unfold key_lt; simpl; try done;
      rewrite ?bool_decide_eq_false, ?bool_decide_eq_true; lia.
  - intros [[] a]; unfold key_lt; simpl; rewrite bool_decide_eq_false; lia.
Qed.

Definition demo_candidate (a : Z) : Candidate :=
  mkCandidate HostLan LocalInterface (mkSocketAddr (V4 a) 4000) 100 None.

Lemma candidate_pairs_ranked_witness :
  ∃ pairs, build_candidate_pairs Debug [demo_candidate 1] [demo_candidate 2] = Ok pairs ∧
    exact_pair (demo_candidate 1) (demo_candidate 2) ∈ pairs ∧
    p_score (exact_pair (demo_candidate 1) (demo_candidate 2)) = 240.
Proof.
  destruct (candidate_pairs_ranked Debug [demo_candidate 1] [demo_candidate 2])
    as (pairs & E & Hin & _).
  - repeat constructor; simpl; lia.
  - repeat constructor; simpl; lia.
  - exists pairs. split; [exact E|]. split; [|reflexivity]. apply Hin.
    exists (demo_candidate 1), (demo_candidate 2). split; [left|]. split; [left|reflexivity].
Defined.
