(* ===== verification/Discovery.v ===== *)
(** LAN discovery traffic: crates/r2n-discovery/src/lib.rs. *)
From Stdlib Require Import ZArith Lia.
From stdpp Require Import base tactics numbers list strings.
From S2P Require Import Prelude Bytes Net Proto Etherparse.
Local Open Scope Z_scope.

(** The [ratelimit] crate: a bucket built from an amount per interval and its capacity
    and first fill, and [try_wait] at a time. *)
Class RatelimitLib := {
  Ratelimiter : Type;
  limiter_build : Z → Z → Z → Z → option Ratelimiter;
  try_wait : Z → Ratelimiter → bool * Ratelimiter;
}.

Record DiscoveryConfig := mkDiscoveryConfig {
  broadcast : bool;
  subnet_broadcast : bool;
  multicast : bool;
  mdns : bool;
  ssdp : bool;
  netbios : bool;
  rate_limit_pps : Z;
}.

Definition default_true : bool := true.
Definition default_rate_limit_pps : Z := 100.

Definition DiscoveryConfig_default : DiscoveryConfig :=
  mkDiscoveryConfig default_true default_true default_true default_true default_true false
    default_rate_limit_pps.

(** The destination port of an IPv4 UDP packet, read without a parser. *)
Definition udp_destination_port (data : list Z) : total (option Z) :=
  if bool_decide (length data < 20)%nat then Ok None else
  b0 ← index data 0;
  if negb (bool_decide (Z.shiftr b0 4 = 4)) then Ok None else
  let header_len := (Z.to_nat (Z.land b0 15) * 4)%nat in
  if bool_decide (header_len < 20)%nat || bool_decide (length data < header_len + 4)%nat
  then Ok None else
  protocol ← index data 9;
  if negb (bool_decide (protocol = 17)) then Ok None else
  hi ← index data (header_len + 2);
  lo ← index data (header_len + 3);
  Ok (Some (from_be_bytes [hi; lo])).

(** [dest[i]] and [src[i]] of a four-byte address. *)
Abbreviation octet l i := (nth i l 0).

Section Discovery.
Context `{P : Etherparse}.

Definition classify_packet_with_config (data : list Z) (config : DiscoveryConfig)
    : total (option DataPacketType) :=
  match ip_from_slice data with
  | Some (Version4 src dest _, _) =>
      udp_dst_port ← udp_destination_port data;
      let is_limited_broadcast := bool_decide (dest = [255; 255; 255; 255]) in
      let is_subnet_broadcast :=
        (bool_decide (octet dest 3 = 255) && bool_decide (take 3 dest = take 3 src))
        || (bool_decide (octet dest 2 = 255) && bool_decide (octet dest 3 = 255)
            && bool_decide (take 2 dest = take 2 src)) in
      if mdns config && bool_decide (dest = [224; 0; 0; 251])
         && bool_decide (udp_dst_port = Some 5353) then Ok (Some Multicast)
      else if ssdp config && bool_decide (dest = [239; 255; 255; 250])
              && bool_decide (udp_dst_port = Some 1900) then Ok (Some Multicast)
      else if netbios config && (is_limited_broadcast || is_subnet_broadcast)
              && (bool_decide (udp_dst_port = Some 137) || bool_decide (udp_dst_port = Some 138))
      then Ok (Some Broadcast)
      else if broadcast config && is_limited_broadcast then Ok (Some Broadcast)
      else if subnet_broadcast config && is_subnet_broadcast then Ok (Some Broadcast)
      else if multicast config && bool_decide (224 ≤ octet dest 0)
              && bool_decide (octet dest 0 ≤ 239) then Ok (Some Multicast)
      else Ok None
  | _ => Ok None
  end.

Definition classify_packet (data : list Z) : total (option DataPacketType) :=
  classify_packet_with_config data DiscoveryConfig_default.

Context `{R : RatelimitLib}.

Record DiscoveryManager := mkDiscoveryManager {
  dm_config : DiscoveryConfig;
  limiter : Ratelimiter;
}.

(** [build().unwrap()] *)
Definition with_config (config : DiscoveryConfig) : total DiscoveryManager :=
  let pps := Z.max (rate_limit_pps config) 1 in
  match limiter_build pps (secs 1) pps pps with
  | Some l => Ok (mkDiscoveryManager config l)
  | None => Panic
  end.

Definition new : total DiscoveryManager := with_config DiscoveryConfig_default.

Definition allow_broadcast (now : Z) (m : DiscoveryManager) : bool * DiscoveryManager :=
  let '(allowed, l) := try_wait now (limiter m) in
  (allowed, mkDiscoveryManager (dm_config m) l).

Definition classify_managed_packet (m : DiscoveryManager) (data : list Z) :=
  classify_packet_with_config data (dm_config m).

Definition route_cidrs (m : DiscoveryManager) : list string :=
  let c := dm_config m in
  (if multicast c || mdns c || ssdp c then ["224.0.0.0/4"%string] else [])
  ++ (if broadcast c || netbios c then ["255.255.255.255/32"%string] else []).

End Discovery.

(** ** Facts *)
Lemma udp_destination_port_Ok data : ∃ p, udp_destination_port data = Ok p.
Proof.
  unfold udp_destination_port. case_bool_decide; [by eexists|].
  assert (∀ i, (i < length data)%nat → ∃ b, index data i = Ok b) as Hi.
  { intros i Hi. destruct (lookup_lt_is_Some_2 data i Hi) as [b Hb].
    exists b. by apply index_lookup. }
  destruct (Hi 0%nat) as [b0 ->]; [lia|]. simpl.
  case_bool_decide; simpl; [|by eexists].
  case_bool_decide; simpl; [by eexists|]. case_bool_decide; simpl; [by eexists|].
  destruct (Hi 9%nat) as [p ->]; [lia|]. simpl.
  case_bool_decide; simpl; [|by eexists].
  destruct (Hi (Z.to_nat (Z.land b0 15) * 4 + 2)%nat) as [hi ->]; [lia|].
  destruct (Hi (Z.to_nat (Z.land b0 15) * 4 + 3)%nat) as [lo ->]; [lia|].
  by eexists.
Qed.

(** What the kinds of destination are. *)
Definition multicast_dest (dest : list Z) : Prop := 224 ≤ octet dest 0 ≤ 239.
Definition limited_dest (dest : list Z) : Prop := dest = [255; 255; 255; 255].
Definition subnet_dest (src dest : list Z) : Prop :=
  octet dest 3 = 255 ∧
  (take 3 dest = take 3 src ∨ octet dest 2 = 255 ∧ take 2 dest = take 2 src).

(** Classification never unwinds.  A packet classed as multicast has a multicast
    destination that an enabled protocol covers, one classed as broadcast has a limited
    or subnet broadcast destination that an enabled protocol covers, and every packet
    that an enabled generic class covers gets a class; only IPv4 packets do. *)
Theorem discovery_classification `{P : Etherparse} data c :
  match ip_from_slice data with
  | Some (Version4 src dest _, _) =>
      ∃ port cls, udp_destination_port data = Ok port ∧
        classify_packet_with_config data c = Ok cls ∧
        match cls with
        | Some Multicast => multicast_dest dest ∧
            (multicast c = true ∨ mdns c = true ∧ port = Some 5353 ∨
             ssdp c = true ∧ port = Some 1900)
        | Some Broadcast => (limited_dest dest ∨ subnet_dest src dest) ∧
            (broadcast c = true ∧ limited_dest dest ∨
             subnet_broadcast c = true ∧ subnet_dest src dest ∨
             netbios c = true ∧ (port = Some 137 ∨ port = Some 138))
        | Some _ => False
        | None =>
            (multicast c = true → ¬ multicast_dest dest) ∧
            (broadcast c = true → ¬ limited_dest dest) ∧
            (subnet_broadcast c = true → ¬ subnet_dest src dest) ∧
            (netbios c = true → port = Some 137 ∨ port = Some 138 →
             ¬ limited_dest dest ∧ ¬ subnet_dest src dest)
        end
  | _ => classify_packet_with_config data c = Ok None
  end.
Proof.
  unfold classify_packet_with_config.
  destruct (ip_from_slice data) as [[[src dest pr|] rest]|]; [|done..].
  destruct (udp_destination_port_Ok data) as [port ->]. exists port. simpl.
  set (sub := (bool_decide (octet dest 3 = 255) && _) || _).
  set (lim := bool_decide (dest = [255; 255; 255; 255])).
  assert (Hsub : sub = true ↔ subnet_dest src dest).
  { unfold sub, subnet_dest. rewrite orb_true_iff, !andb_true_iff, !bool_decide_eq_true. tauto. }
  assert (Hlim : lim = true ↔ limited_dest dest) by apply bool_decide_eq_true.
  clearbody sub lim.
  destruct (mdns c && _ && _) eqn:E1.
  { eexists. split_and!; [done..|]. rewrite !andb_true_iff, !bool_decide_eq_true in E1.
    destruct E1 as [[? ->] ->]. split; [unfold multicast_dest; simpl; lia|tauto]. }
  destruct (ssdp c && _ && _) eqn:E2.
  { eexists. split_and!; [done..|]. rewrite !andb_true_iff, !bool_decide_eq_true in E2.
    destruct E2 as [[? ->] ->]. split; [unfold multicast_dest; simpl; lia|tauto]. }
  destruct (netbios c && _ && _) eqn:E3.
  { eexists. split_and!; [done..|].
    rewrite !andb_true_iff, !orb_true_iff, !bool_decide_eq_true in E3. tauto. }
  destruct (broadcast c && lim) eqn:E4.
  { eexists. split_and!; [done..|]. rewrite !andb_true_iff in E4. tauto. }
  destruct (subnet_broadcast c && sub) eqn:E5.
  { eexists. split_and!; [done..|]. rewrite !andb_true_iff in E5. tauto. }
  destruct (multicast c && _ && _) eqn:E6.
  { eexists. split_and!; [done..|]. rewrite !andb_true_iff, !bool_decide_eq_true in E6.
    unfold multicast_dest. tauto. }
  eexists. split_and!; [done..|]. clear E1 E2.
  apply not_true_iff_false in E3, E4, E5, E6.
  rewrite !andb_true_iff, !orb_true_iff, !bool_decide_eq_true in E3.
  rewrite andb_true_iff in E4, E5. rewrite !andb_true_iff, !bool_decide_eq_true in E6.
  unfold multicast_dest. split_and!; [tauto..|]. intros Hn Hport.
  split; intros Hd; apply E3; tauto.
Qed.
