(* ===== verification/F32.v ===== *)
(** Rust's [f32] as a binary32 number of [SpecFloat]: 24 bits of precision, exponents
    below 128, rounding to nearest even in every operation. *)
From Stdlib Require Import ZArith Lia Floats.SpecFloat.
From stdpp Require Import base tactics numbers.
From S2P Require Import Prelude.
Local Open Scope Z_scope.

Definition f32 : Type := spec_float.
Definition f32_add : f32 → f32 → f32 := SFadd 24 128.
Definition f32_sub : f32 → f32 → f32 := SFsub 24 128.
Definition f32_mul : f32 → f32 → f32 := SFmul 24 128.
Definition f32_lt : f32 → f32 → bool := SFltb.
Definition f32_abs : f32 → f32 := SFabs.
Definition f32_div : f32 → f32 → f32 := SFdiv 24 128.
(** [n as f32] of an unsigned integer: rounded to nearest even. *)
Definition f32_of (n : Z) : f32 := binary_normalize 24 128 n 0 false.

(** A positive literal [m * 2 ^ e] that is exact, normalised. *)
Definition f32_lit (m : positive) (e : Z) : f32 :=
  binary_normalize 24 128 (Zpos m) e false.
Definition f32_zero : f32 := S754_zero false.
Definition f32_one : f32 := f32_lit 1 0.
(** [f32::MAX], and the literals [0.125] and [0.1], the latter rounded. *)
Definition f32_max : f32 := f32_lit 16777215 104.
Definition f32_eighth : f32 := f32_lit 1 (-3).
Definition f32_tenth : f32 := f32_lit 13421773 (-27).

(** ** The order of floats *)
Lemma f32_lt_trans a b c : f32_lt a b = true → f32_lt b c = true → f32_lt a c = true.
Proof.
  unfold f32_lt, SFltb, SFcompare. intros H1 H2.
  destruct a as [sa|sa| |sa ma ea], b as [sb|sb| |sb mb eb], c as [sc|sc| |sc mc ec];
    repeat match goal with s : bool |- _ => destruct s end; try done.
  all: destruct (Z.compare_spec ea eb); try done; destruct (Z.compare_spec eb ec); try done;
    destruct (Z.compare_spec ea ec); try lia; try done.
  all: change PosDef.Pos.compare_cont with Pos.compare_cont in *;
    change (Pos.compare_cont Eq) with Pos.compare in *;
    destruct (Pos.compare_spec ma mb); try done; destruct (Pos.compare_spec mb mc); try done;
    destruct (Pos.compare_spec ma mc); simpl in *; try done; lia.
Qed.

Lemma f32_lt_irrefl a : f32_lt a a = false.
Proof.
  unfold f32_lt, SFltb, SFcompare. destruct a as [[]|[]| |[] m e]; try done;
    rewrite Z.compare_refl; change PosDef.Pos.compare_cont with Pos.compare_cont;
    change (Pos.compare_cont Eq) with Pos.compare; by rewrite Pos.compare_refl.
Qed.
