(* ===== verification/Path.v ===== *)
(** Paths to a peer and the choice among them: crates/r2n-dataplane/src/path.rs. *)
From Stdlib Require Import ZArith Lia.
From stdpp Require Import base tactics numbers list sets.
From S2P Require Import Prelude Bytes Net F32.
Local Open Scope Z_scope.

(** ** Paths *)
Record PathInfo := mkPathInfo {
  pi_addr : SocketAddr;
  pi_is_relay : bool;
  rtt_ewma : f32;
  jitter_ewma : f32;
  loss_ewma : f32;
  last_success : Z;
}.

Definition PathInfo_new (now : Z) (addr : SocketAddr) (is_relay : bool) : PathInfo :=
  mkPathInfo addr is_relay (if is_relay then f32_lit 100 0 else f32_lit 200 0)
    f32_zero f32_zero now.

Definition score (p : PathInfo) : f32 :=
  let relay_penalty := if pi_is_relay p then f32_lit 80 0 else f32_zero in
  f32_add
    (f32_add (f32_add (rtt_ewma p) (f32_mul (jitter_ewma p) (f32_lit 2 0)))
             (f32_mul (loss_ewma p) (f32_lit 1000 0)))
    relay_penalty.

Definition update_rtt (now : Z) (rtt_ms : f32) (p : PathInfo) : PathInfo :=
  let alpha := f32_eighth in
  let diff := f32_sub rtt_ms (rtt_ewma p) in
  mkPathInfo (pi_addr p) (pi_is_relay p)
    (f32_add (rtt_ewma p) (f32_mul alpha diff))
    (f32_add (jitter_ewma p) (f32_mul alpha (f32_sub (f32_abs diff) (jitter_ewma p))))
    (loss_ewma p) now.

Definition set_loss (loss : f32) (p : PathInfo) : PathInfo :=
  mkPathInfo (pi_addr p) (pi_is_relay p) (rtt_ewma p) (jitter_ewma p) loss (last_success p).

(** [loss * (1.0 - alpha) + alpha * x] *)
Definition decay_loss (x : f32) (p : PathInfo) : PathInfo :=
  set_loss (f32_add (f32_mul (loss_ewma p) (f32_sub f32_one f32_tenth)) (f32_mul f32_tenth x)) p.

Record PathManager := mkPathManager { paths : list PathInfo; active_index : nat }.

Definition PathManager_new (now : Z) (relay_addr : SocketAddr) : PathManager :=
  mkPathManager [PathInfo_new now relay_addr true] 0.

(** [self.paths[self.active_index]] *)
Definition active_path (m : PathManager) : total PathInfo :=
  match paths m !! active_index m with Some p => Ok p | None => Panic end.
Definition active_addr (m : PathManager) : total SocketAddr :=
  p ← active_path m; Ok (pi_addr p).
Definition is_active_relay (m : PathManager) : total bool :=
  p ← active_path m; Ok (pi_is_relay p).

Fixpoint position (addr : SocketAddr) (l : list PathInfo) : option nat :=
  match l with
  | [] => None
  | p :: l => if bool_decide (pi_addr p = addr) then Some O else S <$> position addr l
  end.

Definition add_or_update_path (now : Z) (addr : SocketAddr) (is_relay : bool)
    (m : PathManager) : nat * PathManager :=
  match position addr (paths m) with
  | Some pos => (pos, m)
  | None =>
      let ps := paths m ++ [PathInfo_new now addr is_relay] in
      ((length ps - 1)%nat, mkPathManager ps (active_index m))
  end.

(** [if let Some(path) = paths.iter_mut().find(|p| p.addr == addr)] *)
Fixpoint update_first (addr : SocketAddr) (f : PathInfo → PathInfo) (l : list PathInfo)
    : list PathInfo :=
  match l with
  | [] => []
  | p :: l => if bool_decide (pi_addr p = addr) then f p :: l else p :: update_first addr f l
  end.

Definition recent (now : Z) (p : PathInfo) : bool :=
  bool_decide (as_secs (duration_since now (last_success p)) < 5).

(** The loop of [reevaluate] from index [i] on. *)
Fixpoint best_path (now : Z) (i : nat) (l : list PathInfo) (best_idx : nat)
    (best_score : f32) : nat :=
  match l with
  | [] => best_idx
  | p :: l =>
      if recent now p && f32_lt (score p) best_score
      then best_path now (S i) l i (score p)
      else best_path now (S i) l best_idx best_score
  end.

Definition reevaluate (now : Z) (m : PathManager) : PathManager :=
  match paths m with
  | [] => m
  | ps => mkPathManager ps (best_path now 0 ps 0 f32_max)
  end.

Definition record_success (now : Z) (addr : SocketAddr) (rtt_ms : f32) (m : PathManager)
    : PathManager :=
  let ps := update_first addr (λ p, decay_loss f32_zero (update_rtt now rtt_ms p)) (paths m) in
  reevaluate now (mkPathManager ps (active_index m)).

Definition record_failure (now : Z) (addr : SocketAddr) (m : PathManager) : PathManager :=
  let ps := update_first addr (decay_loss f32_one) (paths m) in
  reevaluate now (mkPathManager ps (active_index m)).

(** The calls the dataplane makes. *)
Inductive path_call :=
| AddPath (addr : SocketAddr) (is_relay : bool)
| Success (addr : SocketAddr) (rtt_ms : f32)
| Failure (addr : SocketAddr).

Definition run_path_call (now : Z) (c : path_call) (m : PathManager) : PathManager :=
  match c with
  | AddPath a r => (add_or_update_path now a r m).2
  | Success a rtt => record_success now a rtt m
  | Failure a => record_failure now a m
  end.

Definition run_path_calls (cs : list (Z * path_call)) (m : PathManager) : PathManager :=
  fold_left (λ m c, run_path_call c.1 c.2 m) cs m.

(** ** Facts *)
Section Choice.
Context (now : Z).

(** The loop ends with the starting choice when nothing recent beats it, and otherwise
    with a recent path that nothing recent beats. *)
Lemma best_path_spec l i best_idx best_score :
  let idx := best_path now i l best_idx best_score in
  (idx = best_idx ∧ ∀ p, p ∈ l → recent now p = true → f32_lt (score p) best_score = false) ∨
  (∃ k p, idx = (i + k)%nat ∧ l !! k = Some p ∧ recent now p = true ∧
     f32_lt (score p) best_score = true ∧
     ∀ q, q ∈ l → recent now q = true → f32_lt (score q) (score p) = false).
Proof.
  revert i best_idx best_score. induction l as [|p l IH]; intros i bi bs; simpl.
  { left. split; [done|]. set_solver. }
  destruct (recent now p && f32_lt (score p) bs) eqn:E.
  - apply andb_true_iff in E as [Hr Hlt]. right.
    destruct (IH (S i) i (score p)) as [[-> Hall]|(k & q & -> & Hk & Hq & Hqp & Hall)].
    + exists 0%nat, p. split_and!; try (done || lia).
      intros q [->|?]%elem_of_cons ?; [apply f32_lt_irrefl|by apply Hall].
    + exists (S k), q. split_and!; try (done || lia); [by eapply f32_lt_trans|].
      intros q' [->|?]%elem_of_cons ?; [|by apply Hall].
      destruct (f32_lt (score p) (score q)) eqn:E; [|done].
      pose proof (f32_lt_trans _ _ _ E Hqp) as Ht. by rewrite f32_lt_irrefl in Ht.
  - assert (recent now p = true → f32_lt (score p) bs = false) as Hp
      by (intros Hr; by rewrite Hr in E).
    destruct (IH (S i) bi bs) as [[-> Hall]|(k & q & -> & Hk & Hq & Hqb & Hall)].
    + left. split; [done|]. intros q [->|?]%elem_of_cons ?; [by apply Hp|by apply Hall].
    + right. exists (S k), q. split_and!; try (done || lia).
      intros q' [->|?]%elem_of_cons Hr; [|by apply Hall].
      destruct (f32_lt (score p) (score q)) eqn:E2; [|done].
      pose proof (f32_lt_trans _ _ _ E2 Hqb) as Ht. by rewrite Hp in Ht.
Qed.
End Choice.

(** What holds of every manager: an active path, one path per address, the relay first. *)
Record path_inv (relay : SocketAddr) (m : PathManager) : Prop := {
  pinv_active : (active_index m < length (paths m))%nat;
  pinv_nodup : NoDup (pi_addr <$> paths m);
  pinv_relay : ∃ p ps, paths m = p :: ps ∧ pi_addr p = relay ∧ pi_is_relay p = true;
}.

Lemma position_None addr l : position addr l = None → addr ∉ pi_addr <$> l.
Proof.
  induction l as [|p l IH]; simpl; [set_solver|]. case_bool_decide; [done|].
  destruct (position addr l); [done|]. set_solver.
Qed.

Lemma update_first_addr addr f l :
  (∀ p, pi_addr (f p) = pi_addr p) → pi_addr <$> update_first addr f l = pi_addr <$> l.
Proof.
  intros Hf. induction l as [|p l IH]; [done|]. cbn [update_first].
  case_bool_decide; rewrite !fmap_cons; [by rewrite Hf|by rewrite IH].
Qed.

Lemma path_inv_reevaluate now relay m :
  path_inv relay m → path_inv relay (reevaluate now m).
Proof.
  intros H. unfold reevaluate. destruct (paths m) as [|p ps] eqn:E; [done|].
  destruct H as [Ha Hn Hr]. rewrite E in *.
  split; cbn [paths active_index]; try done.
  destruct (best_path_spec now (p :: ps) 0 0 f32_max) as [[-> _]|(k & q & -> & Hk & _)];
    [simpl; lia|]. by apply lookup_lt_Some in Hk.
Qed.

Lemma path_inv_update relay m addr f now :
  (∀ p, pi_addr (f p) = pi_addr p) → (∀ p, pi_is_relay (f p) = pi_is_relay p) →
  path_inv relay m →
  path_inv relay (reevaluate now (mkPathManager (update_first addr f (paths m)) (active_index m))).
Proof.
  intros Hf Hg [Ha Hn (p & ps & E & Hp & Hrel)]. apply path_inv_reevaluate. split; simpl.
  - by rewrite <- (length_fmap pi_addr), update_first_addr, length_fmap.
  - by rewrite update_first_addr.
  - rewrite E. simpl. case_bool_decide; eexists _, _; split_and!; try done;
      by rewrite ?Hf, ?Hg.
Qed.

Lemma path_inv_calls relay now0 cs :
  path_inv relay (run_path_calls cs (PathManager_new now0 relay)).
Proof.
  assert (path_inv relay (PathManager_new now0 relay)) as H.
  { split; simpl; [lia|apply NoDup_singleton|by eexists _, _]. }
  revert H. generalize (PathManager_new now0 relay) as m.
  induction cs as [|[now c] cs IH]; intros m H; [done|]. apply IH. clear IH.
  destruct c as [a r|a rtt|a]; simpl;
    [|by apply path_inv_update|by apply path_inv_update].
  unfold add_or_update_path. destruct (position a (paths m)) eqn:E; [done|]. simpl.
  destruct H as [Ha Hn (p & ps & Ep & Hp & Hrel)]. split; simpl.
  - rewrite length_app. lia.
  - rewrite fmap_app. apply NoDup_app. split; [done|]. split; [|apply NoDup_singleton].
    apply position_None in E. set_solver.
  - rewrite Ep. by eexists _, _.
Qed.

(** Whatever paths are added and whatever probes succeed or fail, there is always an
    active path, no address has two paths and the relay given at the start stays the
    first; after a probe the active path is one that answered within five seconds and
    that no other such path has a lower score than, or the relay when none of them has a
    score below the largest float. *)
Theorem path_choice relay now0 cs now :
  let m := run_path_calls cs (PathManager_new now0 relay) in
  let m' := reevaluate now m in
  (∃ a, active_addr m = Ok a ∧ a ∈ pi_addr <$> paths m) ∧
  NoDup (pi_addr <$> paths m) ∧
  ∃ p, active_path m' = Ok p ∧
    if existsb (λ q, recent now q && f32_lt (score q) f32_max) (paths m)
    then recent now p = true ∧
         ∀ q, q ∈ paths m → recent now q = true → f32_lt (score q) (score p) = false
    else pi_addr p = relay ∧ pi_is_relay p = true.
Proof.
  intros m m'. pose proof (path_inv_calls relay now0 cs) as [Ha Hn (r & ps & E & Hr & Hrel)].
  fold m in Ha, Hn, E. split; [|split; [done|]].
  - unfold active_addr, active_path.
    destruct (lookup_lt_is_Some_2 _ _ Ha) as [p Hp]. rewrite Hp. simpl.
    exists (pi_addr p). split; [done|]. apply list_elem_of_fmap. exists p.
    split; [done|]. by eapply list_elem_of_lookup_2.
  - unfold m', reevaluate, active_path. rewrite E. cbn [paths active_index].
    destruct (best_path_spec now (r :: ps) 0 0 f32_max)
      as [[-> Hall]|(k & p & -> & Hk & Hp & Hlt & Hall)].
    + exists r. split; [done|]. destruct (existsb _ _) eqn:Hex; [|done].
      exfalso. apply existsb_exists in Hex. destruct Hex as (q & Hq & [Hrec Hs]%andb_true_iff).
      apply list_elem_of_In in Hq. by rewrite Hall in Hs.
    + rewrite Nat.add_0_l, Hk. exists p. split; [done|].
      rewrite (proj2 (existsb_exists _ _)); [done|].
      exists p. split; [by apply list_elem_of_In; eapply list_elem_of_lookup_2|].
      by rewrite Hp, Hlt.
Qed.

(** A direct path that answers in 10 ms is not yet better than a relay path, and is
    after more such answers. *)
Example path_switches :
  let relay := mkSocketAddr (V4 1) 1 in let direct := mkSocketAddr (V4 2) 2 in
  let after n := run_path_calls
    ((0, AddPath direct false) :: repeat (0, Success direct (f32_lit 10 0)) n)
    (PathManager_new 0 relay) in
  active_addr (after 1%nat) = Ok relay ∧ active_addr (after 20%nat) = Ok direct.
Proof. split; vm_compute; reflexivity. Qed.
