(* ===== verification/Observability.v ===== *)
(** Metrics and pending pings: crates/r2n-observability/src/lib.rs. *)
From Stdlib Require Import ZArith Lia.
From stdpp Require Import base tactics numbers list gmap strings.
From S2P Require Import Prelude Bytes Net Common Proto F32.
Local Open Scope Z_scope.

Inductive PathKind := Direct | Relay.
#[export] Instance PathKind_eq_dec : EqDecision PathKind.
Proof. solve_decision. Defined.

(** A pending ping: where it went, when, and whether to the active path. *)
Record PendingPing := mkPending { ping_addr : SocketAddr; ping_at : Z; ping_active : bool }.

Record PeerCounters := mkCounters {
  pc_path : PathKind;
  pc_last_rtt_ms : option Z;
  relay_hits : Z;
  direct_hits : Z;
  pc_handshake_successes : Z;
  pc_handshake_failures : Z;
  pc_packet_drops : Z;
  pending_pings : gmap Z PendingPing;
  ping_window : list bool;
}.

(** What [DiagnosticEngine::run_diagnosis] reports: the same but for the time. *)
Record DiagnosisReport := mkReport {
  report_timestamp : Z;
  report_supernode_reachable : bool;
  report_udp_working : bool;
  report_nat_type : NatType;
  report_virtual_ip : option string;
  report_tun_status : string;
  report_route_status : string;
  report_discovery_broadcast_detected : bool;
}.
Definition run_diagnosis (utc_now : Z) : DiagnosisReport :=
  mkReport utc_now true true Unknown None "OK" "OK" false.

Record PortMappingMetrics := mkPortMapping {
  pm_acquired : bool;
  pm_protocol : option string;
  pm_external_addr : option string;
  pm_lease_expires_at : option Z;
}.

Record MetricsRegistry := mkMetrics {
  handshake_successes : Z;
  handshake_failures : Z;
  relay_packets : Z;
  direct_packets : Z;
  packet_drops : Z;
  broadcast_packets : Z;
  multicast_packets : Z;
  l2_flood_packets : Z;
  port_mapping : PortMappingMetrics;
  m_peers : gmap NodeId PeerCounters;
}.

Definition new_counters : PeerCounters :=
  mkCounters Relay None 0 0 0 0 0 ∅ [].

Definition new : MetricsRegistry :=
  mkMetrics 0 0 0 0 0 0 0 0 (mkPortMapping false None None None) ∅.

(** [AtomicU64::fetch_add(1)] *)
Definition bump (n : Z) : Z := wrap 64 (n + 1).

Definition set_peers (ps : gmap NodeId PeerCounters) (m : MetricsRegistry) : MetricsRegistry :=
  mkMetrics (handshake_successes m) (handshake_failures m) (relay_packets m)
    (direct_packets m) (packet_drops m) (broadcast_packets m) (multicast_packets m)
    (l2_flood_packets m) (port_mapping m) ps.

(** [ensure_peer] hands out the counters of a peer, made when there are none; [with_peer]
    is a change made through them. *)
Definition ensure_peer (peer : NodeId) (m : MetricsRegistry) : PeerCounters :=
  default new_counters (m_peers m !! peer).
Definition with_peer (peer : NodeId) (f : PeerCounters → PeerCounters) (m : MetricsRegistry)
    : MetricsRegistry :=
  set_peers (<[peer := f (ensure_peer peer m)]> (m_peers m)) m.

Definition mark_handshake (peer : NodeId) (success : bool) (m : MetricsRegistry)
    : MetricsRegistry :=
  with_peer peer (λ c,
    if success
    then mkCounters (pc_path c) (pc_last_rtt_ms c) (relay_hits c) (direct_hits c)
           (bump (pc_handshake_successes c)) (pc_handshake_failures c) (pc_packet_drops c)
           (pending_pings c) (ping_window c)
    else mkCounters (pc_path c) (pc_last_rtt_ms c) (relay_hits c) (direct_hits c)
           (pc_handshake_successes c) (bump (pc_handshake_failures c)) (pc_packet_drops c)
           (pending_pings c) (ping_window c))
  (mkMetrics
     (if success then bump (handshake_successes m) else handshake_successes m)
     (if success then handshake_failures m else bump (handshake_failures m))
     (relay_packets m) (direct_packets m) (packet_drops m) (broadcast_packets m)
     (multicast_packets m) (l2_flood_packets m) (port_mapping m) (m_peers m)).

Definition mark_path_hit (peer : NodeId) (path : PathKind) (m : MetricsRegistry)
    : MetricsRegistry :=
  with_peer peer (λ c,
    match path with
    | Direct => mkCounters path (pc_last_rtt_ms c) (relay_hits c) (bump (direct_hits c))
        (pc_handshake_successes c) (pc_handshake_failures c) (pc_packet_drops c)
        (pending_pings c) (ping_window c)
    | Relay => mkCounters path (pc_last_rtt_ms c) (bump (relay_hits c)) (direct_hits c)
        (pc_handshake_successes c) (pc_handshake_failures c) (pc_packet_drops c)
        (pending_pings c) (ping_window c)
    end)
  (mkMetrics (handshake_successes m) (handshake_failures m)
     (match path with Relay => bump (relay_packets m) | Direct => relay_packets m end)
     (match path with Direct => bump (direct_packets m) | Relay => direct_packets m end)
     (packet_drops m) (broadcast_packets m) (multicast_packets m) (l2_flood_packets m)
     (port_mapping m) (m_peers m)).

Definition mark_packet_drop (peer : option NodeId) (m : MetricsRegistry) : MetricsRegistry :=
  let m := mkMetrics (handshake_successes m) (handshake_failures m) (relay_packets m)
    (direct_packets m) (bump (packet_drops m)) (broadcast_packets m) (multicast_packets m)
    (l2_flood_packets m) (port_mapping m) (m_peers m) in
  match peer with
  | Some peer => with_peer peer (λ c,
      mkCounters (pc_path c) (pc_last_rtt_ms c) (relay_hits c) (direct_hits c)
        (pc_handshake_successes c) (pc_handshake_failures c) (bump (pc_packet_drops c))
        (pending_pings c) (ping_window c)) m
  | None => m
  end.

Definition mark_discovery_packet (packet_type : DataPacketType) (m : MetricsRegistry)
    : MetricsRegistry :=
  let add t n := if bool_decide (packet_type = t) then bump n else n in
  mkMetrics (handshake_successes m) (handshake_failures m) (relay_packets m)
    (direct_packets m) (packet_drops m)
    (add Broadcast (broadcast_packets m)) (add Multicast (multicast_packets m))
    (add Ethernet (l2_flood_packets m)) (port_mapping m) (m_peers m).

Definition set_rtt (rtt : option Z) (c : PeerCounters) : PeerCounters :=
  mkCounters (pc_path c) rtt (relay_hits c) (direct_hits c) (pc_handshake_successes c)
    (pc_handshake_failures c) (pc_packet_drops c) (pending_pings c) (ping_window c).
Definition set_pings (ps : gmap Z PendingPing) (w : list bool) (c : PeerCounters)
    : PeerCounters :=
  mkCounters (pc_path c) (pc_last_rtt_ms c) (relay_hits c) (direct_hits c)
    (pc_handshake_successes c) (pc_handshake_failures c) (pc_packet_drops c) ps w.

Definition update_rtt (peer : NodeId) (rtt_ms : option Z) : MetricsRegistry → MetricsRegistry :=
  with_peer peer (set_rtt rtt_ms).

Definition set_port_mapping_status (acquired : bool) (protocol external_addr : option string)
    (lease_expires_at : option Z) (m : MetricsRegistry) : MetricsRegistry :=
  mkMetrics (handshake_successes m) (handshake_failures m) (relay_packets m)
    (direct_packets m) (packet_drops m) (broadcast_packets m) (multicast_packets m)
    (l2_flood_packets m) (mkPortMapping acquired protocol external_addr lease_expires_at)
    (m_peers m).

(** ** Pings *)
Definition record_ping_sent (now : Z) (peer : NodeId) (seq : Z) (addr : SocketAddr)
    (is_active : bool) : MetricsRegistry → MetricsRegistry :=
  with_peer peer (λ c,
    set_pings (<[seq := mkPending addr now is_active]> (pending_pings c)) (ping_window c) c).

(** [push_back], and [pop_front] beyond twenty. *)
Definition window_push (success : bool) (w : list bool) : list bool :=
  let w := w ++ [success] in
  if bool_decide (20 < length w)%nat then tail w else w.

Definition record_pong_received (now : Z) (peer : NodeId) (seq : Z) (m : MetricsRegistry)
    : option (SocketAddr * Z) * MetricsRegistry :=
  let c := ensure_peer peer m in
  match pending_pings c !! seq with
  | Some p =>
      let rtt_ms := wrap 32 (as_millis (duration_since now (ping_at p))) in
      let window := if ping_active p then window_push true (ping_window c)
                    else ping_window c in
      (Some (ping_addr p, rtt_ms),
       with_peer peer (λ c, set_rtt (Some rtt_ms)
         (set_pings (delete seq (pending_pings c)) window c)) m)
  | None => (None, with_peer peer id m)
  end.

Definition timed_out (now timeout : Z) (p : PendingPing) : bool :=
  bool_decide (timeout < duration_since now (ping_at p)).

(** The pings of one peer that are out of time, in the order of the map, and what is left
    of its counters. *)
Definition peer_timeouts (now timeout : Z) (c : PeerCounters)
    : list SocketAddr * PeerCounters :=
  let late := List.filter (λ sp, timed_out now timeout sp.2) (map_to_list (pending_pings c)) in
  (ping_addr ∘ snd <$> late,
   set_pings
     (foldr (λ sp ps, delete sp.1 ps) (pending_pings c) late)
     (fold_left (λ w sp, if ping_active sp.2 then window_push false w else w) late
        (ping_window c)) c).

Definition check_ping_timeouts (now timeout : Z) (m : MetricsRegistry)
    : list (NodeId * SocketAddr) * MetricsRegistry :=
  (kc ← map_to_list (m_peers m);
   (λ a, (kc.1, a)) <$> (peer_timeouts now timeout kc.2).1,
   set_peers ((λ c, (peer_timeouts now timeout c).2) <$> m_peers m) m).

(** ** Snapshots *)
Record PeerPathMetrics := mkPeerMetrics {
  pp_peer : NodeId;
  pp_path : PathKind;
  pp_last_rtt_ms : option Z;
  pp_relay_hits : Z;
  pp_direct_hits : Z;
  pp_handshake_successes : Z;
  pp_handshake_failures : Z;
  pp_packet_drops : Z;
  packet_loss_rate : f32;
}.

Record MetricsSnapshot := mkSnapshot {
  s_handshake_successes : Z;
  s_handshake_failures : Z;
  s_relay_packets : Z;
  s_direct_packets : Z;
  s_packet_drops : Z;
  s_broadcast_packets : Z;
  s_multicast_packets : Z;
  s_l2_flood_packets : Z;
  port_mapping_acquired : bool;
  port_mapping_protocol : option string;
  port_mapping_external_addr : option string;
  port_mapping_lease_remaining_secs : option Z;
  s_peers : list PeerPathMetrics;
}.

Definition loss_rate (window : list bool) : f32 :=
  match window with
  | [] => f32_zero
  | _ => f32_div (f32_of (Z.of_nat (length (List.filter negb window))))
                 (f32_of (Z.of_nat (length window)))
  end.

Definition snapshot (now : Z) (m : MetricsRegistry) : MetricsSnapshot :=
  mkSnapshot (handshake_successes m) (handshake_failures m) (relay_packets m)
    (direct_packets m) (packet_drops m) (broadcast_packets m) (multicast_packets m)
    (l2_flood_packets m)
    (pm_acquired (port_mapping m)) (pm_protocol (port_mapping m))
    (pm_external_addr (port_mapping m))
    ((λ e, as_secs (duration_since e now)) <$> pm_lease_expires_at (port_mapping m))
    ((λ kc, mkPeerMetrics kc.1 (pc_path kc.2) (pc_last_rtt_ms kc.2) (relay_hits kc.2)
        (direct_hits kc.2) (pc_handshake_successes kc.2) (pc_handshake_failures kc.2)
        (pc_packet_drops kc.2) (loss_rate (ping_window kc.2)))
     <$> map_to_list (m_peers m)).

(** ** Calls *)
Inductive metric_call :=
| CHandshake (peer : NodeId) (success : bool)
| CPathHit (peer : NodeId) (path : PathKind)
| CDrop (peer : option NodeId)
| CDiscovery (packet_type : DataPacketType)
| CRtt (peer : NodeId) (rtt : option Z)
| CPortMapping (acquired : bool) (protocol external_addr : option string) (expires : option Z)
| CPing (peer : NodeId) (seq : Z) (addr : SocketAddr) (is_active : bool)
| CPong (peer : NodeId) (seq : Z)
| CTimeouts (timeout : Z).

Definition run_metric_call (now : Z) (c : metric_call) (m : MetricsRegistry) : MetricsRegistry :=
  match c with
  | CHandshake p s => mark_handshake p s m
  | CPathHit p k => mark_path_hit p k m
  | CDrop p => mark_packet_drop p m
  | CDiscovery t => mark_discovery_packet t m
  | CRtt p r => update_rtt p r m
  | CPortMapping a p e l => set_port_mapping_status a p e l m
  | CPing p s a b => record_ping_sent now p s a b m
  | CPong p s => (record_pong_received now p s m).2
  | CTimeouts t => (check_ping_timeouts now t m).2
  end.

Definition run_metric_calls (cs : list (Z * metric_call)) (m : MetricsRegistry) :=
  fold_left (λ m c, run_metric_call c.1 c.2 m) cs m.

(** ** Sums over the peers *)
Definition total_of (f : PeerCounters → Z) (ps : gmap NodeId PeerCounters) : Z :=
  foldr Z.add 0 (f ∘ snd <$> map_to_list ps).

Lemma sum_permutation (l k : list Z) : l ≡ₚ k → foldr Z.add 0 l = foldr Z.add 0 k.
Proof. induction 1; simpl; lia. Qed.

Lemma total_of_insert f ps p c :
  f new_counters = 0 →
  total_of f (<[p := c]> ps) = total_of f ps - f (default new_counters (ps !! p)) + f c.
Proof.
  intros H0.
  assert (∀ v ps, ps !! p = None → total_of f (<[p := v]> ps) = f v + total_of f ps) as Hnew.
  { intros v ps' Hp. unfold total_of.
    by rewrite (sum_permutation _ (f ∘ snd <$> ((p, v) :: map_to_list ps')))
      by (by apply fmap_Permutation, map_to_list_insert). }
  destruct (ps !! p) as [c'|] eqn:E; simpl; [|rewrite Hnew by done; lia].
  rewrite <- (insert_delete_id ps p c') at 2 by done.
  rewrite <- insert_delete_eq, !Hnew by apply lookup_delete_eq. lia.
Qed.

Lemma total_of_fmap f g ps :
  (∀ c, f (g c) = f c) → total_of f (g <$> ps) = total_of f ps.
Proof.
  intros Hg. unfold total_of. rewrite map_to_list_fmap, <- list_fmap_compose.
  f_equal. apply list_fmap_ext. intros i [k c] _. apply Hg.
Qed.

Definition window_ok (c : PeerCounters) : Prop := (length (ping_window c) ≤ 20)%nat.

Lemma window_push_ok b w : (length w ≤ 20)%nat → (length (window_push b w) ≤ 20)%nat.
Proof.
  intros Hw. unfold window_push. case_bool_decide as H; [|lia].
  destruct w as [|x w]; simpl in *; rewrite ?length_app in *; simpl in *; lia.
Qed.

(** The totals agree with the counters of the peers, as 64-bit counters do. *)
Record metrics_inv (m : MetricsRegistry) : Prop := {
  minv_relay : relay_packets m = wrap 64 (total_of relay_hits (m_peers m));
  minv_direct : direct_packets m = wrap 64 (total_of direct_hits (m_peers m));
  minv_success : handshake_successes m = wrap 64 (total_of pc_handshake_successes (m_peers m));
  minv_failure : handshake_failures m = wrap 64 (total_of pc_handshake_failures (m_peers m));
  minv_window : ∀ p c, m_peers m !! p = Some c → window_ok c;
}.

Lemma wrap_bump s a : wrap 64 (s - a + bump a) = bump (wrap 64 s).
Proof.
  unfold bump, wrap. rewrite Zplus_mod_idemp_r, Zplus_mod_idemp_l. f_equal. lia.
Qed.

Lemma wrap_same s a : wrap 64 (s - a + a) = wrap 64 s.
Proof. f_equal. lia. Qed.

Lemma ensure_window m p : metrics_inv m → window_ok (ensure_peer p m).
Proof.
  intros H. unfold ensure_peer. destruct (m_peers m !! p) eqn:E; simpl.
  - by eapply minv_window.
  - unfold window_ok. simpl. lia.
Qed.

(** A change to one peer keeps the totals when it adds to them what it adds to the peer. *)
Lemma metrics_inv_peer m m' p c :
  metrics_inv m → m_peers m' = <[p := c]> (m_peers m) → window_ok c →
  relay_packets m' = wrap 64 (relay_packets m - relay_hits (ensure_peer p m) + relay_hits c) →
  direct_packets m' = wrap 64 (direct_packets m - direct_hits (ensure_peer p m) + direct_hits c) →
  handshake_successes m' = wrap 64 (handshake_successes m
    - pc_handshake_successes (ensure_peer p m) + pc_handshake_successes c) →
  handshake_failures m' = wrap 64 (handshake_failures m
    - pc_handshake_failures (ensure_peer p m) + pc_handshake_failures c) →
  metrics_inv m'.
Proof.
  intros [H1 H2 H3 H4 H5] Hp Hw E1 E2 E3 E4.
  assert (∀ s a b, wrap 64 (wrap 64 s - a + b) = wrap 64 (s - a + b)) as Hm.
  { intros s a b. unfold wrap. replace (s `mod` 2 ^ 64 - a + b) with (s `mod` 2 ^ 64 + (b - a)) by lia.
    rewrite Zplus_mod_idemp_l. f_equal. lia. }
  split; rewrite ?Hp.
  - by rewrite total_of_insert, E1, H1, Hm.
  - by rewrite total_of_insert, E2, H2, Hm.
  - by rewrite total_of_insert, E3, H3, Hm.
  - by rewrite total_of_insert, E4, H4, Hm.
  - intros q d [[<- <-]|[? ?]]%lookup_insert_Some; [done|by eapply H5].
Qed.

Lemma metrics_inv_small m :
  metrics_inv m → u_ok 64 (relay_packets m) ∧ u_ok 64 (direct_packets m) ∧
  u_ok 64 (handshake_successes m) ∧ u_ok 64 (handshake_failures m).
Proof. intros [-> -> -> -> _]. split_and!; by apply wrap_range. Qed.

Lemma metrics_inv_call now c m : metrics_inv m → metrics_inv (run_metric_call now c m).
Proof.
  intros H. destruct (metrics_inv_small m H) as (Hr & Hd & Hs & Hf).
  assert (∀ s a, u_ok 64 s → s = wrap 64 (s - a + a)) as Hsame
    by (intros; by rewrite wrap_same, wrap_small).
  assert (∀ s a, u_ok 64 s → bump s = wrap 64 (s - a + bump a)) as Hbump
    by (intros; by rewrite wrap_bump, (wrap_small 64 s)).
  pose proof (λ p, ensure_window m p H) as Hw.
  assert (∀ p f, metrics_inv m → window_ok (f (ensure_peer p m)) →
    relay_hits (f (ensure_peer p m)) = relay_hits (ensure_peer p m) →
    direct_hits (f (ensure_peer p m)) = direct_hits (ensure_peer p m) →
    pc_handshake_successes (f (ensure_peer p m)) = pc_handshake_successes (ensure_peer p m) →
    pc_handshake_failures (f (ensure_peer p m)) = pc_handshake_failures (ensure_peer p m) →
    metrics_inv (with_peer p f m)) as Hkeep.
  { intros p f _ Hwf E1 E2 E3 E4.
    eapply metrics_inv_peer; [exact H|reflexivity|exact Hwf|..]; simpl;
      rewrite ?E1, ?E2, ?E3, ?E4; by apply Hsame. }
  destruct c as [p s|p k|[p|]|t|p r|a pr e l|p s a b|p s|t]; cbn [run_metric_call].
  - eapply metrics_inv_peer; [exact H|reflexivity|..]; destruct s; simpl;
      (by apply Hsame) || (by apply Hbump) || apply Hw.
  - eapply metrics_inv_peer; [exact H|reflexivity|..]; destruct k; simpl;
      (by apply Hsame) || (by apply Hbump) || apply Hw.
  - eapply metrics_inv_peer; [exact H|reflexivity|..]; simpl;
      (by apply Hsame) || apply Hw.
  - by destruct H.
  - by destruct H.
  - apply Hkeep; done || apply Hw.
  - by destruct H.
  - apply Hkeep; done || apply Hw.
  - unfold record_pong_received. destruct (pending_pings _ !! s) as [pp|]; simpl;
      apply Hkeep; try done; [|apply Hw].
    unfold window_ok. simpl.
    destruct (ping_active pp); [apply window_push_ok|]; apply Hw.
  - destruct H as [H1 H2 H3 H4 H5]. split; simpl; rewrite ?total_of_fmap; try done.
    intros p c. rewrite lookup_fmap_Some. intros (c0 & <- & Hc0). apply H5 in Hc0.
    unfold window_ok, peer_timeouts in *. simpl.
    generalize dependent (ping_window c0).
    induction (List.filter _ _) as [|sp late IH]; intros w Hwin; [done|]. simpl. apply IH.
    destruct (ping_active sp.2); [by apply window_push_ok|done].
Qed.

(** Whatever is recorded, the packet and handshake totals are the sums of the peers'
    counters, as 64-bit counters, and no ping window holds more than twenty results. *)
Theorem metrics_consistent cs :
  let m := run_metric_calls cs new in
  relay_packets m = wrap 64 (total_of relay_hits (m_peers m)) ∧
  direct_packets m = wrap 64 (total_of direct_hits (m_peers m)) ∧
  handshake_successes m = wrap 64 (total_of pc_handshake_successes (m_peers m)) ∧
  handshake_failures m = wrap 64 (total_of pc_handshake_failures (m_peers m)) ∧
  ∀ p c, m_peers m !! p = Some c → (length (ping_window c) ≤ 20)%nat.
Proof.
  assert (metrics_inv new) as H.
  { split; try (vm_compute; reflexivity). intros p c. simpl. by rewrite lookup_empty. }
  revert H. unfold run_metric_calls. generalize new as m.
  induction cs as [|c cs IH]; intros m H; simpl; [by destruct H|].
  by apply IH, metrics_inv_call.
Qed.

(** The ping of a sequence number that waits for its answer. *)
Definition pending (m : MetricsRegistry) (peer : NodeId) (seq : Z) : option PendingPing :=
  pending_pings (ensure_peer peer m) !! seq.

Lemma pending_with_peer m p f q s :
  pending (with_peer p f m) q s =
  if decide (p = q) then pending_pings (f (ensure_peer p m)) !! s else pending m q s.
Proof.
  unfold pending, ensure_peer, with_peer. simpl. rewrite lookup_insert.
  case_decide; [by subst|done].
Qed.

Lemma delete_all_lookup (l : list (Z * PendingPing)) (ps : gmap Z PendingPing) s :
  foldr (λ sp ps, delete sp.1 ps) ps l !! s
  = if decide (s ∈ l.*1) then None else ps !! s.
Proof.
  induction l as [|[s' p] l IH]; simpl; [done|].
  destruct (decide (s' = s)) as [->|Hne].
  - rewrite lookup_delete_eq. by rewrite decide_True by set_solver.
  - rewrite lookup_delete_ne, IH by done. apply decide_ext. set_solver.
Qed.

(** A ping is resolved once.  Sending makes it wait; a pong takes it out and yields
    its address and round-trip time, or nothing when none waits; the check for timeouts
    reports the waiting pings that are too old, takes them out and leaves the others. *)
Theorem ping_lifecycle m now peer seq addr active timeout :
  pending (record_ping_sent now peer seq addr active m) peer seq
    = Some (mkPending addr now active) ∧
  (match record_pong_received now peer seq m with
   | (r, m') => r = (λ p, (ping_addr p, wrap 32 (as_millis (duration_since now (ping_at p)))))
                     <$> pending m peer seq ∧
       ∀ q s, pending m' q s = if decide (q = peer ∧ s = seq) then None else pending m q s
   end) ∧
  (match check_ping_timeouts now timeout m with
   | (r, m') =>
       (∀ q a, (q, a) ∈ r ↔ ∃ s p, pending m q s = Some p ∧ ping_addr p = a ∧
          timeout < duration_since now (ping_at p)) ∧
       ∀ q s, pending m' q s =
         p ← pending m q s; if timed_out now timeout p then None else Some p
   end).
Proof.
  split; [|split].
  - unfold record_ping_sent. rewrite pending_with_peer, decide_True by done. simpl.
    apply lookup_insert_eq.
  - unfold record_pong_received. fold (pending m peer seq).
    destruct (pending m peer seq) as [p|] eqn:E; (split; [done|]); intros q s;
      rewrite pending_with_peer; case_decide as Hq; subst; simpl.
    + rewrite lookup_delete. case_decide; case_decide; naive_solver.
    + by rewrite decide_False by naive_solver.
    + case_decide as Hs; [|done]. by destruct Hs as [_ ->].
    + by rewrite decide_False by naive_solver.
  - unfold check_ping_timeouts. split.
    + intros q a. rewrite list_elem_of_bind. split.
      * intros ([k c] & Hin & Hkc). apply elem_of_map_to_list in Hkc. simpl in *.
        apply list_elem_of_fmap in Hin as (a' & [= -> ->] & Hin).
        apply list_elem_of_fmap in Hin as ([s p] & -> & Hin).
        apply list_elem_of_In, List.filter_In in Hin as [Hin Hto].
        apply list_elem_of_In, elem_of_map_to_list in Hin.
        apply bool_decide_eq_true in Hto. exists s, p.
        unfold pending, ensure_peer. by rewrite Hkc.
      * intros (s & p & Hp & <- & Hto). unfold pending, ensure_peer in Hp.
        destruct (m_peers m !! q) as [c|] eqn:Hc; simpl in Hp; [|by rewrite lookup_empty in Hp].
        exists (q, c). split; [|by apply elem_of_map_to_list].
        apply list_elem_of_fmap. exists (ping_addr p). split; [done|].
        apply list_elem_of_fmap. exists (s, p). split; [done|].
        apply list_elem_of_In, List.filter_In. split.
        -- by apply list_elem_of_In, elem_of_map_to_list.
        -- by apply bool_decide_eq_true.
    + intros q s. unfold pending, ensure_peer. simpl. rewrite lookup_fmap.
      destruct (m_peers m !! q) as [c|]; simpl; [|done]. rewrite delete_all_lookup.
      destruct (pending_pings c !! s) as [p|] eqn:Hp; simpl; cycle 1.
      { by case_decide. }
      destruct (timed_out now timeout p) eqn:Hto.
      * rewrite decide_True; [done|]. apply list_elem_of_fmap. exists (s, p). split; [done|].
        apply list_elem_of_In, List.filter_In. split; [|done].
        by apply list_elem_of_In, elem_of_map_to_list.
      * rewrite decide_False; [done|]. intros ([s' p'] & -> & Hin)%list_elem_of_fmap.
        apply list_elem_of_In, List.filter_In in Hin as [Hin Hto'].
        apply list_elem_of_In, elem_of_map_to_list in Hin. simpl in *. congruence.
Qed.
