(* ===== verification/Transport.v ===== *)
(** The UDP transport: crates/r2n-transport/src/lib.rs.

    The state is what the socket has sent; the answers of the operating system come from
    the class [Socket]. *)
From Stdlib Require Import ZArith Lia.
From stdpp Require Import base tactics numbers list strings.
From S2P Require Import Prelude Bytes Net Common Proto.
Local Open Scope Z_scope.

Inductive TransportError :=
| TIo | TSerialization | TDataHeader (e : DataHeaderError) | TTimeout.

(** ** The libraries *)

(** [postcard]: the encoding of control frames. *)
Class Postcard := {
  to_stdvec : ControlFrame → option (list Z);
  from_bytes : list Z → option ControlFrame;
}.
Class PostcardLaws (P : Postcard) : Prop := {
  postcard_roundtrip : ∀ f l, to_stdvec f = Some l → from_bytes l = Some f;
}.

Inductive wait_result := Elapsed | WaitFailed | Received (l : list Z).

(** The socket: the bytes a send takes, or a failure, as a function of what was sent
    before; the messages a [sendmmsg] takes; what comes back from a server within the
    time of a STUN exchange, or a failure to send. *)
Class Socket := {
  socket_send : nat → list Z → SocketAddr → option nat;
  socket_sendmmsg : nat → list (list Z) → option nat;
  socket_ask : string → list Z → option wait_result;
}.

(** [stun_rs]: the binding request, and the mapped address of a reply. *)
Class StunLib := {
  stun_request : option (list Z);
  stun_decode : list Z → option (option SocketAddr);
}.

(** ** Byte order of the host *)
Inductive endian := LittleEndian | BigEndian.
Definition to_ne_bytes (e : endian) (n : nat) (v : Z) : list Z :=
  match e with BigEndian => to_be_bytes n v | LittleEndian => rev (to_be_bytes n v) end.
Definition from_ne_bytes (e : endian) (l : list Z) : Z :=
  match e with BigEndian => from_be_bytes l | LittleEndian => from_be_bytes (rev l) end.
(** [to_be] of an integer of [n] bytes. *)
Definition to_be (e : endian) (n : nat) (v : Z) : Z :=
  match e with BigEndian => v | LittleEndian => from_be_bytes (rev (to_be_bytes n v)) end.

(** A socket address as the bytes of its port and address in memory. *)
Inductive storage :=
| SockaddrIn (sin_port sin_addr : list Z)
| SockaddrIn6 (sin6_port sin6_addr : list Z).

Definition socket_addr_to_storage (e : endian) (addr : SocketAddr) : storage :=
  match sa_ip addr with
  | V4 a =>
      SockaddrIn (to_ne_bytes e 2 (to_be e 2 (sa_port addr)))
                 (to_ne_bytes e 4 (to_be e 4 (from_ne_bytes e (octets a))))
  | V6 a =>
      SockaddrIn6 (to_ne_bytes e 2 (to_be e 2 (sa_port addr))) (to_be_bytes 16 a)
  end.

(** The address the kernel reads: network byte order. *)
Definition storage_addr (s : storage) : SocketAddr :=
  match s with
  | SockaddrIn p a => mkSocketAddr (V4 (from_be_bytes a)) (from_be_bytes p)
  | SockaddrIn6 p a => mkSocketAddr (V6 (from_be_bytes a)) (from_be_bytes p)
  end.

(** ** The transport *)
Record UdpTransport := mkTransport {
  local_addr : option SocketAddr;
  sent : list (list Z * SocketAddr);
}.

Definition DataFrameView : Type := DataHeader * (nat * nat).
Inductive TransportPacket := PControl (f : ControlFrame) | PData (v : DataFrameView).
Definition BatchMessage : Type := SocketAddr * list Z.

Definition check_family (t : UdpTransport) (target : SocketAddr) : bool :=
  match local_addr t with
  | Some local => bool_decide (is_ipv4 local = is_ipv4 target)
  | None => true
  end.

Section Transport.
Context `{Socket} `{Postcard}.

Definition send_to (frame : list Z) (target : SocketAddr)
    : M UdpTransport TransportError nat :=
  λ t,
  match socket_send (length (sent t)) frame target with
  | Some n => (Ok n, mkTransport (local_addr t) (sent t ++ [(frame, target)]))
  | None => (Err TIo, t)
  end.

Definition send_raw (frame : list Z) (target : SocketAddr)
    : M UdpTransport TransportError nat :=
  let* t := mget in
  if check_family t target then send_to frame target else mreturn 0%nat.

Definition send_control (frame : ControlFrame) (target : SocketAddr)
    : M UdpTransport TransportError nat :=
  let* t := mget in
  if check_family t target then
    let* body := mlift (ok_or TSerialization (to_stdvec frame)) in
    send_to (CONTROL_MAGIC ++ body) target
  else mreturn 0%nat.

(** [sendmmsg] of all the messages; the kernel takes the first of them. *)
Definition try_send_batch_linux (e : endian) (messages : list BatchMessage)
    : M UdpTransport TransportError nat :=
  λ t,
  match socket_sendmmsg (length (sent t)) (snd <$> messages) with
  | Some n =>
      let taken := (λ m : BatchMessage,
        (m.2, storage_addr (socket_addr_to_storage e m.1))) <$> take n messages in
      (Ok n, mkTransport (local_addr t) (sent t ++ taken))
  | None => (Err TIo, t)
  end.

Fixpoint send_each (messages : list BatchMessage) (n : nat)
    : M UdpTransport TransportError nat :=
  match messages with
  | [] => mreturn n
  | (target, payload) :: messages =>
      let* _ := send_to payload target in
      send_each messages (S n)
  end.

(** The Linux build tries [sendmmsg] first. *)
Definition send_batch (linux : option endian) (messages : list BatchMessage)
    : M UdpTransport TransportError nat :=
  let* t := mget in
  let filtered := List.filter (λ m : BatchMessage, check_family t m.1) messages in
  match filtered with
  | [] => mreturn 0%nat
  | _ =>
      match linux with
      | Some e => λ t,
          match try_send_batch_linux e filtered t with
          | (Err _, t) => send_each filtered 0 t
          | r => r
          end
      | None => send_each filtered 0
      end
  end.

(** [recv_packet] on what [recv_from] put into the buffer. *)
Definition recv_packet (buf : list Z) (len : nat) (addr : SocketAddr)
    : outcome TransportError (TransportPacket * SocketAddr) :=
  magic ← (if bool_decide (length CONTROL_MAGIC ≤ len)%nat
           then m ← lift (slice buf 0 4); Ok (bool_decide (m = CONTROL_MAGIC))
           else Ok false);
  if magic : bool then
    body ← lift (slice buf 4 len);
    packet ← ok_or TSerialization (from_bytes body);
    Ok (PControl packet, addr)
  else if bool_decide (len < DATA_HEADER_SIZE)%nat then Err (TDataHeader BufferTooShort)
  else
    head ← lift (slice buf 0 DATA_HEADER_SIZE);
    header ← map_err TDataHeader (decode head);
    let range := payload_range header in
    if negb (bool_decide (range.2 = len)) then Err (TDataHeader InvalidPayloadLength)
    else Ok (PData (header, range), addr).

Definition discover_public_addr `{StunLib} (stun_server : string)
    : outcome TransportError SocketAddr :=
  request ← ok_or TIo stun_request;
  match socket_ask stun_server request with
  | None | Some WaitFailed => Err TIo
  | Some Elapsed => Err TTimeout
  | Some (Received reply) =>
      decoded ← ok_or TIo (stun_decode reply);
      ok_or TIo decoded
  end.

Definition detect_nat_type `{StunLib} (servers : list string)
    : outcome TransportError NatType :=
  match servers with
  | s1 :: s2 :: _ =>
      addr1 ← discover_public_addr s1;
      addr2 ← discover_public_addr s2;
      Ok (if bool_decide (addr1 = addr2) then Cone else Symmetric)
  | _ => Ok Unknown
  end.

End Transport.

(** ** Facts *)
Lemma rev_rev_be n v : rev (rev (to_be_bytes n v)) = to_be_bytes n v.
Proof. apply rev_involutive. Qed.

Lemma rev_bytes_ok l : bytes_ok l → bytes_ok (rev l).
Proof. intros H. by apply Forall_rev. Qed.

Lemma to_ne_to_be e n v :
  u_ok (8 * Z.of_nat n) v → to_ne_bytes e n (to_be e n v) = to_be_bytes n v.
Proof.
  destruct e; simpl; [|done]. intros Hv.
  pose proof (to_from_be_bytes (rev (to_be_bytes n v)) (rev_bytes_ok _ (to_be_bytes_ok n v))) as E.
  rewrite length_rev, length_to_be_bytes in E. by rewrite E, rev_involutive.
Qed.

(** The socket address handed to [sendmmsg] holds the port, and an IPv6 address, in
    network byte order; an IPv4 address only on a big-endian host: a little-endian host
    stores its four bytes in reverse, so that the kernel sends to another address. *)
Theorem sockaddr_byte_order e addr :
  u_ok 16 (sa_port addr) →
  storage_addr (socket_addr_to_storage e addr) =
  match sa_ip addr with
  | V6 a => mkSocketAddr (V6 (from_be_bytes (to_be_bytes 16 a))) (sa_port addr)
  | V4 a =>
      match e with
      | BigEndian => mkSocketAddr (V4 (from_be_bytes (octets a))) (sa_port addr)
      | LittleEndian => mkSocketAddr (V4 (from_be_bytes (rev (octets a)))) (sa_port addr)
      end
  end.
Proof.
  intros Hp. unfold socket_addr_to_storage.
  destruct (sa_ip addr) as [a|a]; cbn [storage_addr];
    rewrite (to_ne_to_be e 2 (sa_port addr) Hp), (from_to_be_bytes 2) by done; [|done].
  assert (bytes_ok (octets a)) as Hb by apply to_be_bytes_ok.
  assert (length (octets a) = 4%nat) as Hl by apply length_to_be_bytes.
  pose proof (rev_bytes_ok _ Hb) as Hrb. pose proof (length_rev (octets a)) as Hrl.
  rewrite Hl in Hrl.
  rewrite to_ne_to_be by (destruct e; cbn [from_ne_bytes]; by apply be_range_of_length).
  destruct e; cbn [from_ne_bytes]; by rewrite (to_from_be_bytes_length _ 4).
Qed.

(** A header and its payload, in a buffer that may be longer. *)
Lemma recv_data `{Postcard} h payload slack addr :
  header_ok h → h_version h = PROTOCOL_VERSION →
  recv_packet (header_bytes h ++ payload ++ slack) (DATA_HEADER_SIZE + length payload) addr
  = if bool_decide (h_payload_len h = Z.of_nat (length payload))
    then Ok (PData (h, (DATA_HEADER_SIZE, (DATA_HEADER_SIZE + length payload)%nat)), addr)
    else Err (TDataHeader InvalidPayloadLength).
Proof.
  intros Hh Hv. pose proof (length_header_bytes h Hh) as Hl.
  unfold recv_packet.
  change (length CONTROL_MAGIC) with 4%nat.
  rewrite (bool_decide_eq_true_2 (4 ≤ DATA_HEADER_SIZE + length payload)%nat)
    by (unfold DATA_HEADER_SIZE; lia).
  destruct (header_bytes_fields h (payload ++ slack) Hh) as (-> & _).
  cbn [lift mbind outcome_bind].
  rewrite (bool_decide_eq_false_2 (DATA_MAGIC = CONTROL_MAGIC)) by done.
  rewrite bool_decide_eq_false_2 by lia.
  rewrite slice_here by done. cbn [lift mbind outcome_bind].
  rewrite <- (app_nil_r (header_bytes h)) at 1. rewrite decode_header_bytes by done.
  cbn [map_err mbind outcome_bind payload_range snd].
  pose proof (ok_payload_len h Hh) as [? ?].
  destruct (decide (h_payload_len h = Z.of_nat (length payload))) as [E|E].
  - rewrite (bool_decide_eq_true_2 (h_payload_len h = _)) by done.
    rewrite bool_decide_eq_true_2 by lia. cbn [negb].
    unfold payload_range. by rewrite E, Nat2Z.id.
  - rewrite (bool_decide_eq_false_2 (h_payload_len h = _)) by done.
    rewrite bool_decide_eq_false_2 by lia. done.
Qed.

(** A control frame, in a buffer that may be longer. *)
Lemma recv_control `{P : Postcard} `{!PostcardLaws P} f body slack addr : to_stdvec f = Some body →
  let dgram := CONTROL_MAGIC ++ body in
  recv_packet (dgram ++ slack) (length dgram) addr = Ok (PControl f, addr).
Proof.
  intros Ef. assert (length (CONTROL_MAGIC ++ body) = 4 + length body)%nat as Hl by done.
  unfold recv_packet. change (length CONTROL_MAGIC) with 4%nat.
  rewrite Hl, (bool_decide_eq_true_2 (4 ≤ 4 + length body)%nat) by lia.
  rewrite (slice_Ok _ 0 4)
    by (rewrite ?(length_app (CONTROL_MAGIC ++ body) slack), ?Hl; lia). cbn [lift mbind outcome_bind].
  change (take _ (drop 0 _)) with CONTROL_MAGIC.
  rewrite (bool_decide_eq_true_2 (CONTROL_MAGIC = CONTROL_MAGIC)) by done.
  rewrite (slice_Ok _ 4 (4 + length body))
    by (rewrite ?(length_app (CONTROL_MAGIC ++ body) slack), ?Hl; lia). cbn [lift mbind outcome_bind].
  assert (take (4 + length body - 4) (drop 4 ((CONTROL_MAGIC ++ body) ++ slack)) = body) as ->.
  { rewrite <- app_assoc. rewrite drop_app_length' by done. apply take_app_length'. lia. }
  by rewrite (postcard_roundtrip _ _ Ef).
Qed.

(** What is sent is received.  The datagram of [send_control] is read back as its
    control frame; a header with its payload is read back as that header and the range of
    the payload; and a datagram whose length is not the one its header says is refused. *)
Theorem recv_sent_packet `{Socket} `{P : Postcard} `{!PostcardLaws P} slack addr :
  (∀ f target t, match send_control f target t with
     | (Ok _, t') => sent t' = sent t ∨ ∃ dgram, sent t' = sent t ++ [(dgram, target)] ∧
         recv_packet (dgram ++ slack) (length dgram) addr = Ok (PControl f, addr)
     | (_, t') => t' = t
     end) ∧
  (∀ h payload, header_ok h → h_version h = PROTOCOL_VERSION →
     recv_packet (header_bytes h ++ payload ++ slack) (DATA_HEADER_SIZE + length payload) addr
     = if bool_decide (h_payload_len h = Z.of_nat (length payload))
       then Ok (PData (h, (DATA_HEADER_SIZE, (DATA_HEADER_SIZE + length payload)%nat)), addr)
       else Err (TDataHeader InvalidPayloadLength)).
Proof.
  split.
  - intros f target t. unfold send_control, mseq, mget, mlift, send_to.
    destruct (check_family t target); [|by left].
    destruct (to_stdvec f) as [body|] eqn:Ef; cbn [ok_or]; [|done].
    destruct (socket_send _ _ _); [|done]. right. eexists. split; [done|].
    by apply recv_control.
  - intros h payload. apply recv_data.
Qed.

Lemma sockaddr_byte_order_witness :
  storage_addr (socket_addr_to_storage LittleEndian
    (mkSocketAddr (V4 (ipv4 10 0 0 1)) 4000))
  = mkSocketAddr (V4 (ipv4 1 0 0 10)) 4000.
Proof.
  rewrite (sockaddr_byte_order LittleEndian (mkSocketAddr (V4 (ipv4 10 0 0 1)) 4000));
    [reflexivity|unfold u_ok; simpl; lia].
Defined.

(** A socket that takes everything, and an encoding of one control frame. *)
Definition toy_socket : Socket := {|
  socket_send _ l _ := Some (length l);
  socket_sendmmsg _ l := Some (length l);
  socket_ask _ _ := Some Elapsed |}.
Definition toy_postcard : Postcard := {|
  to_stdvec f := match f with Heartbeat => Some [14] | _ => None end;
  from_bytes l := match l with [14] => Some Heartbeat | _ => None end |}.
#[export] Instance toy_postcard_laws : PostcardLaws toy_postcard.
Proof. split. by intros [] l; simpl; intros [= <-]. Qed.

Lemma recv_sent_packet_witness :
  ∃ dgram, sent (send_control (H:=toy_socket) (H0:=toy_postcard) Heartbeat
      (mkSocketAddr (V4 1) 1) (mkTransport None [])).2 = [(dgram, mkSocketAddr (V4 1) 1)] ∧
    recv_packet (H0:=toy_postcard) (dgram ++ [0; 0]) (length dgram) (mkSocketAddr (V4 2) 2)
    = Ok (PControl Heartbeat, mkSocketAddr (V4 2) 2).
Proof.
  pose proof (proj1 (recv_sent_packet (H:=toy_socket) (P:=toy_postcard) [0; 0]
    (mkSocketAddr (V4 2) 2)) Heartbeat (mkSocketAddr (V4 1) 1) (mkTransport None [])) as Hs.
  destruct Hs as [Hs|(d & Hs & Hd)].
  - simpl in Hs. discriminate.
  - exists d. split; [exact Hs|exact Hd].
Defined.
