(* ===== verification/Flood.v ===== *)
(** The record of flooded packets: [SeenFloodPackets] of crates/r2n-dataplane/src/lib.rs. *)
From Stdlib Require Import ZArith Lia Sorting.Sorted.
From stdpp Require Import base tactics numbers list sorting gmap.
From S2P Require Import Prelude Common.
Local Open Scope Z_scope.

Definition SEEN_FLOOD_WINDOW : Z := secs 30.
Definition SEEN_FLOOD_CAPACITY : nat := Z.to_nat 4096.

Definition flood_key : Type := NodeId * PacketId.

(** The keys in the order of arrival with their times, and the same keys as a set. *)
Record SeenFloodPackets := mkSeen {
  order : list (flood_key * Z);
  seen_set : gset flood_key;
}.

Definition new : SeenFloodPackets := mkSeen [] ∅.

(** [while order.len() > SEEN_FLOOD_CAPACITY]; [n] is the length of the list. *)
Fixpoint prune_capacity (l : list (flood_key * Z)) (n : nat) (set : gset flood_key)
    : list (flood_key * Z) * gset flood_key :=
  match l with
  | [] => ([], set)
  | (k, _) :: l' =>
      if bool_decide (SEEN_FLOOD_CAPACITY < n)%nat
      then prune_capacity l' (pred n) (set ∖ {[k]})
      else (l, set)
  end.

(** [while let Some(..) = order.front()] *)
Fixpoint prune_expired (now : Z) (l : list (flood_key * Z)) (set : gset flood_key)
    : list (flood_key * Z) * gset flood_key :=
  match l with
  | [] => ([], set)
  | (k, seen_at) :: l' =>
      if bool_decide (duration_since now seen_at ≤ SEEN_FLOOD_WINDOW) then (l, set)
      else prune_expired now l' (set ∖ {[k]})
  end.

Definition prune (now : Z) (s : SeenFloodPackets) : SeenFloodPackets :=
  let '(l, set) := prune_capacity (order s) (length (order s)) (seen_set s) in
  let '(l, set) := prune_expired now l set in
  mkSeen l set.

Definition insert_if_new (now : Z) (origin : NodeId) (packet_id : PacketId)
    (s : SeenFloodPackets) : bool * SeenFloodPackets :=
  let s := prune now s in
  let key := (origin, packet_id) in
  if bool_decide (key ∈ seen_set s) then (false, s)
  else (true, prune now (mkSeen (order s ++ [(key, now)]) ({[key]} ∪ seen_set s))).

(** ** What it promises

    The history of accepted keys, oldest first; a key is recent when it was accepted
    within the window and fewer keys than the capacity came after it. *)
Definition recent (now : Z) (key : flood_key) (hist : list (flood_key * Z)) : Prop :=
  ∃ pre t post, hist = pre ++ (key, t) :: post ∧ now - t ≤ SEEN_FLOOD_WINDOW ∧
    (length post < SEEN_FLOOD_CAPACITY)%nat.

(** A run of calls, at times of which none precedes an earlier one, with its history. *)
Fixpoint run (calls : list (flood_key * Z)) (s : SeenFloodPackets)
    (hist : list (flood_key * Z)) : SeenFloodPackets * list (flood_key * Z) :=
  match calls with
  | [] => (s, hist)
  | (k, now) :: calls =>
      let '(accepted, s') := insert_if_new now k.1 k.2 s in
      run calls s' (if accepted : bool then hist ++ [(k, now)] else hist)
  end.

(** ** Proof *)
#[local] Opaque SEEN_FLOOD_CAPACITY SEEN_FLOOD_WINDOW.

(** Where an element of a concatenation is. *)
Lemma split_app {A} (l k pre post : list A) x :
  l ++ k = pre ++ x :: post →
  (∃ p, l = pre ++ x :: p ∧ post = p ++ k) ∨ (∃ p, k = p ++ x :: post ∧ pre = l ++ p).
Proof.
  revert pre. induction l as [|y l IH]; intros pre E; simpl in E.
  - right. by exists pre.
  - destruct pre as [|z pre]; injection E as -> E.
    + left. by exists l.
    + destruct (IH pre E) as [(p & -> & ->)|(p & -> & ->)]; [left|right]; by exists p.
Qed.

Lemma prune_capacity_spec l n set :
  n = length l →
  ∃ d, l = d ++ (prune_capacity l n set).1 ∧
    (prune_capacity l n set).2 = set ∖ list_to_set d.*1 ∧
    length d = (length l - SEEN_FLOOD_CAPACITY)%nat.
Proof.
  revert n set. induction l as [|[k t] l IH]; intros n set Hn; simpl in *.
  { exists []. simpl. split_and!; [done|set_solver|lia]. }
  case_bool_decide as Hc.
  - destruct (IH (pred n) (set ∖ {[k]})) as (d & E1 & E2 & E3); [lia|].
    exists ((k, t) :: d). simpl. rewrite <- E1, E2. split_and!; [done|set_solver|lia].
  - exists []. simpl. split_and!; [done|set_solver|lia].
Qed.

Lemma prune_expired_spec now l set :
  ∃ d, l = d ++ (prune_expired now l set).1 ∧
    (prune_expired now l set).2 = set ∖ list_to_set d.*1 ∧
    Forall (λ kt, SEEN_FLOOD_WINDOW < now - kt.2) d ∧
    match (prune_expired now l set).1 with
    | [] => True
    | kt :: _ => now - kt.2 ≤ SEEN_FLOOD_WINDOW
    end.
Proof.
  revert set. induction l as [|[k t] l IH]; intros set; simpl.
  { exists []. simpl. split_and!; [done|set_solver|constructor|done]. }
  assert (0 ≤ SEEN_FLOOD_WINDOW) by (vm_compute; discriminate).
  unfold duration_since. case_bool_decide as Hc.
  - exists []. simpl. split_and!; [done|set_solver|constructor|lia].
  - destruct (IH (set ∖ {[k]})) as (d & E1 & E2 & E3 & E4).
    exists ((k, t) :: d). simpl. rewrite <- E1, E2.
    split_and!; [done|set_solver|constructor; [simpl; lia|done]|done].
Qed.

(** The order is a suffix of the history without repetitions, in order of time, and with
    everything recent in it. *)
Record flood_inv (now : Z) (hist : list (flood_key * Z)) (s : SeenFloodPackets) : Prop := {
  finv_set : seen_set s = list_to_set (order s).*1;
  finv_nodup : NoDup (order s).*1;
  finv_suffix : ∃ d, hist = d ++ order s ∧
    ∀ pre kt post, d = pre ++ kt :: post →
      SEEN_FLOOD_WINDOW < now - kt.2 ∨ (SEEN_FLOOD_CAPACITY ≤ length (post ++ order s))%nat;
  finv_times : StronglySorted (λ a b, a.2 ≤ b.2) hist;
  finv_now : Forall (λ kt, kt.2 ≤ now) hist;
}.

Lemma set_drop (d l : list (flood_key * Z)) :
  NoDup (d ++ l).*1 → (list_to_set (d ++ l).*1 : gset flood_key) ∖ list_to_set d.*1
  = list_to_set l.*1.
Proof.
  rewrite fmap_app, NoDup_app. intros (_ & Hd & _). rewrite list_to_set_app_L.
  apply set_eq. intros x. rewrite elem_of_difference, elem_of_union, !elem_of_list_to_set.
  split; [tauto|]. intros Hx. split; [by right|]. intros Hx'. by apply (Hd x).
Qed.

Lemma prune_spec now hist s :
  flood_inv now hist s →
  flood_inv now hist (prune now s) ∧
  (length (order (prune now s)) ≤ SEEN_FLOOD_CAPACITY)%nat ∧
  Forall (λ kt, now - kt.2 ≤ SEEN_FLOOD_WINDOW) (order (prune now s)).
Proof.
  intros [Hset Hnd (d & Hd & Hdrop) Ht Hn]. unfold prune.
  destruct (prune_capacity_spec (order s) (length (order s)) (seen_set s) eq_refl)
    as (d1 & E1 & E2 & E3).
  destruct (prune_capacity _ _ _) as [l1 set1]. simpl in *.
  destruct (prune_expired_spec now l1 set1) as (d2 & F1 & F2 & F3 & F4).
  destruct (prune_expired _ _ _) as [l2 set2]. simpl in *.
  assert (NoDup l1.*1) as Hnd1.
  { rewrite E1, fmap_app, NoDup_app in Hnd. tauto. }
  assert (hist = (d ++ d1 ++ d2) ++ l2) as Hhist.
  { by rewrite Hd, E1, F1, <- !app_assoc. }
  assert (Forall (λ kt, now - kt.2 ≤ SEEN_FLOOD_WINDOW) l2) as Hfresh.
  { rewrite Hhist in Ht. clear -Ht F4. apply StronglySorted_app_1_r in Ht.
    destruct l2 as [|x l2]; [done|]. constructor; [done|].
    apply StronglySorted_inv in Ht as [_ Ht]. eapply Forall_impl; [exact Ht|].
    simpl in *. intros y ?. lia. }
  split; [|split; [|done]].
  - split; simpl; [| | |done|done].
    + rewrite F2, E2, Hset. rewrite E1 in Hnd |- *. rewrite set_drop by done.
      rewrite F1 in Hnd1 |- *. by rewrite set_drop.
    + rewrite F1, fmap_app, NoDup_app in Hnd1. tauto.
    + exists (d ++ d1 ++ d2). split; [done|]. intros pre kt post E.
      apply split_app in E as [(p & Ed & ->)|(p & E & ->)].
      * destruct (Hdrop _ _ _ Ed) as [?|Hc]; [by left|]. right.
        rewrite E1, F1 in Hc. rewrite !length_app in *. lia.
      * apply split_app in E as [(p' & -> & ->)|(p' & -> & ->)].
        -- right. rewrite E1, F1 in E3. rewrite !length_app in *. cbn [length] in *. lia.
        -- left. rewrite Forall_forall in F3. apply F3. set_solver.
  - rewrite E1, F1, !length_app in E3. lia.
Qed.

Lemma flood_inv_later now now' hist s :
  now ≤ now' → flood_inv now hist s → flood_inv now' hist s.
Proof.
  intros Hle [H1 H2 (d & Hd & H3) H4 H5]. split; try done.
  - exists d. split; [done|]. intros pre kt post E.
    destruct (H3 _ _ _ E); [left; lia|by right].
  - eapply Forall_impl; [exact H5|]. simpl. intros. lia.
Qed.

Lemma flood_inv_push now key hist s :
  key ∉ seen_set s → flood_inv now hist s →
  flood_inv now (hist ++ [(key, now)])
    (mkSeen (order s ++ [(key, now)]) ({[key]} ∪ seen_set s)).
Proof.
  intros Hk [H1 H2 (d & Hd & H3) H4 H5]. split; simpl.
  - rewrite fmap_app, list_to_set_app_L, H1. set_solver.
  - rewrite fmap_app, NoDup_app. split; [done|]. split; [|apply NoDup_singleton].
    rewrite H1, elem_of_list_to_set in Hk. set_solver.
  - exists d. rewrite Hd, <- app_assoc. split; [done|]. intros pre kt post E.
    destruct (H3 _ _ _ E); [by left|right]. rewrite !length_app in *. simpl. lia.
  - apply StronglySorted_app. split; [|split; [done|repeat constructor]].
    intros x y Hx ->%list_elem_of_singleton. rewrite Forall_forall in H5. by apply H5.
  - apply Forall_app. split; [done|]. constructor; [simpl; lia|constructor].
Qed.

(** One call refines the history. *)
Lemma insert_spec now key hist s :
  flood_inv now hist s →
  let r := insert_if_new now key.1 key.2 s in
  (r.1 = false ↔ recent now key hist) ∧
  flood_inv now (if r.1 then hist ++ [(key, now)] else hist) r.2 ∧
  (length (order r.2) ≤ SEEN_FLOOD_CAPACITY)%nat.
Proof.
  intros Hinv. destruct (prune_spec now hist s Hinv) as (Hp & Hl & Hfresh).
  unfold insert_if_new. destruct key as [o i]. simpl.
  set (s1 := prune now s) in *.
  assert ((o, i) ∈ seen_set s1 ↔ recent now (o, i) hist) as Hiff.
  { destruct Hp as [H1 H2 (d & Hd & H3) _ _].
    rewrite H1, elem_of_list_to_set, list_elem_of_fmap. split.
    - intros ([k t] & E0 & Hin). cbn [fst] in E0. subst k.
      apply list_elem_of_split in Hin as (p & q & E). exists (d ++ p), t, q.
      rewrite Forall_forall in Hfresh. split_and!.
      + by rewrite Hd, E, <- app_assoc.
      + apply (Hfresh (o, i, t)). rewrite E. set_solver.
      + rewrite E, length_app in Hl. simpl in Hl. lia.
    - intros (pre & t & post & E & Ht & Hpost). rewrite Hd in E.
      apply split_app in E as [(p & Ed & ->)|(p & Eo & ->)].
      + destruct (H3 _ _ _ Ed); simpl in *; lia.
      + exists (o, i, t). split; [done|]. rewrite Eo. set_solver. }
  case_bool_decide as Hk; simpl.
  - split; [by rewrite <- Hiff|]. by split.
  - split; [by rewrite <- Hiff|].
    destruct (prune_spec now _ _ (flood_inv_push now (o, i) hist s1 Hk Hp)) as (? & ? & _).
    by split.
Qed.

(** Times that never go back. *)
Definition monotone (calls : list (flood_key * Z)) : Prop :=
  StronglySorted (λ a b, a.2 ≤ b.2) calls.

Lemma run_inv calls s hist start :
  monotone calls → Forall (λ c, start ≤ c.2) calls → flood_inv start hist s →
  ∃ last, flood_inv last (run calls s hist).2 (run calls s hist).1 ∧
    (last = start ∨ ∃ c, c ∈ calls ∧ last = c.2).
Proof.
  revert s hist start. induction calls as [|[k t] calls IH]; intros s hist start Hm Hs Hinv.
  { exists start. split; [done|by left]. }
  simpl. apply StronglySorted_inv in Hm as [Hm Ht].
  apply Forall_cons in Hs as [Hst Hs]. simpl in *.
  pose proof (insert_spec t k hist s (flood_inv_later _ t _ _ Hst Hinv)) as (_ & Hi & _).
  destruct (insert_if_new t k.1 k.2 s) as [a s']. simpl in Hi.
  destruct (IH s' (if a then hist ++ [(k, t)] else hist) t) as (last & Hlast & Hor);
    [done..|]. exists last. split; [done|]. right.
  destruct Hor as [->|(c & Hc & ->)].
  - exists (k, t). split; [by left|done].
  - exists c. split; [by right|done].
Qed.

(** C35: after any calls at times that never go back, a packet is refused as already seen
    exactly when it was accepted within the last thirty seconds and fewer than 4096 other
    packets were accepted since; and never more than 4096 packets are remembered. *)
Theorem flood_dedup calls key now :
  monotone (calls ++ [(key, now)]) →
  let '(s, hist) := run calls new [] in
  ((insert_if_new now key.1 key.2 s).1 = false ↔ recent now key hist) ∧
  (length (order (insert_if_new now key.1 key.2 s).2) ≤ SEEN_FLOOD_CAPACITY)%nat.
Proof.
  intros Hm. apply StronglySorted_app in Hm as (Hlast & Hm & _).
  set (start := match calls with [] => now | c :: _ => c.2 end).
  assert (Forall (λ c, start ≤ c.2) calls) as Hs.
  { unfold start. destruct calls as [|c calls]; [constructor|].
    apply StronglySorted_inv in Hm as [_ Hm]. constructor; [lia|done]. }
  destruct (run_inv calls new [] start) as (last & Hinv & Hor); [done|done| |].
  { split; simpl; [done|constructor|exists []; split; [done|]|constructor|constructor].
    intros pre kt post E. by destruct pre. }
  destruct (run calls new []) as [s hist]. simpl in Hinv.
  assert (last ≤ now) as Hle.
  { destruct Hor as [->|(c & Hc & ->)]; [|by apply (Hlast c (key, now)); [|left]].
    unfold start. destruct calls as [|c calls]; [lia|].
    apply (Hlast c (key, now)); by left. }
  destruct (insert_spec now key hist s (flood_inv_later _ now _ _ Hle Hinv)) as (? & _ & ?).
  done.
Qed.

Definition demo_key (n : Z) : flood_key := (mkNodeId (replicate 32 n), mkPacketId n).

Lemma flood_dedup_witness :
  let '(s, hist) := run [(demo_key 1, 0); (demo_key 2, secs 1)] new [] in
  (insert_if_new (secs 30) (demo_key 1).1 (demo_key 1).2 s).1 = false ↔
  recent (secs 30) (demo_key 1) hist.
Proof.
  pose proof (flood_dedup [(demo_key 1, 0); (demo_key 2, secs 1)] (demo_key 1) (secs 30)) as H.
  destruct (run _ new []) as [s hist]. apply H.
  repeat constructor; vm_compute; discriminate.
Defined.
