(* ===== verification/MacTable.v ===== *)
(** The Ethernet side of the dataplane (crates/r2n-dataplane/src/lib.rs): frame headers
    and the table of learned addresses. *)
From Stdlib Require Import ZArith Lia.
From stdpp Require Import base tactics numbers list gmap strings.
From S2P Require Import Prelude Bytes Common Sorting.
Local Open Scope Z_scope.

(** ** Frames *)
Abbreviation mac := (list Z) (only parsing).

Definition ethernet_macs (frame : list Z) : total (option (mac * mac)) :=
  if bool_decide (length frame < 14)%nat then Ok None else
  dst ← slice frame 0 6;
  src ← slice frame 6 12;
  Ok (Some (dst, src)).

Definition ethernet_ip_payload (frame : list Z) : total (option (list Z)) :=
  if bool_decide (length frame < 14)%nat then Ok None else
  hi ← index frame 12;
  lo ← index frame 13;
  let ether_type := from_be_bytes [hi; lo] in
  if bool_decide (ether_type = 2048) || bool_decide (ether_type = 34525)
  then (payload ← slice frame 14 (length frame); Ok (Some payload))
  else Ok None.

(** [{:02x}] *)
Definition hex_digit (d : Z) : Ascii.ascii :=
  Ascii.ascii_of_nat (Z.to_nat (if bool_decide (d < 10) then 48 + d else 87 + d)).
Definition hex_byte (b : Z) : string :=
  String (hex_digit (b / 16)) (String (hex_digit (b `mod` 16)) EmptyString).
Definition format_mac (m : mac) : string :=
  String.concat ":" (hex_byte <$> m).

Definition is_broadcast_mac (m : mac) : bool := bool_decide (m = replicate 6 255).
Definition is_multicast_mac (m : mac) : bool := bool_decide (Z.land (nth 0 m 0) 1 = 1).

(** ** The table *)
Definition MAC_TABLE_MAX_ENTRIES : nat := Z.to_nat 4096.
Definition MAC_TABLE_MAX_AGE : Z := secs 300.

Record MacTableEntry := mkMacEntry { mac_node : NodeId; learned_at : Z; last_seen : Z }.
Abbreviation MacTable := (gmap (list Z) MacTableEntry) (only parsing).

Definition prune_mac_table (now : Z) (t : MacTable) : MacTable :=
  filter (λ me, duration_since now (last_seen me.2) ≤ MAC_TABLE_MAX_AGE) t.

(** [min_by_key(last_seen)] over the entries in the order of the map. *)
Definition evict_oldest_mac (t : MacTable) : MacTable :=
  match min_by_key (λ me : mac * MacTableEntry, last_seen me.2)
          (λ a b, bool_decide (a < b)) (map_to_list t) with
  | Some (oldest, _) => delete oldest t
  | None => t
  end.

Definition learn_mac (now : Z) (m : mac) (node : NodeId) (t : MacTable) : MacTable :=
  let t := prune_mac_table now t in
  let t := match t !! m with
           | Some e => <[m := mkMacEntry node (learned_at e) now]> t
           | None => <[m := mkMacEntry node now now]> t
           end in
  if bool_decide (MAC_TABLE_MAX_ENTRIES < size t)%nat then evict_oldest_mac t else t.

(** [remove_peer] and [clear_peers] on the table. *)
Definition forget_node (n : NodeId) (t : MacTable) : MacTable :=
  filter (λ me, mac_node me.2 ≠ n) t.

Record L2TableEntry := mkL2 {
  l2_mac : string;
  l2_node_id : NodeId;
  learned_for_secs : Z;
  idle_for_secs : Z;
}.

Definition l2_entries (now : Z) (t : MacTable) : list L2TableEntry :=
  (λ me : mac * MacTableEntry, mkL2 (format_mac me.1) (mac_node me.2)
    (as_secs (duration_since now (learned_at me.2)))
    (as_secs (duration_since now (last_seen me.2)))) <$> map_to_list t.

Inductive mac_call :=
| LearnMac (m : mac) (node : NodeId) | PruneMacs | ForgetNode (n : NodeId) | ClearMacs.

Definition run_mac_call (now : Z) (c : mac_call) (t : MacTable) : MacTable :=
  match c with
  | LearnMac m n => learn_mac now m n t
  | PruneMacs => prune_mac_table now t
  | ForgetNode n => forget_node n t
  | ClearMacs => ∅
  end.

Definition run_mac_calls (cs : list (Z * mac_call)) (t : MacTable) : MacTable :=
  fold_left (λ t c, run_mac_call c.1 c.2 t) cs t.

(** ** Facts *)
#[local] Opaque MAC_TABLE_MAX_ENTRIES MAC_TABLE_MAX_AGE.

Lemma evict_oldest_spec t :
  (0 < size t)%nat →
  ∃ m e, t !! m = Some e ∧ evict_oldest_mac t = delete m t ∧
    ∀ m' e', t !! m' = Some e' → last_seen e ≤ last_seen e'.
Proof.
  intros Hs. unfold evict_oldest_mac.
  destruct (min_by_key _ _ _) as [[m e]|] eqn:E.
  - apply min_by_key_spec in E as [Hin Hmin].
    + exists m, e. split; [by apply elem_of_map_to_list|]. split; [done|].
      intros m' e' H. specialize (Hmin (m', e')). simpl in Hmin.
      rewrite bool_decide_eq_false in Hmin.
      pose proof (Hmin (proj2 (elem_of_map_to_list _ _ _) H)). lia.
    + intros a b c. rewrite !bool_decide_eq_false. lia.
    + intros a b. rewrite bool_decide_eq_true, bool_decide_eq_false. lia.
    + intros a. rewrite bool_decide_eq_false. lia.
  - destruct (map_to_list t) eqn:Em; [|done]. apply map_to_list_empty_iff in Em. subst t.
    rewrite map_size_empty in Hs. lia.
Qed.

Lemma size_filter_le (P : mac * MacTableEntry → Prop) `{∀ x, Decision (P x)} (t : MacTable) :
  (size (filter P t) ≤ size t)%nat.
Proof. apply map_subseteq_size, map_filter_subseteq. Qed.

(** The table after the new entry went in and before an eviction. *)
Definition learned (now : Z) (m : mac) (node : NodeId) (t : MacTable) : MacTable :=
  <[m := mkMacEntry node
           (match prune_mac_table now t !! m with Some e => learned_at e | None => now end) now]>
    (prune_mac_table now t).

Lemma learn_mac_cases now m node t :
  (size t ≤ MAC_TABLE_MAX_ENTRIES)%nat →
  learn_mac now m node t = learned now m node t ∧
    (size (learned now m node t) ≤ MAC_TABLE_MAX_ENTRIES)%nat ∨
  ∃ m' e, learned now m node t !! m' = Some e ∧
    learn_mac now m node t = delete m' (learned now m node t) ∧
    size (learned now m node t) = S MAC_TABLE_MAX_ENTRIES ∧
    ∀ m'' e'', learned now m node t !! m'' = Some e'' → last_seen e ≤ last_seen e''.
Proof.
  intros Hs. unfold learn_mac.
  assert ((match prune_mac_table now t !! m with
           | Some e => <[m := mkMacEntry node (learned_at e) now]> (prune_mac_table now t)
           | None => <[m := mkMacEntry node now now]> (prune_mac_table now t)
           end) = learned now m node t) as -> by (unfold learned; by destruct (_ !! _)).
  assert (size (learned now m node t) ≤ S MAC_TABLE_MAX_ENTRIES)%nat as Hl.
  { unfold learned. rewrite map_size_insert.
    pose proof (size_filter_le (λ me, duration_since now (last_seen me.2) ≤ MAC_TABLE_MAX_AGE) t).
    unfold prune_mac_table. destruct (_ !! _); simpl; lia. }
  case_bool_decide as Hb; [|left; split; [done|lia]]. right.
  destruct (evict_oldest_spec (learned now m node t)) as (m' & e & H1 & H2 & H3); [lia|].
  exists m', e. split_and!; [done..|lia|done].
Qed.

Lemma mac_calls_size cs t :
  (size t ≤ MAC_TABLE_MAX_ENTRIES)%nat →
  (size (run_mac_calls cs t) ≤ MAC_TABLE_MAX_ENTRIES)%nat.
Proof.
  revert t. induction cs as [|[now c] cs IH]; intros t Ht; [done|]. apply IH.
  destruct c as [m n| |n|]; simpl.
  - destruct (learn_mac_cases now m n t Ht) as [[-> ?]|(m' & e & H1 & -> & H3 & _)]; [done|].
    rewrite map_size_delete_Some by (by eexists). lia.
  - unfold prune_mac_table. etrans; [apply size_filter_le|done].
  - unfold forget_node. etrans; [apply size_filter_le|done].
  - rewrite map_size_empty. lia.
Qed.

(** Whatever is learned and forgotten, the table never has more than 4096 entries.
    After a frame the source address leads to its sender, and every other address to
    what it led to before unless that entry idled for more than 300 seconds or is the
    one evicted; an evicted entry was seen no later than any other, and it can be the
    new one only when every entry was seen at that very time. *)
Theorem mac_table_learns cs now m node :
  let t := run_mac_calls cs ∅ in
  let t' := learn_mac now m node t in
  (size t ≤ MAC_TABLE_MAX_ENTRIES)%nat ∧ (size t' ≤ MAC_TABLE_MAX_ENTRIES)%nat ∧
  ∃ evicted : option mac,
    (∀ m', evicted ≠ Some m' → mac_node <$> t' !! m' =
      if decide (m' = m) then Some node
      else e ← t !! m';
           if bool_decide (duration_since now (last_seen e) ≤ MAC_TABLE_MAX_AGE)
           then Some (mac_node e) else None) ∧
    match evicted with
    | None => True
    | Some m' => ∃ e, learned now m node t !! m' = Some e ∧ t' !! m' = None ∧
        ∀ m'' e'', t' !! m'' = Some e'' → last_seen e ≤ last_seen e''
    end.
Proof.
  intros t t'. assert (size t ≤ MAC_TABLE_MAX_ENTRIES)%nat as Ht
    by (apply mac_calls_size; rewrite map_size_empty; lia).
  assert (∀ m', mac_node <$> learned now m node t !! m' =
    if decide (m' = m) then Some node
    else e ← t !! m';
         if bool_decide (duration_since now (last_seen e) ≤ MAC_TABLE_MAX_AGE)
         then Some (mac_node e) else None) as Hlook.
  { intros m'. unfold learned. rewrite lookup_insert. case_decide as E.
    - subst. by rewrite decide_True.
    - rewrite decide_False by done. unfold prune_mac_table. rewrite map_lookup_filter.
      destruct (t !! m') as [e|]; simpl; [|done]. unfold guard.
      case_decide; case_bool_decide; simpl; done. }
  split; [done|]. split; [apply (mac_calls_size [(now, LearnMac m node)] t Ht)|].
  unfold t'. destruct (learn_mac_cases now m node t Ht) as [[-> ?]|(m' & e & H1 & -> & H3 & Hmin)].
  - exists None. split; [|done]. intros m' _. apply Hlook.
  - exists (Some m'). split.
    + intros m'' Hne. rewrite lookup_delete_ne by congruence. apply Hlook.
    + exists e. split; [done|]. split; [apply lookup_delete_eq|].
      intros m'' e'' [? ?]%lookup_delete_Some. by eapply Hmin.
Qed.
