(* ===== verification/Dataplane.v ===== *)
(** The dataplane: crates/r2n-dataplane/src/lib.rs.

    A handler is one step on the state: the locks a handler takes in turn are not seen
    interleaved with another handler.  Peers are kept by node id; the handle to a peer
    that is removed while a packet of its is under way is not modelled. *)
From Stdlib Require Import ZArith Lia.
From stdpp Require Import base tactics numbers list gmap strings.
From S2P Require Import Prelude Bytes Net Common Proto Slab Etherparse Qos Crypto Defense.
From S2P Require Import Policy Discovery F32 Path Observability Transport Flood MacTable.
Local Open Scope Z_scope.

Definition FLOOD_TTL : Z := 1.
Definition AEAD_TAG_LEN : nat := 16.
Definition MAX_DATAPLANE_PAYLOAD : nat :=
  (DEFAULT_FRAME_CAP - DATA_HEADER_SIZE - AEAD_TAG_LEN)%nat.

Inductive FrameMode := L3 | L2.
Inductive TunDeviceMode := Tun | Tap.
#[export] Instance TunDeviceMode_eq_dec : EqDecision TunDeviceMode.
Proof. solve_decision. Defined.

Inductive DataplaneError :=
| PayloadTooLarge | RoomNotAssigned | SlabExhausted | EncryptFailed | DecryptFailed
| SendFailed | TunFailed.

(** The operating system's answer to a packet written to the device, as a function of
    the number of packets written before. *)
Class TunIo := { tun_accepts : nat → list Z → bool }.

(** The device: its mode and address, the name the system gives when asked, its MTU, and the
    packets written to it. *)
Record TunDevice := mkTun {
  tun_mode : TunDeviceMode;
  tun_ipv4 : option Z;
  tun_if_name : option string;
  tun_effective_mtu : Z;
  tun_written : list (list Z);
}.
Definition set_written (w : list (list Z)) (t : TunDevice) : TunDevice :=
  mkTun (tun_mode t) (tun_ipv4 t) (tun_if_name t) (tun_effective_mtu t) w.

Definition map_class (class : Qos.TrafficClass) : Slab.TrafficClass :=
  match class with
  | Qos.Control => Slab.Control
  | Qos.Realtime => Slab.Realtime
  | Qos.Interactive => Slab.Interactive
  | Qos.Bulk => Slab.Bulk
  end.

Definition header_is_flood (h : DataHeader) : bool :=
  match h_packet_type h with
  | Broadcast | Multicast => true
  | Ethernet => bool_decide (0 < h_ttl h)
  | _ => false
  end.

Section Dataplane.
Context `{Q : ArrayQueue} `{A : AeadLib} `{P : Etherparse} `{N : IpNetLib}
  `{R : RatelimitLib} `{K : Socket} `{T : TunIo}.

Record DataPeer := mkDataPeer {
  info : PeerInfo;
  path_manager : PathManager;
  cipher : option (Cipher A);
  session_id : SessionId;
  next_nonce : Z;
}.

Record DataPlane := mkDataPlane {
  local_node_id : NodeId;
  transport : UdpTransport;
  tun : option TunDevice;
  room_id : option RoomId;
  peers : gmap NodeId DataPeer;
  discovery : DiscoveryManager;
  metrics : MetricsRegistry;
  slab : PacketSlab;
  scheduler : QosScheduler PacketDesc;
  next_packet_id : Z;
  seen_flood : SeenFloodPackets;
  mac_table : MacTable;
  traffic_policy : TrafficPolicy;
  started : bool;
  tun_mtu : Z;
}.

Definition DPM : Type → Type := M DataPlane DataplaneError.

(** [PacketSlab::default_pool(4096)] unwinds when the queue cannot be made. *)
Definition new (local_node_id : NodeId) (transport : UdpTransport) (tun : option TunDevice)
    (discovery : DiscoveryManager) (metrics : MetricsRegistry) (tun_mtu : Z)
    : total DataPlane :=
  slab ← default_pool (Z.to_nat 4096);
  Ok (mkDataPlane local_node_id transport tun None ∅ discovery metrics slab
        (Qos.new (Z.to_nat 2048)) 1 Flood.new ∅ TrafficPolicy_default false tun_mtu).

(** ** Field updates *)
Definition set_transport x d := mkDataPlane (local_node_id d) x (tun d) (room_id d) (peers d)
  (discovery d) (metrics d) (slab d) (scheduler d) (next_packet_id d) (seen_flood d)
  (mac_table d) (traffic_policy d) (started d) (tun_mtu d).
Definition set_tun x d := mkDataPlane (local_node_id d) (transport d) x (room_id d) (peers d)
  (discovery d) (metrics d) (slab d) (scheduler d) (next_packet_id d) (seen_flood d)
  (mac_table d) (traffic_policy d) (started d) (tun_mtu d).
Definition set_room_id x d := mkDataPlane (local_node_id d) (transport d) (tun d) x (peers d)
  (discovery d) (metrics d) (slab d) (scheduler d) (next_packet_id d) (seen_flood d)
  (mac_table d) (traffic_policy d) (started d) (tun_mtu d).
Definition put_peers x d := mkDataPlane (local_node_id d) (transport d) (tun d) (room_id d) x
  (discovery d) (metrics d) (slab d) (scheduler d) (next_packet_id d) (seen_flood d)
  (mac_table d) (traffic_policy d) (started d) (tun_mtu d).
Definition put_discovery x d := mkDataPlane (local_node_id d) (transport d) (tun d) (room_id d)
  (peers d) x (metrics d) (slab d) (scheduler d) (next_packet_id d) (seen_flood d)
  (mac_table d) (traffic_policy d) (started d) (tun_mtu d).
Definition put_metrics x d := mkDataPlane (local_node_id d) (transport d) (tun d) (room_id d)
  (peers d) (discovery d) x (slab d) (scheduler d) (next_packet_id d) (seen_flood d)
  (mac_table d) (traffic_policy d) (started d) (tun_mtu d).
Definition put_slab x d := mkDataPlane (local_node_id d) (transport d) (tun d) (room_id d)
  (peers d) (discovery d) (metrics d) x (scheduler d) (next_packet_id d) (seen_flood d)
  (mac_table d) (traffic_policy d) (started d) (tun_mtu d).
Definition put_scheduler x d := mkDataPlane (local_node_id d) (transport d) (tun d) (room_id d)
  (peers d) (discovery d) (metrics d) (slab d) x (next_packet_id d) (seen_flood d)
  (mac_table d) (traffic_policy d) (started d) (tun_mtu d).
Definition put_next_packet_id x d := mkDataPlane (local_node_id d) (transport d) (tun d)
  (room_id d) (peers d) (discovery d) (metrics d) (slab d) (scheduler d) x (seen_flood d)
  (mac_table d) (traffic_policy d) (started d) (tun_mtu d).
Definition put_seen_flood x d := mkDataPlane (local_node_id d) (transport d) (tun d) (room_id d)
  (peers d) (discovery d) (metrics d) (slab d) (scheduler d) (next_packet_id d) x
  (mac_table d) (traffic_policy d) (started d) (tun_mtu d).
Definition put_mac_table x d := mkDataPlane (local_node_id d) (transport d) (tun d) (room_id d)
  (peers d) (discovery d) (metrics d) (slab d) (scheduler d) (next_packet_id d) (seen_flood d)
  x (traffic_policy d) (started d) (tun_mtu d).
Definition set_traffic_policy x d := mkDataPlane (local_node_id d) (transport d) (tun d)
  (room_id d) (peers d) (discovery d) (metrics d) (slab d) (scheduler d) (next_packet_id d)
  (seen_flood d) (mac_table d) x (started d) (tun_mtu d).
(** The two tasks it starts are steps of their own, [tun_round] and [ping_round]. *)
Definition start d := mkDataPlane (local_node_id d) (transport d) (tun d) (room_id d) (peers d)
  (discovery d) (metrics d) (slab d) (scheduler d) (next_packet_id d) (seen_flood d)
  (mac_table d) (traffic_policy d) true (tun_mtu d).

Definition set_info x p :=
  mkDataPeer x (path_manager p) (cipher p) (session_id p) (next_nonce p).
Definition set_paths x p := mkDataPeer (info p) x (cipher p) (session_id p) (next_nonce p).
Definition set_cipher x p :=
  mkDataPeer (info p) (path_manager p) x (session_id p) (next_nonce p).
Definition set_nonce x p :=
  mkDataPeer (info p) (path_manager p) (cipher p) (session_id p) x.

(** A change to a peer, and to its path manager. *)
Definition with_peer (n : NodeId) (f : DataPeer → DataPeer) (d : DataPlane) : DataPlane :=
  put_peers (alter f n (peers d)) d.
Definition with_paths (n : NodeId) (f : PathManager → PathManager) : DataPlane → DataPlane :=
  with_peer n (λ p, set_paths (f (path_manager p)) p).
Definition count (f : MetricsRegistry → MetricsRegistry) (d : DataPlane) : DataPlane :=
  put_metrics (f (metrics d)) d.

(** ** Peers *)
Definition upsert_peer (peer : DataPeer) (d : DataPlane) : DataPlane :=
  let node_id := peer_node_id (info peer) in
  match peers d !! node_id with
  | Some existing => put_peers (<[node_id := set_info (info peer) existing]> (peers d)) d
  | None => put_peers (<[node_id := peer]> (peers d)) d
  end.

Definition remove_peer (n : NodeId) (d : DataPlane) : DataPlane :=
  put_mac_table (forget_node n (mac_table d)) (put_peers (delete n (peers d)) d).

Definition clear_peers (d : DataPlane) : DataPlane :=
  put_mac_table ∅ (put_peers ∅ d).

(** [10.0] *)
Definition direct_rtt : f32 := f32_lit 10 0.

Definition set_direct_path (now : Z) (n : NodeId) (addr : SocketAddr)
    (c : option (Cipher A)) (d : DataPlane) : DataPlane :=
  with_peer n (λ p,
    let pm := (add_or_update_path now addr false (path_manager p)).2 in
    let p := set_paths (record_success now addr direct_rtt pm) p in
    match c with Some c => set_cipher (Some c) p | None => p end) d.

Definition add_peer_candidate (now : Z) (n : NodeId) (addr : SocketAddr) (d : DataPlane)
    : DataPlane :=
  with_paths n (λ pm, (add_or_update_path now addr false pm).2) d.

Definition l2_table_snapshot (now : Z) (d : DataPlane) : list L2TableEntry * DataPlane :=
  let t := prune_mac_table now (mac_table d) in
  (l2_entries now t, put_mac_table t d).

(** The kind a packet to or from an address counts as. *)
Definition path_kind (addr : SocketAddr) (pm : PathManager) : PathKind :=
  match List.find (λ p, bool_decide (pi_addr p = addr)) (paths pm) with
  | Some p => if pi_is_relay p then Relay else Direct
  | None => Direct
  end.

(** ** Sending *)

(** What the closure of [with_slot_mut] does to the slot; the length of the payload as
    it is in the frame. *)
Definition build_frame (room : RoomId) (local : NodeId) (peer : DataPeer) (nonce : Z)
    (packet_id : PacketId) (ttl : Z) (packet_type : DataPacketType) (payload : list Z)
    : M (list Z) DataplaneError nat :=
  let dst_node := peer_node_id (info peer) in
  let header len := mkDataHeader PROTOCOL_VERSION 0 packet_type 0 ttl room local dst_node
    local (session_id peer) nonce packet_id (wrap 16 (Z.of_nat len)) in
  let* slot := mget in
  let* slot := mlift (lift (copy_from_slice slot DATA_HEADER_SIZE
                              (DATA_HEADER_SIZE + length payload) payload)) in
  do* mmodify (λ _, slot) in
  let* payload_len :=
    match cipher peer with
    | Some c =>
        (* [expect] unwinds *)
        let* header_buf := mlift (match encode_into (header (length payload + 16)%nat)
                                          (replicate DATA_HEADER_SIZE 0) with
                                  | Ok b => Ok b | _ => Panic end) in
        let* '(n, sealed) := mlift (map_err (λ _, EncryptFailed)
            (encrypt_in_place c nonce header_buf (drop DATA_HEADER_SIZE slot)
               (length payload))) in
        do* mmodify (λ _, take DATA_HEADER_SIZE slot ++ sealed) in
        mreturn n
    | None => mreturn (length payload)
    end in
  let* slot := mget in
  let* head := mlift (match encode_into (header payload_len) (take DATA_HEADER_SIZE slot) with
                      | Ok b => Ok b | _ => Panic end) in
  do* mmodify (λ _, head ++ drop DATA_HEADER_SIZE slot) in
  mreturn payload_len.

Definition fetch_nonce (n : NodeId) : DPM Z :=
  let* d := mget in
  let nonce := match peers d !! n with Some p => next_nonce p | None => 0 end in
  do* mmodify (with_peer n (λ p, set_nonce (wrap 64 (next_nonce p + 1)) p)) in
  mreturn nonce.

Definition fetch_packet_id : DPM PacketId :=
  let* d := mget in
  do* mmodify (put_next_packet_id (wrap 64 (next_packet_id d + 1))) in
  mreturn (mkPacketId (next_packet_id d)).

Definition send_to_peer (n : NodeId) (packet_type : DataPacketType) (payload : list Z)
    (target_override : option SocketAddr) (flood : bool) : DPM unit :=
  if bool_decide (MAX_DATAPLANE_PAYLOAD < length payload)%nat then mthrow PayloadTooLarge else
  let* d := mget in
  match room_id d, peers d !! n with
  | None, _ => mthrow RoomNotAssigned
  | _, None => mreturn tt
  | Some room, Some _ =>
    match acquire (slab d) with
    | (None, s) => do* mmodify (put_slab s) in mthrow SlabExhausted
    | (Some desc, s) =>
      do* mmodify (put_slab s) in
      let cls := Qos.classify_packet packet_type payload in
      let desc := mkPacketDesc (slot desc) 0 DATA_HEADER_SIZE (len desc) (map_class cls) in
      let* nonce := fetch_nonce n in
      let* packet_id := (if flood then fetch_packet_id else mreturn (mkPacketId 0)) in
      let ttl := if flood then FLOOD_TTL else 0 in
      let* d := mget in
      let* peer := mlift (match peers d !! n with Some p => Ok p | None => Panic end) in
      let* payload_len := mzoom slab put_slab id
        (with_slot_mut desc (build_frame room (local_node_id d) peer nonce packet_id ttl
           packet_type payload)) in
      let desc := mkPacketDesc (slot desc) 0 DATA_HEADER_SIZE
        (DATA_HEADER_SIZE + payload_len)%nat (class desc) in
      do* mmodify (λ d, put_scheduler (Qos.push cls desc (scheduler d)) d) in
      let* target := mlift (match target_override with
                            | Some a => Ok a
                            | None => lift (active_addr (path_manager peer))
                            end) in
      do* mmodify (count (mark_path_hit (peer_node_id (info peer))
                            (path_kind target (path_manager peer)))) in
      let* d := mget in
      let* frame_bytes := mlift (lift (get_slot_slice desc (slab d))) in
      let* frame := mlift (lift (slice frame_bytes 0 (len desc))) in
      let* _ := mzoom transport set_transport (λ _, SendFailed) (send_raw frame target) in
      do* mmodify (λ d, put_scheduler (Qos.pop (scheduler d)).2 d) in
      mmodify (λ d, put_slab (release desc (slab d)) d)
    end
  end.

(** ** Receiving *)
Definition policy_allows (mode : FrameMode) (direction : TrafficDirection)
    (packet : list Z) (d : DataPlane) : total bool :=
  match mode with
  | L3 => Ok (allows (traffic_policy d) direction packet)
  | L2 => ip ← ethernet_ip_payload packet;
      Ok (match ip with
          | Some ip => allows (traffic_policy d) direction ip
          | None => true
          end)
  end.

Definition policy_allows_packet_type (packet_type : DataPacketType)
    (direction : TrafficDirection) (packet : list Z) (d : DataPlane) : total bool :=
  match packet_type with
  | IPv4 | IPv6 | Broadcast | Multicast | Discovery =>
      Ok (allows (traffic_policy d) direction packet)
  | Ethernet => policy_allows L2 direction packet d
  | _ => Ok true
  end.

Definition validate_incoming_header (now : Z) (h : DataHeader) : DPM bool :=
  let drop := do* mmodify (count (mark_packet_drop (Some (h_src_node h)))) in mreturn false in
  let* d := mget in
  match room_id d with
  | None => mreturn false
  | Some room =>
      if bool_decide (h_version h ≠ PROTOCOL_VERSION) || bool_decide (h_room_id h ≠ room)
      then drop
      else if bool_decide (h_src_node h = local_node_id d)
              || bool_decide (h_origin_node h = local_node_id d) then drop
      else
        let flood := header_is_flood h in
        if negb flood && bool_decide (h_dst_node h ≠ local_node_id d) then drop
        else if flood then
          if bool_decide (h_ttl h = 0) || bool_decide (packet_u64 (h_packet_id h) = 0) then drop
          else
            let '(fresh, seen) := insert_if_new now (h_origin_node h) (h_packet_id h)
                                    (seen_flood d) in
            do* mmodify (put_seen_flood seen) in
            if fresh : bool then mreturn true else drop
        else mreturn true
  end.

(** The decryption of a frame; the packet it carries. *)
Definition open_frame (pr : profile) (h : DataHeader) (payload : list Z) (peer : DataPeer)
    : outcome DataplaneError (list Z) * DataPeer :=
  match cipher peer with
  | None => (Ok payload, peer)
  | Some c =>
      match encode_into h (replicate DATA_HEADER_SIZE 0) with
      | Ok header_buf =>
          match decrypt_in_place pr (h_nonce h) header_buf payload c with
          | (Ok (n, out), c) => (Ok (take n out), set_cipher (Some c) peer)
          | (Err _, c) => (Err DecryptFailed, set_cipher (Some c) peer)
          | (Panic, c) => (Panic, set_cipher (Some c) peer)
          end
      | _ => (Panic, peer)
      end
  end.

(** Off macOS the packet is written as it is. *)
Definition prepare_packet_for_local_tun (packet : list Z) : list Z := packet.

Definition write_tun (packet : list Z) : DPM unit :=
  let* d := mget in
  match tun d with
  | None => mreturn tt
  | Some t =>
      if tun_accepts (length (tun_written t)) packet
      then mmodify (set_tun (Some (set_written (tun_written t ++ [packet]) t)))
      else mthrow TunFailed
  end.

Definition handle_pong (now : Z) (h : DataHeader) (packet : list Z) : DPM unit :=
  if bool_decide (4 ≤ length packet)%nat then
    let* d := mget in
    let '(r, m) := record_pong_received now (h_src_node h) (from_be_bytes (take 4 packet))
                     (metrics d) in
    do* mmodify (put_metrics m) in
    match r with
    | Some (ping_addr, rtt) =>
        mmodify (with_paths (h_src_node h) (record_success now ping_addr (f32_of rtt)))
    | None => mreturn tt
    end
  else mreturn tt.

Definition deliver_packet (now : Z) (h : DataHeader) (packet : list Z) (addr : SocketAddr)
    : DPM unit :=
  let* d := mget in
  let relay := match peers d !! h_src_node h with
               | Some p => bool_decide (path_kind addr (path_manager p) = Relay)
               | None => false
               end in
  do* mwhen (negb relay) (mmodify (set_direct_path now (h_src_node h) addr None)) in
  do* (if bool_decide (h_packet_type h = Ethernet) then
         let* macs := mlift (lift (ethernet_macs packet)) in
         match macs with
         | Some (_, src_mac) =>
             mmodify (λ d, put_mac_table (learn_mac now src_mac (h_src_node h) (mac_table d)) d)
         | None => mreturn tt
         end
       else mreturn tt) in
  let* d := mget in
  let* allowed := mlift (lift (policy_allows_packet_type (h_packet_type h) Inbound packet d)) in
  if negb allowed then mmodify (count (mark_packet_drop (Some (h_src_node h))))
  else write_tun (prepare_packet_for_local_tun packet).

Definition handle_incoming_frame (pr : profile) (now : Z) (h : DataHeader)
    (payload : list Z) (addr : SocketAddr) : DPM unit :=
  let* valid := validate_incoming_header now h in
  if negb valid then mreturn tt else
  let* d := mget in
  match peers d !! h_src_node h with
  | None => mreturn tt
  | Some peer =>
      let '(r, peer) := open_frame pr h payload peer in
      do* mmodify (put_peers (<[h_src_node h := peer]> (peers d))) in
      let* packet := mlift r in
      do* mmodify (count (mark_path_hit (h_src_node h)
                            (path_kind addr (path_manager peer)))) in
      do* mwhen (negb (existsb (λ p, bool_decide (pi_addr p = addr)) (paths (path_manager peer))))
            (mmodify (add_peer_candidate now (h_src_node h) addr)) in
      if bool_decide (h_packet_type h = Ping) then
        mignore (send_to_peer (h_src_node h) Pong packet (Some addr) false)
      else if bool_decide (h_packet_type h = Pong) then handle_pong now h packet
      else deliver_packet now h packet addr
  end.

(** ** Targets of a packet from the device *)
Definition all_peers (d : DataPlane) : list (NodeId * bool) :=
  (λ np : NodeId * DataPeer, (np.1, true)) <$> map_to_list (peers d).

Definition select_l3_targets (packet_type : DataPacketType) (payload : list Z)
    (d : DataPlane) : list (NodeId * bool) :=
  match packet_type with
  | Broadcast | Multicast => all_peers d
  | _ =>
      match ip_from_slice payload with
      | Some (Version4 _ dest _, _) =>
          match List.find (λ np : NodeId * DataPeer,
                   bool_decide (vip_octets (peer_virtual_ip (info np.2)) = dest))
                  (map_to_list (peers d)) with
          | Some np => [(np.1, false)]
          | None => []
          end
      | _ => []
      end
  end.

Definition select_l2_targets (now : Z) (frame : list Z) (d : DataPlane)
    : total (list (NodeId * bool)) * DataPlane :=
  let d := put_mac_table (prune_mac_table now (mac_table d)) d in
  (macs ← ethernet_macs frame;
   match macs with
   | None => Ok []
   | Some (dst_mac, _) =>
       let flood := is_broadcast_mac dst_mac || is_multicast_mac dst_mac in
       let known := e ← mac_table d !! dst_mac; peers d !! mac_node e ≫= λ _, Some (mac_node e) in
       match flood, known with
       | false, Some n => Ok [(n, false)]
       | _, _ => Ok (all_peers d)
       end
   end, d).

Definition select_targets (now : Z) (mode : FrameMode) (packet_type : DataPacketType)
    (payload : list Z) (d : DataPlane) : total (list (NodeId * bool)) * DataPlane :=
  match mode with
  | L3 => (Ok (select_l3_targets packet_type payload d), d)
  | L2 => select_l2_targets now payload d
  end.

(** ** The loops, one round each *)
Inductive round := Continue | Proceed (mode : FrameMode) (t : DataPacketType) (payload : list Z).

(** A packet too large for the overlay that must not be fragmented. *)
Definition oversized (payload : list Z) (mtu : Z) : total bool :=
  if bool_decide (mtu < Z.of_nat (length payload)) && bool_decide (20 ≤ length payload)%nat then
    b0 ← index payload 0;
    if bool_decide (Z.shiftr b0 4 = 4) then
      hi ← index payload 6;
      lo ← index payload 7;
      Ok (negb (bool_decide (Z.land (from_be_bytes [hi; lo]) 16384 = 0)))
    else Ok false
  else Ok false.

Definition prepare_outgoing (pr : profile) (payload : list Z) : DPM round :=
  let* d := mget in
  match tun d with
  | Some t =>
      match tun_mode t with
      | Tap => mreturn (Proceed L2 Ethernet payload)
      | Tun =>
          let* big := mlift (lift (oversized payload (tun_mtu d))) in
          if big : bool then
            let* icmp := mlift (lift (build_icmp_frag_needed pr payload (wrap 16 (tun_mtu d)))) in
            do* match icmp with
                | Some pkt => mignore (write_tun pkt)
                | None => mreturn tt
                end in
            mreturn Continue
          else
            let* '(_, payload) := mlift (lift (clamp_mss pr payload (tun_mtu d))) in
            let* cls := mlift (lift (classify_managed_packet (discovery d) payload)) in
            mreturn (Proceed L3 (default IPv4 cls) payload)
      end
  | None => mreturn Continue
  end.

(** [if let Err(err) = send { log; mark_packet_drop(None) }] *)
Definition send_target (packet_type : DataPacketType) (payload : list Z)
    (target : NodeId * bool) : DPM unit :=
  λ d, match send_to_peer target.1 packet_type payload None target.2 d with
       | (Err _, d) => (Ok tt, count (mark_packet_drop None) d)
       | r => r
       end.

(** The round of [run_tun_loop] for a packet read from the device. *)
Definition tun_round (pr : profile) (now : Z) (payload : list Z) : DPM unit :=
  let* r := prepare_outgoing pr payload in
  match r with
  | Continue => mreturn tt
  | Proceed mode packet_type payload =>
      let* d := mget in
      let* allowed := mlift (lift (policy_allows mode Outbound payload d)) in
      if negb allowed then mmodify (count (mark_packet_drop None)) else
      let '(targets, d') := select_targets now mode packet_type payload d in
      do* mmodify (λ _, d') in
      let* targets := mlift (lift targets) in
      let has_flood_target := existsb snd targets in
      let* proceed := (if has_flood_target then
          let* d := mget in
          let '(ok, dm) := allow_broadcast now (discovery d) in
          do* mmodify (put_discovery dm) in mreturn ok
        else mreturn true) in
      if negb proceed then mreturn tt else
      do* mwhen has_flood_target (mmodify (count (mark_discovery_packet packet_type))) in
      mforeach (send_target packet_type payload) targets
  end.

(** One ping per path of a peer, kept at [n], with the id of its info; the sequence number
    is a [u32]. *)
Definition ping_path (now : Z) (n id : NodeId) (active : SocketAddr) (seq : Z) (path : PathInfo)
    : DPM unit :=
  do* mmodify (count (record_ping_sent now id seq (pi_addr path)
                        (bool_decide (pi_addr path = active)))) in
  mignore (send_to_peer n Ping (to_be_bytes 4 seq) (Some (pi_addr path)) false).

Fixpoint ping_paths (now : Z) (n id : NodeId) (active : SocketAddr) (ps : list PathInfo)
    (seq : Z) : DPM Z :=
  match ps with
  | [] => mreturn seq
  | p :: ps =>
      do* ping_path now n id active seq p in
      ping_paths now n id active ps (wrap 32 (seq + 1))
  end.

Fixpoint ping_peers (now : Z) (ns : list NodeId) (seq : Z) : DPM Z :=
  match ns with
  | [] => mreturn seq
  | n :: ns =>
      let* d := mget in
      match peers d !! n with
      | None => ping_peers now ns seq
      | Some p =>
          let* active := mlift (lift (active_addr (path_manager p))) in
          let* seq := ping_paths now n (peer_node_id (info p)) active
                       (paths (path_manager p)) seq in
          ping_peers now ns seq
      end
  end.

(** The round of [run_ping_loop]: the next sequence number. *)
Definition ping_round (now : Z) (seq : Z) : DPM Z :=
  let* d := mget in
  match room_id d with
  | None => mreturn seq
  | Some _ =>
      let '(late, m) := check_ping_timeouts now (secs 2) (metrics d) in
      do* mmodify (put_metrics m) in
      do* mmodify (fold_left (λ d na, with_paths na.1 (record_failure now na.2) d) late) in
      let* d := mget in
      ping_peers now (map_to_list (peers d)).*1 seq
  end.

End Dataplane.
