(* ===== verification/Overlay.v ===== *)
(** What the dataplane promises: the frames it builds, the slots it uses, and what it
    writes to the device. *)
From Stdlib Require Import ZArith Lia.
From stdpp Require Import base tactics numbers list gmap strings.
From S2P Require Import Prelude Bytes Net Common Proto Slab Etherparse Qos Crypto Defense.
From S2P Require Import Policy Discovery F32 Path Observability Transport Flood MacTable.
From S2P Require Import Dataplane.
Local Open Scope Z_scope.

(** ** The frame on the wire *)
Section Frame.
Context `{A : AeadLib} `{HA : !AeadLaws A}.

Definition wire_header (room : RoomId) (local : NodeId) (peer : DataPeer) (nonce : Z)
    (packet_id : PacketId) (ttl : Z) (packet_type : DataPacketType) (len : nat) : DataHeader :=
  mkDataHeader PROTOCOL_VERSION 0 packet_type 0 ttl room local (peer_node_id (info peer))
    local (session_id peer) nonce packet_id (Z.of_nat len).

(** The header, and the payload sealed under it when the peer has a cipher. *)
Definition wire_frame (room : RoomId) (local : NodeId) (peer : DataPeer) (nonce : Z)
    (packet_id : PacketId) (ttl : Z) (packet_type : DataPacketType) (payload : list Z)
    : option (DataHeader * list Z) :=
  match cipher peer with
  | None => Some (wire_header room local peer nonce packet_id ttl packet_type (length payload),
                  payload)
  | Some c =>
      let h := wire_header room local peer nonce packet_id ttl packet_type
                 (length payload + 16) in
      '(ct, tag) ← aead_seal (inner c) (nonce_bytes nonce) (header_bytes h) payload;
      Some (h, ct ++ tag)
  end.

(** What the types of the program guarantee of the identifiers. *)
Record ids_ok (room : RoomId) (local : NodeId) (peer : DataPeer) : Prop := {
  ids_room : room_ok room;
  ids_local : node_ok local;
  ids_peer : node_ok (peer_node_id (info peer));
  ids_session : u_ok 64 (session_u64 (session_id peer));
}.

Lemma wire_header_ok room local peer nonce packet_id ttl packet_type len :
  ids_ok room local peer → u_ok 64 nonce → u_ok 64 (packet_u64 packet_id) → byte_ok ttl →
  (len ≤ 2000)%nat →
  header_ok (wire_header room local peer nonce packet_id ttl packet_type len).
Proof.
  intros [] Hn Hp Ht Hl. split; simpl; try done; unfold byte_ok, u_ok, PROTOCOL_VERSION; lia.
Qed.

Lemma max_payload : MAX_DATAPLANE_PAYLOAD = 1436%nat.
Proof. reflexivity. Qed.

(** Sealing in place in front of a buffer with room for the tag. *)
Lemma encrypt_in_place_run c nonce aad payload rest :
  (16 ≤ length rest)%nat →
  encrypt_in_place c nonce aad (payload ++ rest) (length payload) =
  match aead_seal (inner c) (nonce_bytes nonce) aad payload with
  | Some (ct, tag) => Ok ((length payload + 16)%nat, (ct ++ tag) ++ drop 16 rest)
  | None => Err Aead
  end.
Proof.
  intros Hr. unfold encrypt_in_place. rewrite slice_here by done.
  cbn [lift mbind outcome_bind].
  destruct (aead_seal _ _ _ _) as [[ct tag]|] eqn:E; cbn [ok_or mbind outcome_bind]; [|done].
  destruct (aead_seal_lengths _ _ _ _ _ _ E) as [Hc Ht].
  rewrite copy_from_slice_Ok by lens. cbn [lift mbind outcome_bind].
  rewrite take_0, drop_app_length, app_nil_l.
  rewrite copy_append by lia. cbn [lift mbind outcome_bind].
  replace (length payload + 16 - length payload)%nat with 16%nat by lia. done.
Qed.

(** [encode_into(..).expect(..)] over the first bytes of a slot. *)
Lemma encode_head h slot :
  header_ok h → (DATA_HEADER_SIZE ≤ length slot)%nat →
  match encode_into h (take DATA_HEADER_SIZE slot) with
  | Ok b => Ok b | _ => Panic
  end = (Ok (header_bytes h) : outcome DataplaneError (list Z)).
Proof.
  intros Hh Hl. rewrite encode_into_bytes by (done || (rewrite length_take; lia)).
  rewrite drop_ge, app_nil_r by (rewrite length_take; lia). done.
Qed.

Lemma encode_zero h :
  header_ok h →
  match encode_into h (replicate DATA_HEADER_SIZE 0) with
  | Ok b => Ok b | _ => Panic
  end = (Ok (header_bytes h) : outcome DataplaneError (list Z)).
Proof.
  intros Hh. rewrite <- (encode_head h (replicate DATA_HEADER_SIZE 0));
    rewrite ?length_replicate; [|done..].
  rewrite take_ge; [done|]. by rewrite length_replicate.
Qed.

(** Building a frame in a slot: the frame and the unused rest, or a failed encryption. *)
Lemma build_frame_spec room local peer nonce packet_id ttl packet_type payload slot :
  ids_ok room local peer → u_ok 64 nonce → u_ok 64 (packet_u64 packet_id) → byte_ok ttl →
  (length payload ≤ MAX_DATAPLANE_PAYLOAD)%nat → length slot = DEFAULT_FRAME_CAP →
  ∃ r slot', build_frame room local peer nonce packet_id ttl packet_type payload slot
             = (r, slot') ∧ length slot' = DEFAULT_FRAME_CAP ∧
    match wire_frame room local peer nonce packet_id ttl packet_type payload with
    | Some (h, body) =>
        r = Ok (length body) ∧ header_ok h ∧ h_version h = PROTOCOL_VERSION ∧
        h_payload_len h = Z.of_nat (length body) ∧
        (length body ≤ MAX_DATAPLANE_PAYLOAD + 16)%nat ∧
        take (DATA_HEADER_SIZE + length body) slot' = header_bytes h ++ body
    | None => r = Err EncryptFailed
    end.
Proof.
  intros Hids Hn Hp Ht Hl Hslot. rewrite max_payload in *.
  assert (DEFAULT_FRAME_CAP = 1600%nat) as Hcap by done.
  assert (DATA_HEADER_SIZE = 148%nat) as Hhs by done.
  unfold build_frame, mseq, mget, mlift, mmodify, mreturn.
  rewrite (copy_from_slice_Ok slot) by lia. cbn [lift].
  set (rest := drop (DATA_HEADER_SIZE + length payload) slot).
  assert (length rest = 1452 - length payload)%nat as Hrl by (unfold rest; rewrite length_drop; lia).
  set (pre := take DATA_HEADER_SIZE slot).
  assert (length pre = DATA_HEADER_SIZE) as Hpl by (unfold pre; rewrite length_take; lia).
  rewrite (drop_app_length' pre), (take_app_length' pre) by done.
  unfold wire_frame. destruct (cipher peer) as [c|].
  - pose proof (wire_header_ok room local peer nonce packet_id ttl packet_type
      (length payload + 16) Hids Hn Hp Ht ltac:(lia)) as Hh.
    rewrite (wrap_small 16) by (unfold u_ok; lia).
    fold (wire_header room local peer nonce packet_id ttl packet_type (length payload + 16)).
    set (h := wire_header _ _ _ _ _ _ _ (length payload + 16)) in *.
    rewrite encode_zero by done. rewrite encrypt_in_place_run by lia.
    destruct (aead_seal _ _ _ _) as [[ct tag]|] eqn:E; cbn [map_err mbind option_bind]; cycle 1.
    { eexists _, _. split; [done|]. split; [|done]. rewrite !length_app. lia. }
    destruct (aead_seal_lengths _ _ _ _ _ _ E) as [Hct Htag].
    rewrite (wrap_small 16) by (unfold u_ok; lia).
    fold (wire_header room local peer nonce packet_id ttl packet_type (length payload + 16)).
    fold h. rewrite encode_head by (done || (rewrite length_app; lia)).
    rewrite (drop_app_length' pre) by done. pose proof (length_header_bytes h Hh) as Hhl.
    eexists _, _. split; [done|].
    split; [rewrite !length_app, length_drop; lia|].
    rewrite length_app, Hct, Htag. split_and!; try done; [lia|].
    rewrite (app_assoc (header_bytes h)). apply take_app_length'.
    rewrite !length_app. lia.
  - pose proof (wire_header_ok room local peer nonce packet_id ttl packet_type
      (length payload) Hids Hn Hp Ht ltac:(lia)) as Hh.
    rewrite (wrap_small 16) by (unfold u_ok; lia).
    fold (wire_header room local peer nonce packet_id ttl packet_type (length payload)).
    set (h := wire_header _ _ _ _ _ _ _ (length payload)) in *.
    rewrite encode_head by (done || (rewrite !length_app; lia)).
    rewrite (drop_app_length' pre) by done. pose proof (length_header_bytes h Hh) as Hhl.
    eexists _, _. split; [done|].
    split; [rewrite !length_app; lia|]. split_and!; try done; [lia|].
    rewrite (app_assoc (header_bytes h)). apply take_app_length'. rewrite !length_app. lia.
Qed.
End Frame.

(** ** Sending to a peer *)
Section Send.
Context `{Q : ArrayQueue} `{HQ : !ArrayQueueLaws Q} `{A : AeadLib} `{HA : !AeadLaws A}
  `{P : Etherparse} `{N : IpNetLib} `{R : RatelimitLib} `{K : Socket} `{T : TunIo}.
Implicit Types (d : DataPlane) (p : DataPeer).

(** What the constructors of the parts establish: frames of full size in the slab, free
    slots that exist, identifiers of their size, an active path for every peer. *)
Record dp_ok d : Prop := {
  dpo_slots : Forall (λ s, length s = DEFAULT_FRAME_CAP) (slots (slab d));
  dpo_free : Forall (λ z, 0 ≤ z < Z.of_nat (length (slots (slab d)))) (q_contents (free (slab d)));
  dpo_cap : (length (q_contents (free (slab d))) ≤ q_cap (free (slab d)))%nat;
  dpo_packet_id : u_ok 64 (next_packet_id d);
  dpo_peer : ∀ n p, peers d !! n = Some p →
    u_ok 64 (next_nonce p) ∧ (active_index (path_manager p) < length (paths (path_manager p)))%nat;
  dpo_ids : ∀ room n p, room_id d = Some room → peers d !! n = Some p →
    ids_ok room (local_node_id d) p;
}.

(** The packet id and hop limit a frame gets. *)
Definition frame_id (flood : bool) d : PacketId :=
  mkPacketId (if flood then next_packet_id d else 0).
Definition frame_ttl (flood : bool) : Z := if flood then FLOOD_TTL else 0.

Definition frame_for d p room packet_type payload flood : option (DataHeader * list Z) :=
  wire_frame room (local_node_id d) p (next_nonce p) (frame_id flood d) (frame_ttl flood)
    packet_type payload.

Definition target_of p (override : option SocketAddr) : SocketAddr :=
  match override, active_addr (path_manager p) with
  | Some a, _ => a
  | None, Ok a => a
  | None, _ => mkSocketAddr (V4 0) 0
  end.

Definition idle (s : QosScheduler PacketDesc) : Prop :=
  control s = [] ∧ realtime s = [] ∧ interactive s = [] ∧ bulk s = [].

(** What every outcome of a send that got a slot has in common. *)
Record sent_common d d' n p (flood : bool) : Prop := {
  sc_tun : tun d' = tun d;
  sc_nonce : peers d' = <[n := set_nonce (wrap 64 (next_nonce p + 1)) p]> (peers d);
  sc_id : next_packet_id d'
    = if flood then wrap 64 (next_packet_id d + 1) else next_packet_id d;
  sc_policy : traffic_policy d' = traffic_policy d;
  sc_room : room_id d' = room_id d;
  sc_local : local_node_id d' = local_node_id d;
  sc_slots : Forall (λ s, length s = DEFAULT_FRAME_CAP) (slots (slab d'));
  sc_count : length (slots (slab d')) = length (slots (slab d));
  sc_cap : q_cap (free (slab d')) = q_cap (free (slab d));
}.

Lemma acquire_pop (s : PacketSlab) x l :
  q_contents (free s) = x :: l →
  ∃ q, acquire s = (Some (mkPacketDesc x 0 (headroom s) 0 Slab.Bulk),
                    mkPacketSlab (slots s) q (headroom s)) ∧
    q_contents q = l ∧ q_cap q = q_cap (free s).
Proof.
  intros Hc. destruct (q_pop_cons _ _ _ Hc) as (q & Hq & Hl & Hcap).
  exists q. unfold acquire. by rewrite Hq.
Qed.

(** The slot of a descriptor, once its frame is built. *)
Lemma with_slot_run {E B} (desc : PacketDesc) (f : M (list Z) E B) (s : PacketSlab) buf r buf' :
  slots s !! Z.to_nat (slot desc) = Some buf → f buf = (r, buf') →
  with_slot_mut desc f s
  = (r, mkPacketSlab (<[Z.to_nat (slot desc) := buf']> (slots s)) (free s) (headroom s)).
Proof. intros Hs Hf. unfold with_slot_mut. by rewrite Hs, Hf. Qed.

Lemma alter_known {V} (f : V → V) (m : gmap NodeId V) n v :
  m !! n = Some v → alter f n m = <[n := f v]> m.
Proof.
  intros Hn. apply map_eq. intros k. rewrite lookup_alter, lookup_insert.
  case_decide; [by subst; rewrite Hn|done].
Qed.

Lemma fetch_nonce_run n p d :
  peers d !! n = Some p →
  fetch_nonce n d = (Ok (next_nonce p),
    put_peers (<[n := set_nonce (wrap 64 (next_nonce p + 1)) p]> (peers d)) d).
Proof.
  intros Hp. unfold fetch_nonce, mseq, mget, mmodify, mreturn, with_peer. rewrite Hp.
  by rewrite (alter_known _ _ n p Hp).
Qed.

(** The state once the nonce and the packet id are taken. *)
Definition numbered (s : PacketSlab) (flood : bool) n p d : DataPlane :=
  let d := put_peers (<[n := set_nonce (wrap 64 (next_nonce p + 1)) p]> (peers d)) (put_slab s d) in
  if flood then put_next_packet_id (wrap 64 (next_packet_id d + 1)) d else d.

Lemma fetch_id_run (flood : bool) s n p d :
  (if flood then fetch_packet_id else mreturn (mkPacketId 0))
    (put_peers (<[n := set_nonce (wrap 64 (next_nonce p + 1)) p]> (peers d)) (put_slab s d))
  = (Ok (frame_id flood d), numbered s flood n p d).
Proof. by destruct flood. Qed.

Lemma numbered_common s flood n p d :
  dp_ok d → slots s = slots (slab d) → q_cap (free s) = q_cap (free (slab d)) →
  sent_common d (numbered s flood n p d) n p flood.
Proof.
  intros Hok Hs Hq. pose proof (dpo_slots d Hok).
  destruct flood; split; cbn; rewrite ?Hs; done.
Qed.

Lemma numbered_rest s flood n p d :
  slab (numbered s flood n p d) = s ∧ scheduler (numbered s flood n p d) = scheduler d ∧
  transport (numbered s flood n p d) = transport d ∧
  peers (numbered s flood n p d) !! n = Some (set_nonce (wrap 64 (next_nonce p + 1)) p).
Proof. destruct flood; cbn; (split_and!; [done..|]); by rewrite lookup_insert_eq. Qed.

Lemma idle_push_pop class (desc : PacketDesc) s :
  idle s → ¬ idle (Qos.push class desc s) ∧ idle (Qos.pop (Qos.push class desc s)).2.
Proof.
  destruct s as [c r i b cap]. unfold idle. simpl. intros (? & ? & ? & ?). subst.
  destruct class; simpl; try (split; [by intros (? & ? & ? & ?)|done]).
  case_bool_decide; simpl; (split; [by intros (? & ? & ? & ?)|done]).
Qed.

(** The last part of a send, once the frame is in its slot. *)
Definition transmit (cls : Qos.TrafficClass) (desc : PacketDesc) p (override : option SocketAddr)
    : DPM unit :=
  do* mmodify (λ d, put_scheduler (Qos.push cls desc (scheduler d)) d) in
  let* target := mlift (match override with
                        | Some a => Ok a
                        | None => lift (active_addr (path_manager p))
                        end) in
  do* mmodify (count (mark_path_hit (peer_node_id (info p)) (path_kind target (path_manager p)))) in
  let* d := mget in
  let* frame_bytes := mlift (lift (get_slot_slice desc (slab d))) in
  let* frame := mlift (lift (slice frame_bytes 0 (len desc))) in
  let* _ := mzoom transport set_transport (λ _, SendFailed) (send_raw frame target) in
  do* mmodify (λ d, put_scheduler (Qos.pop (scheduler d)).2 d) in
  mmodify (λ d, put_slab (release desc (slab d)) d).

Lemma send_raw_not_panic frame target t t' : send_raw frame target t ≠ (Panic, t').
Proof.
  unfold send_raw, send_to, mseq, mget, mreturn.
  destruct (check_family t target); [|done]. by destruct (socket_send _ _ _).
Qed.

Lemma target_run p override d :
  (active_index (path_manager p) < length (paths (path_manager p)))%nat →
  mlift (match override with
         | Some a => Ok a
         | None => lift (active_addr (path_manager p))
         end : outcome DataplaneError SocketAddr) d
  = (Ok (target_of p override), d).
Proof.
  intros Hact. unfold mlift, target_of. destruct override; [done|].
  unfold active_addr, active_path.
  by destruct (lookup_lt_is_Some_2 _ _ Hact) as [pi ->].
Qed.

(** A transmission that succeeds gives the slot back; one that fails does not. *)
Lemma transmit_spec cls desc p override d d0 n p0 flood buf frame :
  (active_index (path_manager p) < length (paths (path_manager p)))%nat →
  slots (slab d) !! Z.to_nat (slot desc) = Some buf → slice buf 0 (len desc) = Ok frame →
  (length (q_contents (free (slab d))) < q_cap (free (slab d)))%nat →
  sent_common d0 d n p0 flood →
  ∃ r d', transmit cls desc p override d = (r, d') ∧ sent_common d0 d' n p0 flood ∧
    match send_raw frame (target_of p override) (transport d) with
    | (Ok _, t) => r = Ok tt ∧ transport d' = t ∧
        q_contents (free (slab d')) = q_contents (free (slab d)) ++ [slot desc] ∧
        (idle (scheduler d) → idle (scheduler d'))
    | (_, t) => r = Err SendFailed ∧ transport d' = t ∧
        q_contents (free (slab d')) = q_contents (free (slab d)) ∧
        (idle (scheduler d) → ¬ idle (scheduler d'))
    end.
Proof.
  intros Hact Hbuf Hslice Hroom Hcom. unfold transmit.
  match goal with |- context [mmodify ?f] => set (d1 := f d);
    rewrite (mseq_Ok (mmodify f) _ d tt d1 eq_refl) end.
  rewrite (mseq_Ok _ _ _ _ _ (target_run p override d1 Hact)).
  match goal with |- context [mmodify ?f] => set (d2 := f d1);
    rewrite (mseq_Ok (mmodify f) _ d1 tt d2 eq_refl) end.
  rewrite (mseq_Ok mget _ d2 d2 d2 eq_refl).
  assert (get_slot_slice desc (slab d2) = Ok buf) as ->.
  { unfold get_slot_slice, slot_frame. change (slab d2) with (slab d). by rewrite Hbuf. }
  cbn [lift]. rewrite (mseq_Ok (mlift _) _ d2 buf d2 eq_refl), Hslice. cbn [lift].
  rewrite (mseq_Ok (mlift _) _ d2 frame d2 eq_refl).
  change (transport d) with (transport d2).
  pose proof (idle_push_pop cls desc (scheduler d)) as Hidle.
  destruct (send_raw frame (target_of p override) (transport d2)) as [res t] eqn:Esend.
  pose proof (mzoom_run transport set_transport (λ _, SendFailed) _ d2 res t Esend) as Hzs.
  unfold mseq at 1. rewrite Hzs.
  destruct res as [k|e|]; cbn [map_err]; [..|by apply send_raw_not_panic in Esend].
  - match goal with |- context [mseq (mmodify ?f) _ ?d] => set (d3 := f d);
      rewrite (mseq_Ok (mmodify f) _ d tt d3 eq_refl) end.
    destruct (q_push_spec _ (slot desc) Hroom) as (q & Hq & Hc & Hcap).
    assert (push_ignore (free (slab d)) (slot desc) = q) as Hpush by (unfold push_ignore; by rewrite Hq).
    eexists _, _. split; [reflexivity|]. split.
    { destruct Hcom. split; try done. cbn. by rewrite Hpush, Hcap. }
    split_and!; [done..| |intros H; exact (proj2 (Hidle H))]. cbn. by rewrite Hpush.
  - eexists _, _. split; [reflexivity|]. split; [by destruct Hcom|].
    split_and!; [done..|]. intros H; exact (proj1 (Hidle H)).
Qed.

(** The rest of a send, from the state after the numbers are taken. *)
Lemma send_spec d n p room packet_type payload override flood x l :
  dp_ok d → room_id d = Some room → peers d !! n = Some p →
  (length payload ≤ MAX_DATAPLANE_PAYLOAD)%nat →
  q_contents (free (slab d)) = x :: l →
  ∃ r d', send_to_peer n packet_type payload override flood d = (r, d') ∧
    sent_common d d' n p flood ∧
    match frame_for d p room packet_type payload flood with
    | None => r = Err EncryptFailed ∧ q_contents (free (slab d')) = l ∧
        transport d' = transport d ∧ scheduler d' = scheduler d
    | Some (h, body) =>
        match send_raw (header_bytes h ++ body) (target_of p override) (transport d) with
        | (Ok _, t) => r = Ok tt ∧ transport d' = t ∧ q_contents (free (slab d')) = l ++ [x] ∧
            (idle (scheduler d) → idle (scheduler d'))
        | (_, t) => r = Err SendFailed ∧ transport d' = t ∧ q_contents (free (slab d')) = l ∧
            (idle (scheduler d) → ¬ idle (scheduler d'))
        end
    end.
Proof.
  intros Hok Hroom Hp Hlen Hq.
  destruct (dpo_peer d Hok n p Hp) as [Hnonce Hact].
  pose proof (dpo_ids d Hok room n p Hroom Hp) as Hids.
  unfold send_to_peer. rewrite bool_decide_eq_false_2 by lia.
  rewrite (mseq_Ok mget _ d d d eq_refl). rewrite Hroom, Hp.
  destruct (acquire_pop (slab d) x l Hq) as (q & -> & Hql & Hqc).
  set (s1 := mkPacketSlab (slots (slab d)) q (headroom (slab d))).
  rewrite (mseq_Ok (mmodify (put_slab s1)) _ d tt (put_slab s1 d) eq_refl). cbv zeta.
  rewrite (mseq_Ok _ _ _ _ _ (fetch_nonce_run n p (put_slab s1 d) Hp)).
  rewrite (mseq_Ok _ _ _ _ _ (fetch_id_run flood s1 n p d)).
  set (d2 := numbered s1 flood n p d).
  destruct (numbered_rest s1 flood n p d) as (E1 & E2 & E3 & E4). fold d2 in E1, E2, E3, E4.
  pose proof (numbered_common s1 flood n p d Hok eq_refl Hqc) as Hcom. fold d2 in Hcom.
  rewrite (mseq_Ok mget _ d2 d2 d2 eq_refl). rewrite E4.
  set (p2 := set_nonce _ p) in *.
  rewrite (mseq_Ok (mlift (Ok p2)) _ d2 p2 d2 eq_refl).
  assert (0 ≤ x < Z.of_nat (length (slots (slab d)))) as Hx.
  { pose proof (dpo_free d Hok) as H. rewrite Hq in H. by inversion H. }
  destruct (lookup_lt_is_Some_2 (slots (slab d)) (Z.to_nat x)) as [buf Hbuf]; [lia|].
  assert (length buf = DEFAULT_FRAME_CAP) as Hbl.
  { pose proof (dpo_slots d Hok) as H. rewrite Forall_forall in H.
    apply H. by eapply list_elem_of_lookup_2. }
  assert (u_ok 64 (packet_u64 (frame_id flood d))) as Hid.
  { unfold frame_id. simpl. destruct flood; [apply (dpo_packet_id d Hok)|unfold u_ok; lia]. }
  assert (byte_ok (frame_ttl flood)) as Httl by (unfold byte_ok, frame_ttl, FLOOD_TTL; destruct flood; lia).
  destruct (build_frame_spec room (local_node_id d2) p2 (next_nonce p) (frame_id flood d)
    (frame_ttl flood) packet_type payload buf)
    as (r & buf' & Hbuild & Hbl' & Hres); [|done..|].
  { rewrite (sc_local _ _ _ _ _ Hcom). by destruct Hids. }
  cbn [slot len class].
  change (if flood then FLOOD_TTL else 0) with (frame_ttl flood).
  match goal with |- context [with_slot_mut ?desc ?f] => set (desc0 := desc);
    pose proof (with_slot_run desc0 f s1 buf r buf' Hbuf Hbuild) as Hws end.
  rewrite <- E1 in Hws at 1.
  set (s2 := mkPacketSlab (<[Z.to_nat (slot desc0) := buf']> (slots s1)) (free s1) (headroom s1)) in *.
  pose proof (mzoom_run slab put_slab id _ d2 r s2 Hws) as Hzoom.
  set (d3 := put_slab s2 d2) in *.
  assert (wire_frame room (local_node_id d2) p2 (next_nonce p) (frame_id flood d)
    (frame_ttl flood) packet_type payload = frame_for d p room packet_type payload flood) as Ewf
    by (rewrite (sc_local _ _ _ _ _ Hcom); reflexivity).
  rewrite Ewf in Hres.
  assert (sent_common d d3 n p flood) as Hcom3.
  { destruct Hcom. split; try done.
    - apply Forall_insert; [apply (dpo_slots d Hok)|done].
    - apply length_insert. }
  destruct (frame_for d p room packet_type payload flood) as [[h body]|]; cycle 1.
  { subst r. unfold mseq at 1. rewrite Hzoom. cbn [map_err id]. do 2 eexists.
    split; [reflexivity|]. split; [exact Hcom3|]. by rewrite <- E2, <- E3. }
  destruct Hres as (-> & Hh & _ & _ & Hbody & Htake).
  rewrite (mseq_Ok _ _ _ _ _ Hzoom).
  match goal with |- context [Qos.push ?c ?x _] =>
    change (∃ r d', transmit c x p2 override d3 = (r, d') ∧ sent_common d d' n p flood ∧
      match send_raw (header_bytes h ++ body) (target_of p override) (transport d) with
      | (Ok _, t) => r = Ok tt ∧ transport d' = t ∧ q_contents (free (slab d')) = l ++ [slot x] ∧
          (idle (scheduler d) → idle (scheduler d'))
      | (_, t) => r = Err SendFailed ∧ transport d' = t ∧ q_contents (free (slab d')) = l ∧
          (idle (scheduler d) → ¬ idle (scheduler d'))
      end);
    destruct (transmit_spec c x p2 override d3 d n p flood buf' (header_bytes h ++ body))
      as (r & d' & Hrun & Hc & Hout)
  end.
  - exact Hact.
  - change (slots (slab d3)) with (<[Z.to_nat x := buf']> (slots (slab d))).
    apply list_lookup_insert_eq. by apply lookup_lt_Some in Hbuf.
  - cbn [len]. rewrite slice_Ok; [|lia|].
    + by rewrite Nat.sub_0_r, drop_0, Htake.
    + rewrite Hbl', max_payload in *. unfold DEFAULT_FRAME_CAP, DATA_HEADER_SIZE in *. lia.
  - change (free (slab d3)) with q. rewrite Hqc, Hql.
    pose proof (dpo_cap d Hok) as Hcap. rewrite Hq in Hcap. simpl in Hcap. lia.
  - exact Hcom3.
  - change (free (slab d3)) with q in Hout. rewrite Hql in Hout.
    change (transport d3) with (transport d2) in Hout. rewrite E3 in Hout.
    change (scheduler d3) with (scheduler d2) in Hout. rewrite E2 in Hout.
    change (target_of p2 override) with (target_of p override) in Hout.
    eexists _, _. split; [exact Hrun|]. split; [exact Hc|exact Hout].
Qed.
End Send.

(** ** Receiving *)
Section Receive.
Context `{Q : ArrayQueue} `{A : AeadLib} `{HA : !AeadLaws A}
  `{P : Etherparse} `{N : IpNetLib} `{R : RatelimitLib} `{K : Socket} `{T : TunIo}.
Implicit Types (d : DataPlane) (p : DataPeer).

(** What the device and the filters in front of it depend on. *)
Definition device d := (tun d, traffic_policy d, room_id d, local_node_id d).

Lemma send_keeps n packet_type payload override flood :
  keeps device (send_to_peer n packet_type payload override flood).
Proof. unfold send_to_peer, fetch_nonce, fetch_packet_id. keeps. Qed.

(** A header that passes the checks. *)
Record header_valid (now : Z) (h : DataHeader) d : Prop := {
  hv_room : room_id d = Some (h_room_id h);
  hv_version : h_version h = PROTOCOL_VERSION;
  hv_src : h_src_node h ≠ local_node_id d;
  hv_origin : h_origin_node h ≠ local_node_id d;
  hv_dst : header_is_flood h = true ∨ h_dst_node h = local_node_id d;
  hv_flood : header_is_flood h = true → h_ttl h ≠ 0 ∧ packet_u64 (h_packet_id h) ≠ 0 ∧
    (insert_if_new now (h_origin_node h) (h_packet_id h) (seen_flood d)).1 = true;
}.

Lemma validate_run now h d :
  ∃ b d', validate_incoming_header now h d = (Ok b, d') ∧ device d' = device d ∧
    peers d' = peers d ∧ (b = true ↔ header_valid now h d).
Proof.
  unfold validate_incoming_header, mseq, mget, mmodify, mreturn.
  destruct (room_id d) as [room|] eqn:Er; cycle 1.
  { do 2 eexists. split_and!; [done..|]. split; [done|]. intros []. congruence. }
  destruct (header_is_flood h) eqn:Hf;
    destruct (insert_if_new now (h_origin_node h) (h_packet_id h) (seen_flood d))
      as [[] seen] eqn:Hi;
    repeat (case_bool_decide; cbn [orb andb negb]);
    (do 2 eexists; split_and!; [reflexivity|reflexivity|reflexivity|]);
    (split; [first [discriminate | intros _; split; rewrite ?Hi; intuition congruence]
            |first [done | intros []; rewrite ?Hi in *; simpl in *; intuition congruence]]).
Qed.

(** A payload that opens under its header with the peer's key, and is not a replay. *)
Definition opens (pr : profile) (h : DataHeader) (payload : list Z) p (packet : list Z) : Prop :=
  match cipher p with
  | None => packet = payload
  | Some c => ∃ header_buf, encode_into h (replicate DATA_HEADER_SIZE 0) = Ok header_buf ∧
      poisoned c = false ∧ check_window pr (h_nonce h) (window c) = Ok tt ∧
      is_ok (advance_window pr (h_nonce h) (window c)) = true ∧
      frame_open c (mkFrame (h_nonce h) header_buf payload) = Some packet
  end.

Lemma open_frame_opens pr h payload p packet :
  (open_frame pr h payload p).1 = Ok packet ↔ opens pr h payload p packet.
Proof.
  unfold open_frame, opens. destruct (cipher p) as [c|]; cycle 1.
  { simpl. split; [by intros [= ->]|by intros ->]. }
  destruct (encode_into h _) as [hb|e|]; simpl; [|split; [done|by intros (? & ? & _)]..].
  unfold decrypt_in_place, mseq, check_replay_window, mget, mlift, mthrow, mreturn,
    advance_replay_window, frame_open. cbn [f_buffer f_nonce f_aad].
  destruct (poisoned c) eqn:Hp; [split; [done|intros (? & ? & ? & _); done]|].
  destruct (check_window pr (h_nonce h) (window c)) as [[]|e|] eqn:Hc;
    [|split; [done|by intros (? & ? & ? & ? & _)]..].
  case_bool_decide as Hl; [split; [done|by intros (? & ? & ? & ? & ? & ?)]|].
  destruct (aead_open _ _ _ _ _) as [m|] eqn:Ho; simpl; cycle 1.
  { split; [done|]. intros (? & [= <-] & ? & ? & ? & E). by rewrite Ho in E. }
  rewrite Hp. pose proof (aead_open_length _ _ _ _ _ _ Ho) as Hm. rewrite length_take in Hm.
  destruct (advance_window pr (h_nonce h) (window c)) as [w|[]|] eqn:Ha; simpl;
    [|split; [done|by intros (? & ? & ? & ? & ? & _)]].
  rewrite take_app_length' by lia. split.
  - intros [= <-]. eauto 10.
  - intros (? & [= <-] & ? & ? & ? & E). rewrite Ho in E. by injection E as ->.
Qed.

Lemma ethernet_macs_total frame : is_ok (ethernet_macs frame) = true.
Proof.
  unfold ethernet_macs. case_bool_decide; [done|].
  rewrite slice_Ok by lia. cbn [mbind outcome_bind]. by rewrite slice_Ok by lia.
Qed.
Lemma policy_device t packet d d' :
  device d' = device d →
  policy_allows_packet_type t Inbound packet d' = policy_allows_packet_type t Inbound packet d.
Proof. intros [= _ E _ _]. unfold policy_allows_packet_type, policy_allows. by rewrite E. Qed.

Lemma deliver_run now h packet addr d :
  ∃ d1, device d1 = device d ∧ deliver_packet now h packet addr d =
    (let* allowed := mlift (lift (policy_allows_packet_type (h_packet_type h) Inbound packet d)) in
     if negb allowed then mmodify (count (mark_packet_drop (Some (h_src_node h))))
     else write_tun packet) d1.
Proof.
  unfold deliver_packet. rewrite (mseq_Ok mget _ d d d eq_refl). cbv zeta.
  assert (∀ b : bool, ∃ d1, device d1 = device d ∧
    (mwhen b (mmodify (set_direct_path now (h_src_node h) addr None)) : DPM unit) d
    = (Ok tt, d1)) as Hw
    by (intros []; (eexists; split; [|reflexivity]; reflexivity)).
  match goal with |- context [mwhen ?b _] => destruct (Hw b) as (d1 & E1 & R1) end.
  rewrite (mseq_Ok _ _ _ _ _ R1).
  assert (∃ d2, device d2 = device d1 ∧
    (if bool_decide (h_packet_type h = Ethernet)
     then let* macs := mlift (lift (ethernet_macs packet)) in
          match macs with
          | Some (_, src_mac) =>
              mmodify (λ d, put_mac_table (learn_mac now src_mac (h_src_node h) (mac_table d)) d)
          | None => mreturn tt
          end
     else mreturn tt : DPM unit) d1 = (Ok tt, d2)) as (d2 & E2 & R2).
  { case_bool_decide; [|(eexists; split; [|reflexivity]; reflexivity)]. pose proof (ethernet_macs_total packet) as Ht.
    destruct (ethernet_macs packet) as [[[? ?]|]| |]; try done; (eexists; split; [|reflexivity]; reflexivity). }
  rewrite (mseq_Ok _ _ _ _ _ R2), (mseq_Ok mget _ d2 d2 d2 eq_refl).
  exists d2. split; [congruence|]. by rewrite (policy_device _ _ d) by congruence.
Qed.

(** A frame whose packet the dataplane takes. *)
Definition accepts (pr : profile) (now : Z) (h : DataHeader) (payload : list Z) d
    (packet : list Z) : Prop :=
  header_valid now h d ∧ h_packet_type h ≠ Ping ∧ h_packet_type h ≠ Pong ∧
  (∃ p, peers d !! h_src_node h = Some p ∧ opens pr h payload p packet) ∧
  policy_allows_packet_type (h_packet_type h) Inbound packet d = Ok true.

Lemma accepts_inj pr now h payload d q1 q2 :
  accepts pr now h payload d q1 → accepts pr now h payload d q2 → q1 = q2.
Proof.
  intros (_ & _ & _ & (p1 & Hp1 & H1) & _) (_ & _ & _ & (p2 & Hp2 & H2) & _).
  rewrite Hp1 in Hp2. injection Hp2 as <-.
  apply open_frame_opens in H1, H2. congruence.
Qed.

Definition written (t : TunDevice) (packet : list Z) : TunDevice :=
  set_written (tun_written t ++ [packet]) t.

Lemma pong_keeps now h packet : keeps device (handle_pong now h packet).
Proof. unfold handle_pong. keeps. Qed.

(** The part of the handler after a packet is opened. *)
Lemma dispatch_tun now h packet addr d t :
  tun d = Some t → h_packet_type h ≠ Ping → h_packet_type h ≠ Pong →
  ∃ r d', deliver_packet now h packet addr d = (r, d') ∧
    if default false (ok (policy_allows_packet_type (h_packet_type h) Inbound packet d))
       && tun_accepts (length (tun_written t)) packet
    then r = Ok tt ∧ tun d' = Some (written t packet) else tun d' = Some t.
Proof.
  intros Ht H1 H2. destruct (deliver_run now h packet addr d) as (d1 & E & ->).
  assert (tun d1 = Some t) as Ht1 by (injection E as E _ _ _; congruence).
  unfold mseq, mlift.
  destruct (policy_allows_packet_type _ _ _ _) as [[]|[]|]; cbn [lift negb].
  - unfold write_tun. rewrite (mseq_Ok mget _ d1 d1 d1 eq_refl), Ht1.
    simpl. destruct (tun_accepts _ _); by do 2 eexists.
  - by do 2 eexists.
  - by do 2 eexists.
Qed.
Lemma tun_of_device d d' : device d' = device d → tun d' = tun d.
Proof. unfold device. congruence. Qed.

(** Everything the handler does with a frame, as seen from the device. *)
Lemma handle_tun pr now h payload addr d t :
  tun d = Some t →
  ∃ r d', handle_incoming_frame pr now h payload addr d = (r, d') ∧
    ((∃ packet, accepts pr now h payload d packet ∧
        tun_accepts (length (tun_written t)) packet = true ∧ r = Ok tt ∧
        tun d' = Some (written t packet)) ∨
     ((∀ packet, accepts pr now h payload d packet →
        tun_accepts (length (tun_written t)) packet = false) ∧ tun d' = Some t)).
Proof.
  intros Ht. unfold handle_incoming_frame.
  destruct (validate_run now h d) as (b & d1 & R1 & E1 & Ep & Hb).
  pose proof (tun_of_device _ _ E1) as Ht1. rewrite (mseq_Ok _ _ _ _ _ R1).
  destruct b; cbn [negb]; cycle 1.
  { do 2 eexists. split; [reflexivity|]. right. split; [|congruence].
    intros ? [Hv _]. by apply Hb in Hv. }
  rewrite (mseq_Ok mget _ d1 d1 d1 eq_refl), Ep.
  destruct (peers d !! h_src_node h) as [p|] eqn:Hp; cycle 1.
  { do 2 eexists. split; [reflexivity|]. right. split; [|congruence].
    intros ? (_ & _ & _ & (p & Hq & _) & _). congruence. }
  pose proof (open_frame_opens pr h payload p) as Hopen.
  destruct (open_frame pr h payload p) as [o p'] eqn:Eo. cbn [fst] in Hopen.
  match goal with |- context [mmodify ?f] => set (d2 := f d1);
    rewrite (mseq_Ok (mmodify f) _ d1 tt d2 eq_refl) end.
  assert (device d2 = device d) as E2 by exact E1.
  assert (∀ r, (∀ packet, o ≠ Ok packet) → ∃ d', (r : outcome DataplaneError unit, d2) = (r, d') ∧
     ((∀ packet, accepts pr now h payload d packet →
        tun_accepts (length (tun_written t)) packet = false) ∧ tun d' = Some t)) as Hbad.
  { intros r Hno. exists d2. split; [done|]. split; [|by rewrite (tun_of_device _ _ E2)].
    intros packet (_ & _ & _ & (q & Hq & Hopens) & _). rewrite Hp in Hq. injection Hq as <-.
    destruct (Hno _ (proj2 (Hopen _) Hopens)). }
  destruct o as [packet|e|].
  2: { destruct (Hbad (Err e)) as (d' & ? & ?); [done|]. do 2 eexists. split; [reflexivity|].
       right. simplify_eq. done. }
  2: { destruct (Hbad Panic) as (d' & ? & ?); [done|]. do 2 eexists. split; [reflexivity|].
       right. simplify_eq. done. }
  clear Hbad. rewrite (mseq_Ok (mlift _) _ d2 packet d2 eq_refl).
  match goal with |- context [mmodify ?f] => set (d3 := f d2);
    rewrite (mseq_Ok (mmodify f) _ d2 tt d3 eq_refl) end.
  match goal with |- context [mwhen ?b ?m] =>
    assert (∃ d4, mwhen b m d3 = (Ok tt, d4) ∧ device d4 = device d) as (d4 & R4 & E4)
      by (destruct b; eexists; (split; [reflexivity|]; exact E2)) end.
  rewrite (mseq_Ok _ _ _ _ _ R4).
  assert (tun d4 = Some t) as Ht4 by (by rewrite (tun_of_device _ _ E4)).
  assert (∀ q, opens pr h payload p q → q = packet) as Huniq
    by (intros q Hq%Hopen; congruence).
  destruct (decide (h_packet_type h = Ping)) as [H1|H1].
  { rewrite bool_decide_eq_true_2 by done.
    pose proof (keeps_mignore device _ (send_keeps (h_src_node h) Pong packet (Some addr) false) d4) as Hk.
    destruct (mignore _ d4) as [r d']. do 2 eexists. split; [reflexivity|]. right. split.
    - by intros ? (_ & ? & _).
    - by rewrite (tun_of_device d4 d' Hk). }
  rewrite bool_decide_eq_false_2 by done.
  destruct (decide (h_packet_type h = Pong)) as [H2|H2].
  { rewrite bool_decide_eq_true_2 by done. pose proof (pong_keeps now h packet d4) as Hk.
    destruct (handle_pong now h packet d4) as [r d']. do 2 eexists. split; [reflexivity|].
    right. split.
    - by intros ? (_ & _ & ? & _).
    - by rewrite (tun_of_device d4 d' Hk). }
  rewrite bool_decide_eq_false_2 by done.
  destruct (dispatch_tun now h packet addr d4 t Ht4 H1 H2) as (r & d' & Hrun & Hout).
  exists r, d'. split; [exact Hrun|]. rewrite (policy_device _ _ d d4 E4) in Hout.
  destruct (policy_allows_packet_type (h_packet_type h) Inbound packet d) as [[]|[]|] eqn:Hpol;
    cbn [ok default andb] in Hout.
  1: destruct (tun_accepts (length (tun_written t)) packet) eqn:Hacc.
  - left. exists packet. destruct Hout. split_and!; try done.
    split_and!; try done; [by apply Hb|]. exists p. split; [done|]. by apply Hopen.
  - right. split; [|done]. intros q (_ & _ & _ & (p2 & Hp2 & Hq) & _).
    rewrite Hp in Hp2. injection Hp2 as <-. by rewrite (Huniq q Hq).
  - right. split; [|done]. intros q (_ & _ & _ & (p2 & Hp2 & Hq) & Hpq).
    rewrite Hp in Hp2. injection Hp2 as <-. rewrite (Huniq q Hq) in Hpq. congruence.
  - right. split; [|done]. intros q (_ & _ & _ & (p2 & Hp2 & Hq) & Hpq).
    rewrite Hp in Hp2. injection Hp2 as <-. rewrite (Huniq q Hq) in Hpq. congruence.
Qed.

(** *** What a frame changes in the ciphers *)
Definition ciphers d : gmap NodeId (option (Cipher A)) := cipher <$> peers d.
Definition receiver d := (ciphers d, traffic_policy d, room_id d, local_node_id d).

Lemma with_peer_ciphers n f d :
  (∀ p, cipher (f p) = cipher p) → ciphers (with_peer n f d) = ciphers d.
Proof.
  intros Hf. unfold ciphers, with_peer. cbn [peers put_peers]. apply map_eq. intros m.
  rewrite !lookup_fmap. destruct (decide (n = m)) as [->|].
  - rewrite lookup_alter_eq. destruct (peers d !! m); [|done]. cbn. by rewrite Hf.
  - by rewrite lookup_alter_ne.
Qed.

Lemma with_peer_receiver n f d :
  (∀ p, cipher (f p) = cipher p) → receiver (with_peer n f d) = receiver d.
Proof. intros Hf. unfold receiver. by rewrite with_peer_ciphers. Qed.

Lemma send_receiver n ty payload o flood : keeps receiver (send_to_peer n ty payload o flood).
Proof.
  unfold send_to_peer, fetch_nonce, fetch_packet_id. keeps; by apply with_peer_receiver.
Qed.
Lemma pong_receiver now h packet : keeps receiver (handle_pong now h packet).
Proof. unfold handle_pong. keeps; by apply with_peer_receiver. Qed.
Lemma deliver_receiver now h packet addr : keeps receiver (deliver_packet now h packet addr).
Proof. unfold deliver_packet, write_tun. keeps; by apply with_peer_receiver. Qed.

Lemma ciphers_lookup d n p : peers d !! n = Some p → ciphers d !! n = Some (cipher p).
Proof. intros Hp. unfold ciphers. by rewrite lookup_fmap, Hp. Qed.

(** The handler opens the frame of a valid header with the cipher of its peer, and changes
    no other cipher. *)
Lemma handle_receiver pr now h payload addr d :
  let d' := (handle_incoming_frame pr now h payload addr d).2 in
  traffic_policy d' = traffic_policy d ∧ room_id d' = room_id d ∧
  local_node_id d' = local_node_id d ∧
  match peers d !! h_src_node h with
  | Some p => ciphers d' = ciphers d ∧ ¬ header_valid now h d ∨
      header_valid now h d ∧
      ciphers d' = <[h_src_node h := cipher (open_frame pr h payload p).2]> (ciphers d)
  | None => ciphers d' = ciphers d
  end.
Proof.
  cbv zeta. unfold handle_incoming_frame.
  destruct (validate_run now h d) as (b & d1 & R1 & [= _ Ept Er El] & Ep & Hb).
  rewrite (mseq_Ok _ _ _ _ _ R1).
  assert (ciphers d1 = ciphers d) as Ec by (unfold ciphers; by rewrite Ep).
  destruct b; cbn [negb]; cycle 1.
  { cbn [mreturn snd]. split_and!; [done..|]. destruct (peers d !! _); [|done]. left.
    split; [done|]. intros Hv. apply Hb in Hv. done. }
  rewrite (mseq_Ok mget _ d1 d1 d1 eq_refl), Ep.
  destruct (peers d !! h_src_node h) as [p|]; cycle 1.
  { cbn [mreturn snd]. by split_and!. }
  destruct (open_frame pr h payload p) as [o p'] eqn:Eo. cbn [snd].
  match goal with |- context [mmodify ?f] => set (d2 := f d1);
    rewrite (mseq_Ok (mmodify f) _ d1 tt d2 eq_refl) end.
  match goal with |- context [(mseq ?m ?f d2).2] =>
    assert (keeps receiver (mseq m f)) as Hk end.
  { keeps; try (by apply with_peer_receiver); [apply send_receiver|apply pong_receiver|apply deliver_receiver]. }
  match goal with |- context [(mseq ?m ?f d2).2] => pose proof (Hk d2) as E;
    destruct (mseq m f d2) as [r d3] end.
  cbn [snd] in *. unfold receiver in E. injection E as E1 E2 E3 E4.
  split; [by rewrite E2|]. split; [by rewrite E3|]. split; [by rewrite E4|]. right.
  split; [by apply Hb|]. rewrite E1. unfold ciphers, d2. cbn [peers put_peers].
  by rewrite fmap_insert.
Qed.

(** What opening does to the cipher. *)
Lemma open_frame_cipher pr h payload p c :
  cipher p = Some c →
  ∃ c', cipher (open_frame pr h payload p).2 = Some c' ∧ inner c' = inner c ∧
    (((∀ packet, (open_frame pr h payload p).1 ≠ Ok packet) ∧ window c' = window c) ∨
     ∃ aad packet, (open_frame pr h payload p).1 = Ok packet ∧ poisoned c' = false ∧
       encode_into h (replicate DATA_HEADER_SIZE 0) = Ok aad ∧
       is_Some (frame_open c (mkFrame (h_nonce h) aad payload)) ∧
       check_window pr (h_nonce h) (window c) = Ok tt ∧
       advance_window pr (h_nonce h) (window c) = Ok (window c')).
Proof.
  intros Hc. unfold open_frame. rewrite Hc.
  destruct (encode_into h _) as [aad| |] eqn:Ea; [|exists c; by auto..].
  destruct (decrypt_in_place pr (h_nonce h) aad payload c) as [[[n out]|e|] c'] eqn:Ed;
    cbn [fst snd cipher set_cipher]; exists c'; (split; [done|]).
  - apply decrypt_in_place_Ok in Ed as (_ & H1 & H2 & H3 & H4 & H5).
    split; [done|]. right. by exists aad, (take n out).
  - pose proof (decrypt_in_place_rejected pr (h_nonce h) aad payload c) as Hr.
    rewrite Ed in Hr. destruct (Hr eq_refl). split; [done|]. left. by split.
  - pose proof (decrypt_in_place_rejected pr (h_nonce h) aad payload c) as Hr.
    rewrite Ed in Hr. destruct (Hr eq_refl). split; [done|]. left. by split.
Qed.

(** ** The same frame again *)
(** What the next frame meets once a frame was taken: the same filters, and the key of its
    sender with the nonce spent, or still no key. *)
Lemma taken_leaves pr now h payload addr d packet :
  accepts pr now h payload d packet →
  let d' := (handle_incoming_frame pr now h payload addr d).2 in
  traffic_policy d' = traffic_policy d ∧ room_id d' = room_id d ∧
  local_node_id d' = local_node_id d ∧
  ∃ p p', peers d !! h_src_node h = Some p ∧ peers d' !! h_src_node h = Some p' ∧
    match cipher p with
    | None => packet = payload ∧ cipher p' = None
    | Some c => ∃ aad c', encode_into h (replicate DATA_HEADER_SIZE 0) = Ok aad ∧
        frame_open c (mkFrame (h_nonce h) aad payload) = Some packet ∧
        cipher p' = Some c' ∧ (0 ≤ h_nonce h → check_window pr (h_nonce h) (window c') = Err Aead)
    end.
Proof.
  intros (Hv & _ & _ & (p & Hp & Ho) & _) d'.
  destruct (handle_receiver pr now h payload addr d) as (E1 & E2 & E3 & Hc).
  fold d' in E1, E2, E3, Hc. split_and!; [done..|]. rewrite Hp in Hc.
  destruct Hc as [[_ []]|[_ Hc]]; [done|].
  assert (ciphers d' !! h_src_node h = Some (cipher (open_frame pr h payload p).2)) as Hl
    by (by rewrite Hc, lookup_insert_eq).
  unfold ciphers in Hl. rewrite lookup_fmap in Hl.
  destruct (peers d' !! h_src_node h) as [p'|] eqn:Hp'; [|done]. injection Hl as Hl.
  exists p, p'. split_and!; [done..|]. destruct (cipher p) as [c|] eqn:Ec; cycle 1.
  { unfold opens in Ho. rewrite Ec in Ho. split; [done|]. rewrite Hl. unfold open_frame.
    by rewrite Ec. }
  destruct (open_frame_cipher pr h payload p c Ec) as (c' & Hc' & _ & [[Hno _]|Htaken]).
  { apply open_frame_opens in Ho. by destruct (Hno packet). }
  destruct Htaken as (aad & m & _ & _ & Ha & _ & Hck & Hadv).
  unfold opens in Ho. rewrite Ec in Ho. destruct Ho as (hb & Hhb & _ & _ & _ & Hf).
  exists hb, c'. split_and!; [done..|congruence|]. intros Hn. by eapply window_spent.
Qed.
End Receive.
