(* ===== verification/Delivery.v ===== *)
(** From device to device: the outcome of a send, the delivery of a sent packet at the
    other end, what is ever written to the device, and who a packet is sent to. *)
From Stdlib Require Import ZArith Lia.
From stdpp Require Import base tactics numbers list gmap strings.
From S2P Require Import Prelude Bytes Net Common Proto Slab Etherparse Qos Crypto Defense.
From S2P Require Import Policy Discovery F32 Path Observability Transport Flood MacTable.
From S2P Require Import Dataplane Overlay.
Local Open Scope Z_scope.

Section Outcome.
Context `{Q : ArrayQueue} `{HQ : !ArrayQueueLaws Q} `{A : AeadLib} `{HA : !AeadLaws A}
  `{P : Etherparse} `{N : IpNetLib} `{R : RatelimitLib} `{K : Socket} `{T : TunIo}.
Implicit Types (d : DataPlane) (p : DataPeer).

Lemma dp_ok_sent d d' n p flood room :
  dp_ok d → room_id d = Some room → peers d !! n = Some p → sent_common d d' n p flood →
  Forall (λ z, 0 ≤ z < Z.of_nat (length (slots (slab d)))) (q_contents (free (slab d'))) →
  (length (q_contents (free (slab d'))) ≤ length (q_contents (free (slab d))))%nat →
  dp_ok d'.
Proof.
  intros Hok Hroom Hp [Ht Hn Hid _ Hr Hl Hs Hc Hcap] Hf Hlen.
  destruct (dpo_peer d Hok n p Hp) as [Hnonce Hact]. split.
  - done.
  - by rewrite Hc.
  - rewrite Hcap. etrans; [exact Hlen|apply (dpo_cap d Hok)].
  - rewrite Hid. destruct flood; [by apply wrap_range|apply (dpo_packet_id d Hok)].
  - intros m q. rewrite Hn, lookup_insert. case_decide; [|by apply (dpo_peer d Hok)].
    intros [= <-]. split; [by apply wrap_range|exact Hact].
  - intros rm m q. rewrite Hr, Hl, Hn, lookup_insert. intros Hrm. case_decide.
    + intros [= <-]. subst. by destruct (dpo_ids d Hok rm _ p Hrm Hp).
    + by apply (dpo_ids d Hok).
Qed.

(** A send never unwinds and keeps the dataplane well formed.  It is refused, with
    nothing changed, when the payload is too large, there is no room, or no slot is
    free, and ignored when the peer is unknown.  Otherwise it takes the peer's next
    nonce, and a packet id when it floods, and hands to the socket the frame sealed under
    its header.  When the socket takes it, the slot is free again and an empty scheduler
    is empty again; when the sealing or the socket fails, the slot stays taken, and after
    a socket failure the scheduler keeps its entry too. *)
Theorem send_outcome d n packet_type payload override flood :
  dp_ok d →
  ∃ r d', send_to_peer n packet_type payload override flood d = (r, d') ∧ dp_ok d' ∧
  if bool_decide (MAX_DATAPLANE_PAYLOAD < length payload)%nat
  then r = Err PayloadTooLarge ∧ d' = d
  else match room_id d, peers d !! n, q_contents (free (slab d)) with
  | None, _, _ => r = Err RoomNotAssigned ∧ d' = d
  | _, None, _ => r = Ok tt ∧ d' = d
  | _, _, [] => r = Err SlabExhausted ∧ d' = d
  | Some room, Some p, x :: l =>
      sent_common d d' n p flood ∧
      match frame_for d p room packet_type payload flood with
      | None => r = Err EncryptFailed ∧ q_contents (free (slab d')) = l ∧
          transport d' = transport d ∧ scheduler d' = scheduler d
      | Some (h, body) =>
          match send_raw (header_bytes h ++ body) (target_of p override) (transport d) with
          | (Ok _, t) => r = Ok tt ∧ transport d' = t ∧ q_contents (free (slab d')) = l ++ [x] ∧
              (idle (scheduler d) → idle (scheduler d'))
          | (_, t) => r = Err SendFailed ∧ transport d' = t ∧ q_contents (free (slab d')) = l ∧
              (idle (scheduler d) → ¬ idle (scheduler d'))
          end
      end
  end.
Proof.
  intros Hok. destruct (decide (MAX_DATAPLANE_PAYLOAD < length payload)%nat) as [Hl|Hl].
  { do 2 eexists. split; [|split; [exact Hok|]].
    - unfold send_to_peer. by rewrite bool_decide_eq_true_2.
    - by rewrite bool_decide_eq_true_2. }
  rewrite (bool_decide_eq_false_2 (MAX_DATAPLANE_PAYLOAD < length payload)%nat) by done.
  destruct (room_id d) as [room|] eqn:Hroom; cycle 1.
  { do 2 eexists. split; [|split; [exact Hok|by split]].
    unfold send_to_peer. rewrite bool_decide_eq_false_2 by done.
    rewrite (mseq_Ok mget _ d d d eq_refl). by rewrite Hroom. }
  destruct (peers d !! n) as [p|] eqn:Hp; cycle 1.
  { do 2 eexists. split; [|split; [exact Hok|by split]].
    unfold send_to_peer. rewrite bool_decide_eq_false_2 by done.
    rewrite (mseq_Ok mget _ d d d eq_refl). by rewrite Hroom, Hp. }
  destruct (q_contents (free (slab d))) as [|x l] eqn:Hq.
  { do 2 eexists. split; [|split; [exact Hok|by split]].
    unfold send_to_peer. rewrite bool_decide_eq_false_2 by done.
    rewrite (mseq_Ok mget _ d d d eq_refl). rewrite Hroom, Hp.
    unfold acquire. rewrite q_pop_empty by done.
    by destruct d. }
  destruct (send_spec d n p room packet_type payload override flood x l)
    as (r & d' & Hrun & Hc & Hout); [done..|lia|done|].
  exists r, d'. split; [exact Hrun|]. split; [|by split].
  pose proof (dpo_free d Hok) as Hf. rewrite Hq in Hf. inversion Hf as [|? ? Hx Hfl].
  assert (q_contents (free (slab d')) = l ∨ q_contents (free (slab d')) = l ++ [x]) as Hl'.
  { destruct (frame_for _ _ _ _ _ _) as [[h body]|]; [|naive_solver].
    destruct (send_raw _ _ _) as [[] ?]; naive_solver. }
  eapply dp_ok_sent; [exact Hok|done|done|exact Hc|..]; rewrite ?Hq; destruct Hl' as [-> | ->].
  - done.
  - apply Forall_app; split; [done|]. by apply Forall_singleton.
  - simpl. lia.
  - rewrite length_app. simpl. lia.
Qed.
End Outcome.

Section EndToEnd.
Context `{Q : ArrayQueue} `{HQ : !ArrayQueueLaws Q} `{A : AeadLib} `{HA : !AeadLaws A}
  `{P : Etherparse} `{N : IpNetLib} `{R : RatelimitLib} `{K : Socket} `{T : TunIo}
  `{S : Postcard}.
Implicit Types (d : DataPlane) (p : DataPeer).

(** C7: what a frame from the network writes to the device.  A frame adds exactly one
    packet when its header is valid for this node and room, its sender is a peer, its
    payload is taken from that peer, it is neither ping nor pong, the inbound policy allows
    the packet and the device takes it; it adds that packet and succeeds.  In every other
    case, errors included, the device is untouched.  From a peer with a key a payload is
    taken only when it opens under that key with the header as associated data, and the
    dataplane it leaves takes no further frame of that peer with that nonce.  A peer that has no
    key yet has its payload taken as it is: nothing authenticates it, and the same frame,
    unless it is flooded, is taken again. *)
Theorem incoming_writes pr now h payload addr d t :
  tun d = Some t → u_ok 64 (h_nonce h) →
  ∃ r d', handle_incoming_frame pr now h payload addr d = (r, d') ∧
    ((∃ packet, accepts pr now h payload d packet ∧
        tun_accepts (length (tun_written t)) packet = true ∧ r = Ok tt ∧
        tun d' = Some (written t packet)) ∨
     ((∀ packet, accepts pr now h payload d packet →
        tun_accepts (length (tun_written t)) packet = false) ∧ tun d' = Some t)) ∧
    ∀ packet, accepts pr now h payload d packet →
      ∃ p, peers d !! h_src_node h = Some p ∧
      match cipher p with
      | Some c =>
          (∃ aad, encode_into h (replicate DATA_HEADER_SIZE 0) = Ok aad ∧
            frame_open c (mkFrame (h_nonce h) aad payload) = Some packet) ∧
          ∀ now2 h2 payload2 packet2, h_src_node h2 = h_src_node h → h_nonce h2 = h_nonce h →
            ¬ accepts pr now2 h2 payload2 d' packet2
      | None => packet = payload ∧
          (header_is_flood h = false → ∀ now2, accepts pr now2 h payload d' packet)
      end.
Proof.
  intros Ht [Hn _]. destruct (handle_tun pr now h payload addr d t Ht) as (r & d' & E & Hw).
  exists r, d'. split; [done|]. split; [done|]. intros packet Ha.
  destruct (taken_leaves pr now h payload addr d packet Ha) as (E1 & E2 & E3 & p & p' & Hp & Hp' & Hc).
  rewrite E in E1, E2, E3, Hp'. cbn [snd] in *. exists p. split; [done|].
  destruct (cipher p) as [c|].
  - destruct Hc as (aad & c' & He & Hf & Hc' & Hspent). split; [by exists aad|].
    intros now2 h2 payload2 packet2 Hs Hh2 (_ & _ & _ & (q & Hq & Ho) & _).
    rewrite Hs, Hp' in Hq. injection Hq as <-. unfold opens in Ho. rewrite Hc' in Ho.
    destruct Ho as (_ & _ & _ & Hck & _). rewrite Hh2, Hspent in Hck; done.
  - destruct Hc as [-> Hc']. split; [done|]. intros Hfl now2.
    destruct Ha as ([] & H1 & H2 & _ & Hpol). rewrite Hfl in *.
    split; [by split; congruence || auto|]. split_and!; [done..| |].
    + exists p'. split; [done|]. unfold opens. by rewrite Hc'.
    + rewrite <- Hpol. unfold policy_allows_packet_type, policy_allows. by rewrite E1.
Qed.

(** The receiver's record of the sender: the same key, a window that takes the nonce. *)
Definition matching (pr : profile) (nonce : Z) p (q : DataPeer) : Prop :=
  match cipher p, cipher q with
  | Some c, Some c' => inner c' = inner c ∧ poisoned c' = false ∧
      check_window pr nonce (window c') = Ok tt ∧
      is_ok (advance_window pr nonce (window c')) = true
  | None, None => True
  | _, _ => False
  end.

(** The key opens what it sealed. *)
Lemma wire_frame_unsealed room local p c c' nonce pid ttl ty payload h body :
  wire_frame room local p nonce pid ttl ty payload = Some (h, body) →
  cipher p = Some c → inner c' = inner c → header_ok h →
  encode_into h (replicate DATA_HEADER_SIZE 0) = Ok (header_bytes h) ∧ h_nonce h = nonce ∧
  frame_open c' (mkFrame nonce (header_bytes h) body) = Some payload.
Proof.
  unfold wire_frame. intros Hw Hc Hi Hh. rewrite Hc in Hw.
  destruct (aead_seal _ _ _ _) as [[ct tag]|] eqn:E; [|done]. simpl in Hw.
  injection Hw as <- <-. split_and!; [|done|].
  - pose proof (encode_zero _ Hh) as Hz. destruct (encode_into _ _); [|done..].
    by injection Hz as ->.
  - destruct (aead_seal_lengths _ _ _ _ _ _ E) as [Hct Htag].
    unfold frame_open. cbn [f_buffer f_nonce f_aad]. rewrite length_app, Htag.
    rewrite bool_decide_eq_false_2 by lia.
    replace (length ct + 16 - 16)%nat with (length ct) by lia.
    rewrite take_app_length, drop_app_length, Hi. by apply aead_open_seal.
Qed.

Lemma wire_frame_opens pr room local p q nonce pid ttl ty payload h body :
  wire_frame room local p nonce pid ttl ty payload = Some (h, body) →
  header_ok h → matching pr nonce p q → opens pr h body q payload.
Proof.
  intros Hw Hh Hm. pose proof (wire_frame_unsealed room local p) as Hu.
  unfold matching, opens in *. destruct (cipher p) as [c|] eqn:Ec, (cipher q) as [c'|]; try done.
  - destruct Hm as (Hi & Hp & Hc & Ha).
    destruct (Hu c c' _ _ _ _ _ _ _ Hw eq_refl Hi Hh) as (He & -> & Ho). eauto 10.
  - unfold wire_frame in Hw. rewrite Ec in Hw. by injection Hw as <- <-.
Qed.

Lemma wire_frame_header room local p nonce pid ttl ty payload h body :
  wire_frame room local p nonce pid ttl ty payload = Some (h, body) →
  h = wire_header room local p nonce pid ttl ty (length body).
Proof.
  unfold wire_frame. destruct (cipher p) as [c|]; [|by intros [= <- <-]].
  destruct (aead_seal _ _ _ _) as [[ct tag]|] eqn:E; simpl; [|done]. intros [= <- <-].
  destruct (aead_seal_lengths _ _ _ _ _ _ E) as [Hct Htag].
  by rewrite length_app, Hct, Htag.
Qed.

(** A unicast frame for this node, from a peer whose key and window it fits, is taken. *)
Lemma wire_accepts pr now room local p q nonce ty payload h body d :
  wire_frame room local p nonce (mkPacketId 0) 0 ty payload = Some (h, body) → header_ok h →
  room_id d = Some room → local ≠ local_node_id d →
  peer_node_id (info p) = local_node_id d → ty ∈ [IPv4; IPv6; Ethernet; Discovery] →
  peers d !! local = Some q → matching pr nonce p q →
  policy_allows_packet_type ty Inbound payload d = Ok true → accepts pr now h body d payload.
Proof.
  intros Hw Hh Hr Hl Hi Hty Hq Hm Hpol. pose proof (wire_frame_opens _ _ _ _ _ _ _ _ _ _ _ _ Hw Hh Hm) as Hop.
  rewrite (wire_frame_header _ _ _ _ _ _ _ _ _ _ Hw) in *.
  set (h0 := wire_header _ _ _ _ _ _ _ _) in *.
  assert (header_is_flood h0 = false ∧ ty ≠ Ping ∧ ty ≠ Pong) as (Hfl & H1 & H2).
  { unfold header_is_flood, h0. simpl. revert Hty.
    rewrite !elem_of_cons, elem_of_nil. by intros [->|[->|[->|[->|[]]]]]. }
  split; [|split_and!; try done; by eexists].
  split; try done; [by right|]. by rewrite Hfl.
Qed.

Lemma frame_body d p room ty payload flood h body :
  frame_for d p room ty payload flood = Some (h, body) →
  (length body ≤ length payload + 16)%nat.
Proof.
  unfold frame_for, wire_frame. destruct (cipher p) as [c|]; [|intros [= _ <-]; lia].
  destruct (aead_seal _ _ _ _) as [[ct tag]|] eqn:E; simpl; [|done]. intros [= _ <-].
  destruct (aead_seal_lengths _ _ _ _ _ _ E). rewrite length_app. lia.
Qed.

(** What the two ends agree on, for a packet of this type from [a] to [b]. *)
Record linked (pr : profile) (a b : DataPlane) p q room ty payload t : Prop := {
  lk_a : dp_ok a;
  lk_room_a : room_id a = Some room;
  lk_room_b : room_id b = Some room;
  lk_peer_a : peers a !! local_node_id b = Some p;
  lk_id_a : peer_node_id (info p) = local_node_id b;
  lk_peer_b : peers b !! local_node_id a = Some q;
  lk_distinct : local_node_id a ≠ local_node_id b;
  lk_key : matching pr (next_nonce p) p q;
  lk_type : ty ∈ [IPv4; IPv6; Ethernet; Discovery];
  lk_len : (length payload ≤ MAX_DATAPLANE_PAYLOAD)%nat;
  lk_slot : q_contents (free (slab a)) ≠ [];
  lk_family : check_family (transport a) (target_of p None) = true;
  lk_policy : policy_allows_packet_type ty Inbound payload b = Ok true;
  lk_tun : tun b = Some t;
  lk_takes : tun_accepts (length (tun_written t)) payload = true;
}.

Section Linked.
Context {pr : profile} {a b : DataPlane} {p : DataPeer} {q : DataPeer} {room : RoomId}
  {ty : DataPacketType} {payload : list Z} {t : TunDevice} {h : DataHeader} {body : list Z}.
Hypothesis L : linked pr a b p q room ty payload t.
Hypothesis Hframe : frame_for a p room ty payload false = Some (h, body).

Lemma linked_header :
  h = wire_header room (local_node_id a) p (next_nonce p) (mkPacketId 0) 0 ty (length body).
Proof. apply (wire_frame_header _ _ _ _ _ _ _ _ _ _ Hframe). Qed.

Lemma linked_header_ok : header_ok h ∧ h_payload_len h = Z.of_nat (length body).
Proof using All.
  destruct L as [Ha Ra _ Pa _ _ _ _ _ Hl _ _ _ _ _]. rewrite max_payload in Hl.
  rewrite linked_header. split; [|done].
  destruct (dpo_peer a Ha _ p Pa) as [Hn _].
  pose proof (frame_body _ _ _ _ _ _ _ _ Hframe).
  apply wire_header_ok; [by eapply dpo_ids|done|unfold u_ok; simpl; lia|unfold byte_ok; lia|lia].
Qed.

Lemma linked_accepts now : accepts pr now h body b payload.
Proof using All.
  pose proof linked_header_ok as [Hh _]. destruct L as [_ ? ? _ ? ? ? ? ? _ _ _ ? _ _].
  by eapply wire_accepts.
Qed.

(** The receiving socket finds the header and the range of the payload. *)
Lemma linked_received slack addr :
  let dgram := header_bytes h ++ body in
  let range := (DATA_HEADER_SIZE, (DATA_HEADER_SIZE + length body)%nat) in
  recv_packet (dgram ++ slack) (length dgram) addr = Ok (PData (h, range), addr) ∧
  slice (dgram ++ slack) range.1 range.2 = Ok body.
Proof using All.
  cbv zeta. destruct linked_header_ok as [Hh Hpl].
  pose proof (length_header_bytes h Hh) as Hhl. rewrite length_app, Hhl, <- app_assoc. split.
  - rewrite recv_data by (done || by rewrite linked_header).
    by rewrite (bool_decide_eq_true_2 (h_payload_len h = _)).
  - cbn [fst snd]. rewrite slice_Ok by (rewrite ?length_app; lia).
    rewrite drop_app_length' by done. by rewrite take_app_length' by lia.
Qed.
End Linked.

(** The sender's half: what goes to the socket. *)
Lemma linked_sent pr a b p q room ty payload t h body k :
  linked pr a b p q room ty payload t →
  frame_for a p room ty payload false = Some (h, body) →
  socket_send (length (sent (transport a))) (header_bytes h ++ body) (target_of p None) = Some k →
  ∃ a', send_to_peer (local_node_id b) ty payload None false a = (Ok tt, a') ∧
    sent (transport a') = sent (transport a) ++ [(header_bytes h ++ body, target_of p None)].
Proof.
  intros L Hframe Hsock. pose proof (lk_slot _ _ _ _ _ _ _ _ _ L) as Hslot.
  destruct (q_contents (free (slab a))) as [|x l] eqn:Hq; [done|].
  destruct (send_spec a (local_node_id b) p room ty payload None false x l)
    as (r & a' & Hrun & _ & Hout); [by destruct L..|done|].
  rewrite Hframe in Hout. unfold send_raw, send_to, mseq, mget in Hout.
  rewrite (lk_family _ _ _ _ _ _ _ _ _ L), Hsock in Hout. destruct Hout as (-> & Ht & _).
  exists a'. split; [exact Hrun|]. by rewrite Ht.
Qed.

(** The receiver's half: what is written to its device. *)
Lemma linked_written pr now addr a b p q room ty payload t h body :
  linked pr a b p q room ty payload t →
  frame_for a p room ty payload false = Some (h, body) →
  ∃ b', handle_incoming_frame pr now h body addr b = (Ok tt, b') ∧ tun b' = Some (written t payload).
Proof.
  intros L Hframe. destruct (handle_tun pr now h body addr b t (lk_tun _ _ _ _ _ _ _ _ _ L))
    as (r & b' & Hb & [(pk & Hacc & _ & -> & Htun)|[Hno _]]).
  - exists b'. split; [exact Hb|]. rewrite Htun. do 2 f_equal.
    apply (accepts_inj _ _ _ _ _ _ _ Hacc). apply (linked_accepts L Hframe).
  - pose proof (lk_takes _ _ _ _ _ _ _ _ _ L) as Htakes.
    rewrite Hno in Htakes; [done|]. apply (linked_accepts L Hframe).
Qed.

(** A packet sent to a peer comes out of the peer's device.  When the sender's key
    seals and its socket takes the datagram, the send succeeds; the other end parses the
    datagram, whatever the buffer holds behind it, hands the payload range to its
    dataplane, and that writes exactly the sent packet to its device. *)
Theorem delivered_end_to_end pr now slack addr a b p q room ty payload t h body k :
  linked pr a b p q room ty payload t →
  frame_for a p room ty payload false = Some (h, body) →
  socket_send (length (sent (transport a))) (header_bytes h ++ body) (target_of p None)
    = Some k →
  ∃ a', send_to_peer (local_node_id b) ty payload None false a = (Ok tt, a') ∧
  ∃ dgram, sent (transport a') = sent (transport a) ++ [(dgram, target_of p None)] ∧
  ∃ range, recv_packet (dgram ++ slack) (length dgram) addr = Ok (PData (h, range), addr) ∧
  ∃ received, slice (dgram ++ slack) range.1 range.2 = Ok received ∧
  ∃ b', handle_incoming_frame pr now h received addr b = (Ok tt, b') ∧
    tun b' = Some (written t payload).
Proof.
  intros L Hframe Hsock. destruct (linked_sent _ _ _ _ _ _ _ _ _ _ _ _ L Hframe Hsock)
    as (a' & Hrun & Hsent).
  exists a'. split; [exact Hrun|]. exists (header_bytes h ++ body). split; [exact Hsent|].
  exists (DATA_HEADER_SIZE, (DATA_HEADER_SIZE + length body)%nat).
  destruct (linked_received L Hframe slack addr) as [Hrecv Hslice].
  split; [exact Hrecv|]. exists body. split; [exact Hslice|].
  exact (linked_written pr now addr a b p q room ty payload t h body L Hframe).
Qed.
End EndToEnd.

(** ** Who a packet is sent to, and whether it is sent *)
Section Outgoing.
Context `{Q : ArrayQueue} `{HQ : !ArrayQueueLaws Q} `{A : AeadLib}
  `{P : Etherparse} `{N : IpNetLib} `{R : RatelimitLib} `{K : Socket} `{T : TunIo}.
Implicit Types (d : DataPlane) (p : DataPeer).

(** Every peer once, each as a flood target. *)
Definition everyone (ts : list (NodeId * bool)) d : Prop :=
  NoDup ts.*1 ∧ ∀ n b, (n, b) ∈ ts ↔ b = true ∧ is_Some (peers d !! n).

Lemma all_peers_everyone d : everyone (all_peers d) d.
Proof.
  unfold everyone, all_peers. split.
  - rewrite <- list_fmap_compose. apply NoDup_fst_map_to_list.
  - intros n b. rewrite list_elem_of_fmap. split.
    + intros ([m p] & [= -> ->] & Hm). apply elem_of_map_to_list in Hm. eauto.
    + intros [-> [p Hp]]. exists (n, p). split; [done|]. by apply elem_of_map_to_list.
Qed.

Lemma find_spec {B} (f : B → bool) l :
  match List.find f l with
  | Some x => x ∈ l ∧ f x = true
  | None => ∀ x, x ∈ l → f x = false
  end.
Proof.
  destruct (List.find f l) eqn:E.
  - apply List.find_some in E. by rewrite list_elem_of_In.
  - intros x Hx. eapply List.find_none; [exact E|]. by apply list_elem_of_In.
Qed.

(** Who a packet from the device goes to.  On a routed device a broadcast or multicast
    packet goes to every peer, any other IPv4 packet to one peer that has its destination
    address, if there is one, and nothing else to anyone (so unicast IPv6 is never sent).
    On a bridged device a frame for a broadcast or multicast address, or for an address
    not learned from a present peer, goes to every peer, and any other frame to the peer
    its address was learned from; a frame too short for its addresses to none.  Only
    copies for everyone are marked as floods, and the choice never unwinds. *)
Theorem targets_correct now mode ty payload d :
  ∃ ts d', select_targets now mode ty payload d = (Ok ts, d') ∧
  match mode with
  | L3 => d' = d ∧
      (if bool_decide (ty ∈ [Broadcast; Multicast]) then everyone ts d
       else match ip_from_slice payload with
            | Some (Version4 _ dest _, _) =>
                (∃ n p, ts = [(n, false)] ∧ peers d !! n = Some p ∧
                   vip_octets (peer_virtual_ip (info p)) = dest) ∨
                (ts = [] ∧ ∀ n p, peers d !! n = Some p →
                   vip_octets (peer_virtual_ip (info p)) ≠ dest)
            | _ => ts = []
            end)
  | L2 => d' = put_mac_table (prune_mac_table now (mac_table d)) d ∧
      (if bool_decide (length payload < 14)%nat then ts = []
       else let dst := take 6 payload in
         if is_broadcast_mac dst || is_multicast_mac dst then everyone ts d
         else match mac_table d' !! dst with
              | Some e => if bool_decide (is_Some (peers d !! mac_node e))
                          then ts = [(mac_node e, false)] else everyone ts d
              | None => everyone ts d
              end)
  end.
Proof.
  destruct mode; simpl.
  - do 2 eexists. split; [reflexivity|]. split; [done|].
    destruct (decide (ty ∈ [Broadcast; Multicast])) as [Hty|Hty].
    { rewrite bool_decide_eq_true_2 by done. revert Hty. rewrite !elem_of_cons, elem_of_nil.
      intros [->|[->|[]]]; apply all_peers_everyone. }
    rewrite bool_decide_eq_false_2 by done.
    assert (select_l3_targets ty payload d = select_l3_targets IPv4 payload d) as ->.
    { rewrite !elem_of_cons, elem_of_nil in Hty. destruct ty; try done; naive_solver. }
    unfold select_l3_targets. destruct (ip_from_slice payload) as [[[src dest pr|nh] rest]|]; [|done..].
    match goal with |- context [List.find ?f ?l] => pose proof (find_spec f l) as Hf;
      destruct (List.find f l) as [[n p]|] end.
    + destruct Hf as [Hin Hd%bool_decide_eq_true]. apply elem_of_map_to_list in Hin. left. eauto.
    + right. split; [done|]. intros n p Hp. apply elem_of_map_to_list, Hf in Hp.
      by apply bool_decide_eq_false in Hp.
  - unfold select_l2_targets, ethernet_macs.
    destruct (decide (length payload < 14)%nat) as [Hl|Hl];
      [rewrite !bool_decide_eq_true_2 by done|rewrite !bool_decide_eq_false_2 by done].
    { do 2 eexists. split; [reflexivity|done]. }
    rewrite (slice_Ok payload 0 6), (slice_Ok payload 6 12) by lia.
    cbn [mbind outcome_bind]. rewrite drop_0.
    change (take (6 - 0) payload) with (take 6 payload). set (dst := take 6 payload).
    set (d' := put_mac_table _ d).
    pose proof (all_peers_everyone d) as Hall. change (all_peers d') with (all_peers d).
    destruct (is_broadcast_mac dst || is_multicast_mac dst).
    { do 2 eexists. split; [reflexivity|]. split; [done|exact Hall]. }
    destruct (mac_table d' !! dst) as [e|] eqn:He; cbn [mbind option_bind].
    + change (peers d') with (peers d).
      destruct (peers d !! mac_node e) as [p|] eqn:Ep; do 2 eexists; (split; [reflexivity|]);
        (split; [done|]); rewrite He.
      * by rewrite Ep, bool_decide_eq_true_2 by eauto.
      * rewrite Ep, bool_decide_eq_false_2; [exact Hall|by intros []].
    + do 2 eexists. split; [reflexivity|]. split; [done|]. rewrite He. exact Hall.
Qed.

Lemma write_tun_state packet d : ∃ x, (write_tun packet d).2 = set_tun x d.
Proof.
  unfold write_tun. rewrite (mseq_Ok mget _ d d d eq_refl).
  destruct (tun d) as [t|] eqn:Et; [|exists (tun d); by destruct d].
  destruct (tun_accepts _ _); [by eexists|exists (tun d); by destruct d].
Qed.

(** Preparing a packet changes nothing but what is on the device. *)
Lemma prepare_state pr payload d : ∃ x, (prepare_outgoing pr payload d).2 = set_tun x d.
Proof.
  assert (∃ x, d = set_tun x d) as Hid by (exists (tun d); by destruct d).
  unfold prepare_outgoing. rewrite (mseq_Ok mget _ d d d eq_refl).
  destruct (tun d) as [[[] ip w]|]; [|exact Hid..].
  unfold mseq at 1, mlift at 1. destruct (oversized _ _) as [[]|[]|]; cbn [lift]; [| |exact Hid].
  - unfold mseq at 1, mlift at 1.
    destruct (build_icmp_frag_needed _ _ _) as [[pkt|]|[]|]; cbn [lift]; [|exact Hid..].
    destruct (write_tun_state pkt d) as [x Hx].
    cbn [tun_mode]. unfold mseq, mignore. cbv beta. destruct (write_tun pkt d) as [[] d'']; cbn in Hx; subst; exists x; reflexivity.
  - unfold mseq at 1, mlift at 1. destruct (clamp_mss _ _ _) as [[? ?]|[]|]; cbn [lift]; [|exact Hid].
    unfold mseq at 1, mlift at 1.
    destruct (classify_managed_packet _ _) as [?|[]|]; cbn [lift]; exact Hid.
Qed.

(** C36: what leaves for the network passed the filters.  When a packet read from the device
    leads to a datagram, the packet was not one too large to be cut, the outbound policy
    allows it as it is sent, it has a target, and for a flood the rate limiter let it
    pass.  An answer to a packet too large goes to the device alone. *)
Theorem outgoing_filtered pr now payload d :
  transport (tun_round pr now payload d).2 ≠ transport d →
  ∃ mode ty packet ts,
    (prepare_outgoing pr payload d).1 = Ok (Proceed mode ty packet) ∧
    policy_allows mode Outbound packet d = Ok true ∧
    (select_targets now mode ty packet d).1 = Ok ts ∧ ts ≠ [] ∧
    (existsb snd ts = true → (allow_broadcast now (discovery d)).1 = true).
Proof.
  unfold tun_round. destruct (prepare_state pr payload d) as [x Hx]. unfold mseq at 1.
  destruct (prepare_outgoing pr payload d) as [[[|mode ty packet]|e|] d1]; cbn [fst snd] in *;
    subst d1; [done| |done..].
  rewrite (mseq_Ok mget _ _ _ _ eq_refl). unfold mseq at 1, mlift at 1.
  change (policy_allows mode Outbound packet (set_tun x d))
    with (policy_allows mode Outbound packet d).
  destruct (policy_allows mode Outbound packet d) as [[]|[]|] eqn:Hpol; cbn [lift negb];
    [|done..].
  assert (∃ o d2, select_targets now mode ty packet (set_tun x d) = (o, d2) ∧
    (select_targets now mode ty packet d).1 = o ∧ transport d2 = transport d ∧
    discovery d2 = discovery d) as (o & d2 & -> & Ho & Ht & Hd)
    by (destruct mode; do 2 eexists; (split; [reflexivity|done])).
  unfold mseq at 1, mmodify at 1. unfold mseq at 1, mlift at 1.
  destruct o as [ts|[]|]; cbn [lift]; [|done].
  intros Hsent. exists mode, ty, packet, ts. split_and!; [done..| |].
  - intros ->. by simpl in Hsent.
  - intros Hflood. rewrite Hflood in Hsent. rewrite <- Hd.
    unfold mseq at 1 in Hsent. rewrite (mseq_Ok mget _ d2 d2 d2 eq_refl) in Hsent.
    destruct (allow_broadcast now (discovery d2)) as [[] dm]; [done|].
    by cbn in Hsent.
Qed.
End Outgoing.

(** ** Two nodes of one room *)
Module Demo.
Definition no_nets : IpNetLib := {| IpNet := unit; ipnet_contains _ _ := true |}.
Definition free_flow : RatelimitLib := {|
  Ratelimiter := unit; limiter_build _ _ _ _ := Some tt; try_wait _ l := (true, l) |}.
Definition open_tun : TunIo := {| tun_accepts _ _ := true |}.
#[local] Existing Instances list_queue toy_aead plain_etherparse no_nets free_flow toy_socket
  open_tun toy_postcard.

Definition node_a : NodeId := mkNodeId (replicate 32 1).
Definition node_b : NodeId := mkNodeId (replicate 32 2).
Definition the_room : RoomId := mkRoomId (replicate 16 7).
Definition relay : SocketAddr := mkSocketAddr (V4 (ipv4 1 1 1 1)) 9000.

Definition peer_of (n : NodeId) (host : Z) : DataPeer :=
  mkDataPeer (mkPeerInfo n (mkVirtualIp [10; 0; 0; host]) "" []) (PathManager_new 0 relay)
    (Some toy_cipher) (mkSessionId 5) 1.

Definition node (me other : NodeId) (host : Z) : DataPlane :=
  mkDataPlane me (mkTransport None []) (Some (mkTun Tun None None 1280 []))
    (Some the_room) {[ other := peer_of other host ]}
    (mkDiscoveryManager DiscoveryConfig_default (tt : Ratelimiter)) Observability.new
    (mkPacketSlab (replicate 1 (replicate DEFAULT_FRAME_CAP 0)) (([0], 1%nat) : Queue) 128)
    (Qos.new 8) 1 Flood.new ∅ TrafficPolicy_default true 1400.

Definition at_a : DataPlane := node node_a node_b 2.
Definition at_b : DataPlane := node node_b node_a 1.
Definition hello : list Z := [1; 2; 3].

Lemma replicate_bytes n z : byte_ok z → bytes_ok (replicate n z).
Proof. intros. by apply Forall_replicate. Qed.

Lemma node_dp_ok me other host : node_ok me → node_ok other → dp_ok (node me other host).
Proof.
  intros Hme Hother. split.
  - apply Forall_singleton. apply length_replicate.
  - apply Forall_singleton. simpl. lia.
  - simpl. lia.
  - unfold u_ok. simpl. lia.
  - intros n p. unfold node. cbn [peers]. intros [<- <-]%lookup_singleton_Some.
    unfold u_ok. simpl. lia.
  - intros room n p. unfold node. cbn [peers room_id]. intros [= <-].
    intros [<- <-]%lookup_singleton_Some.
    split; [|done|done|unfold u_ok; simpl; lia].
    split; [apply length_replicate|apply replicate_bytes; unfold byte_ok; lia].
Qed.

Lemma replicate_node z : byte_ok z → node_ok (mkNodeId (replicate 32 z)).
Proof. intros Hz. split; [apply length_replicate|by apply replicate_bytes]. Qed.

Lemma at_a_ok : dp_ok at_a.
Proof. apply node_dp_ok; apply replicate_node; unfold byte_ok; lia. Qed.

Lemma send_outcome_witness :
  ∃ r d', send_to_peer node_b IPv4 hello None false at_a = (r, d') ∧ dp_ok d' ∧ r = Ok tt ∧
    q_contents (free (slab d')) = [0] ∧ idle (scheduler d').
Proof.
  destruct (send_outcome at_a node_b IPv4 hello None false at_a_ok)
    as (r & d' & Hrun & Hok & Hout).
  exists r, d'. split; [exact Hrun|]. split; [exact Hok|].
  change (r = Ok tt ∧ q_contents (free (slab d')) = [0] ∧ idle (scheduler d')).
  destruct Hout as [_ (Hr & _ & Hq & Hidle)]. split; [exact Hr|]. split; [exact Hq|].
  apply Hidle. by repeat split.
Defined.

Lemma nodes_linked me other : node_ok me → node_ok other → me ≠ other →
  linked Release (node me other 2) (node other me 1) (peer_of other 2) (peer_of me 1) the_room
    IPv4 hello (mkTun Tun None None 1280 []).
Proof.
  intros Hme Hother Hne. split; try reflexivity.
  - by apply node_dp_ok.
  - apply lookup_singleton_eq.
  - apply lookup_singleton_eq.
  - done.
  - repeat split.
  - apply elem_of_cons. by left.
  - rewrite max_payload. simpl. lia.
  - done.
Qed.

Lemma demo_linked :
  linked Release at_a at_b (peer_of node_b 2) (peer_of node_a 1) the_room IPv4 hello
    (mkTun Tun None None 1280 []).
Proof. apply nodes_linked; [apply replicate_node; unfold byte_ok; lia..|done]. Qed.

(** The frame of the demo packet. *)
Definition demo_frame : DataHeader * list Z :=
  default (wire_header the_room node_a (peer_of node_b 2) 0 (mkPacketId 0) 0 IPv4 0, [])
    (frame_for at_a (peer_of node_b 2) the_room IPv4 hello false).

Lemma delivered_end_to_end_witness :
  ∃ a', send_to_peer node_b IPv4 hello None false at_a = (Ok tt, a') ∧
  ∃ dgram, sent (transport a') = [(dgram, relay)] ∧
  ∃ range, recv_packet (dgram ++ [0; 0]) (length dgram) relay
    = Ok (PData (demo_frame.1, range), relay) ∧
  ∃ received, slice (dgram ++ [0; 0]) range.1 range.2 = Ok received ∧
  ∃ b', handle_incoming_frame Release 5 demo_frame.1 received relay at_b = (Ok tt, b') ∧
    tun b' = Some (mkTun Tun None None 1280 [hello]).
Proof.
  exact (delivered_end_to_end Release 5 [0; 0] relay at_a at_b _ _ the_room IPv4 hello
    (mkTun Tun None None 1280 []) demo_frame.1 demo_frame.2 (148 + length demo_frame.2)%nat demo_linked
    eq_refl eq_refl).
Defined.

(** The keyed peer of the demo: the packet of its frame opens under the key, and its nonce
    is taken once. *)
Lemma incoming_writes_witness :
  ∃ r d', handle_incoming_frame Release 5 demo_frame.1 demo_frame.2 relay at_b = (r, d') ∧
    ((∃ packet, accepts Release 5 demo_frame.1 demo_frame.2 at_b packet ∧ true = true ∧
        r = Ok tt ∧ tun d' = Some (mkTun Tun None None 1280 [packet])) ∨
     ((∀ packet, accepts Release 5 demo_frame.1 demo_frame.2 at_b packet → true = false) ∧
        tun d' = Some (mkTun Tun None None 1280 []))) ∧
    ∀ packet, accepts Release 5 demo_frame.1 demo_frame.2 at_b packet →
      ∃ p, peers at_b !! h_src_node demo_frame.1 = Some p ∧
      match cipher p with
      | Some c =>
          (∃ aad, encode_into demo_frame.1 (replicate DATA_HEADER_SIZE 0) = Ok aad ∧
            frame_open c (mkFrame (h_nonce demo_frame.1) aad demo_frame.2) = Some packet) ∧
          ∀ now2 h2 payload2 packet2, h_src_node h2 = h_src_node demo_frame.1 →
            h_nonce h2 = h_nonce demo_frame.1 → ¬ accepts Release now2 h2 payload2 d' packet2
      | None => packet = demo_frame.2 ∧
          (header_is_flood demo_frame.1 = false →
           ∀ now2, accepts Release now2 demo_frame.1 demo_frame.2 d' packet)
      end.
Proof.
  exact (incoming_writes Release 5 demo_frame.1 demo_frame.2 relay at_b (mkTun Tun None None 1280 [])
    eq_refl ltac:(split; [vm_compute; discriminate|vm_compute; reflexivity])).
Defined.

(** A packet of the routed device, from 10.0.0.1 to 10.0.0.2. *)
Definition ip_packet : list Z :=
  [69; 0; 0; 20; 0; 0; 0; 0; 64; 17; 0; 0; 10; 0; 0; 1; 10; 0; 0; 2].

Lemma outgoing_filtered_witness :
  ∃ mode ty packet ts,
    (prepare_outgoing Release ip_packet at_a).1 = Ok (Proceed mode ty packet) ∧
    policy_allows mode Outbound packet at_a = Ok true ∧
    (select_targets 5 mode ty packet at_a).1 = Ok ts ∧ ts ≠ [] ∧
    (existsb snd ts = true → (allow_broadcast 5 (discovery at_a)).1 = true).
Proof.
  apply (outgoing_filtered Release 5 ip_packet at_a).
  intros E.
  assert (length (sent (transport (tun_round Release 5 ip_packet at_a).2)) = 1%nat) as E2
    by (vm_compute; reflexivity).
  rewrite E in E2. discriminate.
Defined.
End Demo.
