(* ===== verification/Typed.v ===== *)
(** What every dataplane is, whatever was done to it: identifiers of their size, numbers in
    their width, an active path for every peer, slots that exist and are free at most once;
    and what it has sent, which is frames that parse. *)
From Stdlib Require Import ZArith Lia.
From stdpp Require Import base tactics numbers list gmap strings.
From S2P Require Import Prelude Bytes Net Common Proto Slab Etherparse Qos Crypto Defense.
From S2P Require Import Policy Discovery F32 Path Observability Transport Flood MacTable.
From S2P Require Import Dataplane Overlay Delivery.
Local Open Scope Z_scope.

Section Typed.
Context `{Q : ArrayQueue} `{HQ : !ArrayQueueLaws Q} `{A : AeadLib} `{HA : !AeadLaws A}
  `{P : Etherparse} `{N : IpNetLib} `{R : RatelimitLib} `{K : Socket} `{T : TunIo}
  `{PC : Postcard}.
Implicit Types (d : DataPlane) (p : DataPeer).

Definition has_path (m : PathManager) : Prop := (active_index m < length (paths m))%nat.

Record peer_typed p : Prop := {
  pt_id : node_ok (peer_node_id (info p));
  pt_session : u_ok 64 (session_u64 (session_id p));
  pt_nonce : u_ok 64 (next_nonce p);
  pt_path : has_path (path_manager p);
}.

(** A frame that its receiver can take apart. *)
Definition framed (local : NodeId) (m : list Z * SocketAddr) : Prop :=
  ∃ h body, m.1 = header_bytes h ++ body ∧ header_ok h ∧ h_version h = PROTOCOL_VERSION ∧
    h_src_node h = local ∧ h_payload_len h = Z.of_nat (length body) ∧
    (length m.1 ≤ DEFAULT_FRAME_CAP)%nat.

(** What is on the wire: a data frame of this node, or a control frame. *)
Definition on_wire (local : NodeId) (m : list Z * SocketAddr) : Prop :=
  framed local m ∨ ∃ f body, to_stdvec f = Some body ∧ m.1 = CONTROL_MAGIC ++ body.

Record dp_typed d : Prop := {
  dt_local : node_ok (local_node_id d);
  dt_room : ∀ r, room_id d = Some r → room_ok r;
  dt_peers : ∀ n p, peers d !! n = Some p → peer_typed p;
  dt_packet_id : u_ok 64 (next_packet_id d);
  dt_slots : Forall (λ s, length s = DEFAULT_FRAME_CAP) (slots (slab d));
  dt_free : Forall (λ z, 0 ≤ z < Z.of_nat (length (slots (slab d)))) (q_contents (free (slab d)));
  dt_once : NoDup (q_contents (free (slab d)));
  dt_cap : (length (q_contents (free (slab d))) ≤ q_cap (free (slab d)))%nat;
  dt_sent : Forall (on_wire (local_node_id d)) (sent (transport d));
}.

Lemma typed_ok d : dp_typed d → dp_ok d.
Proof.
  intros []. split; try done.
  - intros n p Hp. by destruct (dt_peers0 n p Hp).
  - intros room n p Hr Hp. destruct (dt_peers0 n p Hp). split; [by apply dt_room0|done..].
Qed.

(** *** What does not touch any of it *)
Definition core d := (local_node_id d, room_id d, next_packet_id d, slab d, transport d).

Lemma typed_change d d' : core d' = core d →
  (∀ n p, peers d' !! n = Some p → peer_typed p) → dp_typed d → dp_typed d'.
Proof. intros [= E1 E2 E3 E4 E5] Hp []. split; rewrite ?E1, ?E2, ?E3, ?E4, ?E5; done. Qed.

Lemma typed_same d d' : core d' = core d → peers d' = peers d → dp_typed d → dp_typed d'.
Proof. intros Hc Hp Hd. apply (typed_change d); [done| |done]. rewrite Hp. apply Hd. Qed.

Lemma typed_peer n f d : (∀ p, peer_typed p → peer_typed (f p)) →
  dp_typed d → dp_typed (with_peer n f d).
Proof.
  intros Hf Hd. apply (typed_change d); [done| |done]. intros m p.
  change (peers (with_peer n f d)) with (alter f n (peers d)). rewrite lookup_alter.
  case_decide; [|apply Hd]. subst. destruct (peers d !! m) as [q|] eqn:E; [|done].
  intros [= <-]. apply Hf. by apply (dt_peers d Hd m).
Qed.

Lemma typed_paths n f d : (∀ m, has_path m → has_path (f m)) →
  dp_typed d → dp_typed (with_paths n f d).
Proof. intros Hf. apply typed_peer. intros p []. split; try done. by apply Hf. Qed.

Lemma typed_insert n p d : peer_typed p → dp_typed d → dp_typed (put_peers (<[n := p]> (peers d)) d).
Proof.
  intros Hp Hd. apply (typed_change d); [done| |done]. intros m q.
  change (peers (put_peers (<[n := p]> (peers d)) d)) with (<[n := p]> (peers d)).
  rewrite lookup_insert. case_decide; [by intros [= <-]|apply Hd].
Qed.

(** *** Paths *)
Lemma update_first_length addr f l : length (update_first addr f l) = length l.
Proof.
  induction l as [|x l IH]; [done|]. cbn [update_first]. case_bool_decide; cbn; [done|by rewrite IH].
Qed.
Lemma reevaluate_path now m : has_path m → has_path (reevaluate now m).
Proof.
  unfold has_path, reevaluate. intros H. destruct (paths m) as [|x l] eqn:E; [by rewrite E in *|].
  cbn [paths active_index].
  destruct (best_path_spec now (x :: l) 0 0 f32_max) as [[-> _]|(k & q & -> & Hk & _)].
  - cbn. lia.
  - by apply lookup_lt_Some in Hk.
Qed.
Lemma add_path now addr r m : has_path m → has_path (add_or_update_path now addr r m).2.
Proof.
  unfold has_path, add_or_update_path. intros H. destruct (position addr (paths m)); [done|].
  cbn. rewrite length_app. lia.
Qed.
Lemma success_path now addr rtt m : has_path m → has_path (record_success now addr rtt m).
Proof.
  intros H. apply reevaluate_path. unfold has_path. cbn [paths active_index].
  by rewrite update_first_length.
Qed.
Lemma failure_path now addr m : has_path m → has_path (record_failure now addr m).
Proof.
  intros H. apply reevaluate_path. unfold has_path. cbn [paths active_index].
  by rewrite update_first_length.
Qed.

(** *** Sending *)
Lemma frame_typed d n p room packet_type payload flood h body addr :
  dp_typed d → room_id d = Some room → peers d !! n = Some p →
  (length payload ≤ MAX_DATAPLANE_PAYLOAD)%nat →
  frame_for d p room packet_type payload flood = Some (h, body) →
  framed (local_node_id d) (header_bytes h ++ body, addr).
Proof.
  intros Hd Hr Hp Hl Hf. rewrite max_payload in Hl. pose proof (typed_ok d Hd) as Hok.
  pose proof (frame_body _ _ _ _ _ _ _ _ Hf) as Hb.
  pose proof (wire_frame_header _ _ _ _ _ _ _ _ _ _ Hf) as ->.
  set (h := wire_header _ _ _ _ _ _ _ _).
  assert (header_ok h) as Hh.
  { apply wire_header_ok; [by eapply dpo_ids|apply (dpo_peer d Hok n p Hp)|..|lia].
    - unfold frame_id. destruct flood; [apply (dt_packet_id d Hd)|unfold u_ok; simpl; lia].
    - unfold byte_ok, frame_ttl, FLOOD_TTL. destruct flood; lia. }
  exists h, body. split_and!; try done. cbn [fst].
  rewrite length_app, length_header_bytes by done. unfold DEFAULT_FRAME_CAP, DATA_HEADER_SIZE in *. lia.
Qed.

Lemma sent_once (q' l : list Z) x : NoDup (x :: l) → q' = l ∨ q' = l ++ [x] → NoDup q'.
Proof.
  intros [Hx Hl]%NoDup_cons [->| ->]; [done|]. apply NoDup_app. split; [done|].
  split; [|apply NoDup_singleton]. intros y Hy ->%list_elem_of_singleton. done.
Qed.

Lemma send_raw_sent frame addr t :
  sent (send_raw frame addr t).2 = sent t ∨ sent (send_raw frame addr t).2 = sent t ++ [(frame, addr)].
Proof.
  unfold send_raw, send_to, mseq, mget, mreturn. destruct (check_family t addr); [|by left].
  destruct (socket_send _ _ _); [by right|by left].
Qed.

(** A send that had a slot, its outcome known. *)
Lemma typed_sent d d' n p room x l packet_type payload override flood r :
  dp_typed d → room_id d = Some room → peers d !! n = Some p →
  (length payload ≤ MAX_DATAPLANE_PAYLOAD)%nat → q_contents (free (slab d)) = x :: l →
  dp_ok d' → sent_common d d' n p flood →
  match frame_for d p room packet_type payload flood with
  | None => r = Err EncryptFailed ∧ q_contents (free (slab d')) = l ∧
      transport d' = transport d ∧ scheduler d' = scheduler d
  | Some (h, body) =>
      match send_raw (header_bytes h ++ body) (target_of p override) (transport d) with
      | (Ok _, t) => r = Ok tt ∧ transport d' = t ∧ q_contents (free (slab d')) = l ++ [x] ∧
          (idle (scheduler d) → idle (scheduler d'))
      | (_, t) => r = Err SendFailed ∧ transport d' = t ∧ q_contents (free (slab d')) = l ∧
          (idle (scheduler d) → ¬ idle (scheduler d'))
      end
  end → dp_typed d'.
Proof.
  intros Hd Hroom Hp Hlen Hq Hok' Hc Hout. pose proof (dt_once d Hd) as Honce. rewrite Hq in Honce.
  pose proof (dt_peers d Hd n p Hp) as [].
  assert (NoDup (q_contents (free (slab d'))) ∧ Forall (on_wire (local_node_id d)) (sent (transport d')))
    as [Hn Hs].
  { pose proof (dt_sent d Hd) as Hsent. destruct (frame_for _ _ _ _ _ _) as [[h body]|] eqn:Ef.
    - pose proof (send_raw_sent (header_bytes h ++ body) (target_of p override) (transport d)) as Hr.
      pose proof (frame_typed d n p room packet_type payload flood h body (target_of p override)
        Hd Hroom Hp Hlen Ef) as Hf.
      destruct (send_raw _ _ _) as [o t]. cbn [snd] in Hr.
      assert (Forall (on_wire (local_node_id d)) (sent t)) as Ht.
      { destruct Hr as [->| ->]; [done|]. apply Forall_app_2; [done|]. apply Forall_singleton. by left. }
      destruct o; destruct Hout as (_ & -> & Hl & _); (split; [eapply sent_once; [exact Honce|]|done]); auto.
    - destruct Hout as (_ & Hl & -> & _). split; [eapply sent_once; [exact Honce|by left]|done]. }
  destruct Hc as [_ Hpeers Hid _ Hr Hloc Hsl Hcount Hcap]. destruct Hok'. split; rewrite ?Hr, ?Hloc; try done;
    try apply Hd.
  intros m q. rewrite Hpeers, lookup_insert. case_decide; [|apply Hd]. intros [= <-].
  split; try done. by apply wrap_range.
Qed.

Lemma typed_send n packet_type payload override flood d :
  dp_typed d → dp_typed (send_to_peer n packet_type payload override flood d).2.
Proof.
  intros Hd. destruct (send_outcome d n packet_type payload override flood (typed_ok d Hd))
    as (r & d' & -> & Hok & H). cbn [snd]. case_bool_decide as Hl; [by destruct H as [_ ->]|].
  destruct (room_id d) as [room|] eqn:Hr; [|by destruct H as [_ ->]].
  destruct (peers d !! n) as [p|] eqn:Hp; [|by destruct H as [_ ->]].
  destruct (q_contents (free (slab d))) as [|x l] eqn:Hq; [by destruct H as [_ ->]|].
  destruct H as [Hc Hout]. apply (typed_sent d d' n p room x l packet_type payload override flood r); (done || lia).
Qed.

(** *** Handlers *)
Definition stays {B} (m : DPM B) (d : DataPlane) : Prop := leads (λ d d', dp_typed d → dp_typed d') m d.

Lemma stays_send n packet_type payload override flood d :
  stays (send_to_peer n packet_type payload override flood) d.
Proof. exact (typed_send n packet_type payload override flood d). Qed.

Lemma stays_view {B} (m : DPM B) d : keeps (λ d, (core d, peers d)) m → stays m d.
Proof.
  intros Hk Hd. specialize (Hk d). injection Hk as H1 H2 H3 H4 H5 H6.
  eapply typed_same; [|exact H6|exact Hd]. unfold core. congruence.
Qed.

Lemma stays_modify (f : DataPlane → DataPlane) d :
  core (f d) = core d → peers (f d) = peers d → stays (mmodify f) d.
Proof. intros Hc Hp Hd. by apply (typed_same d). Qed.

Lemma stays_paths n f d : (∀ m, has_path m → has_path (f m)) → stays (mmodify (with_paths n f)) d.
Proof. intros Hf Hd. by apply typed_paths. Qed.

Lemma typed_direct now n addr c d : dp_typed d → dp_typed (set_direct_path now n addr c d).
Proof.
  apply typed_peer. intros p [].
  assert (has_path (record_success now addr direct_rtt (add_or_update_path now addr false (path_manager p)).2))
    by (by apply success_path, add_path).
  destruct c; by split.
Qed.
Lemma stays_direct now n addr c d : stays (mmodify (set_direct_path now n addr c)) d.
Proof. exact (typed_direct now n addr c d). Qed.

Lemma open_frame_typed pr h payload p : peer_typed p → peer_typed (open_frame pr h payload p).2.
Proof.
  intros []. unfold open_frame. destruct (cipher p); [|done].
  destruct (encode_into _ _); [|done..]. destruct (decrypt_in_place _ _ _ _ _) as [[[? ?]| |] ?]; by split.
Qed.

Hint Resolve add_path success_path failure_path : typed.

(** The text of a handler, and the changes it makes. *)
Ltac typed_step :=
  match goal with
  | |- leads _ (mmodify (with_paths _ _)) _ => apply stays_paths; solve [eauto with typed]
  | |- leads _ (mmodify (set_direct_path _ _ _ _)) _ => apply stays_direct
  | |- leads _ (mmodify _) _ => apply stays_modify; reflexivity
  | |- leads _ (send_to_peer _ _ _ _ _) _ => apply stays_send
  | |- _ => leads_step
  end.

Lemma stays_pong now h packet d : stays (handle_pong now h packet) d.
Proof. unfold stays, handle_pong. repeat typed_step. Qed.

Lemma stays_candidate now n addr d : stays (mmodify (add_peer_candidate now n addr)) d.
Proof. apply stays_paths. auto with typed. Qed.

Lemma stays_write packet d : stays (write_tun packet) d.
Proof. unfold stays, write_tun. repeat typed_step. Qed.

Lemma stays_deliver now h packet addr d : stays (deliver_packet now h packet addr) d.
Proof. unfold stays, deliver_packet. repeat (typed_step || apply stays_write). Qed.

Lemma stays_incoming pr now h payload addr d :
  stays (handle_incoming_frame pr now h payload addr) d.
Proof.
  unfold stays, handle_incoming_frame. apply leads_mseq; [typeclasses eauto| |].
  { apply stays_view. unfold validate_incoming_header. keeps. }
  intros [] d1 _; cbn [negb]; [|apply leads_mreturn; typeclasses eauto].
  apply leads_mget. destruct (peers d1 !! h_src_node h) as [p|] eqn:Hp; [|apply leads_mreturn; typeclasses eauto].
  destruct (open_frame pr h payload p) as [r p'] eqn:Eo. apply leads_mseq; [typeclasses eauto| |].
  { intros Hd. apply typed_insert; [|done]. change p' with (r, p').2. rewrite <- Eo.
    apply open_frame_typed. by apply (dt_peers d1 Hd (h_src_node h)). }
  intros _ d2 _.
  repeat (apply stays_candidate || apply stays_pong || apply stays_deliver || typed_step).
Qed.

Lemma typed_targets now mode t payload d :
  dp_typed d → dp_typed (select_targets now mode t payload d).2.
Proof. destruct mode; [done|]. by apply typed_same. Qed.

Lemma stays_target t payload target d : stays (send_target t payload target) d.
Proof.
  unfold stays, leads, send_target. intros Hd.
  pose proof (typed_send target.1 t payload None target.2 d Hd) as H.
  destruct (send_to_peer _ _ _ _ _ d) as [[] d']; try exact H. by apply (typed_same d').
Qed.

Lemma stays_prepare pr payload d : stays (prepare_outgoing pr payload) d.
Proof. unfold stays, prepare_outgoing. repeat (typed_step || apply stays_write). Qed.

Lemma stays_round pr now payload d : stays (tun_round pr now payload) d.
Proof.
  unfold stays, tun_round. apply leads_mseq; [typeclasses eauto|apply stays_prepare|].
  intros [|mode t q] d1 _; [apply leads_mreturn; typeclasses eauto|]. repeat typed_step.
  all: try apply stays_target.
  intros Hd. match goal with H : mlift _ _ = (Ok _, _) |- _ => injection H as _ <- end.
  match goal with E : select_targets _ _ _ _ _ = _ |- _ =>
    pose proof (typed_targets now mode t q d1 Hd) as H; by rewrite E in H end.
Qed.

Lemma typed_late now late d : dp_typed d →
  dp_typed (fold_left (λ d na, with_paths na.1 (record_failure now na.2) d) late d).
Proof.
  revert d. induction late as [|[n a] late IH]; intros d Hd; [done|].
  apply IH. apply typed_paths; [|done]. auto with typed.
Qed.

Lemma stays_ping_paths now n id active ps seq d : stays (ping_paths now n id active ps seq) d.
Proof.
  unfold stays. revert seq d. induction ps as [|p ps IH]; intros seq d; cbn [ping_paths].
  - apply leads_mreturn; typeclasses eauto.
  - unfold ping_path. repeat (typed_step || apply IH).
Qed.

Lemma stays_ping_peers now ns seq d : stays (ping_peers now ns seq) d.
Proof.
  unfold stays. revert seq d. induction ns as [|n ns IH]; intros seq d; cbn [ping_peers].
  - apply leads_mreturn; typeclasses eauto.
  - repeat (apply stays_ping_paths || typed_step || apply IH).
Qed.

Lemma stays_ping now seq d : stays (ping_round now seq) d.
Proof.
  unfold stays, ping_round. repeat (apply stays_ping_peers || typed_step).
  intros Hd. by apply typed_late.
Qed.

(** *** Everything that is done to a dataplane *)
Inductive dp_op :=
| OpRoom (r : option RoomId) | OpDevice (t : option TunDevice) | OpPolicy (pol : TrafficPolicy)
| OpDiscovery (m : DiscoveryManager) | OpUpsert (p : DataPeer) | OpRemove (n : NodeId) | OpClear
| OpDirect (now : Z) (n : NodeId) (addr : SocketAddr) (c : option (Cipher A))
| OpCandidate (now : Z) (n : NodeId) (addr : SocketAddr) | OpTable (now : Z)
| OpControl (f : ControlFrame) (addr : SocketAddr)
| OpRead (pr : profile) (now : Z) (payload : list Z)
| OpFrame (pr : profile) (now : Z) (h : DataHeader) (payload : list Z) (addr : SocketAddr)
| OpPing (now seq : Z).

(** What the types of the arguments guarantee. *)
Definition op_typed (o : dp_op) : Prop :=
  match o with
  | OpRoom (Some r) => room_ok r
  | OpUpsert p => peer_typed p
  | _ => True
  end.

Definition run_op (o : dp_op) (d : DataPlane) : DataPlane :=
  match o with
  | OpRoom r => set_room_id r d
  | OpDevice t => set_tun t d
  | OpPolicy pol => set_traffic_policy pol d
  | OpDiscovery m => put_discovery m d
  | OpUpsert p => upsert_peer p d
  | OpRemove n => remove_peer n d
  | OpClear => clear_peers d
  | OpDirect now n addr c => set_direct_path now n addr c d
  | OpCandidate now n addr => add_peer_candidate now n addr d
  | OpTable now => (l2_table_snapshot now d).2
  | OpControl f addr => set_transport (send_control f addr (transport d)).2 d
  | OpRead pr now payload => (tun_round pr now payload d).2
  | OpFrame pr now h payload addr => (handle_incoming_frame pr now h payload addr d).2
  | OpPing now seq => (ping_round now seq d).2
  end.

Lemma control_sent f addr t local : Forall (on_wire local) (sent t) →
  Forall (on_wire local) (sent (send_control f addr t).2).
Proof.
  intros Ht. unfold send_control, mseq, mget, mlift, send_to. destruct (check_family t addr); [|done].
  destruct (to_stdvec f) as [body|] eqn:E; cbn [ok_or]; [|done].
  destruct (socket_send _ _ _); [|done]. apply Forall_app_2; [done|]. apply Forall_singleton.
  right. by exists f, body.
Qed.

Lemma typed_upsert p d : peer_typed p → dp_typed d → dp_typed (upsert_peer p d).
Proof.
  intros Hp Hd. unfold upsert_peer. destruct (peers d !! _) as [q|] eqn:E; apply typed_insert; try done.
  destruct Hp, (dt_peers d Hd _ q E). by split.
Qed.

Lemma typed_op o d : op_typed o → dp_typed d → dp_typed (run_op o d).
Proof.
  intros Ho Hd. destruct o; cbn [run_op].
  - destruct Hd. split; try done. intros r' Hr. cbn in Hr. by subst.
  - by apply (typed_same d).
  - by apply (typed_same d).
  - by apply (typed_same d).
  - by apply typed_upsert.
  - apply (typed_change d); [done| |done]. intros m q Hq.
    change (peers (remove_peer n d)) with (delete n (peers d)) in Hq.
    apply lookup_delete_Some in Hq as [_ Hq]. by apply (dt_peers d Hd m).
  - by apply (typed_change d).
  - by apply typed_direct.
  - apply typed_paths; [|done]. auto with typed.
  - by apply (typed_same d).
  - destruct Hd. split; try done. by apply control_sent.
  - by apply stays_round.
  - by apply stays_incoming.
  - by apply stays_ping.
Qed.

Lemma typed_new local t device disc m mtu d :
  node_ok local → Forall (on_wire local) (sent t) →
  Dataplane.new local t device disc m mtu = Ok d → dp_typed d.
Proof.
  intros Hl Ht. unfold Dataplane.new, default_pool.
  destruct (new_spec DEFAULT_FRAME_CAP (Z.to_nat 4096) DEFAULT_HEADROOM) as (s & -> & Hf & Hc & Hs & _);
    [lia|lia|]. intros [= <-]. split; cbn; try done.
  - rewrite Hs. by apply Forall_replicate, length_replicate.
  - rewrite Hf, Hs, length_replicate. apply Forall_forall. intros z. by rewrite elem_of_slot_numbers.
  - rewrite Hf. apply slot_numbers_NoDup.
  - rewrite Hf, Hc. unfold slot_numbers. by rewrite length_map, length_seq.
Qed.

(** C20: a dataplane is well typed, and what it sends can be read.  Whatever is done to a new
    one, by packets, frames, pings, changes of peers, rooms and devices and the control frames
    of the edge that share its socket, with arguments of their types: its identifiers have
    their sizes and its counters their widths, every peer has an active path, no slot is free
    twice and all exist; and everything it ever gave to the socket is parsed by a receiver,
    as a control frame or as a data frame from this node whose header has the length of its
    payload, which fits a slot. *)
Theorem dataplane_typed `{!PostcardLaws PC} local t device disc m mtu d0 ops :
  node_ok local → Forall (on_wire local) (sent t) →
  Dataplane.new local t device disc m mtu = Ok d0 → Forall op_typed ops →
  let d := fold_left (λ d o, run_op o d) ops d0 in
  dp_typed d ∧
  ∀ dgram addr slack from, (dgram, addr) ∈ sent (transport d) →
    ∃ packet, recv_packet (dgram ++ slack) (length dgram) from = Ok (packet, from) ∧
      match packet with
      | PControl f => ∃ body, to_stdvec f = Some body
      | PData (h, range) => header_ok h ∧ h_src_node h = local_node_id d ∧
          range = payload_range h ∧ range.2 = length dgram ∧ (range.2 ≤ DEFAULT_FRAME_CAP)%nat
      end.
Proof.
  intros Hl Ht Hnew Hops d.
  assert (dp_typed d) as Hd.
  { apply typed_new in Hnew; [|done..]. subst d. clear Ht. revert d0 Hnew.
    induction Hops as [|o ops Ho _ IH]; intros d0 Hd; [done|]. apply IH. by apply typed_op. }
  split; [exact Hd|]. intros dgram addr slack from Hin.
  pose proof (dt_sent d Hd) as Hs. rewrite Forall_forall in Hs. destruct (Hs _ Hin) as
    [(h & body & E & Hh & Hv & Hsrc & Hlen & Hcap)|(f & body & Ef & E)]; cbn [fst] in E; subst dgram.
  - exists (PData (h, (DATA_HEADER_SIZE, (DATA_HEADER_SIZE + length body)%nat))).
    assert (length (header_bytes h ++ body) = DATA_HEADER_SIZE + length body)%nat as El
      by (rewrite length_app, length_header_bytes by done; reflexivity).
    cbn [fst] in Hcap. rewrite El in *. rewrite <- app_assoc, recv_data by done.
    rewrite bool_decide_eq_true_2 by done. split; [done|]. split_and!; try done.
    unfold payload_range. by rewrite Hlen, Nat2Z.id.
  - exists (PControl f). split; [by apply recv_control|]. by exists body.
Qed.
End Typed.

(** A node that enters a room, meets a peer, greets the supernode and sends it a packet. *)
Module TypedDemo.
Import Demo.
#[local] Existing Instances list_queue toy_aead plain_etherparse no_nets free_flow toy_socket
  open_tun toy_postcard.

Definition fresh : total DataPlane :=
  Dataplane.new node_a (mkTransport None []) (Some (mkTun Tun None None 1280 []))
    (mkDiscoveryManager DiscoveryConfig_default (tt : Ratelimiter)) Observability.new 1400.
Definition meeting : list dp_op :=
  [OpRoom (Some the_room); OpUpsert (peer_of node_b 2); OpControl Heartbeat relay;
   OpRead Release 5 ip_packet].

Lemma meeting_typed : Forall op_typed meeting.
Proof.
  repeat constructor; try apply length_replicate; try (apply replicate_bytes; unfold byte_ok; lia);
    unfold u_ok; cbn; lia.
Qed.

Lemma dataplane_typed_witness :
  ∃ d0, fresh = Ok d0 ∧
  let d := fold_left (λ d o, run_op o d) meeting d0 in
  dp_typed d ∧ length (sent (transport d)) = 2%nat.
Proof.
  destruct fresh as [d0|[]|] eqn:E.
  - exists d0. split; [reflexivity|]. split.
    + refine (proj1 (dataplane_typed node_a _ _ _ _ _ d0 meeting _ _ E meeting_typed)).
      * split; [apply length_replicate|apply replicate_bytes; unfold byte_ok; lia].
      * constructor.
    + assert (match fresh with Ok d => length (sent (transport
        (fold_left (λ d o, run_op o d) meeting d))) | _ => 0%nat end = 2%nat) as H
        by (vm_compute; reflexivity).
      rewrite E in H. exact H.
  - assert (is_ok fresh = true) as H by (vm_compute; reflexivity). rewrite E in H. discriminate.
Defined.
End TypedDemo.
