(* ===== verification/Rewrite.v ===== *)
(** What macOS does to a broadcast before it is written to the device: its destination becomes
    the address of the device (rewrite_ipv4_destination in crates/r2n-dataplane/src/lib.rs).
    The other systems write the packet as it is, which is what Dataplane does.

    The header slices of etherparse and their checksums are an interface, [HeaderSlices]; its
    laws say where a header keeps its fields and what the checksums of RFC 791, 768 and 793
    are. *)
From Stdlib Require Import ZArith Lia.
From stdpp Require Import base tactics numbers list.
From S2P Require Import Prelude Bytes Net Etherparse Proto Defense Dataplane.
Local Open Scope Z_scope.

Record Ipv4Slice := mkIpv4Slice {
  v_len : nat;
  v_source : list Z;
  v_destination : list Z;
  v_protocol : Z;
}.

(** [Ipv4HeaderSlice::from_slice]; [calc_header_checksum] of the header with another
    destination; [UdpHeaderSlice] and [TcpHeaderSlice], the bytes of the header;
    [calc_checksum_ipv4_raw]. *)
Class HeaderSlices := {
  ipv4_slice : list Z → option Ipv4Slice;
  ipv4_checksum : list Z → list Z → option Z;
  udp_slice : list Z → option (list Z);
  udp_checksum : list Z → list Z → list Z → list Z → option Z;
  tcp_slice : list Z → option (list Z);
  tcp_checksum : list Z → list Z → list Z → list Z → option Z;
}.

Definition UDP : Z := 17.
Definition TCP : Z := 6.

Section Rewrite.
Context `{HS : HeaderSlices}.

(** The packet is changed in place; the error is [None]. *)
Definition PM : Type → Type := M (list Z) unit.

(** [transport[a..b].copy_from_slice(&checksum.to_be_bytes())] *)
Definition write_checksum (at_ : nat) (checksum : Z) : PM unit :=
  let* packet := mget in
  let* packet := mlift (lift (copy_from_slice packet at_ (at_ + 2) (to_be_bytes 2 checksum))) in
  mmodify (λ _, packet).

(** The match on the protocol: the checksum of the transport header. *)
Definition rewrite_transport (v : Ipv4Slice) (new_dest : list Z) : PM unit :=
  let* packet := mget in
  let* transport := mlift (lift (slice packet (v_len v) (length packet))) in
  if bool_decide (v_protocol v = UDP) then
    let* udp := mlift (ok_or tt (udp_slice transport)) in
    let* payload := mlift (lift (slice transport 8 (length transport))) in
    let* checksum := mlift (ok_or tt (udp_checksum udp (v_source v) new_dest payload)) in
    write_checksum (v_len v + 6) checksum
  else if bool_decide (v_protocol v = TCP) then
    let* tcp := mlift (ok_or tt (tcp_slice transport)) in
    let* payload := mlift (lift (slice transport (length tcp) (length transport))) in
    let* checksum := mlift (ok_or tt (tcp_checksum tcp (v_source v) new_dest payload)) in
    write_checksum (v_len v + 16) checksum
  else mreturn tt.

Definition rewrite_ipv4_destination (local_ipv4 : Z) : PM unit :=
  let* packet := mget in
  let* v := mlift (ok_or tt (ipv4_slice packet)) in
  if bool_decide (length packet < v_len v)%nat then mthrow tt else
  let new_dest := octets local_ipv4 in
  if bool_decide (v_destination v = new_dest) then mreturn tt else
  let* changed := mlift (lift (copy_from_slice packet 16 20 new_dest)) in
  do* mmodify (λ _, changed) in
  do* rewrite_transport v new_dest in
  let* checksum := mlift (ok_or tt (ipv4_checksum (take (v_len v) packet) new_dest)) in
  write_checksum 10 checksum.

(** On macOS; what is written to the device, or the call unwinds. *)
Definition prepare_packet_macos (packet_type : DataPacketType) (local_ipv4 : option Z)
    (packet : list Z) : total (list Z) :=
  match packet_type, local_ipv4 with
  | Broadcast, Some ip =>
      match rewrite_ipv4_destination ip packet with
      | (Panic, _) => Panic
      | (_, packet) => Ok packet
      end
  | _, _ => Ok packet
  end.
End Rewrite.

(** ** The laws *)

(** The sums that checksums are taken of. *)
Definition put (l : list Z) (i : nat) (new : list Z) : list Z :=
  take i l ++ new ++ drop (i + length new) l.
Definition ipv4_sum (header new_dest : list Z) : Z :=
  words (put (put header 16 new_dest) 10 [0; 0]).
Definition transport_sum (protocol len : Z) (source dest data : list Z) : Z :=
  words source + words dest + protocol + len + words data.
Definition complement (sum : Z) : Z := not_u16 (fold_carry carry_rounds sum).
(** The length a UDP header has. *)
Definition udp_len (udp : list Z) : Z := u16_at udp 4.

(** A packet whose IPv4 header is well formed: version 4, a header of 20 to 60 bytes that the
    packet has, and the first bit of the flags, which is reserved, not set. *)
Record plain_ipv4 (l : list Z) : Prop := {
  pi_bytes : bytes_ok l;
  pi_version : byte_at l 0 / 16 = 4;
  pi_header : (20 ≤ ihl_of (byte_at l 0) ≤ length l)%nat;
  pi_total : Z.of_nat (ihl_of (byte_at l 0)) ≤ u16_at l 2;
  pi_reserved : byte_at l 6 < 128;
}.
Definition tcp_header_len (l : list Z) : nat := data_offset_of (byte_at l 12).

Class HeaderSlicesLaws (HS : HeaderSlices) : Prop := {
  ipv4_slice_fields l v : ipv4_slice l = Some v →
    v = mkIpv4Slice (ihl_of (byte_at l 0)) (take 4 (drop 12 l)) (take 4 (drop 16 l)) (byte_at l 9)
    ∧ (20 ≤ v_len v ≤ length l)%nat;
  ipv4_slice_plain l : plain_ipv4 l → is_Some (ipv4_slice l);
  ipv4_checksum_value l dest : plain_ipv4 l → length dest = 4%nat → bytes_ok dest →
    ipv4_checksum (take (ihl_of (byte_at l 0)) l) dest
    = Some (complement (ipv4_sum (take (ihl_of (byte_at l 0)) l) dest));
  udp_slice_law l : udp_slice l = if bool_decide (8 ≤ length l)%nat then Some (take 8 l) else None;
  udp_checksum_value udp source dest payload :
    bytes_ok udp → length udp = 8%nat → bytes_ok source → bytes_ok dest → bytes_ok payload →
    Z.of_nat (length payload) ≤ 65527 →
    udp_checksum udp source dest payload =
      let c := complement (transport_sum UDP (udp_len udp) source dest (take 6 udp ++ payload)) in
      Some (if bool_decide (c = 0) then 65535 else c);
  tcp_slice_law l : tcp_slice l =
    if bool_decide (20 ≤ tcp_header_len l ≤ length l)%nat then Some (take (tcp_header_len l) l)
    else None;
  tcp_checksum_value tcp source dest payload :
    bytes_ok tcp → (20 ≤ length tcp ≤ 60)%nat → bytes_ok source → bytes_ok dest →
    bytes_ok payload → Z.of_nat (length tcp + length payload) < 65536 →
    tcp_checksum tcp source dest payload =
      Some (complement (transport_sum TCP (Z.of_nat (length tcp + length payload)) source dest
        (put tcp 16 [0; 0] ++ payload)));
}.

(** ** Writing fields *)
Lemma lookup_put l i new j : (i + length new ≤ length l)%nat →
  put l i new !! j = if decide (i ≤ j < i + length new)%nat then new !! (j - i)%nat else l !! j.
Proof.
  intros Hl. unfold put. case_decide.
  - rewrite lookup_app_r, length_take by lens. rewrite lookup_app_l by lens. f_equal. lia.
  - destruct (decide (j < i)%nat).
    + rewrite lookup_app_l by lens. by rewrite lookup_take_lt.
    + rewrite lookup_app_r by lens. rewrite length_take, lookup_app_r, lookup_drop by lia.
      f_equal. lia.
Qed.

Lemma length_put l i new : (i + length new ≤ length l)%nat → length (put l i new) = length l.
Proof. intros. unfold put. lens. Qed.

Lemma copy_put l a b new : b = (a + length new)%nat → (b ≤ length l)%nat →
  copy_from_slice l a b new = Ok (put l a new).
Proof. intros -> Hl. by rewrite copy_from_slice_Ok by lia. Qed.

Lemma bytes_ok_put l i new : bytes_ok l → bytes_ok new → bytes_ok (put l i new).
Proof. intros. unfold put. auto using bytes_ok_app, bytes_ok_take, bytes_ok_drop. Qed.

Ltac put_eq := intros; apply list_eq; intros j;
  repeat first [rewrite lookup_take | rewrite lookup_drop | rewrite lookup_put by lens];
  repeat case_decide; try lia; try done; f_equal; lia.

Lemma take_put_low n l i new : (i + length new ≤ n)%nat → (i + length new ≤ length l)%nat →
  take n (put l i new) = put (take n l) i new.
Proof. put_eq. Qed.
Lemma take_put_high n l i new : (n ≤ i)%nat → (i + length new ≤ length l)%nat →
  take n (put l i new) = take n l.
Proof. put_eq. Qed.
Lemma drop_put_low n l i new : (i + length new ≤ n)%nat → (i + length new ≤ length l)%nat →
  drop n (put l i new) = drop n l.
Proof. put_eq. Qed.
Lemma drop_put_high n l i new : (n ≤ i)%nat → (i + length new ≤ length l)%nat →
  drop n (put l i new) = put (drop n l) (i - n) new.
Proof. put_eq. Qed.
Lemma byte_at_put l i new j : (i + length new ≤ length l)%nat → (j < i ∨ i + length new ≤ j)%nat →
  byte_at (put l i new) j = byte_at l j.
Proof.
  intros Hl Hj. unfold byte_at. rewrite !nth_lookup, lookup_put by done.
  by rewrite decide_False by lia.
Qed.
Lemma put_take_app n l i new : (i + length new ≤ n)%nat → (n ≤ length l)%nat →
  put (take n l) i new ++ drop n l = put l i new.
Proof.
  intros. rewrite <- (take_drop n (put l i new)). by rewrite take_put_low, drop_put_low by lia.
Qed.

Lemma words_put l i v : u_ok 16 v → Nat.Even i → (i + 2 ≤ length l)%nat →
  words (put l i (to_be_bytes 2 v)) = words (put l i [0; 0]) + v.
Proof.
  intros Hv He Hl. change [0; 0] with (to_be_bytes 2 0). unfold put.
  assert (Nat.Even (length (take i l))) as He' by (by rewrite length_take, Nat.min_l by lia).
  assert (Nat.Even (length (to_be_bytes 2 v)) ∧ Nat.Even (length (to_be_bytes 2 0))) as [] by
    (split; exists 1%nat; done).
  rewrite !words_app by done. rewrite !words_pair by (done || by unfold u_ok).
  rewrite !length_to_be_bytes. lia.
Qed.

(** A checksum makes its sum all ones; one of zero may stand as 65535. *)
Lemma complement_range s : 0 ≤ s < 2 ^ 32 → u_ok 16 (complement s).
Proof.
  intros Hs. destruct (fold_carry_spec s Hs) as (Hr & _). by apply not_u16_range.
Qed.
Lemma complement_never_zero s : 0 ≤ s → s + 65535 < 2 ^ 32 →
  fold_carry carry_rounds (s + if bool_decide (complement s = 0) then 65535 else complement s) = 65535.
Proof.
  intros H0 H1. case_bool_decide as E; [|by apply fold_complement].
  destruct (fold_carry_spec s) as (Hr & [k Hk] & Hz); [lia|].
  unfold complement in E. destruct (not_u16_range _ Hr) as [E' _]. rewrite E' in E.
  destruct (fold_carry_spec (s + 65535)) as (Hr' & [k' Hk'] & Hz'); [lia|].
  assert (fold_carry carry_rounds (s + 65535) ≠ 0) by lia. lia.
Qed.

Section Laws.
Context `{HS : HeaderSlices} `{HL : !HeaderSlicesLaws HS}.

Lemma write_run i c p : (i + 2 ≤ length p)%nat →
  write_checksum i c p = (Ok tt, put p i (to_be_bytes 2 c)).
Proof.
  intros Hl. unfold write_checksum. rewrite (mseq_Ok mget _ p p p eq_refl).
  by rewrite (copy_put p i (i + 2) (to_be_bytes 2 c)).
Qed.

(** Whatever the packet is, nothing unwinds and its length stays. *)
Lemma write_safe i c p : (i + 2 ≤ length p)%nat →
  ∃ q, write_checksum i c p = (Ok tt, q) ∧ length q = length p.
Proof. intros Hl. rewrite write_run by done. eexists. split; [done|]. by apply length_put. Qed.

Lemma udp_slice_len l u : udp_slice l = Some u → (8 ≤ length l)%nat.
Proof. rewrite udp_slice_law. by case_bool_decide. Qed.
Lemma tcp_slice_len l t : tcp_slice l = Some t → (20 ≤ length t ≤ length l)%nat.
Proof. rewrite tcp_slice_law. case_bool_decide; [|done]. intros [= <-]. lens. Qed.

Lemma transport_safe v nd p : (v_len v ≤ length p)%nat →
  ∃ r q, rewrite_transport v nd p = (r, q) ∧ r ≠ Panic ∧ length q = length p.
Proof.
  intros Hl. unfold rewrite_transport. rewrite (mseq_Ok mget _ p p p eq_refl).
  rewrite slice_Ok by lia. set (t := take _ _).
  assert (length t = length p - v_len v)%nat as Ht by (unfold t; lens).
  rewrite (mseq_Ok (mlift (lift (Ok t))) _ p t p eq_refl). case_bool_decide; [|case_bool_decide].
  - destruct (udp_slice t) as [u|] eqn:E; [|by do 2 eexists].
    pose proof (udp_slice_len _ _ E). cbn [ok_or]. rewrite (mseq_Ok (mlift (Ok u)) _ p u p eq_refl).
    rewrite slice_Ok by lia. match goal with |- context [lift (Ok ?x)] =>
      rewrite (mseq_Ok (mlift (lift (Ok x))) _ p x p eq_refl) end.
    destruct (udp_checksum _ _ _ _) as [c|]; [|by do 2 eexists].
    destruct (write_safe (v_len v + 6) c p) as (q & Hq & Hlq); [lia|].
    exists (Ok tt), q. split; [exact Hq|done].
  - destruct (tcp_slice t) as [u|] eqn:E; [|by do 2 eexists].
    pose proof (tcp_slice_len _ _ E). cbn [ok_or]. rewrite (mseq_Ok (mlift (Ok u)) _ p u p eq_refl).
    rewrite slice_Ok by lia. match goal with |- context [lift (Ok ?x)] =>
      rewrite (mseq_Ok (mlift (lift (Ok x))) _ p x p eq_refl) end.
    destruct (tcp_checksum _ _ _ _) as [c|]; [|by do 2 eexists].
    destruct (write_safe (v_len v + 16) c p) as (q & Hq & Hlq); [lia|].
    exists (Ok tt), q. split; [exact Hq|done].
  - by do 2 eexists.
Qed.

Lemma rewrite_safe ip p : ∃ r q, rewrite_ipv4_destination ip p = (r, q) ∧ r ≠ Panic ∧
  length q = length p ∧ (ipv4_slice p = None → q = p).
Proof.
  unfold rewrite_ipv4_destination. rewrite (mseq_Ok mget _ p p p eq_refl).
  destruct (ipv4_slice p) as [v|] eqn:E; [|by do 2 eexists].
  destruct (ipv4_slice_fields _ _ E) as [_ Hv]. cbn [ok_or]. rewrite (mseq_Ok (mlift (Ok v)) _ p v p eq_refl).
  rewrite bool_decide_eq_false_2 by lia. cbv zeta. case_bool_decide; [by do 2 eexists|].
  rewrite (copy_put p 16 20) by (rewrite ?length_to_be_bytes; unfold octets; lens).
  set (p1 := put p 16 (octets ip)).
  assert (length p1 = length p) as Hp1 by (apply length_put; unfold octets; cbn; lia).
  rewrite (mseq_Ok (mlift (lift (Ok p1))) _ p p1 p eq_refl).
  rewrite (mseq_Ok (mmodify (λ _, p1)) _ p tt p1 eq_refl).
  destruct (transport_safe v (octets ip) p1) as (r & q & Hq & Hr & Hlq); [lia|].
  unfold mseq at 1. rewrite Hq. destruct r as [[]|[]|];
    [|by exists (Err tt), q; split_and!; [..|lia|]|done].
  destruct (ipv4_checksum _ _) as [c|].
  - destruct (write_safe 10 c q) as (q' & Hq' & Hlq'); [lia|].
    exists (Ok tt), q'. split; [exact Hq'|]. split_and!; [done|lia|done].
  - do 2 eexists. split; [reflexivity|]. split_and!; [done|lia|done].
Qed.

(** *** A well-formed packet *)

(** The transport header is complete, and the packet is not longer than its length can say. *)
Definition transport_fits (p : list Z) : Prop :=
  let n := ihl_of (byte_at p 0) in
  (byte_at p 9 = UDP → (n + 8 ≤ length p)%nat) ∧
  (byte_at p 9 = TCP → (20 ≤ tcp_header_len (drop n p) ≤ length (drop n p))%nat).

(** What a receiver checks. *)
Definition header_verifies (p : list Z) : Prop :=
  fold_carry carry_rounds (words (take (ihl_of (byte_at p 0)) p)) = 65535.
Definition transport_verifies (p : list Z) : Prop :=
  let segment := drop (ihl_of (byte_at p 0)) p in
  let sum protocol len :=
    transport_sum protocol len (take 4 (drop 12 p)) (take 4 (drop 16 p)) segment in
  (byte_at p 9 = UDP → fold_carry carry_rounds (sum UDP (udp_len segment)) = 65535) ∧
  (byte_at p 9 = TCP → fold_carry carry_rounds (sum TCP (Z.of_nat (length segment))) = 65535).

(** Where the transport header has its checksum. *)
Definition checksum_at (p : list Z) : option nat :=
  let n := ihl_of (byte_at p 0) in
  if bool_decide (byte_at p 9 = UDP) then Some (n + 6)%nat
  else if bool_decide (byte_at p 9 = TCP) then Some (n + 16)%nat else None.
Definition with_checksum (p : list Z) (at_ : option nat) (c : Z) : list Z :=
  match at_ with Some i => put p i (to_be_bytes 2 c) | None => p end.

Lemma sum_range protocol len source dest data :
  0 ≤ protocol < 256 → 0 ≤ len < 65536 → bytes_ok source → bytes_ok dest → bytes_ok data →
  length source = 4%nat → length dest = 4%nat → Z.of_nat (length data) < 65536 →
  0 ≤ transport_sum protocol len source dest data < 2 ^ 32 - 65536.
Proof.
  intros Hp Hl Hs Hd Hda Hsl Hdl Hlen. unfold transport_sum.
  pose proof (words_range _ Hs). pose proof (words_range _ Hd). pose proof (words_range _ Hda). lia.
Qed.

(** The checksum of the transport, in the segment itself. *)
Lemma segment_verifies protocol len source dest seg i c :
  0 ≤ protocol < 256 → 0 ≤ len < 65536 → bytes_ok source → bytes_ok dest → bytes_ok seg →
  length source = 4%nat → length dest = 4%nat → Z.of_nat (length seg) < 65536 →
  Nat.Even i → (i + 2 ≤ length seg)%nat →
  let s := transport_sum protocol len source dest (put seg i [0; 0]) in
  (c = complement s ∨ c = if bool_decide (complement s = 0) then 65535 else complement s) →
  fold_carry carry_rounds
    (transport_sum protocol len source dest (put seg i (to_be_bytes 2 c))) = 65535.
Proof.
  intros Hp Hl Hs Hd Hseg Hsl Hdl Hlen He Hi s Hc.
  assert (0 ≤ s < 2 ^ 32 - 65536) as Hr.
  { apply sum_range; try done.
    - apply bytes_ok_put; [done|]. repeat constructor; unfold byte_ok; lia.
    - rewrite length_put by done. lia. }
  pose proof (complement_range s ltac:(lia)) as Hcr.
  assert (u_ok 16 c) as Hu
    by (destruct Hc as [->| ->]; [done|]; case_bool_decide; [unfold u_ok; lia|done]).
  unfold transport_sum. rewrite words_put by done.
  replace (_ + _) with (s + c) by (unfold s, transport_sum; lia).
  destruct Hc as [->| ->]; [apply fold_complement|apply complement_never_zero]; lia.
Qed.

(** What a write outside the fixed part of the IPv4 header, or to its destination or
    checksum, leaves. *)
Lemma fields_put p i new : (20 ≤ length p)%nat → (i + length new ≤ length p)%nat →
  (i = 10 ∧ length new = 2 ∨ i = 16 ∧ length new = 4 ∨ 20 ≤ i)%nat →
  byte_at (put p i new) 0 = byte_at p 0 ∧ byte_at (put p i new) 9 = byte_at p 9 ∧
  take 4 (drop 12 (put p i new)) = take 4 (drop 12 p) ∧
  (i ≠ 16%nat → take 4 (drop 16 (put p i new)) = take 4 (drop 16 p)).
Proof.
  intros Hl Hi Hcase. split_and!; [apply byte_at_put; lia..| |].
  - destruct (decide (i = 10)%nat) as [->|].
    + by rewrite drop_put_low by lia.
    + rewrite drop_put_high by lia. apply take_put_high; [lia|]. lens.
  - intros Hne. destruct (decide (i = 10)%nat) as [->|].
    + by rewrite drop_put_low by lia.
    + rewrite drop_put_high by lia. apply take_put_high; [lia|]. lens.
Qed.

Lemma drop_16_put p new : (20 ≤ length p)%nat → length new = 4%nat →
  take 4 (drop 16 (put p 16 new)) = new.
Proof.
  intros Hl Hn. rewrite drop_put_high by lia. unfold put. rewrite Nat.sub_diag, take_0, app_nil_l.
  by rewrite take_app_length' by lia.
Qed.

Lemma byte_at_range l i : bytes_ok l → 0 ≤ byte_at l i < 256.
Proof.
  intros Hl. unfold byte_at. rewrite nth_lookup. destruct (l !! i) as [x|] eqn:E; [|cbn; lia].
  exact (bytes_ok_lookup _ _ _ Hl E).
Qed.
Lemma u16_at_range l i : bytes_ok l → 0 ≤ u16_at l i < 65536.
Proof.
  intros Hl. unfold u16_at. pose proof (byte_at_range l i Hl). pose proof (byte_at_range l (S i) Hl). lia.
Qed.
Lemma data_offset_max l : bytes_ok l → (tcp_header_len l ≤ 60)%nat.
Proof.
  intros Hl. unfold tcp_header_len, data_offset_of. pose proof (byte_at_range l 12 Hl) as Hb.
  rewrite Z.shiftr_div_pow2 by lia. change (2 ^ 4) with 16.
  assert (byte_at l 12 / 16 < 16) by (apply Z.div_lt_upper_bound; lia). lia.
Qed.

Section Plain.
Context (p nd : list Z) (Hp : plain_ipv4 p) (Hlen : Z.of_nat (length p) < 65536)
  (Hnd : bytes_ok nd) (Hnl : length nd = 4%nat).
Let n := ihl_of (byte_at p 0).
Let p1 := put p 16 nd.
Let v := mkIpv4Slice n (take 4 (drop 12 p)) (take 4 (drop 16 p)) (byte_at p 9).

Lemma header_len : (20 ≤ n ≤ 60 ∧ n ≤ length p ∧ Nat.Even n)%nat.
Proof using All.
  destruct Hp as [Hb _ Hh _ _]. subst n. split_and!; [lia| |lia|].
  - apply ihl_of_max. unfold byte_at. rewrite nth_lookup.
    destruct (lookup_lt_is_Some_2 p 0) as [x Hx]; [lia|]. rewrite Hx. cbn.
    exact (bytes_ok_lookup _ _ _ Hb Hx).
  - unfold ihl_of. exists (Z.to_nat (Z.land (byte_at p 0) 15) * 2)%nat. lia.
Qed.

Lemma renamed_fields : length p1 = length p ∧ bytes_ok p1 ∧ byte_at p1 0 = byte_at p 0 ∧
  byte_at p1 9 = byte_at p 9 ∧ take 4 (drop 12 p1) = take 4 (drop 12 p) ∧
  take 4 (drop 16 p1) = nd ∧ drop n p1 = drop n p.
Proof using All.
  pose proof header_len as (? & ? & _). destruct Hp as [Hb _ _ _ _].
  destruct (fields_put p 16 nd) as (E0 & E9 & E12 & _); [lia..|]. subst p1.
  split_and!; [apply length_put; lia|by apply bytes_ok_put|done..| |].
  - apply drop_16_put; [lia|done].
  - apply drop_put_low; lia.
Qed.

Lemma placed i c : (n + i + 2 ≤ length p)%nat →
  let q := put p1 (n + i) (to_be_bytes 2 c) in
  byte_at q 0 = byte_at p 0 ∧ byte_at q 9 = byte_at p 9 ∧
  take 4 (drop 12 q) = take 4 (drop 12 p) ∧ take 4 (drop 16 q) = nd ∧
  drop n q = put (drop n p) i (to_be_bytes 2 c).
Proof using All.
  intros Hi q. pose proof header_len as (Hn & Hnlen & _).
  destruct renamed_fields as (Hl1 & _ & E0 & E9 & E12 & E16 & Hd).
  assert (length (to_be_bytes 2 c) = 2%nat) as Hc by done.
  destruct (fields_put p1 (n + i) (to_be_bytes 2 c)) as (F0 & F9 & F12 & F16); [lia..|].
  subst q. split_and!; [congruence|congruence|congruence| |].
  - rewrite F16 by lia. done.
  - rewrite drop_put_high by lia. rewrite Hd. f_equal. lia.
Qed.

Lemma source_ok : bytes_ok (take 4 (drop 12 p)) ∧ length (take 4 (drop 12 p)) = 4%nat.
Proof using All.
  pose proof header_len as (Hn & Hnlen & _). destruct Hp as [Hb _ _ _ _].
  split; [by apply bytes_ok_take, bytes_ok_drop|]. lens.
Qed.

(** The code's steps up to the match on the protocol. *)
Lemma segment_ok : let seg := drop n p in
  bytes_ok seg ∧ length seg = (length p - n)%nat ∧
  slice p1 n (length p1) = Ok seg.
Proof using All.
  intros seg. pose proof header_len as (Hn & Hnlen & _).
  destruct renamed_fields as (Hl1 & _ & _ & _ & _ & _ & Hd). destruct Hp as [Hb _ _ _ _].
  split_and!; [by apply bytes_ok_drop|unfold seg; lens|].
  rewrite slice_Ok, Hd by lia. by rewrite take_ge by (unfold seg; lens).
Qed.

Lemma transport_udp : byte_at p 9 = UDP → (n + 8 ≤ length p)%nat →
  ∃ c, rewrite_transport v nd p1 = (Ok tt, put p1 (n + 6) (to_be_bytes 2 c)) ∧
    transport_verifies (put p1 (n + 6) (to_be_bytes 2 c)).
Proof using All.
  intros HU Hu. destruct segment_ok as (Hbs & Hls & Hsl). destruct source_ok as [Hsb Hs4].
  destruct renamed_fields as (Hl1 & _). set (seg := drop n p) in *.
  unfold rewrite_transport. rewrite (mseq_Ok mget _ p1 p1 p1 eq_refl). cbn [v_len v_protocol v_source v].
  rewrite Hsl. rewrite (mseq_Ok (mlift (lift (Ok seg))) _ p1 seg p1 eq_refl).
  rewrite bool_decide_eq_true_2 by done.
  rewrite udp_slice_law, bool_decide_eq_true_2 by lia. cbn [ok_or].
  rewrite (mseq_Ok (mlift (Ok (take 8 seg))) _ p1 (take 8 seg) p1 eq_refl).
  rewrite slice_Ok by lia. rewrite (take_ge (drop 8 seg)) by lens.
  rewrite (mseq_Ok (mlift (lift (Ok (drop 8 seg)))) _ p1 (drop 8 seg) p1 eq_refl).
  rewrite udp_checksum_value; [|by apply bytes_ok_take|lens|done..|by apply bytes_ok_drop|lens].
  cbn [ok_or]. set (s := transport_sum _ _ _ _ _). cbv zeta.
  set (c := if bool_decide (complement s = 0) then 65535 else complement s).
  exists c. split; [apply write_run; lia|]. unfold transport_verifies.
  destruct (placed 6 c ltac:(lia)) as (-> & -> & -> & -> & E). fold n. fold seg in E. rewrite E.
  split; [|by rewrite HU]. intros _.
  assert (s = transport_sum UDP (udp_len (put seg 6 (to_be_bytes 2 c))) (take 4 (drop 12 p)) nd
    (put seg 6 [0; 0])) as Es.
  { unfold s, transport_sum, udp_len, u16_at.
    rewrite !(byte_at_put seg 6) by (rewrite ?length_to_be_bytes; lia).
    assert (byte_at (take 8 seg) 4 = byte_at seg 4 ∧ byte_at (take 8 seg) 5 = byte_at seg 5) as [-> ->].
    { unfold byte_at. rewrite !nth_lookup. by rewrite !lookup_take_lt by lia. }
    unfold put. rewrite take_take, !words_app by (exists 3%nat; rewrite length_take; lia).
    change (words ([0; 0] ++ drop (6 + length [0; 0]) seg)) with (0 * 256 + 0 + words (drop 8 seg)).
    change (6 `min` 8)%nat with 6%nat. lia. }
  assert (0 ≤ UDP < 256) by (unfold UDP; lia).
  apply segment_verifies; [done| |done..|lia|by exists 3%nat|lia|right; by rewrite <- Es].
  apply u16_at_range, bytes_ok_put; [done|apply to_be_bytes_ok].
Qed.

Lemma transport_tcp : byte_at p 9 = TCP →
  (20 ≤ tcp_header_len (drop n p) ≤ length (drop n p))%nat →
  ∃ c, rewrite_transport v nd p1 = (Ok tt, put p1 (n + 16) (to_be_bytes 2 c)) ∧
    transport_verifies (put p1 (n + 16) (to_be_bytes 2 c)).
Proof using All.
  intros HT Ht. destruct segment_ok as (Hbs & Hls & Hsl). destruct source_ok as [Hsb Hs4].
  destruct renamed_fields as (Hl1 & _). set (seg := drop n p) in *. set (m := tcp_header_len seg) in *.
  assert (m ≤ 60)%nat as Hm by (by apply data_offset_max).
  unfold rewrite_transport. rewrite (mseq_Ok mget _ p1 p1 p1 eq_refl). cbn [v_len v_protocol v_source v].
  rewrite Hsl. rewrite (mseq_Ok (mlift (lift (Ok seg))) _ p1 seg p1 eq_refl).
  rewrite bool_decide_eq_false_2 by (rewrite HT; done). rewrite bool_decide_eq_true_2 by done.
  rewrite tcp_slice_law, bool_decide_eq_true_2 by done. cbn [ok_or]. fold m.
  rewrite (mseq_Ok (mlift (Ok (take m seg))) _ p1 (take m seg) p1 eq_refl).
  rewrite length_take, Nat.min_l by lia.
  rewrite slice_Ok by lia. rewrite (take_ge (drop m seg)) by lens.
  rewrite (mseq_Ok (mlift (lift (Ok (drop m seg)))) _ p1 (drop m seg) p1 eq_refl).
  rewrite tcp_checksum_value; [|by apply bytes_ok_take|lens|done..|by apply bytes_ok_drop|lens].
  cbn [ok_or]. rewrite put_take_app by (cbn; lia). set (s := transport_sum _ _ _ _ _).
  exists (complement s). split; [apply write_run; lia|]. unfold transport_verifies.
  destruct (placed 16 (complement s) ltac:(lia)) as (-> & -> & -> & -> & E). fold n. fold seg in E.
  rewrite E. split; [by rewrite HT|]. intros _.
  assert (Z.of_nat (length (take m seg) + length (drop m seg)) =
    Z.of_nat (length (put seg 16 (to_be_bytes 2 (complement s))))) as El.
  { rewrite length_put by (rewrite length_to_be_bytes; lia). lens. }
  assert (0 ≤ TCP < 256) by (unfold TCP; lia).
  rewrite <- El. apply segment_verifies; [done|lens|done..|lia|by exists 8%nat|lia|by left].
Qed.
Lemma transport_run : transport_fits p →
  ∃ c, let q := with_checksum p1 (checksum_at p) c in
    rewrite_transport v nd p1 = (Ok tt, q) ∧ transport_verifies q ∧ length q = length p ∧
    byte_at q 0 = byte_at p 0 ∧ take 4 (drop 16 q) = nd ∧ take n q = put (take n p) 16 nd.
Proof using All.
  intros [Hu Ht]. pose proof header_len as (Hn & Hnlen & _).
  destruct renamed_fields as (Hl1 & _ & E0 & E9 & _ & E16 & _).
  assert (take n p1 = put (take n p) 16 nd) as Etake by (apply take_put_low; lia).
  assert (∀ i c, (n + i + 2 ≤ length p)%nat → let q := put p1 (n + i) (to_be_bytes 2 c) in
    length q = length p ∧ byte_at q 0 = byte_at p 0 ∧ take 4 (drop 16 q) = nd ∧
    take n q = put (take n p) 16 nd) as Hrest.
  { intros i c Hi q. destruct (placed i c Hi) as (F0 & _ & _ & F16 & _). split_and!; [|done..|].
    - unfold q. rewrite length_put by (rewrite length_to_be_bytes; lia). done.
    - unfold q. rewrite take_put_high by (rewrite ?length_to_be_bytes; lia). done. }
  unfold checksum_at. fold n. case_bool_decide as HU; [|case_bool_decide as HT].
  - destruct (transport_udp HU (Hu HU)) as (c & Hrun & Hv). exists c. cbv zeta.
    specialize (Hu HU). fold n in Hu. split_and!; [done|done|apply Hrest; lia..].
  - specialize (Ht HT). fold n in Ht. destruct (transport_tcp HT Ht) as (c & Hrun & Hv). exists c.
    cbv zeta. rewrite length_drop in Ht. split_and!; [done|done|apply Hrest; lia..].
  - destruct segment_ok as (_ & _ & Hsl). exists 0. cbv zeta. cbn [with_checksum]. split_and!; [| |done..].
    + unfold rewrite_transport. rewrite (mseq_Ok mget _ p1 p1 p1 eq_refl). cbn [v_len v_protocol v].
      rewrite Hsl. rewrite (mseq_Ok (mlift (lift (Ok (drop n p)))) _ p1 (drop n p) p1 eq_refl).
      by rewrite !bool_decide_eq_false_2 by done.
    + unfold transport_verifies. by rewrite E9.
Qed.

Lemma header_checksum q : (20 ≤ length q)%nat → length q = length p → byte_at q 0 = byte_at p 0 →
  take n q = put (take n p) 16 nd →
  header_verifies (put q 10 (to_be_bytes 2 (complement (ipv4_sum (take n p) nd)))).
Proof using All.
  intros Hq Hl H0 Ht. pose proof header_len as (Hn & Hnlen & _). destruct Hp as [Hb _ _ _ _].
  unfold header_verifies. rewrite byte_at_put by (rewrite ?length_to_be_bytes; lia).
  rewrite H0. fold n. rewrite take_put_low by (rewrite length_to_be_bytes; lia). rewrite Ht.
  set (h := put (take n p) 16 nd). set (s := ipv4_sum (take n p) nd).
  assert (length h = n) as Hh by (unfold h; rewrite length_put; lens).
  assert (0 ≤ s < 2 ^ 31) as Hs.
  { unfold s, ipv4_sum. fold h. pose proof (words_range (put h 10 [0; 0])) as Hw.
    rewrite length_put in Hw by (rewrite Hh; cbn; lia). rewrite Hh in Hw.
    assert (bytes_ok (put h 10 [0; 0])) as Hok; [|specialize (Hw Hok); lia].
    apply bytes_ok_put; [apply bytes_ok_put; [by apply bytes_ok_take|done]|].
    repeat constructor; unfold byte_ok; lia. }
  rewrite words_put; [|apply complement_range; lia|by exists 5%nat|lia].
  change (words (put h 10 [0; 0])) with s. apply fold_complement; lia.
Qed.

Lemma transport_still q c : (20 ≤ length q)%nat → byte_at q 0 = byte_at p 0 →
  transport_verifies q → transport_verifies (put q 10 (to_be_bytes 2 c)).
Proof using All.
  intros Hq H0 Hv. assert (length (to_be_bytes 2 c) = 2%nat) as Hc by done.
  pose proof header_len as (Hn & _).
  destruct (fields_put q 10 (to_be_bytes 2 c)) as (F0 & F9 & F12 & F16); [lia..|].
  unfold transport_verifies in *. rewrite F0, F9, F12, F16 by lia. rewrite H0 in *. fold n in Hv |- *.
  by rewrite drop_put_low by lia.
Qed.
End Plain.

(** Where a packet may be changed: the checksum and the destination of the IPv4 header, and
    the checksum of the transport. *)
Definition rewritten_at (p : list Z) (i : nat) : Prop :=
  (10 ≤ i < 12)%nat ∨ (16 ≤ i < 20)%nat ∨
  match checksum_at p with Some k => (k ≤ i < k + 2)%nat | None => False end.

Lemma checksum_fits p k : transport_fits p → checksum_at p = Some k → (k + 2 ≤ length p)%nat.
Proof.
  intros [Hu Ht]. unfold checksum_at. rewrite length_drop in Ht.
  case_bool_decide as HU; [specialize (Hu HU); intros [= <-]; lia|].
  case_bool_decide as HT; [specialize (Ht HT); intros [= <-]; lia|done].
Qed.

(** The whole of it on a well-formed packet: the destination, the checksum of the transport,
    the checksum of the header. *)
Lemma rewrite_run ip p : plain_ipv4 p → Z.of_nat (length p) < 65536 → transport_fits p →
  take 4 (drop 16 p) ≠ octets ip →
  ∃ c, let q := with_checksum (put p 16 (octets ip)) (checksum_at p) c in
    rewrite_ipv4_destination ip p = (Ok tt, put q 10 (to_be_bytes 2
      (complement (ipv4_sum (take (ihl_of (byte_at p 0)) p) (octets ip))))) ∧
    transport_verifies q ∧ length q = length p ∧ byte_at q 0 = byte_at p 0 ∧
    take 4 (drop 16 q) = octets ip ∧
    take (ihl_of (byte_at p 0)) q = put (take (ihl_of (byte_at p 0)) p) 16 (octets ip).
Proof using HL.
  intros Hp Hlen Hfit Hne. assert (bytes_ok (octets ip)) as Hb by apply to_be_bytes_ok.
  assert (length (octets ip) = 4%nat) as H4 by done.
  pose proof (header_len p (octets ip) Hp Hlen Hb H4) as (Hn & Hnl & _).
  destruct (transport_run p (octets ip) Hp Hlen Hb H4 Hfit) as (c & Hrun & Hv & Hlq & Hrest).
  set (n := ihl_of (byte_at p 0)) in *. set (p1 := put p 16 (octets ip)) in *.
  exists c. set (q := with_checksum p1 (checksum_at p) c) in *. cbv zeta. split; [|done].
  destruct (ipv4_slice_plain p Hp) as [v Ev]. destruct (ipv4_slice_fields _ _ Ev) as [-> _].
  fold n in Ev. unfold rewrite_ipv4_destination. rewrite (mseq_Ok mget _ p p p eq_refl), Ev.
  cbn [ok_or]. match type of Ev with _ = Some ?v => rewrite (mseq_Ok (mlift (Ok v)) _ p v p eq_refl) end.
  cbn [v_len v_destination]. fold n. rewrite !bool_decide_eq_false_2 by (done || lia). cbv zeta.
  rewrite (copy_put p 16 20) by (rewrite ?H4; lia). fold p1.
  rewrite (mseq_Ok (mlift (lift (Ok p1))) _ p p1 p eq_refl).
  rewrite (mseq_Ok (mmodify (λ _, p1)) _ p tt p1 eq_refl), (mseq_Ok _ _ _ _ _ Hrun).
  unfold n. rewrite (ipv4_checksum_value p _ Hp H4 Hb). cbn [ok_or]. fold n. set (hc := complement _).
  rewrite (mseq_Ok (mlift (Ok hc)) _ q hc q eq_refl). apply write_run. lia.
Qed.

(** C30: a broadcast reaches the applications of a Mac intact.  Preparing a packet never
    unwinds and keeps its length, and a packet that is not IPv4 is left as it is.  A
    well-formed IPv4 packet whose transport header is complete gets the address of the device
    as destination, with a header checksum that verifies and a UDP or TCP checksum that
    verifies over the pseudo header with the new destination; no other byte of it changes. *)
Theorem broadcast_rewritten ip p :
  (∃ q, prepare_packet_macos Broadcast (Some ip) p = Ok q ∧ length q = length p ∧
    (ipv4_slice p = None → q = p)) ∧
  (plain_ipv4 p → Z.of_nat (length p) < 65536 → transport_fits p →
   take 4 (drop 16 p) ≠ octets ip →
   ∃ q, prepare_packet_macos Broadcast (Some ip) p = Ok q ∧
     take 4 (drop 16 q) = octets ip ∧ header_verifies q ∧ transport_verifies q ∧
     ∀ i, ¬ rewritten_at p i → q !! i = p !! i).
Proof using HL.
  split.
  - destruct (rewrite_safe ip p) as (r & q & Hr & Hp & Hl & Hn).
    exists q. unfold prepare_packet_macos. rewrite Hr. by destruct r.
  - intros Hp Hlen Hfit Hne. assert (bytes_ok (octets ip)) as Hb by apply to_be_bytes_ok.
    pose proof (header_len p (octets ip) Hp Hlen Hb eq_refl) as (Hn & Hnl & _).
    destruct (rewrite_run ip p Hp Hlen Hfit Hne) as (c & Hrw & Hv & Hlq & E0 & E16 & Et).
    set (q := with_checksum _ _ c) in *. set (hc := complement _) in *.
    assert (length (to_be_bytes 2 hc) = 2%nat) as Hc by done.
    exists (put q 10 (to_be_bytes 2 hc)). unfold prepare_packet_macos. rewrite Hrw.
    split_and!; [done|..].
    + destruct (fields_put q 10 (to_be_bytes 2 hc)) as (_ & _ & _ & F16); [lia..|].
      by rewrite F16 by lia.
    + apply header_checksum; try done. lia.
    + apply (transport_still p (octets ip)); try done. lia.
    + intros i Hi. unfold rewritten_at in Hi. apply Decidable.not_or in Hi as [Hi10 Hi].
      apply Decidable.not_or in Hi as [Hi16 Hi]. rewrite lookup_put by lia.
      rewrite decide_False by lia. unfold q, with_checksum. pose proof (checksum_fits p) as Hfits.
      destruct (checksum_at p) as [k|]; [specialize (Hfits k Hfit eq_refl); rewrite lookup_put
        by (rewrite ?length_put by (cbn; lia); cbn; lia); rewrite decide_False by (cbn; lia)|].
      all: rewrite lookup_put by (cbn; lia); rewrite decide_False by (cbn; lia); done.
Qed.
End Laws.
