(* ===== verification/RewriteDemo.v ===== *)
(** Header slices that read and sum as the laws say, and a broadcast prepared with them. *)
From Stdlib Require Import ZArith Lia.
From stdpp Require Import base tactics numbers list.
From S2P Require Import Prelude Bytes Net Etherparse Proto Defense Dataplane Rewrite.
Local Open Scope Z_scope.

Definition plain_slice (l : list Z) : option Ipv4Slice :=
  let n := ihl_of (byte_at l 0) in
  if bool_decide (byte_at l 0 / 16 = 4) && bool_decide (20 ≤ n ≤ length l)%nat
     && bool_decide (Z.of_nat n ≤ u16_at l 2)
  then Some (mkIpv4Slice n (take 4 (drop 12 l)) (take 4 (drop 16 l)) (byte_at l 9))
  else None.

#[export] Instance plain_slices : HeaderSlices := {|
  ipv4_slice := plain_slice;
  ipv4_checksum h dest := Some (complement (ipv4_sum h dest));
  udp_slice l := if bool_decide (8 ≤ length l)%nat then Some (take 8 l) else None;
  udp_checksum udp source dest payload :=
    let c := complement (transport_sum UDP (udp_len udp) source dest (take 6 udp ++ payload)) in
    Some (if bool_decide (c = 0) then 65535 else c);
  tcp_slice l := if bool_decide (20 ≤ tcp_header_len l ≤ length l)%nat
    then Some (take (tcp_header_len l) l) else None;
  tcp_checksum tcp source dest payload :=
    Some (complement (transport_sum TCP (Z.of_nat (length tcp + length payload)) source dest
      (put tcp 16 [0; 0] ++ payload)));
|}.

#[export] Instance plain_slices_laws : HeaderSlicesLaws plain_slices.
Proof.
  split; try done.
  - intros l v. cbn. unfold plain_slice. repeat case_bool_decide; try done. cbn. by intros [= <-].
  - intros l []. cbn. unfold plain_slice. by rewrite !bool_decide_eq_true_2.
Qed.

(** "hello" from 10.77.0.5, port 9999, to the broadcast address of its network. *)
Definition broadcast_header : list Z :=
  [69; 0; 0; 33; 0; 7; 0; 0; 64; 17; 0; 0; 10; 77; 0; 5; 10; 77; 0; 255].
Definition broadcast_packet : list Z :=
  broadcast_header ++ [39; 15; 39; 15; 0; 13; 0; 0; 104; 101; 108; 108; 111].
Definition mac_ip : Z := of_octets [10; 77; 0; 2].

Lemma broadcast_plain : plain_ipv4 broadcast_packet.
Proof.
  split; try (vm_compute; congruence).
  - by apply bytes_ok_check.
  - apply (bool_decide_eq_true_1 _). by vm_compute.
Qed.

Lemma broadcast_rewritten_witness :
  ∃ q, prepare_packet_macos Broadcast (Some mac_ip) broadcast_packet = Ok q ∧
    take 4 (drop 16 q) = [10; 77; 0; 2] ∧ header_verifies q ∧ transport_verifies q.
Proof.
  destruct (proj2 (broadcast_rewritten mac_ip broadcast_packet)) as (q & Hq & Hd & Hh & Ht & _).
  - exact broadcast_plain.
  - vm_compute. reflexivity.
  - split; [intros _; apply (bool_decide_eq_true_1 _); by vm_compute|].
    intros H. vm_compute in H. congruence.
  - vm_compute. congruence.
  - exists q. split; [exact Hq|]. split; [exact Hd|]. by split.
Defined.

(** The flags are not looked at: in a fragment that is not the first, two bytes of the data are
    overwritten as if they were the checksum of a UDP header. *)
Theorem fragment_data_overwritten :
  let fragment := [69; 0; 0; 33; 0; 7; 0; 185; 64; 17; 0; 0; 10; 77; 0; 5; 10; 77; 0; 255;
    1; 2; 3; 4; 5; 6; 7; 8; 9; 10; 11; 12; 13] in
  ∃ q, prepare_packet_macos Broadcast (Some mac_ip) fragment = Ok q ∧
    drop 20 q = [1; 2; 3; 4; 5; 6; 188; 37; 9; 10; 11; 12; 13].
Proof. eexists. split; vm_compute; reflexivity. Qed.

(** A packet whose UDP header is cut short keeps the new destination under the old checksum of
    its header, which no longer verifies. *)
Theorem short_udp_half_rewritten :
  let packet := [69; 0; 0; 24; 0; 7; 0; 0; 64; 17; 101; 49; 10; 77; 0; 5; 10; 77; 0; 255; 1; 2; 3; 4] in
  header_verifies packet ∧
  ∃ q, prepare_packet_macos Broadcast (Some mac_ip) packet = Ok q ∧
    take 4 (drop 16 q) = [10; 77; 0; 2] ∧ ¬ header_verifies q.
Proof.
  split; [vm_compute; reflexivity|]. eexists. split; [vm_compute; reflexivity|].
  split; [reflexivity|]. vm_compute. congruence.
Qed.
