(* ===== verification/Noise.v ===== *)
(** The handshake session of crates/r2n-crypto/src/lib.rs: a wrapper of [snow] for the
    pattern [Noise_IK_25519_ChaChaPoly_BLAKE2b], and the key derivation of [x25519_dalek]. *)
From Stdlib Require Import ZArith Lia.
From stdpp Require Import base tactics numbers list.
From S2P Require Import Prelude Bytes.
Local Open Scope Z_scope.

(** [snow]: the two builders, and the state machine of a handshake; a message that does not
    fit its buffer, or is not the one expected, is an error.  The ephemeral key drawn for a
    message is an argument. *)
Class SnowLib := {
  HandshakeState : Type;
  build_initiator : list Z → list Z → option HandshakeState;
  build_responder : list Z → option HandshakeState;
  snow_write : Z → HandshakeState → list Z → nat → option (list Z * HandshakeState);
  snow_read : HandshakeState → list Z → nat → option (list Z * HandshakeState);
  snow_finished : HandshakeState → bool;
  x25519_public : list Z → list Z;
}.

Inductive NoiseError := Snow.

Section Noise.
Context `{W : SnowLib}.

Definition derive_public_key (private_key : list Z) : list Z := x25519_public private_key.

Definition NoiseSession : Type := HandshakeState.

Definition initiator (local_priv remote_pub : list Z) : outcome NoiseError NoiseSession :=
  ok_or Snow (build_initiator local_priv remote_pub).
Definition responder (local_priv : list Z) : outcome NoiseError NoiseSession :=
  ok_or Snow (build_responder local_priv).

(** A failed call leaves the state as it was. *)
Definition write_message (ephemeral : Z) (payload : list Z) (buffer : nat)
    : M NoiseSession NoiseError (list Z) := λ s,
  match snow_write ephemeral s payload buffer with
  | Some (message, s) => (Ok message, s)
  | None => (Err Snow, s)
  end.
Definition read_message (message : list Z) (buffer : nat)
    : M NoiseSession NoiseError (list Z) := λ s,
  match snow_read s message buffer with
  | Some (payload, s) => (Ok payload, s)
  | None => (Err Snow, s)
  end.
Definition is_handshake_finished (s : NoiseSession) : bool := snow_finished s.
End Noise.

(** What the pattern promises.  The first message carries a payload to the holder of the
    public key it was made for, whoever made it; the answer ends the handshake on both
    sides.  A state reads only the message it waits for: one that made a first message does
    not read a first message, and a fresh responder does not read an answer. *)
Class SnowLaws (W : SnowLib) : Prop := {
  snow_first : ∀ priv_i priv_r i e k n, build_initiator priv_i (x25519_public priv_r) = Some i →
    (length k ≤ 32)%nat → (128 ≤ n)%nat →
    ∃ m i', snow_write e i k n = Some (m, i') ∧ snow_finished i' = false ∧
      ∀ r, build_responder priv_r = Some r →
      ∃ r', snow_read r m n = Some (k, r') ∧ snow_finished r' = false ∧
        ∀ e', ∃ m' r'' i'', snow_write e' r' [] n = Some (m', r'') ∧ snow_finished r'' = true ∧
          snow_read i' m' n = Some ([], i'') ∧ snow_finished i'' = true;
  snow_waiting : ∀ priv pub i e k n m i' priv2 pub2 j e2 k2 m2 j',
    build_initiator priv pub = Some i → snow_write e i k n = Some (m, i') →
    build_initiator priv2 pub2 = Some j → snow_write e2 j k2 n = Some (m2, j') →
    snow_read i' m2 n = None;
}.

(** A toy session: keys are their own public keys, the first message names the receiver. *)
Inductive toy_state :=
| ToyInitiator (pub : list Z) | ToyWaiting | ToyResponder (priv : list Z) | ToyAnswer | ToyDone.

Definition toy_snow : SnowLib := {|
  HandshakeState := toy_state;
  build_initiator _ pub := Some (ToyInitiator pub);
  build_responder priv := Some (ToyResponder priv);
  snow_write e s k n :=
    match s with
    | ToyInitiator pub => Some (Z.of_nat (length pub) :: pub ++ k, ToyWaiting)
    | ToyAnswer => Some ([-1], ToyDone)
    | _ => None
    end;
  snow_read s m n :=
    match s, m with
    | ToyResponder priv, l :: m =>
        if bool_decide (l = Z.of_nat (length priv)) && bool_decide (take (length priv) m = priv)
        then Some (drop (length priv) m, ToyAnswer) else None
    | ToyWaiting, [m] => if bool_decide (m = -1) then Some ([], ToyDone) else None
    | _, _ => None
    end;
  snow_finished s := match s with ToyDone => true | _ => false end;
  x25519_public k := k;
|}.
Lemma toy_snow_laws : SnowLaws toy_snow.
Proof.
  split; simpl.
  - intros _ priv_r i e k n [= <-] _ _. eexists _, _. split; [done|]. split; [done|].
    intros r [= <-]. exists ToyAnswer. split_and!; [|done|].
    + rewrite bool_decide_eq_true_2 by done. rewrite bool_decide_eq_true_2 by apply take_app_length.
      simpl. by rewrite drop_app_length.
    + intros _. eexists [-1], ToyDone, ToyDone. by split_and!.
  - intros priv pub i e k n m i' priv2 pub2 j e2 k2 m2 j' [= <-] [= <- <-] [= <-] [= <- <-].
    destruct (pub2 ++ k2) eqn:E; [|done].
    apply app_nil in E as [-> ->]. by rewrite bool_decide_eq_false_2.
Qed.
