(* ===== verification/Nat.v ===== *)
(** NAT probing and candidates (crates/r2n-nat/src/lib.rs) and port mappings
    (crates/r2n-nat/src/port_mapping.rs).

    What the network answers is a class; the answers of a gateway to one refresh are an
    argument of it. *)
From Stdlib Require Import ZArith Lia.
From stdpp Require Import base tactics numbers list strings.
From S2P Require Import Prelude Bytes Net Text Common Proto Sorting Transport.
Local Open Scope Z_scope.

(** ** Port mappings *)
Definition REQUESTED_LEASE_SECS : Z := 3600.
Definition RETRY_INTERVAL : Z := secs 60.
Definition MIN_RENEW_INTERVAL : Z := secs 30.

Inductive PortMappingProtocol := UpnpIgd | NatPmp | Pcp.
#[export] Instance PortMappingProtocol_eq_dec : EqDecision PortMappingProtocol.
Proof. solve_decision. Defined.

Definition label (p : PortMappingProtocol) : string :=
  match p with UpnpIgd => "UPnP IGD" | NatPmp => "NAT-PMP" | Pcp => "PCP" end.

Record PortMappingSnapshot := mkSnapshot {
  acquired : bool;
  pm_protocol : option PortMappingProtocol;
  external_addr : option SocketAddr;
  lease_remaining : option Z;
}.
Definition PortMappingSnapshot_default : PortMappingSnapshot := mkSnapshot false None None None.

Definition as_candidate (s : PortMappingSnapshot) : option Candidate :=
  if negb (acquired s) then None
  else addr ← external_addr s;
       Some (mkCandidate ServerReflexive PortMapping addr 90 None).

Record PortMappingSnapshotView := mkSnapshotView {
  v_acquired : bool;
  v_protocol : option string;
  v_external_addr : option string;
  v_lease_remaining_secs : option Z;
}.
Definition view (s : PortMappingSnapshot) : PortMappingSnapshotView :=
  mkSnapshotView (acquired s) (label <$> pm_protocol s) (show_addr <$> external_addr s)
    (as_secs <$> lease_remaining s).

Record ActiveMapping := mkMapping {
  am_protocol : PortMappingProtocol;
  am_external_addr : SocketAddr;
  expires_at : Z;
}.

Definition mapping_snapshot (now : Z) (m : ActiveMapping) : PortMappingSnapshot :=
  mkSnapshot true (Some (am_protocol m)) (Some (am_external_addr m))
    (Some (duration_since (expires_at m) now)).

Definition renewal_delay (now : Z) (m : ActiveMapping) : Z :=
  let remaining := duration_since (expires_at m) now in
  let half := remaining / 2 in
  if bool_decide (half < MIN_RENEW_INTERVAL)
  then Z.min MIN_RENEW_INTERVAL (Z.max remaining (secs 1))
  else half.

(** The channel [updates_tx] is whether it has a receiver, and its value. *)
Record PortMappingManager := mkManager {
  local_ip : Z;
  gateway : Z;
  local_port : Z;
  active : option ActiveMapping;
  first_refresh_done : bool;
  subscribed : bool;
  published : PortMappingSnapshot;
}.

(** [discover]: the addresses of the default interface and its gateway, when there are. *)
Inductive DiscoverError := ZeroPort.
Definition is_loopback_v4 (a : Z) : bool := bool_decide (a / 2 ^ 24 = 127).

Definition discover (interface : option (list Z)) (default_gateway : option IpAddr)
    (port : Z) : outcome DiscoverError (option PortMappingManager) :=
  if bool_decide (port = 0) then Err ZeroPort else
  match interface with
  | None => Ok None
  | Some ipv4 =>
      match List.find (λ a, negb (is_loopback_v4 a)) ipv4, default_gateway with
      | Some ip, Some (V4 gw) =>
          Ok (Some (mkManager ip gw port None false false PortMappingSnapshot_default))
      | _, _ => Ok None
      end
  end.

(** What the gateway answers while a refresh runs: the address UPnP reports, whether it
    takes a given port, a port of its choice; the address and the (port, lifetime) of
    NAT-PMP for a requested port; the announce probe and the mapping of PCP for a preferred
    address.  The last three are the attempts that ran out of time. *)
Record Answers := mkAnswers {
  igd_external_ip : option IpAddr;
  igd_add_port : Z → bool;
  igd_add_any_port : option Z;
  pmp_address : option Z;
  pmp_mapping : Z → option (Z * Z);
  pcp_available : bool;
  pcp_mapping : option (Z * Z) → option (Z * Z * Z);
  upnp_elapsed : bool;
  nat_pmp_elapsed : bool;
  pcp_elapsed : bool;
}.

(** The external port of an earlier mapping of the same protocol, else the local port. *)
Definition preferred_port (proto : PortMappingProtocol) (m : PortMappingManager)
    (previous : option ActiveMapping) : Z :=
  match previous with
  | Some p => if bool_decide (am_protocol p = proto) then sa_port (am_external_addr p)
              else local_port m
  | None => local_port m
  end.

Definition try_upnp_igd (now : Z) (a : Answers) (previous : option ActiveMapping)
    (m : PortMappingManager) : option ActiveMapping :=
  match igd_external_ip a with
  | Some (V4 ip) =>
      let preferred := preferred_port UpnpIgd m previous in
      port ← (if igd_add_port a preferred then Some preferred else igd_add_any_port a);
      Some (mkMapping UpnpIgd (mkSocketAddr (V4 ip) port) (now + secs REQUESTED_LEASE_SECS))
  | _ => None
  end.

Definition try_nat_pmp (now : Z) (a : Answers) (previous : option ActiveMapping)
    (m : PortMappingManager) : option ActiveMapping :=
  ip ← pmp_address a;
  '(port, lifetime) ← pmp_mapping a (preferred_port NatPmp m previous);
  Some (mkMapping NatPmp (mkSocketAddr (V4 ip) port) (now + lifetime)).

Definition try_pcp (now : Z) (a : Answers) (previous : option ActiveMapping)
    (m : PortMappingManager) : option ActiveMapping :=
  if negb (pcp_available a) then None else
  let preferred :=
    p ← previous;
    if bool_decide (am_protocol p = Pcp) then
      match sa_ip (am_external_addr p) with
      | V4 ip => if bool_decide (sa_port (am_external_addr p) = 0) then None
                 else Some (ip, sa_port (am_external_addr p))
      | V6 _ => None
      end
    else None in
  '(ip, port, lifetime_seconds) ← pcp_mapping a preferred;
  Some (mkMapping Pcp (mkSocketAddr (V4 ip) port) (now + secs lifetime_seconds)).

(** [timeout(..)] of an attempt. *)
Definition in_time (elapsed : bool) (r : option ActiveMapping) : option ActiveMapping :=
  if elapsed then None else r.

Definition snapshot (now : Z) (m : PortMappingManager) : PortMappingSnapshot :=
  match active m with
  | Some a => mapping_snapshot now a
  | None => PortMappingSnapshot_default
  end.

(** The attempts read the clock when they succeed; [now] is that of the end of the refresh. *)
Definition next_mapping (now : Z) (a : Answers) (m : PortMappingManager) : option ActiveMapping :=
  let previous := active m in
  match in_time (upnp_elapsed a) (try_upnp_igd now a previous m) with
  | Some mapping => Some mapping
  | None =>
      match in_time (nat_pmp_elapsed a) (try_nat_pmp now a previous m) with
      | Some mapping => Some mapping
      | None =>
          match in_time (pcp_elapsed a) (try_pcp now a previous m) with
          | Some mapping => Some mapping
          | None => p ← previous; if bool_decide (now < expires_at p) then Some p else None
          end
      end
  end.

Definition subscribe (m : PortMappingManager) : PortMappingManager :=
  mkManager (local_ip m) (gateway m) (local_port m) (active m) (first_refresh_done m) true
    (published m).

(** [watch::Sender::send] refuses a value, and keeps the old one, when there is no receiver. *)
Definition publish_snapshot (now : Z) (m : PortMappingManager)
    : PortMappingSnapshot * PortMappingManager :=
  let s := snapshot now m in
  (s, mkManager (local_ip m) (gateway m) (local_port m) (active m) (first_refresh_done m)
        (subscribed m) (if subscribed m then s else published m)).

Definition refresh (now : Z) (a : Answers) (m : PortMappingManager)
    : PortMappingSnapshot * PortMappingManager :=
  let m := mkManager (local_ip m) (gateway m) (local_port m) (next_mapping now a m) true
             (subscribed m) (published m) in
  publish_snapshot now m.

(** How long the task of [start] sleeps before the next refresh. *)
Definition wait_for (now : Z) (m : PortMappingManager) : Z :=
  match active m with Some a => renewal_delay now a | None => RETRY_INTERVAL end.

(** One round of that task: a refresh, at least the time to wait later. *)
Inductive mapping_round : Z * PortMappingManager → Z * PortMappingManager → Prop :=
| round now m now' a :
    now + wait_for now m ≤ now' →
    mapping_round (now, m) (now', (refresh now' a m).2).

(** ** Fingerprints *)
Record NatFingerprint := mkFingerprint {
  nat_type : NatType;
  public_addrs : list SocketAddr;
  endpoint_independent_mapping : bool;
  port_preserving : bool;
  port_delta_pattern : option Z;
  binding_lifetime : Z;
  hairpin_supported : bool;
  udp_restricted : bool;
}.

(** [windows(2)]. *)
Fixpoint windows2 {A} (l : list A) : list (A * A) :=
  match l with
  | x :: (y :: _) as l' => (x, y) :: windows2 l'
  | _ => []
  end.

Definition infer_nat_type (addrs : list SocketAddr) : NatType :=
  if bool_decide (length addrs < 2)%nat then Unknown
  else if forallb (λ w : SocketAddr * SocketAddr, bool_decide (w.1 = w.2)) (windows2 addrs)
  then Cone else Symmetric.

Definition infer_port_delta_pattern (addrs : list SocketAddr) : total (option Z) :=
  if bool_decide (length addrs < 2)%nat then Ok None else
  let ports := sort_by_key id (sa_port <$> addrs) in
  let deltas := (λ w : Z * Z, w.2 - w.1) <$> windows2 ports in
  first_delta ← match deltas with d :: _ => Ok d | [] => Panic end;
  Ok (if bool_decide (1 ≤ first_delta ≤ 16) && forallb (λ d, bool_decide (d = first_delta)) deltas
      then Some first_delta else None).

(** The loops are over the constants [1..=8] and [-8..=8]; with a delta of at most 16 no
    [i32] overflows. *)
Definition forward_ports (max_port delta : Z) : list Z :=
  List.filter (λ p, bool_decide (0 < p ≤ 65535))
    ((λ i, max_port + delta * i) <$> [1; 2; 3; 4; 5; 6; 7; 8]).
Definition around : list Z := [-8; -7; -6; -5; -4; -3; -2; -1; 1; 2; 3; 4; 5; 6; 7; 8].
Definition push_around (ip : IpAddr) (max_port : Z) (predicted : list SocketAddr) (d : Z)
    : list SocketAddr :=
  let p := max_port + d in
  if bool_decide (0 < p ≤ 65535) then
    let addr := mkSocketAddr ip p in
    if negb (bool_decide (addr ∈ predicted)) then predicted ++ [addr] else predicted
  else predicted.

Definition predict_from_fingerprint (fp : NatFingerprint) : option (list SocketAddr) :=
  match nat_type fp with
  | Symmetric =>
      last_addr ← max_by_key sa_port (public_addrs fp);
      let ip := sa_ip last_addr in
      let max_port := sa_port last_addr in
      let delta := default 1 (port_delta_pattern fp) in
      let predicted := mkSocketAddr ip <$> forward_ports max_port delta in
      Some (fold_left (push_around ip max_port) around predicted)
  | _ => None
  end.

(** ** The probe *)

(** The resolver, an own socket, and the reply of a server within 1.5 s with the time since
    the probe started. *)
Class ProbeNet := {
  lookup_host : string → option (list SocketAddr);
  probe_socket : bool;
  probe_reply : SocketAddr → list Z → option (list Z * Z);
  get_if_addrs : option (list IpAddr);
}.

Section Probe.
Context `{PN : ProbeNet} `{SL : StunLib}.

Definition probe_stun_server (server : string) : option (SocketAddr * Z) :=
  addrs ← lookup_host server;
  target ← List.find is_ipv4 addrs;
  request ← (if probe_socket then stun_request else None);
  '(reply, elapsed) ← probe_reply target request;
  mapped ← stun_decode reply;
  addr ← mapped;
  Some (addr, elapsed).

(** The task of a server: two seconds at most. *)
Definition probe_in_time (server : string) : option (SocketAddr * Z) :=
  r ← probe_stun_server server;
  if bool_decide (r.2 ≤ secs 2) then Some r else None.

Definition fingerprint (servers : list string) (t : UdpTransport)
    : outcome TransportError NatFingerprint :=
  let unique_servers :=
    dedup_by (λ a b, bool_decide (a = b)) (sort_with String.leb servers) in
  let active_servers := sort_by_key snd (omap probe_in_time unique_servers) in
  let public_addrs := fst <$> take 5 active_servers in
  let nat_type := infer_nat_type public_addrs in
  local ← ok_or TIo (local_addr t);
  let first := head public_addrs in
  let independent := forallb (λ addr, bool_decide (Some addr = first)) public_addrs in
  let preserving := match first with Some a => bool_decide (sa_port a = sa_port local)
                                   | None => false end in
  delta ← lift (infer_port_delta_pattern public_addrs);
  Ok (mkFingerprint nat_type public_addrs independent preserving delta (secs 30) false false).

Definition is_loopback (i : IpAddr) : bool :=
  match i with V4 a => is_loopback_v4 a | V6 a => bool_decide (a = 1) end.

(** Best priority first, then one candidate for neighbours of one address and kind. *)
Definition ranked (candidates : list Candidate) : list Candidate :=
  dedup_by (λ l r, bool_decide (addr l = addr r) && bool_decide (kind l = kind r))
    (sort_by_key (λ c, - priority c) candidates).

Definition host_candidates (port : Z) : list Candidate :=
  match get_if_addrs with
  | None => []
  | Some ips =>
      (λ ip, mkCandidate (match ip with V6 _ => HostIpv6 | V4 _ => HostLan end)
               LocalInterface (mkSocketAddr ip port) 100 None)
        <$> List.filter (λ ip, negb (is_loopback ip)) ips
  end.

Definition collect_candidates (servers : list string) (t : UdpTransport)
    : outcome TransportError (NatFingerprint * list Candidate) :=
  fp ← fingerprint servers t;
  local ← ok_or TIo (local_addr t);
  let reflexive := (λ a, mkCandidate ServerReflexive StunPrimary a 80 None)
                     <$> public_addrs fp in
  let predicted := (λ a, mkCandidate PortPredicted PortPrediction a 50 None)
                     <$> default [] (predict_from_fingerprint fp) in
  Ok (fp, ranked (host_candidates (sa_port local) ++ reflexive ++ predicted)).
End Probe.

Definition merge_mapped_candidate (base_candidates : list Candidate) (s : PortMappingSnapshot)
    : list Candidate :=
  let candidates := List.filter (λ c, negb (bool_decide (source c = PortMapping)))
                      base_candidates in
  ranked (candidates ++ match as_candidate s with Some c => [c] | None => [] end).

Definition preferred_external_addr (fp : NatFingerprint) (candidates : list Candidate)
    : option SocketAddr :=
  match List.find (λ c, bool_decide (source c = PortMapping)) candidates with
  | Some c => Some (addr c)
  | None => head (public_addrs fp)
  end.
