(* ===== verification/NatSpec.v ===== *)
(** What the NAT probe and the port mappings promise. *)
From Stdlib Require Import ZArith Lia Sorting.Sorted.
From stdpp Require Import base tactics numbers list strings relations.
From S2P Require Import Prelude Bytes Net NetImpl Text Common Proto Sorting Transport Nat.
Local Open Scope Z_scope.

(** ** Windows *)
Lemma windows2_cons {A} (x y : A) l : windows2 (x :: y :: l) = (x, y) :: windows2 (y :: l).
Proof. done. Qed.

Lemma windows2_all_equal {A} `{EqDecision A} (x : A) l :
  forallb (λ w : A * A, bool_decide (w.1 = w.2)) (windows2 (x :: l)) = true ↔ Forall (x =.) l.
Proof.
  revert x. induction l as [|y l IH]; intros x; [simpl; split; [by constructor|done]|].
  rewrite windows2_cons. cbn [forallb fst snd]. rewrite andb_true_iff, bool_decide_eq_true, IH.
  rewrite Forall_cons. split.
  - intros [-> H]. by split.
  - intros [-> H]. by split.
Qed.

Lemma forallb_first {A} `{EqDecision A} (x : A) l :
  forallb (λ a, bool_decide (Some a = head (x :: l))) (x :: l) = true ↔ Forall (x =.) l.
Proof.
  cbn [forallb head]. rewrite bool_decide_eq_true_2 by done. cbn [andb].
  rewrite forallb_forall, Forall_forall. setoid_rewrite <- list_elem_of_In.
  setoid_rewrite bool_decide_eq_true. naive_solver.
Qed.

(** The two tests of a fingerprint agree: neighbours are equal when all equal the first. *)
Lemma infer_nat_type_spec l :
  infer_nat_type l =
    if bool_decide (length l < 2)%nat then Unknown
    else if forallb (λ a, bool_decide (Some a = head l)) l then Cone else Symmetric.
Proof.
  unfold infer_nat_type. case_bool_decide as Hl; [done|].
  destruct l as [|x l]; [simpl in Hl; lia|].
  pose proof (windows2_all_equal x l) as H1. pose proof (forallb_first x l) as H2.
  destruct (forallb (λ w, _) (windows2 _)), (forallb (λ a, _) (x :: l)); try done; exfalso.
  - by assert (false = true) by (apply H2, H1; done).
  - by assert (false = true) by (apply H1, H2; done).
Qed.

(** Ports that go up by one step. *)
Fixpoint progression (p d : Z) (n : nat) : list Z :=
  match n with O => [] | S n => p :: progression (p + d) d n end.

Lemma windows2_progression p d l :
  forallb (λ w, bool_decide (w = d)) ((λ w : Z * Z, w.2 - w.1) <$> windows2 (p :: l)) = true ↔
  p :: l = progression p d (S (length l)).
Proof.
  revert p. induction l as [|q l IH]; intros p; [done|].
  rewrite windows2_cons. cbn [fmap list_fmap forallb fst snd].
  change (progression p d (S (length (q :: l))))
    with (p :: progression (p + d) d (S (length l))).
  rewrite andb_true_iff, bool_decide_eq_true, IH. split.
  - intros [Hd Hl]. f_equal. by replace (p + d) with q by lia.
  - intros [= Hq Hl]. split; [lia|]. subst q. by rewrite Hl at 1.
Qed.

Lemma infer_port_delta_spec l :
  ∃ r, infer_port_delta_pattern l = Ok r ∧
  ∀ d, r = Some d ↔ (2 ≤ length l)%nat ∧ 1 ≤ d ≤ 16 ∧
    ∃ p, sort_by_key id (sa_port <$> l) = progression p d (length l).
Proof.
  unfold infer_port_delta_pattern. case_bool_decide as Hl.
  { exists None. split; [done|]. intros d. split; [done|]. intros [? _]. lia. }
  pose proof (Permutation_length (sort_by_key_perm id (sa_port <$> l))) as Hlen.
  rewrite length_fmap in Hlen.
  destruct (sort_by_key id (sa_port <$> l)) as [|p [|q ps]] eqn:Es;
    [simpl in Hlen; lia|simpl in Hlen; lia|].
  rewrite windows2_cons. cbn [fmap list_fmap fst snd mbind outcome_bind].
  eexists. split; [reflexivity|]. intros d. rewrite <- Hlen.
  pose proof (windows2_progression p (q - p) (q :: ps)) as Hw. rewrite windows2_cons in Hw.
  cbn [fmap list_fmap fst snd] in Hw.
  destruct (bool_decide (1 ≤ q - p ≤ 16)) eqn:Eb; cbn [andb].
  - apply bool_decide_eq_true in Eb. destruct (forallb _ _).
    + split.
      * intros [= <-]. split; [lia|]. split; [done|]. exists p. by apply Hw.
      * intros (_ & Hd & p' & E). cbn [length progression] in E. injection E as E1 E2 _.
        f_equal. lia.
    + split; [done|]. intros (_ & Hd & p' & E). exfalso.
      assert (false = true); [|done]. apply Hw. cbn [length progression] in E |- *.
      injection E as E1 E2 E3. subst p' q. replace (p + d - p) with d by lia. by rewrite E3 at 1.
  - apply bool_decide_eq_false in Eb. split; [done|]. intros (_ & Hd & p' & E). exfalso.
    cbn [length progression] in E. injection E as E1 E2 _. lia.
Qed.

(** ** Predicted ports *)
Section Predict.
Context (ip : IpAddr) (max_port : Z).

Lemma push_around_fold ds l :
  NoDup l →
  NoDup (fold_left (push_around ip max_port) ds l) ∧
  ∀ a, a ∈ fold_left (push_around ip max_port) ds l ↔
    a ∈ l ∨ ∃ d, d ∈ ds ∧ 0 < max_port + d ≤ 65535 ∧ a = mkSocketAddr ip (max_port + d).
Proof.
  revert l. induction ds as [|d ds IH]; intros l Hl; cbn [fold_left].
  { split; [done|]. intros a. set_solver. }
  assert (NoDup (push_around ip max_port l d) ∧ ∀ a, a ∈ push_around ip max_port l d ↔
    a ∈ l ∨ (0 < max_port + d ≤ 65535 ∧ a = mkSocketAddr ip (max_port + d))) as [Hn Hin].
  { unfold push_around. repeat case_bool_decide; simpl; try (split; [done|naive_solver]).
    split; [apply NoDup_app; split_and!; [done|set_solver|apply NoDup_singleton]|].
    intros a. rewrite elem_of_app, list_elem_of_singleton. naive_solver. }
  destruct (IH _ Hn) as [Hn' Hin']. split; [done|]. intros a. rewrite Hin', Hin.
  setoid_rewrite elem_of_cons. naive_solver.
Qed.

Lemma push_around_length ds l :
  (length (fold_left (push_around ip max_port) ds l) ≤ length l + length ds)%nat.
Proof.
  revert l. induction ds as [|d ds IH]; intros l; cbn [fold_left length]; [lia|].
  etrans; [apply IH|]. unfold push_around.
  repeat case_bool_decide; simpl; rewrite ?length_app; simpl; lia.
Qed.

Lemma forward_ports_length d : (length (forward_ports max_port d) ≤ 8)%nat.
Proof. unfold forward_ports. etrans; [apply List.filter_length_le|]. done. Qed.

Lemma elem_of_forward_ports d p :
  p ∈ forward_ports max_port d ↔
  0 < p ≤ 65535 ∧ ∃ i, 1 ≤ i ≤ 8 ∧ p = max_port + d * i.
Proof.
  unfold forward_ports. rewrite list_elem_of_In, List.filter_In, <- list_elem_of_In,
    bool_decide_eq_true, list_elem_of_fmap. split.
  - intros [(i & -> & Hi) Hp]. split; [done|]. exists i. split; [|done].
    repeat (apply elem_of_cons in Hi as [->|Hi]; [lia|]). by apply elem_of_nil in Hi.
  - intros (Hp & i & Hi & ->). split; [|done]. exists i. split; [done|].
    rewrite !elem_of_cons. lia.
Qed.

Lemma forward_ports_NoDup d : d ≠ 0 → NoDup (mkSocketAddr ip <$> forward_ports max_port d).
Proof.
  intros Hd. apply NoDup_fmap_2; [by intros ? ? [=]|]. unfold forward_ports.
  apply NoDup_ListNoDup, List.NoDup_filter, NoDup_ListNoDup.
  apply NoDup_fmap_2; [intros i j; nia|]. by apply (bool_decide_unpack _).
Qed.

Lemma elem_of_around d : d ∈ around ↔ d ≠ 0 ∧ -8 ≤ d ≤ 8.
Proof. unfold around. rewrite !elem_of_cons, elem_of_nil. lia. Qed.
End Predict.

Section Probe.
Context `{PN : ProbeNet} `{SL : StunLib}.

(** C37: a fingerprint is consistent.  It fails only when the socket has no address.  Its at
    most five addresses were reported within two seconds by servers of the list; fewer than
    two leave the type unknown; with more, the mapping is of the cone type exactly when the
    endpoint-independence flag is set, although one compares neighbours and the other the
    first; and a delta is given exactly when the sorted ports go up by that step, from 1 to
    16. *)
Theorem fingerprint_consistent servers t :
  match fingerprint servers t with
  | Ok fp =>
      let n := length (public_addrs fp) in
      is_Some (local_addr t) ∧ (n ≤ 5)%nat ∧
      (∀ a, a ∈ public_addrs fp → ∃ s rtt, s ∈ servers ∧
         probe_stun_server s = Some (a, rtt) ∧ rtt ≤ secs 2) ∧
      (nat_type fp = Unknown ↔ (n < 2)%nat) ∧
      (nat_type fp = Cone ↔ (2 ≤ n)%nat ∧ endpoint_independent_mapping fp = true) ∧
      (nat_type fp = Symmetric ↔ endpoint_independent_mapping fp = false) ∧
      (∀ d, port_delta_pattern fp = Some d ↔ (2 ≤ n)%nat ∧ 1 ≤ d ≤ 16 ∧
         ∃ p, sort_by_key id (sa_port <$> public_addrs fp) = progression p d n)
  | Err e => e = TIo ∧ local_addr t = None
  | Panic => False
  end.
Proof.
  unfold fingerprint. set (addrs := fst <$> take 5 _).
  destruct (local_addr t) as [local|]; simpl; [|done].
  destruct (infer_port_delta_spec addrs) as (r & Hr & Hd). rewrite Hr.
  cbn [mbind outcome_bind lift nat_type public_addrs endpoint_independent_mapping
    port_delta_pattern].
  split; [by eexists|]. split.
  { subst addrs. rewrite length_fmap, length_take. lia. }
  split.
  { intros a Ha. subst addrs. apply list_elem_of_fmap in Ha as ([a' rtt] & -> & Ha).
    apply elem_of_take in Ha as (i & Ha & _). apply list_elem_of_lookup_2 in Ha.
    rewrite sort_by_key_perm in Ha. apply list_elem_of_omap in Ha as (s & Hs & Hp).
    exists s, rtt. split.
    - rewrite <- (sort_with_perm String.leb servers).
      eapply elem_of_submseteq; [exact Hs|]. apply sublist_submseteq, dedup_by_sublist.
    - unfold probe_in_time in Hp. destruct (probe_stun_server s) as [[b u]|]; [|done].
      simpl in Hp. case_bool_decide; [|done]. by injection Hp as -> ->. }
  rewrite infer_nat_type_spec. split_and!; [| | |exact Hd].
  - case_bool_decide; [by split|]. by destruct (forallb _ _).
  - case_bool_decide; [split; [done|lia]|].
    destruct (forallb _ _); split; try done; [split; [lia|done]|by intros []].
  - case_bool_decide as Hn; [split; [done|]|by destruct (forallb _ _)].
    destruct addrs as [|a [|]]; simpl in Hn |- *; [done| |lia].
    by rewrite bool_decide_eq_true_2.
Qed.
End Probe.

(** Predicted ports.  Only a symmetric mapping is predicted, from the address of the
    highest port that was seen; the predictions are distinct addresses of that host, namely
    the valid ports one to eight deltas above it and those at most eight away from it, the
    port itself excepted: at most 24. *)
Theorem predicted_ports fp :
  (∀ d, port_delta_pattern fp = Some d → 1 ≤ d) →
  match predict_from_fingerprint fp with
  | Some predicted =>
      nat_type fp = Symmetric ∧ NoDup predicted ∧ (length predicted ≤ 24)%nat ∧
      ∃ last_addr, last_addr ∈ public_addrs fp ∧
        (∀ a, a ∈ public_addrs fp → sa_port a ≤ sa_port last_addr) ∧
        ∀ a, a ∈ predicted ↔ sa_ip a = sa_ip last_addr ∧ 0 < sa_port a ≤ 65535 ∧
          ((∃ i, 1 ≤ i ≤ 8 ∧
              sa_port a = sa_port last_addr + default 1 (port_delta_pattern fp) * i) ∨
           (sa_port a ≠ sa_port last_addr ∧ -8 ≤ sa_port a - sa_port last_addr ≤ 8))
  | None => nat_type fp = Symmetric → public_addrs fp = []
  end.
Proof.
  intros Hd. unfold predict_from_fingerprint. destruct (nat_type fp); try done.
  destruct (max_by_key sa_port (public_addrs fp)) as [last_addr|] eqn:Em; cbn [mbind option_bind].
  2: { intros _. by destruct (public_addrs fp). }
  apply max_by_key_spec in Em as [Hin Hmax].
  set (delta := default 1 _).
  assert (delta ≠ 0) as Hdelta.
  { subst delta. destruct (port_delta_pattern fp) as [d|] eqn:E; simpl; [|lia].
    specialize (Hd d eq_refl). lia. }
  destruct (push_around_fold (sa_ip last_addr) (sa_port last_addr) around
    _ (forward_ports_NoDup (sa_ip last_addr) (sa_port last_addr) delta Hdelta)) as [Hn Hel].
  split; [done|]. split; [done|]. split.
  { etrans; [apply push_around_length|]. rewrite length_fmap.
    pose proof (forward_ports_length (sa_port last_addr) delta).
    change (length around) with 16%nat. lia. }
  exists last_addr. split_and!; [done..|].
  intros [ip p]. rewrite Hel, list_elem_of_fmap. setoid_rewrite elem_of_forward_ports.
  setoid_rewrite elem_of_around. cbn [sa_ip sa_port]. split.
  - intros [(q & [= -> ->] & ? & Hi)|(d & ? & ? & [= -> ->])]; [naive_solver|].
    split_and!; try done; lia.
  - intros (-> & Hp & [Hi|Hw]); [left; naive_solver|].
    right. exists (p - sa_port last_addr). split_and!; try lia. f_equal. lia.
Qed.

(** ** Merged candidates *)
Definition same_candidate (l r : Candidate) : bool :=
  bool_decide (addr l = addr r) && bool_decide (kind l = kind r).

Lemma same_candidate_spec l r : same_candidate l r = true ↔ addr l = addr r ∧ kind l = kind r.
Proof. unfold same_candidate. by rewrite andb_true_iff, !bool_decide_eq_true. Qed.

Definition better (c d : Candidate) : Prop := priority d ≤ priority c.

Lemma sort_by_priority_sorted l : StronglySorted better (sort_by_key (λ c, - priority c) l).
Proof.
  pose proof (sort_by_key_sorted (λ c, - priority c) l) as H.
  induction H as [|x k Hk IH Hx]; constructor; [done|].
  eapply Forall_impl; [exact Hx|]. unfold by_key, better. intros; lia.
Qed.

Lemma ranked_covers l c :
  c ∈ l → ∃ c', c' ∈ ranked l ∧ addr c' = addr c ∧ kind c' = kind c ∧ better c' c.
Proof.
  intros Hc. destruct (dedup_by_covers same_candidate better)
    with (l := sort_by_key (λ c, - priority c) l) (x := c) as (c' & Hc' & Hs & Hb).
  - intros x. unfold better. lia.
  - intros x. by apply same_candidate_spec.
  - apply sort_by_priority_sorted.
  - by rewrite sort_by_key_perm.
  - apply same_candidate_spec in Hs. exists c'. naive_solver.
Qed.

Lemma ranked_subset l c : c ∈ ranked l → c ∈ l.
Proof.
  intros Hc. rewrite <- (sort_by_key_perm (λ c, - priority c) l).
  eapply elem_of_submseteq; [exact Hc|]. apply sublist_submseteq, dedup_by_sublist.
Qed.

Lemma sublist_StronglySorted {A} (R : A → A → Prop) l k :
  l `sublist_of` k → StronglySorted R k → StronglySorted R l.
Proof.
  induction 1 as [|x l k Hl IH|x l k Hl IH]; intros Hk; [constructor|..];
    apply StronglySorted_inv in Hk as [Hk Hx]; [|by apply IH].
  constructor; [by apply IH|]. rewrite Forall_forall in Hx |- *. intros y Hy.
  apply Hx. eapply elem_of_submseteq; [exact Hy|by apply sublist_submseteq].
Qed.

Lemma ranked_sorted l : StronglySorted better (ranked l).
Proof.
  eapply sublist_StronglySorted; [apply dedup_by_sublist|apply sort_by_priority_sorted].
Qed.

(** The candidates an edge announces when its port mapping changes.  They come best
    first; the mapping of the snapshot is the only mapped one, an older one is gone; every
    other candidate is still there, up to one of the same address and kind; and when there
    is a mapping, the external address registered is the mapped one, provided no candidate
    of its kind is of higher priority. *)
Theorem merged_candidates base s fp :
  Forall (λ c, kind c = ServerReflexive → priority c < 90) base →
  let merged := merge_mapped_candidate base s in
  StronglySorted better merged ∧
  (∀ c, c ∈ merged → source c = PortMapping → as_candidate s = Some c) ∧
  (∀ c, c ∈ merged → source c ≠ PortMapping → c ∈ base) ∧
  (∀ c, c ∈ base → source c ≠ PortMapping →
     ∃ c', c' ∈ merged ∧ addr c' = addr c ∧ kind c' = kind c) ∧
  preferred_external_addr fp merged =
    match as_candidate s with Some c => Some (addr c) | None => head (public_addrs fp) end.
Proof.
  intros Hbase. cbv zeta. unfold merge_mapped_candidate.
  set (rest := List.filter _ base).
  set (mapped := match as_candidate s with Some c => [c] | None => [] end).
  assert (∀ c, c ∈ rest ↔ c ∈ base ∧ source c ≠ PortMapping) as Hrest.
  { intros c. subst rest. rewrite !list_elem_of_In, List.filter_In, negb_true_iff.
    by rewrite bool_decide_eq_false. }
  assert (∀ c, c ∈ mapped ↔ as_candidate s = Some c) as Hmapped.
  { intros c. subst mapped. destruct (as_candidate s); set_solver. }
  assert (∀ c, as_candidate s = Some c → source c = PortMapping ∧ priority c = 90 ∧
            kind c = ServerReflexive) as Hmc.
  { unfold as_candidate. intros c Hc. destruct (acquired s), (external_addr s); try done.
    by injection Hc as <-. }
  assert (∀ c, c ∈ ranked (rest ++ mapped) → source c = PortMapping → as_candidate s = Some c)
    as Honly.
  { intros c [Hc|Hc]%ranked_subset%elem_of_app Hs; [by apply Hrest in Hc as [_ ?]|].
    by apply Hmapped. }
  split; [apply ranked_sorted|]. split; [done|]. split; [|split].
  - intros c [Hc|Hc]%ranked_subset%elem_of_app Hs; [by apply Hrest|].
    apply Hmapped, Hmc in Hc as [? _]. done.
  - intros c Hc Hs. destruct (ranked_covers (rest ++ mapped) c) as (c' & ? & ? & ? & _).
    { apply elem_of_app. left. by apply Hrest. }
    by exists c'.
  - unfold preferred_external_addr.
    destruct (List.find _ (ranked (rest ++ mapped))) as [c|] eqn:E.
    + apply List.find_some in E as [Hin%list_elem_of_In Hs%bool_decide_eq_true].
      by rewrite (Honly c Hin Hs).
    + destruct (as_candidate s) as [c|] eqn:Ea; [exfalso|done].
      destruct (ranked_covers (rest ++ mapped) c) as (c' & Hin & Ha & Hk & Hb).
      { apply elem_of_app. right. by apply Hmapped. }
      destruct (Hmc c eq_refl) as (_ & Hp & Hkc).
      destruct (decide (source c' = PortMapping)) as [Hs|Hs].
      { apply list_elem_of_In, (List.find_none _ _ E) in Hin.
        by rewrite bool_decide_eq_true_2 in Hin. }
      apply ranked_subset, elem_of_app in Hin as [Hin|Hin].
      * apply Hrest in Hin as [Hin _]. rewrite Forall_forall in Hbase.
        specialize (Hbase c' Hin). unfold better in Hb. rewrite Hk, Hkc in Hbase.
        specialize (Hbase eq_refl). lia.
      * by apply Hmapped, Hmc in Hin as [? _].
Qed.

(** ** The life of a mapping *)
Lemma renewal_delay_bounds now m :
  secs 1 ≤ renewal_delay now m ≤ Z.max (secs 1) (expires_at m - now).
Proof.
  unfold renewal_delay, duration_since, MIN_RENEW_INTERVAL, secs.
  set (r := Z.max 0 (expires_at m - now)).
  assert (0 ≤ r ∧ r ≤ Z.max 1 (expires_at m - now)) as Hr by (subst r; lia).
  pose proof (Z.div_mod r 2 ltac:(lia)). pose proof (Z.mod_pos_bound r 2 ltac:(lia)).
  case_bool_decide; lia.
Qed.

(** Whatever the gateway does, the task never spins and wakes before the lease ends, unless
    less than a second of it is left. *)
Lemma wait_for_bounds now m :
  secs 1 ≤ wait_for now m ∧
  ∀ p, active m = Some p → now + wait_for now m ≤ Z.max (expires_at p) (now + secs 1).
Proof.
  unfold wait_for. destruct (active m) as [p|].
  - pose proof (renewal_delay_bounds now p). split; [lia|]. intros ? [= <-]. lia.
  - split; [done|]. done.
Qed.

(** A gateway that speaks UPnP and takes every port it is asked for. *)
Definition granting (ip : Z) (a : Answers) : Prop :=
  igd_external_ip a = Some (V4 ip) ∧ (∀ p, igd_add_port a p = true) ∧ upnp_elapsed a = false.

(** The mapping a granted refresh makes. *)
Definition renewed (ip port now : Z) : ActiveMapping :=
  mkMapping UpnpIgd (mkSocketAddr (V4 ip) port) (now + secs REQUESTED_LEASE_SECS).

(** A refresh that starts at most half a lease late, or a new subscription, with the time of
    the last refresh. *)
Inductive granted_step (ip : Z) : Z * PortMappingManager → Z * PortMappingManager → Prop :=
| granted now m now' a :
    granting ip a → now + wait_for now m ≤ now' < now + wait_for now m + secs 1800 →
    granted_step ip (now, m) (now', (refresh now' a m).2)
| followed now m : granted_step ip (now, m) (now, subscribe m).

Lemma refresh_granted ip port a now m :
  granting ip a → preferred_port UpnpIgd m (active m) = port →
  let '(s, m') := refresh now a m in
  active m' = Some (renewed ip port now) ∧ s = mapping_snapshot now (renewed ip port now) ∧
  subscribed m' = subscribed m ∧ (subscribed m = true → published m' = s).
Proof.
  intros (Hip & Hadd & He) Hp. unfold refresh, publish_snapshot, next_mapping, in_time.
  cbn [active published subscribed snapshot]. rewrite He.
  assert (try_upnp_igd now a (active m) m = Some (renewed ip port now)) as ->
    by (unfold try_upnp_igd; rewrite Hip, Hp, Hadd; done).
  unfold snapshot. cbn [active]. split_and!; try done. by intros ->.
Qed.

Lemma preferred_kept ip port now m :
  active m = Some (renewed ip port now) → preferred_port UpnpIgd m (active m) = port.
Proof. intros Ha. unfold preferred_port. rewrite Ha. by cbn. Qed.

(** C38: a port mapping does not lapse.  Once a gateway has granted one, and as long as it
    answers and no refresh starts more than half an hour late, the mapping in force is
    always for the same external address, and the next refresh takes place at least a second
    later but before the mapping ends, renews it, returns it and, when the channel has a
    receiver, publishes it. *)
Theorem mapping_never_lapses ip a0 t0 m0 now m :
  granting ip a0 → active m0 = None →
  rtc (granted_step ip) (t0, (refresh t0 a0 m0).2) (now, m) →
  active m = Some (renewed ip (local_port m0) now) ∧
  ∀ now' a, granting ip a → now + wait_for now m ≤ now' < now + wait_for now m + secs 1800 →
    now + secs 1 ≤ now' < expires_at (renewed ip (local_port m0) now) ∧
    let '(s, m') := refresh now' a m in
    active m' = Some (renewed ip (local_port m0) now') ∧
    s = mapping_snapshot now' (renewed ip (local_port m0) now') ∧
    (subscribed m = true → published m' = s).
Proof.
  intros Hg Hnone Hrun. set (port := local_port m0).
  assert (active (refresh t0 a0 m0).2 = Some (renewed ip port t0)) as H0.
  { pose proof (refresh_granted ip port a0 t0 m0 Hg) as H. destruct (refresh t0 a0 m0).
    apply H. unfold preferred_port. by rewrite Hnone. }
  assert (active m = Some (renewed ip port now)) as Hm.
  { revert H0. change (active (t0, (refresh t0 a0 m0).2).2
      = Some (renewed ip port (t0, (refresh t0 a0 m0).2).1) →
      active (now, m).2 = Some (renewed ip port (now, m).1)).
    generalize (t0, (refresh t0 a0 m0).2) as s, (now, m) as s', Hrun. clear.
    induction 1 as [s|s1 s2 s3 Hstep _ IH]; [done|]. intros H1. apply IH.
    destruct Hstep as [now m now' a Hg _|now m]; cbn [fst snd] in *; [|exact H1].
    pose proof (refresh_granted ip port a now' m Hg (preferred_kept _ _ _ _ H1)) as H.
    destruct (refresh now' a m). apply H. }
  split; [exact Hm|]. intros now' a Ha Hnow. split.
  - pose proof (wait_for_bounds now m) as [Hw1 _]. split; [lia|]. cbn [expires_at renewed].
    revert Hnow. unfold wait_for. rewrite Hm. unfold renewal_delay, duration_since, renewed,
      REQUESTED_LEASE_SECS. cbn [expires_at].
    rewrite Z.max_r by (unfold secs; lia). intros Hnow.
    replace (now + secs 3600 - now) with (secs 3600) in Hnow by lia.
    change (bool_decide (secs 3600 / 2 < MIN_RENEW_INTERVAL)) with false in Hnow. cbn in Hnow.
    change (secs 3600 / 2) with (secs 1800) in Hnow. unfold secs in *. lia.
  - pose proof (refresh_granted ip port a now' m Ha (preferred_kept _ _ _ _ Hm)) as H.
    destruct (refresh now' a m). naive_solver.
Qed.

(** ** Concrete runs *)
Definition all_ports : Answers :=
  mkAnswers (Some (V4 (ipv4 203 0 113 7))) (λ _, true) None None (λ _, None) false (λ _, None)
    false false false.
Definition fresh_manager : PortMappingManager :=
  mkManager (ipv4 192 168 1 5) (ipv4 192 168 1 1) 7000 None false false PortMappingSnapshot_default.

Lemma mapping_never_lapses_witness :
  ∃ p, active (refresh (secs 1800) all_ports (subscribe (refresh 0 all_ports fresh_manager).2)).2
      = Some p ∧
    am_external_addr p = mkSocketAddr (V4 (ipv4 203 0 113 7)) 7000.
Proof.
  assert (granting (ipv4 203 0 113 7) all_ports) as Hg by done.
  destruct (mapping_never_lapses (ipv4 203 0 113 7) all_ports 0 fresh_manager (secs 1800)
    (refresh (secs 1800) all_ports (subscribe (refresh 0 all_ports fresh_manager).2)).2) as [H _];
    [done|done| |].
  - eapply rtc_l; [apply followed|]. apply rtc_once, granted; [done|]. vm_compute. done.
  - eexists. split; [exact H|done].
Defined.

Lemma predicted_ports_witness :
  ∃ l, predict_from_fingerprint (mkFingerprint Symmetric
    [mkSocketAddr (V4 (ipv4 203 0 113 7)) 65530; mkSocketAddr (V4 (ipv4 203 0 113 7)) 65527]
    false false (Some 3) (secs 30) false false) = Some l ∧
    mkSocketAddr (V4 (ipv4 203 0 113 7)) 65533 ∈ l.
Proof.
  set (fp := mkFingerprint _ _ _ _ _ _ _ _).
  assert (∀ d, port_delta_pattern fp = Some d → 1 ≤ d) as H by (intros d [= <-]; lia).
  pose proof (predicted_ports fp H) as Hp.
  destruct (predict_from_fingerprint fp) as [l|] eqn:E; [|discriminate (Hp eq_refl)].
  exists l. split; [done|]. destruct Hp as (_ & _ & _ & a & Ha & Hmax & Hin).
  assert (a = mkSocketAddr (V4 (ipv4 203 0 113 7)) 65530) as ->.
  { assert (Hm : 65530 ≤ sa_port a) by (apply (Hmax (mkSocketAddr (V4 (ipv4 203 0 113 7)) 65530));
      apply elem_of_cons; by left).
    cbn [public_addrs fp] in Ha. apply elem_of_cons in Ha as [->|Ha]; [done|].
    apply list_elem_of_singleton in Ha as ->. simpl in Hm. lia. }
  apply Hin. split_and!; [done|done|done|]. left. exists 1. split; [lia|done].
Defined.

Lemma merged_candidates_witness :
  preferred_external_addr (mkFingerprint Cone [] true false None (secs 30) false false)
    (merge_mapped_candidate [] (refresh 0 all_ports fresh_manager).1)
  = Some (mkSocketAddr (V4 (ipv4 203 0 113 7)) 7000).
Proof.
  destruct (merged_candidates [] (refresh 0 all_ports fresh_manager).1
    (mkFingerprint Cone [] true false None (secs 30) false false)) as (_ & _ & _ & _ & H);
    [constructor|].
  rewrite H. vm_compute. reflexivity.
Defined.
