(* ===== verification/Config.v ===== *)
(** Configuration: crates/r2n-config/src/lib.rs.

    The random ids of a fresh configuration are arguments; [toml] and the file system are
    classes. *)
From Stdlib Require Import ZArith Lia.
From stdpp Require Import base tactics numbers list strings.
From S2P Require Import Prelude Net Common Text Etherparse Policy Discovery.
Local Open Scope Z_scope.
Local Open Scope string_scope.

Inductive BackendMode := BackendTun | BackendTap.
Record BackendConfig := mkBackend { mode : BackendMode; desktop_l2_enhanced : bool }.
Record VirtualLanConfig := mkVirtualLan { prefer_virtual_interface : bool }.

Record SupernodeConfig := mkSupernodeConfig {
  listen_port : Z;
  public_addr : option string;
  config_peers : list string;
  admin_token : string;
  management_bind : string;
  federation_id : string;
  address_pool : string;
  room_prefix_len : Z;
  room_idle_timeout_secs : Z;
  max_room_peers : Z;
  supernode_log_level : string;
}.

(** ** Defaults *)
Definition default_local_port : Z := 0.
Definition default_tun_name : string := "r2n0".
Definition default_tun_mtu : Z := 1280.
Definition default_prefer_virtual_interface : bool := true.
Definition default_ping_interval : Z := 2.
Definition default_watchdog_timeout : Z := 25.
Definition default_log_level : string := "info".
Definition default_nickname : string := "R2N-Peer".
Definition default_supernode_addr : string := "127.0.0.1:7777".
Definition default_supernodes : list string := [default_supernode_addr].
Definition BackendConfig_default : BackendConfig := mkBackend BackendTun false.
Definition VirtualLanConfig_default : VirtualLanConfig :=
  mkVirtualLan default_prefer_virtual_interface.
Definition default_listen_port : Z := 7777.
Definition default_room_idle_timeout : Z := 300.
Definition default_max_room_peers : Z := 16.
Definition default_management_bind : string := "127.0.0.1:7778".
Definition default_federation_id : string := "default".
Definition default_address_pool : string := "192.168.0.0/16".
Definition default_room_prefix_len : Z := 24.

Definition default_stun_servers : list string := [
  "stun.miwifi.com:3478"; "stun.qq.com:3478"; "stun.12voip.com:3478"; "stun.aa.net.uk:3478";
  "stun.acrobits.cz:3478"; "stun.actionvoip.com:3478"; "stun.annatel.net:3478";
  "stun.antisip.com:3478"; "stun.cablenet-as.net:3478"; "stun.cheapvoip.com:3478";
  "stun.commpeak.com:3478"; "stun.cope.es:3478"; "stun.dcalling.de:3478"; "stun.dus.net:3478";
  "stun.easyvoip.com:3478"; "stun.epygi.com:3478"; "stun.freecall.com:3478";
  "stun.freeswitch.org:3478"; "stun.freevoipdeal.com:3478"; "stun.halonet.pl:3478";
  "stun.hoiio.com:3478"; "stun.infra.net:3478"; "stun.internetcalls.com:3478";
  "stun.intervoip.com:3478"; "stun.ipfire.org:3478"; "stun.ippi.fr:3478"; "stun.it1.hr:3478";
  "stun.jumblo.com:3478"; "stun.justvoip.com:3478"; "stun.linphone.org:3478";
  "stun.liveo.fr:3478"; "stun.lowratevoip.com:3478"; "stun.myvoiptraffic.com:3478";
  "stun.mywatson.it:3478"; "stun.netappel.com:3478"; "stun.netgsm.com.tr:3478";
  "stun.nfon.net:3478"; "stun.nonoh.net:3478"; "stun.ooma.com:3478"; "stun.pjsip.org:3478";
  "stun.poivy.com:3478"; "stun.powervoip.com:3478"; "stun.ppdi.com:3478";
  "stun.rockenstein.de:3478"; "stun.rolmail.net:3478"; "stun.rynga.com:3478"; "stun.sip.us:3478";
  "stun.sipdiscount.com:3478"; "stun.siplogin.de:3478"; "stun.sipnet.net:3478";
  "stun.sipnet.ru:3478"; "stun.siptraffic.com:3478"; "stun.smartvoip.com:3478";
  "stun.smsdiscount.com:3478"; "stun.solcon.nl:3478"; "stun.solnet.ch:3478";
  "stun.sonetel.com:3478"; "stun.sonetel.net:3478"; "stun.srce.hr:3478"; "stun.tel.lu:3478";
  "stun.telbo.com:3478"; "stun.t-online.de:3478"; "stun.twt.it:3478"; "stun.uls.co.za:3478";
  "stun.usfamily.net:3478"; "stun.vo.lu:3478"; "stun.voicetrading.com:3478";
  "stun.voip.aebc.com:3478"; "stun.voip.blackberry.com:3478"; "stun.voip.eutelia.it:3478";
  "stun.voipblast.com:3478"; "stun.voipbuster.com:3478"; "stun.voipbusterpro.com:3478";
  "stun.voipcheap.com:3478"; "stun.voipfibre.com:3478"; "stun.voipgain.com:3478";
  "stun.voipinfocenter.com:3478"; "stun.voipplanet.nl:3478"; "stun.voippro.com:3478";
  "stun.voipraider.com:3478"; "stun.voipstunt.com:3478"; "stun.voipwise.com:3478";
  "stun.voipzoom.com:3478"; "stun.voys.nl:3478"; "stun.voztele.com:3478";
  "stun.webcalldirect.com:3478"; "stun.zadarma.com:3478"; "stun.l.google.com:19302";
  "stun1.l.google.com:19302"; "stun2.l.google.com:19302"; "stun3.l.google.com:19302";
  "stun4.l.google.com:19302"].

(** ** The configuration of an edge *)
Inductive ConfigError :=
| NoConfigPath | ReadFailed | WriteFailed | CreateDirFailed | ParseFailed | SerializeFailed
| InvalidHex | PrivateKeyLength.

(** The private key is kept as text of its bytes. *)
Definition serialize_hex `{Hex} (bytes : list Z) : string := hex_encode bytes.
Definition deserialize_hex `{Hex} (s : string) : outcome ConfigError (list Z) :=
  vec ← ok_or InvalidHex (hex_decode s);
  if negb (bool_decide (length vec = 32%nat)) then Err PrivateKeyLength else Ok vec.

Section Config.
Context `{N : IpNetLib}.

Record EdgeConfig := mkEdgeConfig {
  edge_node_id : NodeId;
  private_key : list Z;
  default_supernode : string;
  supernodes : list string;
  default_tun : string;
  local_udp_port : Z;
  edge_tun_mtu : Z;
  stun_servers : list string;
  ping_interval_secs : Z;
  watchdog_timeout_secs : Z;
  log_level : string;
  edge_nickname : string;
  edge_discovery : DiscoveryConfig;
  backend : BackendConfig;
  virtual_lan : VirtualLanConfig;
  edge_policy : TrafficPolicy;
}.

Record SharedConfigFile := mkShared {
  edge : option EdgeConfig;
  supernode : option SupernodeConfig;
}.
Definition SharedConfigFile_default : SharedConfigFile := mkShared None None.

(** The random id and key are drawn by the caller. *)
Definition EdgeConfig_default (node_id : NodeId) (key : list Z) : EdgeConfig :=
  mkEdgeConfig node_id key default_supernode_addr [default_supernode_addr] default_tun_name
    default_local_port default_tun_mtu default_stun_servers default_ping_interval
    default_watchdog_timeout default_log_level default_nickname DiscoveryConfig_default
    BackendConfig_default VirtualLanConfig_default TrafficPolicy_default.

Definition SupernodeConfig_default (admin_token : string) : SupernodeConfig :=
  mkSupernodeConfig default_listen_port None [] admin_token default_management_bind
    default_federation_id default_address_pool default_room_prefix_len
    default_room_idle_timeout default_max_room_peers default_log_level.

Definition set_supernodes (l : list string) (c : EdgeConfig) : EdgeConfig :=
  mkEdgeConfig (edge_node_id c) (private_key c) (default_supernode c) l (default_tun c)
    (local_udp_port c) (edge_tun_mtu c) (stun_servers c) (ping_interval_secs c)
    (watchdog_timeout_secs c) (log_level c) (edge_nickname c) (edge_discovery c) (backend c)
    (virtual_lan c) (edge_policy c).
Definition set_default_supernode (s : string) (c : EdgeConfig) : EdgeConfig :=
  mkEdgeConfig (edge_node_id c) (private_key c) s (supernodes c) (default_tun c)
    (local_udp_port c) (edge_tun_mtu c) (stun_servers c) (ping_interval_secs c)
    (watchdog_timeout_secs c) (log_level c) (edge_nickname c) (edge_discovery c) (backend c)
    (virtual_lan c) (edge_policy c).
Definition set_tun_mtu (m : Z) (c : EdgeConfig) : EdgeConfig :=
  mkEdgeConfig (edge_node_id c) (private_key c) (default_supernode c) (supernodes c)
    (default_tun c) (local_udp_port c) m (stun_servers c) (ping_interval_secs c)
    (watchdog_timeout_secs c) (log_level c) (edge_nickname c) (edge_discovery c) (backend c)
    (virtual_lan c) (edge_policy c).

Definition normalize (c : EdgeConfig) : EdgeConfig :=
  let c := set_tun_mtu (Z.max (edge_tun_mtu c) 1280) c in
  let default := trim (default_supernode c) in
  let c := set_supernodes (List.filter (λ n, negb (blank n)) (supernodes c)) c in
  let c := if bool_decide (supernodes c = []) && negb (is_empty default)
           then set_supernodes (supernodes c ++ [default]) c else c in
  let c := if negb (is_empty default) && negb (bool_decide (default ∈ supernodes c))
           then set_supernodes (default :: supernodes c) c else c in
  if blank (default_supernode c) then
    match supernodes c with
    | first :: _ => set_default_supernode first c
    | [] => c
    end
  else c.

(** ** The file

    The state is the content of the file at the path; [toml] reads and prints it, and the
    class [Fs] says what the operating system refuses. *)
Class Toml := {
  toml_shared : string → option SharedConfigFile;
  toml_edge : string → option EdgeConfig;
  toml_supernode : string → option SupernodeConfig;
  toml_print : SharedConfigFile → option string;
}.
Class TomlLaws (T : Toml) : Prop := {
  toml_roundtrip : ∀ c s, toml_print c = Some s → toml_shared s = Some c;
}.

(** [fs_write_failure] is what a failing write leaves in the file. *)
Class Fs := {
  fs_readable : bool;
  fs_dir_ok : bool;
  fs_write_failure : string → option (option string);
}.

Context `{T : Toml} `{F : Fs}.
Definition FileM : Type → Type := M (option string) ConfigError.

Definition read_to_string : FileM string :=
  let* file := mget in
  match file with
  | Some content => if fs_readable then mreturn content else mthrow ReadFailed
  | None => mthrow ReadFailed
  end.

Definition write_file (content : string) : FileM unit :=
  match fs_write_failure content with
  | None => mmodify (λ _, Some content)
  | Some remains => do* mmodify (λ _, remains) in mthrow WriteFailed
  end.

Definition parse_shared_config_content (content : string)
    : outcome ConfigError SharedConfigFile :=
  match toml_shared content with
  | Some shared => Ok shared
  | None =>
      match toml_edge content with
      | Some e => Ok (mkShared (Some (normalize e)) None)
      | None =>
          match toml_supernode content with
          | Some s => Ok (mkShared None (Some s))
          | None => Err ParseFailed
          end
      end
  end.

Definition load_shared_config : FileM SharedConfigFile :=
  let* content := read_to_string in
  mlift (parse_shared_config_content content).

Definition load_shared_config_if_present : FileM SharedConfigFile :=
  let* file := mget in
  if bool_decide (is_Some file) then load_shared_config else mreturn SharedConfigFile_default.

Definition save_shared_config (shared : SharedConfigFile) : FileM unit :=
  let* content := mlift (ok_or SerializeFailed (toml_print shared)) in
  write_file content.

Definition create_dir_all : FileM unit :=
  if fs_dir_ok then mreturn tt else mthrow CreateDirFailed.

Definition edge_load : FileM EdgeConfig :=
  let* shared := load_shared_config in
  let* config := match edge shared with
                 | Some config => mreturn config
                 | None => let* content := read_to_string in
                           mlift (ok_or ParseFailed (toml_edge content))
                 end in
  mreturn (normalize config).

Definition edge_save (c : EdgeConfig) : FileM unit :=
  do* create_dir_all in
  let* shared := load_shared_config_if_present in
  save_shared_config (mkShared (Some c) (supernode shared)).

Definition supernode_load : FileM SupernodeConfig :=
  let* shared := load_shared_config in
  match supernode shared with
  | Some config => mreturn config
  | None => let* content := read_to_string in
            mlift (ok_or ParseFailed (toml_supernode content))
  end.

Definition supernode_save (c : SupernodeConfig) : FileM unit :=
  do* create_dir_all in
  let* shared := load_shared_config_if_present in
  save_shared_config (mkShared (edge shared) (Some c)).

(** The value of R2N_CONFIG_PATH, and the directory of the executable. *)
Definition default_config_path (env exe_dir : option string) : option string :=
  let beside := dir ← exe_dir; Some (dir +:+ "/config.toml") in
  match env with
  | Some path => if negb (is_empty (trim path)) then Some (trim path) else beside
  | None => beside
  end.

Definition edge_load_or_create (path : option string) (fresh : EdgeConfig) : FileM EdgeConfig :=
  match path with
  | None => mthrow NoConfigPath
  | Some _ =>
      let* file := mget in
      if bool_decide (is_Some file) then edge_load
      else do* edge_save fresh in mreturn fresh
  end.

Definition supernode_load_or_create (path : option string) (fresh : SupernodeConfig)
    : FileM SupernodeConfig :=
  match path with
  | None => mthrow NoConfigPath
  | Some _ =>
      let* file := mget in
      if bool_decide (is_Some file) then supernode_load
      else do* supernode_save fresh in mreturn fresh
  end.

(** ** Facts *)
Lemma is_empty_blank s : is_empty (trim s) = blank s.
Proof. done. Qed.

Lemma elem_of_filter_blank n l :
  n ∈ List.filter (λ n, negb (blank n)) l ↔ n ∈ l ∧ blank n = false.
Proof. rewrite !list_elem_of_In, List.filter_In. by rewrite negb_true_iff. Qed.

Lemma filter_all {B} (f : B → bool) l : Forall (λ x, f x = true) l → List.filter f l = l.
Proof. induction 1 as [|x l Hx _ IH]; simpl; [done|]. by rewrite Hx, IH. Qed.

Lemma supernodes_if (b : bool) l c :
  supernodes (if b then set_supernodes l c else c) = if b then l else supernodes c.
Proof. by destruct b. Qed.

Lemma supernodes_first c :
  supernodes (if blank (default_supernode c) then
    match supernodes c with first :: _ => set_default_supernode first c | [] => c end else c)
  = supernodes c.
Proof. destruct (blank _); [|done]. destruct (supernodes c) eqn:E; by rewrite ?E. Qed.

(** The servers of a normalized configuration. *)
Lemma normalize_servers c n :
  n ∈ supernodes (normalize c) ↔
  (n ∈ supernodes c ∧ blank n = false) ∨
  (n = trim (default_supernode c) ∧ blank (default_supernode c) = false).
Proof.
  assert (supernodes (normalize c) =
    let l := List.filter (λ n, negb (blank n)) (supernodes c) in
    let d := trim (default_supernode c) in
    let l := if bool_decide (l = []) && negb (is_empty d) then l ++ [d] else l in
    if negb (is_empty d) && negb (bool_decide (d ∈ l)) then d :: l else l)%list as ->.
  { unfold normalize. cbv zeta. by rewrite supernodes_first, !supernodes_if. }
  cbv zeta. rewrite is_empty_blank. set (l := List.filter _ _). set (d := trim _).
  pose proof (elem_of_filter_blank n (supernodes c)) as Hf. fold l in Hf. rewrite <- Hf. clear Hf.
  destruct (blank (default_supernode c)); simpl.
  - rewrite andb_false_r. naive_solver.
  - rewrite andb_true_r. destruct (decide (l = [])) as [->|Hl].
    + rewrite (bool_decide_eq_true_2 (([] : list string) = [])) by done. cbn [app].
      rewrite (bool_decide_eq_true_2 (d ∈ [d])) by (by apply elem_of_cons; left).
      simpl. rewrite elem_of_cons, elem_of_nil. naive_solver.
    + rewrite (bool_decide_eq_false_2 (l = [])) by done.
      destruct (decide (d ∈ l)); [rewrite bool_decide_eq_true_2 by done
        |rewrite bool_decide_eq_false_2 by done]; simpl; [naive_solver|].
      rewrite elem_of_cons. naive_solver.
Qed.

Lemma project_if {X} (f : EdgeConfig → X) (b : bool) l c :
  (∀ l c, f (set_supernodes l c) = f c) → f (if b then set_supernodes l c else c) = f c.
Proof. by destruct b. Qed.

Lemma normalize_rest c :
  edge_tun_mtu (normalize c) = Z.max (edge_tun_mtu c) 1280 ∧
  default_supernode (normalize c) =
    if blank (default_supernode c) then default (default_supernode c) (head (supernodes (normalize c)))
    else default_supernode c.
Proof.
  unfold normalize. cbv zeta. rewrite supernodes_first.
  match goal with |- context [head (supernodes ?x)] => set (y := x) end.
  assert (default_supernode y = default_supernode c) as Ed
    by (subst y; rewrite !(project_if default_supernode) by done; done).
  assert (edge_tun_mtu y = Z.max (edge_tun_mtu c) 1280) as Em
    by (subst y; rewrite !(project_if edge_tun_mtu) by done; done).
  clearbody y. rewrite Ed.
  destruct (blank (default_supernode c)); [|done]. by destruct (supernodes y).
Qed.

(** A configuration that is used names usable servers.  After [normalize] the MTU is at
    least 1280; the servers are those that were not blank, with the default server, trimmed,
    when it was not blank; the default server is blank only when there is no server at all,
    and is unchanged when it was not blank; and normalizing again changes nothing once the
    default server, trimmed, is in the list. *)
Theorem normalize_servers_usable c :
  let c' := normalize c in
  edge_tun_mtu c' = Z.max (edge_tun_mtu c) 1280 ∧
  (∀ n, n ∈ supernodes c' ↔ (n ∈ supernodes c ∧ blank n = false) ∨
     (n = trim (default_supernode c) ∧ blank (default_supernode c) = false)) ∧
  (blank (default_supernode c) = false → default_supernode c' = default_supernode c) ∧
  (blank (default_supernode c') = true → supernodes c' = []) ∧
  (trim (default_supernode c') ∈ supernodes c' → normalize c' = c').
Proof.
  intros c'. destruct (normalize_rest c) as [Hm Hd]. fold c' in Hm, Hd.
  pose proof (normalize_servers c) as Hs. fold c' in Hs.
  assert (∀ n, n ∈ supernodes c' → blank n = false) as Hnb.
  { intros n [[_ ?]|[-> ?]]%Hs; [done|]. by rewrite blank_trim. }
  split; [done|]. split; [exact Hs|]. split; [by intros E; rewrite E in Hd|]. split.
  - intros Hb. destruct (blank (default_supernode c)) eqn:E; [|by rewrite Hd, E in Hb].
    destruct (supernodes c') as [|n l] eqn:El; [done|]. simpl in Hd. rewrite Hd in Hb.
    rewrite (Hnb n) in Hb; [done|]. by left.
  - intros Hin. assert (blank (default_supernode c') = false) as Hdb
      by (rewrite <- blank_trim; by apply Hnb).
    unfold normalize. cbv zeta. clearbody c'.
    assert (set_tun_mtu (edge_tun_mtu c `max` 1280) c' = c') as Eset
      by (rewrite <- Hm; by destruct c').
    rewrite Hm. rewrite Z.max_l by lia. rewrite Eset.
    assert (List.filter (λ n, negb (blank n)) (supernodes c') = supernodes c') as ->.
    { apply filter_all, Forall_forall. intros n Hn. by rewrite (Hnb n Hn). }
    assert (set_supernodes (supernodes c') c' = c') as -> by (by destruct c').
    rewrite is_empty_blank, Hdb. rewrite (bool_decide_eq_false_2 (supernodes c' = []))
      by (intros E; rewrite E in Hin; by apply elem_of_nil in Hin).
    simpl. rewrite (bool_decide_eq_true_2 (trim _ ∈ _)) by done. simpl. by rewrite Hdb.
Qed.

Lemma load_present file :
  load_shared_config_if_present file =
    match file with Some _ => load_shared_config file | None => (Ok SharedConfigFile_default, None) end.
Proof. by destruct file. Qed.

Lemma load_shared_keeps file : (load_shared_config file).2 = file.
Proof.
  unfold load_shared_config, read_to_string, mseq, mget. by destruct file; [destruct fs_readable|].
Qed.

(** What both saves do, for the shared configuration they write. *)
Lemma save_with `{!TomlLaws T} (f : SharedConfigFile → SharedConfigFile) file :
  match (do* create_dir_all in
         let* shared := load_shared_config_if_present in save_shared_config (f shared)) file with
  | (Ok _, file') => ∃ old, (load_shared_config_if_present file).1 = Ok old ∧
      (fs_readable = true → load_shared_config file' = (Ok (f old), file'))
  | (Err e, file') => e = WriteFailed ∨ file' = file
  | (Panic, _) => False
  end.
Proof.
  unfold create_dir_all. destruct fs_dir_ok; [|by right].
  rewrite (mseq_Ok (mreturn tt) _ file tt file eq_refl).
  assert ((load_shared_config_if_present file).2 = file) as Hk
    by (rewrite load_present; destruct file; [apply load_shared_keeps|done]).
  unfold mseq at 1.
  assert ((load_shared_config_if_present file).1 ≠ Panic) as Hnp.
  { rewrite load_present. destruct file as [content|]; [|done].
    unfold load_shared_config, read_to_string, mseq, mget, mlift, parse_shared_config_content.
    destruct fs_readable; [|done]. by repeat case_match. }
  destruct (load_shared_config_if_present file) as [[old|e|] file1]; simpl in *;
    [|by right|by destruct Hnp].
  subst file1. unfold save_shared_config, mseq, mlift, write_file.
  destruct (toml_print (f old)) as [content|] eqn:Hp; simpl; [|by right].
  destruct (fs_write_failure content) as [r|]; unfold mmodify; simpl; [by left|].
  exists old. split; [done|]. intros Hr.
  unfold load_shared_config, read_to_string, mseq, mget, mlift, parse_shared_config_content.
  rewrite Hr. simpl. by rewrite (toml_roundtrip _ _ Hp).
Qed.

(** What is saved is loaded.  After a save of an edge configuration a load gives it
    back normalized, and after a save of a supernode configuration that configuration; the
    other part of the shared file is what it was; and a save that fails leaves the file as
    it was, unless it is the write itself that failed. *)
Theorem config_saved_loads `{!TomlLaws T} file :
  fs_readable = true →
  (∀ c, match edge_save c file with
   | (Ok _, file') => edge_load file' = (Ok (normalize c), file') ∧
       ∃ old, (load_shared_config_if_present file).1 = Ok old ∧
         load_shared_config file' = (Ok (mkShared (Some c) (supernode old)), file')
   | (Err e, file') => e = WriteFailed ∨ file' = file
   | (Panic, _) => False
   end) ∧
  (∀ c, match supernode_save c file with
   | (Ok _, file') => supernode_load file' = (Ok c, file') ∧
       ∃ old, (load_shared_config_if_present file).1 = Ok old ∧
         load_shared_config file' = (Ok (mkShared (edge old) (Some c)), file')
   | (Err e, file') => e = WriteFailed ∨ file' = file
   | (Panic, _) => False
   end).
Proof.
  intros Hr. split; intros c.
  - pose proof (save_with (λ old, mkShared (Some c) (supernode old)) file) as Hs.
    unfold edge_save. destruct (mseq _ _ file) as [[u|e|] file']; [|done..].
    destruct Hs as (old & Hold & Hload). specialize (Hload Hr). split; [|eauto].
    unfold edge_load. by rewrite (mseq_Ok _ _ _ _ _ Hload).
  - pose proof (save_with (λ old, mkShared (edge old) (Some c)) file) as Hs.
    unfold supernode_save. destruct (mseq _ _ file) as [[u|e|] file']; [|done..].
    destruct Hs as (old & Hold & Hload). specialize (Hload Hr). split; [|eauto].
    unfold supernode_load. by rewrite (mseq_Ok _ _ _ _ _ Hload).
Qed.
End Config.

(** ** A file of one configuration *)
#[export] Instance SupernodeConfig_eq_dec : EqDecision SupernodeConfig.
Proof. solve_decision. Defined.

Definition no_rules : IpNetLib := {| IpNet := unit; ipnet_contains _ _ := false |}.
Definition demo_supernode : SupernodeConfig := SupernodeConfig_default "secret".
Definition one_toml : Toml (N:=no_rules) := {|
  toml_shared s := if bool_decide (s = "it") then Some (mkShared None (Some demo_supernode)) else None;
  toml_edge _ := None; toml_supernode _ := None;
  toml_print c := match c with
                  | mkShared None (Some x) => if bool_decide (x = demo_supernode) then Some "it" else None
                  | _ => None
                  end;
|}.
#[export] Instance one_toml_laws : TomlLaws one_toml.
Proof.
  split. intros [[e|] [x|]] s; simpl; try done. case_bool_decide; [|done].
  intros [= <-]. by subst.
Qed.
Definition good_disk : Fs := {|
  fs_readable := true; fs_dir_ok := true; fs_write_failure _ := None |}.

Lemma config_saved_loads_witness :
  supernode_load (T:=one_toml) (F:=good_disk) (Some "it") = (Ok demo_supernode, Some "it").
Proof.
  pose proof (proj2 (config_saved_loads (T:=one_toml) (F:=good_disk) None eq_refl) demo_supernode)
    as H.
  exact (proj1 H).
Defined.

(** A default server read from the list with its spaces is put in the list a second time. *)
Example normalize_twice :
  let c := set_default_supernode "" (set_supernodes [" a "]
             (EdgeConfig_default (N:=no_rules) (mkNodeId []) [])) in
  supernodes (normalize c) = [" a "] ∧ supernodes (normalize (normalize c)) = ["a"; " a "].
Proof. by vm_compute. Qed.
