(* ===== verification/EdgeCore.v ===== *)
(** The parts of an edge that keep no state of their own: addresses of supernodes, the
    choice of a backend, the device (crates/r2n-tun/src/lib.rs), routes
    (crates/r2n-route/src/lib.rs) and the history of rooms
    (crates/r2n-edge-lib/src/lib.rs).

    What the operating system answers while an event is handled is a record, an argument of
    the handlers; the builds are those of Linux, except where Windows is named. *)
From Stdlib Require Import ZArith Lia.
From stdpp Require Import base tactics numbers list strings pretty.
From S2P Require Import Prelude Bytes Net Text AddrText Common Sorting Config Nat Etherparse.
From S2P Require Import Dataplane.
Local Open Scope Z_scope.
Local Open Scope string_scope.

(** The text of an error, as [anyhow] prints it. *)
Abbreviation result A := (outcome string A).

(** An answer of the system: the text of an error, or a value. *)
Definition answered {A} (x : string + A) : result A :=
  match x with inl err => Err err | inr a => Ok a end.

(** ** Supernodes *)
Section Addresses.
Context `{C : InviteCrypto}.

Definition resolve_supernode_addr (invite_addr : string) (fallback : SocketAddr)
    : option SocketAddr :=
  parsed ← parse_socket_addr invite_addr;
  if is_unspecified (sa_ip parsed) then
    let port := if bool_decide (sa_port parsed = 0) then sa_port fallback else sa_port parsed in
    Some (mkSocketAddr (sa_ip fallback) port)
  else Some parsed.

Definition set_supernode_of_invite (addr : string) (i : InviteData) : InviteData :=
  mkInviteData (version i) addr (fallback_supernodes i) addr (Common.room_id i) (room_pub_key i)
    (virtual_cidr i) (token i) (Common.expires_at i) (signature i).

Definition normalize_invite_code (invite_code : string) (fallback : SocketAddr) : string :=
  match decode_invite invite_code with
  | None => invite_code
  | Some invite =>
      match resolve_supernode_addr (primary_supernode_addr invite) fallback with
      | Some addr => encode_invite (set_supernode_of_invite (show_addr addr) invite)
      | None => invite_code
      end
  end.
End Addresses.

Definition normalize_supernodes (primary : SocketAddr) (supernodes : list SocketAddr)
    : list SocketAddr :=
  dedup_by (λ a b, bool_decide (a = b))
    (primary :: List.filter (λ addr, negb (bool_decide (addr = primary))) supernodes).

(** [iter().position(..)] *)
Fixpoint position {A} (f : A → bool) (l : list A) : option nat :=
  match l with
  | [] => None
  | x :: l => if f x then Some 0%nat else S <$> position f l
  end.

Definition next_supernode_after (current : SocketAddr) (supernodes : list SocketAddr)
    : total SocketAddr :=
  if bool_decide (length supernodes ≤ 1)%nat then Ok current
  else
    let index := match position (λ addr, bool_decide (addr = current)) supernodes with
                 | Some idx => ((idx + 1) mod length supernodes)%nat
                 | None => 0%nat
                 end in
    match supernodes !! index with Some a => Ok a | None => Panic end.

(** ** The device *)
Definition MIN_TUN_MTU : Z := 1280.
Definition normalize_mtu (mtu : Z) : Z :=
  if bool_decide (mtu < MIN_TUN_MTU) then MIN_TUN_MTU else mtu.
Definition normalize_tun_mtu (mtu : Z) : Z :=
  if bool_decide (mtu < MIN_TUN_MTU) then MIN_TUN_MTU else mtu.

Definition requested_tun_mode (b : BackendConfig) : TunDeviceMode :=
  match mode b with
  | BackendTap => Tap
  | BackendTun => if desktop_l2_enhanced b then Tap else Tun
  end.
Definition device_mode_label (m : TunDeviceMode) : string :=
  match m with Tun => "tun" | Tap => "tap" end.
Definition backend_request_label (b : BackendConfig) : string :=
  device_mode_label (requested_tun_mode b).

Section Os.
Context `{L : Ipv4NetLib}.

Inductive route_answer := RouteDone | RouteAlreadyExists | RouteNotFound | RouteFailed (text : string).

Record Interface := mkInterface {
  if_name : string;
  if_up : bool;
  if_loopback : bool;
  if_tun : bool;
  if_ipv4 : list Ipv4Net;
}.

(** The device builder (the name of the new device, when it can be asked for, or the text of
    the error), the Windows call that prefers an interface, the index of an interface and
    the two changes of the routing table, the interfaces there are, the seconds of the wall
    clock, a fresh configuration and where the configuration is. *)
Record Os := mkOs {
  os_build : string → TunDeviceMode → string → Z → Z → string + option string;
  os_prefer : string → string + bool;
  os_no_ifindex : string → option string;
  os_route_add : Ipv4Net → string → route_answer;
  os_route_delete : Ipv4Net → string → route_answer;
  os_interfaces : list Interface;
  os_unix_secs : Z;
}.

(** The target of the build, and the texts of the errors of other crates. *)
Class Platform := {
  target_windows : bool;
  name_error : string;
  net_error : string → string;
  transport_error : Transport.TransportError → string;
}.
Context `{Platform}.

Definition parse_ipv4 (s : string) : option Z :=
  '(a, rest) ← read_ipv4_addr (bytes_of s);
  if bool_decide (length (bytes_of s) ≤ 15)%nat && bool_decide (rest = []) then Some a else None.

Definition new_with_mode (os : Os) (name ipv4 : string) (netmask mtu : Z) (m : TunDeviceMode)
    : result TunDevice :=
  let effective_mtu := normalize_mtu mtu in
  device ← answered (os_build os name m ipv4 netmask effective_mtu);
  Ok (mkTun m (parse_ipv4 ipv4) device effective_mtu []).

(** Outside Windows there is nothing to prefer. *)
Definition prefer_virtual_interface (os : Os) (name : string) : result bool :=
  if target_windows then answered (os_prefer os name) else Ok false.
Definition virtual_interface_preference_supported : bool := target_windows.

(** The device, whether it is a fall-back, and the warning. *)
Definition create_tun_device_with_backend (os : Os) (tun_name assigned_ip : string)
    (prefix_len tun_mtu : Z) (b : BackendConfig) : result (TunDevice * bool * option string) :=
  match requested_tun_mode b with
  | Tun =>
      device ← new_with_mode os tun_name assigned_ip prefix_len tun_mtu Tun;
      Ok (device, false, None)
  | Tap =>
      match new_with_mode os tun_name assigned_ip prefix_len tun_mtu Tap with
      | Ok device => Ok (device, false, None)
      | Err err =>
          let warning := "requested TAP/L2 backend is unavailable: " +:+ err
                           +:+ "; falling back to TUN" in
          device ← new_with_mode os tun_name assigned_ip prefix_len tun_mtu Tun;
          Ok (device, true, Some warning)
      | Panic => Panic
      end
  end.

(** ** Routes: the table of the system, as the edge has changed it *)
Definition RouteTable : Type := list (Ipv4Net * string).

Definition add_route (os : Os) (dest : Ipv4Net) (interface_name : string)
    : M RouteTable string unit :=
  match os_no_ifindex os interface_name with
  | Some err => mthrow err
  | None =>
      match os_route_add os dest interface_name with
      | RouteDone => mmodify (λ t, (t ++ [(dest, interface_name)])%list)
      | RouteAlreadyExists => mreturn tt
      | RouteNotFound => mthrow "IO error: not found"
      | RouteFailed err => mthrow err
      end
  end.

Definition remove_route (os : Os) (dest : Ipv4Net) (interface_name : string)
    : M RouteTable string unit :=
  match os_no_ifindex os interface_name with
  | Some err => mthrow err
  | None =>
      match os_route_delete os dest interface_name with
      | RouteDone =>
          mmodify (List.filter (λ r, negb (bool_decide (r = (dest, interface_name)))))
      | RouteNotFound => mreturn tt
      | RouteAlreadyExists => mthrow "IO error: already exists"
      | RouteFailed err => mthrow err
      end
  end.

(** The errors of the routes that could not be added. *)
Fixpoint add_lan_discovery_routes (os : Os) (cidrs : list string) (interface_name : string)
    : M RouteTable string (list string) :=
  match cidrs with
  | [] => mreturn []
  | cidr :: cidrs =>
      let* here :=
        match net_parse cidr with
        | None => mreturn ["invalid LAN discovery route CIDR: " +:+ cidr]
        | Some route => λ t,
            match add_route os route interface_name t with
            | (Ok _, t) => (Ok [], t)
            | (Err err, t) =>
                (Ok ["failed to add LAN discovery route " +:+ cidr +:+ " via "
                       +:+ interface_name +:+ ": " +:+ err], t)
            | (Panic, t) => (Panic, t)
            end
        end in
      let* rest := add_lan_discovery_routes os cidrs interface_name in
      mreturn (here ++ rest)%list
  end.

Definition remove_lan_discovery_routes (os : Os) (cidrs : list string) (interface_name : string)
    : M RouteTable string unit :=
  mforeach (λ cidr, match net_parse cidr with
                    | None => mreturn tt
                    | Some route => mignore (remove_route os route interface_name)
                    end) cidrs.

(** ** Local networks *)
Definition is_link_local_v4 (a : Z) : bool := bool_decide (a / 2 ^ 16 = 43518).

Definition collect_local_networks (os : Os) (tun_name : string) : list string :=
  let add (acc : list string) (n : Ipv4Net) :=
    let addr := net_addr n in
    if is_loopback_v4 addr || is_link_local_v4 addr || bool_decide (addr = 0) then acc
    else if bool_decide (net_to_string n ∈ acc) then acc else (acc ++ [net_to_string n])%list in
  sort_with String.leb
    (fold_left (λ acc i,
       if negb (if_up i) || if_loopback i || bool_decide (if_name i = tun_name) || if_tun i
       then acc else fold_left add (if_ipv4 i) acc) (os_interfaces os) []).
End Os.

(** ** The history of rooms: a file of JSON *)
Record HistoryItem := mkHistory {
  hi_room_id : string;
  hi_name : string;
  hi_invite_code : string;
  hi_last_joined : Z;
}.

(** [serde_json] and [dirs]. *)
Class HistoryLib := {
  history_path : bool;
  history_to_json : list HistoryItem → option string;
  history_from_json : string → option (list HistoryItem);
}.
Class HistoryLaws (H : HistoryLib) : Prop := {
  history_roundtrip : ∀ l s, history_to_json l = Some s → history_from_json s = Some l;
}.

Section History.
Context `{HL : HistoryLib} `{F : Fs}.

(** The state is what the file holds. *)
Definition load_history (file : option string) : list HistoryItem :=
  if negb history_path then [] else
  match file with
  | None => []
  | Some content => if fs_readable then default [] (history_from_json content) else []
  end.

Definition save_history (history : list HistoryItem) (file : option string) : option string :=
  let history := take 20 (sort_by_key (λ i, - hi_last_joined i) history) in
  if negb history_path then file else
  match history_to_json history with
  | Some content => match fs_write_failure content with
                    | None => Some content
                    | Some remains => remains
                    end
  | None => file
  end.

Definition add_to_history (unix_secs : Z) (room_id name invite_code : string)
    (file : option string) : option string :=
  let history := List.filter (λ i, negb (bool_decide (hi_room_id i = room_id)))
                   (load_history file) in
  save_history (history ++ [mkHistory room_id name invite_code unix_secs])%list file.
End History.
