(* ===== verification/Systems.v ===== *)
(** What differs between the systems the program is built for: the virtual interface on
    Windows, macOS and Android and what all of them share (crates/r2n-tun/src/lib.rs), and the
    index of an interface (crates/r2n-route/src/lib.rs).

    What a system answers while a device is made is a record, an argument of the functions. *)
From Stdlib Require Import ZArith Lia.
From stdpp Require Import base tactics numbers list strings pretty.
From S2P Require Import Prelude Bytes Net Text Decimal AddrText Dataplane EdgeCore.
Local Open Scope string_scope.
Local Open Scope Z_scope.

(** ** Numbers as the systems print them *)
Fixpoint read_uint (bound : Z) (l : list Z) (acc : Z) : option Z :=
  match l with
  | [] => Some acc
  | c :: l =>
      if bool_decide (48 ≤ c ≤ 57) then
        let acc := acc * 10 + (c - 48) in
        if bool_decide (acc ≤ bound) then read_uint bound l acc else None
      else None
  end.
(** [str::parse] of an unsigned integer: a plus sign is allowed before the digits. *)
Definition parse_uint (bound : Z) (l : list Z) : option Z :=
  match l with
  | [] => None
  | 43 :: ((_ :: _) as ds) => read_uint bound ds 0
  | _ => read_uint bound l 0
  end.
Definition usize_max : Z := 2 ^ 64 - 1.
Definition u32_max : Z := 2 ^ 32 - 1.

(** ** Commands for PowerShell *)

(** [replace('\'', "''")], on UTF-8. *)
Definition escape_ps_bytes (l : list Z) : list Z :=
  flat_map (λ c, if bool_decide (c = 39) then [39; 39] else [c]) l.
Definition escape_ps_single_quoted (s : string) : string := string_of (escape_ps_bytes (bytes_of s)).

(** A character that cannot be written in a string here. *)
Definition dq : string := string_of [34].

Definition configure_command (name ipv4 : string) (prefix_len mtu : Z) : string :=
  let alias := escape_ps_single_quoted name in
  let ip := escape_ps_single_quoted ipv4 in
  let ipv6_mtu := Z.max mtu 1280 in
"
$alias = '" +:+ alias +:+ "';
$ip = '" +:+ ip +:+ "';

$iface = Get-NetAdapter -Name $alias -ErrorAction Stop;

$existing = Get-NetIPAddress -InterfaceAlias $alias -AddressFamily IPv4 -ErrorAction SilentlyContinue |
    Where-Object { $_.IPAddress -eq $ip };

if (-not $existing) {
    New-NetIPAddress -InterfaceAlias $alias -IPAddress $ip -PrefixLength " +:+ pretty prefix_len +:+ " -AddressFamily IPv4 -ErrorAction Stop | Out-Null;
}

Set-NetIPInterface -InterfaceAlias $alias -AddressFamily IPv4 -NlMtuBytes " +:+ pretty mtu +:+ " -ErrorAction Stop | Out-Null;
Set-NetIPInterface -InterfaceAlias $alias -AddressFamily IPv6 -NlMtuBytes " +:+ pretty ipv6_mtu +:+ " -ErrorAction SilentlyContinue | Out-Null;
".

Definition prefer_command (name : string) : string :=
"
$alias = '" +:+ escape_ps_single_quoted name +:+ "';
$errors = @();

try {
    Set-NetIPInterface -InterfaceAlias $alias -AddressFamily IPv4 -InterfaceMetric 5 -ErrorAction Stop | Out-Null;
} catch {
    $errors += " +:+ dq +:+ "IPv4 interface metric: $($_.Exception.Message)" +:+ dq +:+ ";
}

try {
    Set-NetIPInterface -InterfaceAlias $alias -AddressFamily IPv6 -InterfaceMetric 5 -ErrorAction SilentlyContinue | Out-Null;
} catch {
}

try {
    Set-NetConnectionProfile -InterfaceAlias $alias -NetworkCategory Private -ErrorAction Stop | Out-Null;
} catch {
    $errors += " +:+ dq +:+ "network category: $($_.Exception.Message)" +:+ dq +:+ ";
}

if ($errors.Count -gt 0) {
    throw ($errors -join '; ');
}
".

Definition index_command (interface_name : string) : string :=
  "(Get-NetAdapter -Name '" +:+ escape_ps_single_quoted interface_name +:+ "' -ErrorAction Stop).ifIndex".

(** ** Errors *)
Inductive TunError :=
| Io (text : string)
| NotFound
| Config (text : string)
| CommandFailed (command stdout stderr : string).

(** The outcome of a process: it could not be started, or its success and what it wrote. *)
Definition output : Type := string + (bool * string * string).

Definition run_powershell (answer : string → output) (command : string) : outcome TunError unit :=
  match answer command with
  | inl err => Err (Io err)
  | inr (success, out, err) =>
      if success : bool then Ok tt else Err (CommandFailed command out err)
  end.

Definition configure_windows_interface (answer : string → output) (name ipv4 : string)
    (prefix_len mtu : Z) : outcome TunError unit :=
  run_powershell answer (configure_command name ipv4 prefix_len mtu).

Definition prefer_virtual_interface_windows (answer : string → output) (name : string)
    : outcome TunError bool :=
  _ ← run_powershell answer (prefer_command name); Ok true.

(** ** Devices *)
Inductive TunDeviceInner :=
| Normal (dev_name : option string) (dev_mtu : option Z)
| Fd (name : string) (mtu : Z)
| Wintun (name : string) (mtu : Z).
Record Device := mkDevice {
  inner : TunDeviceInner;
  ipv4_addr : option Z;
  device_mode : TunDeviceMode;
  device_effective_mtu : Z;
}.

(** The answer of the device builder for a name: its error, or the name and MTU the new
    device gives when asked. *)
Definition builder : Type := string → TunDeviceMode → string → Z → Z → string + (option string * option Z).

Definition built (b : builder) (name ipv4 : string) (netmask mtu : Z) (m : TunDeviceMode)
    : string + Device :=
  match b name m ipv4 netmask mtu with
  | inl err => inl err
  | inr (n, u) => inr (mkDevice (Normal n u) (parse_ipv4 ipv4) m mtu)
  end.

Definition new_linux (b : builder) (name ipv4 : string) (netmask mtu : Z) (m : TunDeviceMode)
    : outcome TunError Device :=
  match built b name ipv4 netmask (normalize_mtu mtu) m with
  | inl err => Err (Io err)
  | inr d => Ok d
  end.

Definition new_android (name ipv4 : string) (netmask mtu : Z) (m : TunDeviceMode)
    : outcome TunError Device :=
  Err (Config "Creating new TUN device directly is not supported on Android. Use from_fd instead.").

(** *** macOS *)
Definition utun_named (name : string) : bool :=
  let l := bytes_of name in
  bool_decide (take 4 l = bytes_of "utun") && bool_decide (is_Some (parse_uint usize_max (drop 4 l))).

(** The loop over candidates: the first that can be made, or the last error. *)
Fixpoint try_utun (build : string → string + Device) (candidates : list string)
    (last_err : option string) : option string + Device :=
  match candidates with
  | [] => inl last_err
  | c :: candidates =>
      match build c with
      | inr d => inr d
      | inl err => try_utun build candidates (Some err)
      end
  end.
Definition utun_candidates : list string := (λ i, "utun" +:+ pretty i) <$> seqZ 10 90.

Definition new_macos (b : builder) (name ipv4 : string) (netmask mtu : Z) (m : TunDeviceMode)
    : outcome TunError Device :=
  let build n := built b n ipv4 netmask (normalize_mtu mtu) m in
  let first := if utun_named name then try_utun build [name] None else inl None in
  match match first with inr d => inr d | inl err => try_utun build utun_candidates err end with
  | inr d => Ok d
  | inl err => Err (Io (default "Failed to allocate free utun interface" err))
  end.

(** *** Windows *)
Record WinOs := mkWinOs {
  win_build : builder;
  wintun_load : option string;
  adapter_open : string → option string;
  adapter_create : string → string + string;
  adapter_rename : string → string → string;
  adapter_name : string → string + string;
  win_powershell : string → output;
  start_session : string → option string;
}.

(** An adapter is what is opened under its name, or the old one which is renamed if that can
    be done, or a new one. *)
Definition find_adapter (os : WinOs) (name : string) : outcome TunError string :=
  match adapter_open os name with
  | Some a => Ok a
  | None =>
      match adapter_open os "r2n" with
      | Some a => Ok (adapter_rename os a name)
      | None => match adapter_create os name with
                | inl err => Err (Config ("Failed to create Wintun adapter: " +:+ err))
                | inr a => Ok a
                end
      end
  end.

Definition new_windows (os : WinOs) (name ipv4 : string) (netmask mtu : Z) (m : TunDeviceMode)
    : outcome TunError Device :=
  let effective_mtu := normalize_mtu mtu in
  match m with
  | Tap => match built (win_build os) name ipv4 netmask effective_mtu m with
           | inl err => Err (Io err)
           | inr d => Ok d
           end
  | Tun =>
      match wintun_load os with
      | Some err => Err (Config ("Failed to load Wintun: " +:+ err))
      | None =>
          adapter ← find_adapter os name;
          match adapter_name os adapter with
          | inl err => Err (Config ("Failed to query Wintun adapter name: " +:+ err))
          | inr actual =>
              _ ← configure_windows_interface (win_powershell os) actual ipv4 netmask effective_mtu;
              match start_session os adapter with
              | Some err => Err (Config ("Failed to start Wintun session: " +:+ err))
              | None => Ok (mkDevice (Wintun actual effective_mtu) (parse_ipv4 ipv4) m effective_mtu)
              end
          end
      end
  end.

(** *** A descriptor the system gave: the flags of it, and whether they can be set and the
    descriptor be duplicated. *)
Definition O_NONBLOCK : Z := 2048.
Record FdOs := mkFdOs { fd_flags : Z; fd_setfl : Z → option string; fd_error : string;
  fd_clone : option string }.

(** The flags afterwards. *)
Definition clear_nonblocking (os : FdOs) : outcome TunError Z :=
  let flags := fd_flags os in
  if bool_decide (flags < 0) then Err (Io (fd_error os))
  else if negb (bool_decide (Z.land flags O_NONBLOCK = 0)) then
    let new_flags := Z.land flags (Z.lnot O_NONBLOCK) in
    match fd_setfl os new_flags with Some err => Err (Io err) | None => Ok new_flags end
  else Ok flags.

Definition from_fd (android : bool) (os : FdOs) (name : string) (mtu : Z) (ipv4 : option Z)
    : outcome TunError Device :=
  _ ← (if android then clear_nonblocking os else Ok 0);
  match fd_clone os with
  | Some err => Err (Io err)
  | None => Ok (mkDevice (Fd name (normalize_mtu mtu)) ipv4 Tun (normalize_mtu mtu))
  end.

(** ** [TunInterface] *)
Definition device_name (d : Device) : option string :=
  match inner d with Normal n _ => n | Fd n _ | Wintun n _ => Some n end.
Definition device_mtu (d : Device) : option Z :=
  match inner d with Normal _ u => u | Fd _ u | Wintun _ u => Some u end.

(** The device of the dataplane. *)
Definition in_dataplane (d : Device) : TunDevice :=
  mkTun (device_mode d) (ipv4_addr d) (device_name d) (device_effective_mtu d) [].

(** *** The pump of Windows

    A thread takes packets from the session into buffers and puts them on a channel;
    [recv] takes them from there and gives the buffers back. *)
Definition CHANNEL : nat := 1024.
Record Pump := mkPump {
  rx_packets : list (list Z);
  free_buffers : list (list Z);
  pump_runs : bool;
}.
Definition new_pump : Pump := mkPump [] (replicate 128 (replicate 1600 0)) true.

(** [Vec::resize(n, 0)] *)
Definition resize (n : nat) (l : list Z) : list Z := (take n l ++ replicate (n - length l) 0)%list.

(** A round of the thread, which waits while the channel is full. *)
Definition pump_packet (bytes : list Z) (p : Pump) : total Pump :=
  let '(buf, free) := match free_buffers p with
                      | b :: free => (b, free)
                      | [] => (replicate 1600 0, [])
                      end in
  buf ← copy_from_slice (resize (length bytes) buf) 0 (length bytes) bytes;
  Ok (mkPump (rx_packets p ++ [buf]) free (pump_runs p)).

(** The thread ends when the session fails. *)
Definition pump_stop (p : Pump) : Pump := mkPump (rx_packets p) (free_buffers p) false.

(** [recv] into a buffer of [cap] bytes: what is copied, or the error when the thread has
    ended; nothing while it waits. *)
Definition wintun_recv (cap : nat) (p : Pump) : option (outcome TunError (list Z) * Pump) :=
  match rx_packets p with
  | [] => if pump_runs p then None else Some (Err (Io "Wintun receiver channel closed"), p)
  | packet :: rest =>
      let len := Nat.min (length packet) cap in
      Some (Ok (take len packet), mkPump rest (free_buffers p ++ [packet]) (pump_runs p))
  end.

(** [send]: the packet is allocated for a length of 16 bits. *)
Definition wintun_send (allocated : Z → bool) (buf : list Z) : outcome TunError (nat * list Z) :=
  let len := Z.of_nat (length buf) `mod` 65536 in
  if allocated len then
    packet ← lift (copy_from_slice (replicate (Z.to_nat len) 0) 0 (Z.to_nat len) buf);
    Ok (length buf, packet)
  else Err (Io "allocate_send_packet").

(** ** Routes *)
Definition route_failed {A} (text : string) : result A := Err ("Route manipulation failed: " +:+ text).

Definition index_linux (if_nametoindex : string → Z) (name : string) : result Z :=
  if bool_decide (0 ∈ bytes_of name) then route_failed ("invalid interface name: " +:+ name)
  else
    let index := if_nametoindex name in
    if bool_decide (index = 0) then route_failed ("unknown interface: " +:+ name) else Ok index.

Definition index_macos (ifname_to_index : string → option Z) (name : string) : result Z :=
  match ifname_to_index name with
  | Some index => Ok index
  | None => route_failed ("unknown interface: " +:+ name)
  end.

Definition index_windows (answer : string → output) (name : string) : result Z :=
  match answer (index_command name) with
  | inl err => Err ("IO error: " +:+ err)
  | inr (success, out, err) =>
      if success : bool then
        match parse_uint u32_max (bytes_of (trim out)) with
        | Some index => Ok index
        | None => route_failed ("invalid interface index output: " +:+ trim out)
        end
      else route_failed ("failed to resolve interface index for " +:+ name +:+ ": " +:+ trim err)
  end.

Inductive System := Linux | MacOs | Windows | Android.
Section Routes.
Context `{L : Ipv4NetLib}.
Record Route := mkRoute { route_dest : Z; route_prefix : Z; route_ifindex : Z; route_metric : option Z }.
Definition build_route (sys : System) (index : string → result Z) (dest : Ipv4Net) (name : string)
    : result Route :=
  ifindex ← index name;
  Ok (mkRoute (net_network dest) (net_prefix_len dest) ifindex
    match sys with Linux | Windows => Some 5 | _ => None end).
End Routes.
