(* ===== verification/SystemsSpec.v ===== *)
(** What holds of the virtual interface on every system: the commands given to PowerShell, the
    search of a free interface, the MTU of what is made, and the pump of Windows. *)
From Stdlib Require Import ZArith Lia.
From stdpp Require Import base tactics numbers list strings pretty.
From S2P Require Import Prelude Bytes Net Text Decimal AddrText Dataplane EdgeCore Systems.
Local Open Scope string_scope.
Local Open Scope Z_scope.

(** ** Text for PowerShell

    PowerShell reads a literal in single quotes up to the next quote that is not doubled; a
    doubled one stands for one.  Which characters are quotes is the interface: of ASCII it is
    the apostrophe alone. *)
Class PowerShell := { ps_quote : list Z → option (list Z) }.
Class PowerShellLaws (PS : PowerShell) : Prop := {
  ps_apostrophe : ∀ l, ps_quote (39 :: l) = Some l;
  ps_other_ascii : ∀ c l, 0 ≤ c < 128 → c ≠ 39 → ps_quote (c :: l) = None;
}.

Section PowerShell.
Context `{PS : PowerShell}.

(** The text of a literal whose opening quote was read, and what follows it. *)
Fixpoint read_literal (fuel : nat) (l : list Z) : option (list Z * list Z) :=
  match fuel with
  | O => None
  | S fuel =>
      match ps_quote l with
      | Some rest =>
          match ps_quote rest with
          | Some rest => '(text, rest) ← read_literal fuel rest; Some (39 :: text, rest)
          | None => Some ([], rest)
          end
      | None =>
          match l with
          | [] => None
          | c :: l => '(text, rest) ← read_literal fuel l; Some (c :: text, rest)
          end
      end
  end.

Lemma read_escaped `{!PowerShellLaws PS} l c rest fuel :
  Forall (λ c, 0 ≤ c < 128) l → 0 ≤ c < 128 → c ≠ 39 → (length l < fuel)%nat →
  read_literal fuel (escape_ps_bytes l ++ 39 :: c :: rest) = Some (l, c :: rest).
Proof.
  intros Hl Hc Hc39. revert fuel. induction Hl as [|x l Hx _ IH]; intros fuel Hf.
  - destruct fuel as [|fuel]; [simpl in Hf; lia|]. cbn.
    by rewrite ps_apostrophe, ps_other_ascii.
  - destruct fuel as [|fuel]; [simpl in Hf; lia|]. cbn [escape_ps_bytes flat_map].
    fold (escape_ps_bytes l). simpl in Hf. case_bool_decide as E.
    + subst x. cbn [app read_literal]. rewrite !ps_apostrophe, IH by lia. done.
    + cbn [app read_literal]. rewrite ps_other_ascii by done. by rewrite IH by lia.
Qed.

Definition ascii_text (s : string) : Prop := Forall (λ c, 0 ≤ c < 128) (bytes_of s).

(** The command has the name in a literal, and all around it is the same for every name. *)
Definition quotes (command : string → string) : Prop :=
  ∃ pre c post, ∀ name, ascii_text name → ∃ body,
    bytes_of (command name) = (pre ++ 39 :: body)%list ∧
    ∀ fuel, (length (bytes_of name) < fuel)%nat →
      read_literal fuel body = Some (bytes_of name, c :: post).

Lemma escaped_bytes s : ascii_text s →
  bytes_of (escape_ps_single_quoted s) = escape_ps_bytes (bytes_of s).
Proof.
  intros Hs. apply bytes_of_string_of. unfold ascii_text in Hs.
  induction Hs as [|c l Hc _ IH]; [constructor|]. cbn [escape_ps_bytes flat_map].
  apply Forall_app_2; [|exact IH]. unfold byte_char.
  case_bool_decide; repeat constructor; lia.
Qed.

Lemma quoted `{!PowerShellLaws PS} (command : string → string) a b c post :
  (∀ name, command name = a +:+ escape_ps_single_quoted name +:+ b) →
  last (bytes_of a) = Some 39 → bytes_of b = 39 :: c :: post → 0 ≤ c < 128 → c ≠ 39 →
  quotes command.
Proof.
  intros H [pre Ha]%last_Some Hb Hc Hc39. exists pre, c, post. intros name Hname.
  exists (escape_ps_bytes (bytes_of name) ++ 39 :: c :: post)%list. split.
  - by rewrite H, !bytes_of_app, Ha, Hb, escaped_bytes, <- app_assoc.
  - intros fuel Hf. by apply read_escaped.
Qed.

(** C31: a name cannot change what PowerShell runs.  In each of the three commands the name of
    an interface, of ASCII characters, is exactly the text of one literal in single quotes,
    whatever quotes it has itself, and what comes before and after that literal is the same
    for every name. *)
Theorem names_are_quoted `{!PowerShellLaws PS} ipv4 prefix_len mtu :
  quotes prefer_command ∧ quotes index_command ∧
  quotes (λ name, configure_command name ipv4 prefix_len mtu).
Proof.
  split_and!; (eapply quoted; [intros; reflexivity|reflexivity|reflexivity
    |split; vm_compute; congruence|vm_compute; congruence]).
Qed.
End PowerShell.

(** ** Making a device *)
Lemma normalize_mtu_max mtu : normalize_mtu mtu = Z.max mtu 1280.
Proof. unfold normalize_mtu, MIN_TUN_MTU. case_bool_decide; lia. Qed.

(** What every way of making a device gives. *)
Definition made (ipv4 : string) (mtu : Z) (m : TunDeviceMode) (d : Device) : Prop :=
  device_mode d = m ∧ ipv4_addr d = parse_ipv4 ipv4 ∧ device_effective_mtu d = Z.max mtu 1280.

Lemma built_made b name ipv4 netmask mtu m d :
  built b name ipv4 netmask (normalize_mtu mtu) m = inr d → made ipv4 mtu m d.
Proof.
  unfold built. destruct (b _ _ _ _ _) as [err|[n u]]; [done|]. intros [= <-].
  by rewrite normalize_mtu_max.
Qed.

(** The search stops at the first candidate that can be made; when none can, the error is
    that of the last. *)
Lemma try_utun_spec build candidates last_err :
  match try_utun build candidates last_err with
  | inr d => ∃ before c after, candidates = (before ++ c :: after)%list ∧ build c = inr d ∧
      ∀ x, x ∈ before → ∃ err, build x = inl err
  | inl err => (∀ x, x ∈ candidates → ∃ err, build x = inl err) ∧
      ∀ c, last candidates = Some c → ∃ text, err = Some text ∧ build c = inl text
  end.
Proof.
  revert last_err. induction candidates as [|c candidates IH]; intros last_err; cbn [try_utun].
  { split; [by intros x ?%elem_of_nil|done]. }
  destruct (build c) as [err|d] eqn:E.
  - specialize (IH (Some err)). destruct candidates as [|c2 candidates].
    + cbn. split; [intros x ->%list_elem_of_singleton; by exists err|].
      intros ? [= <-]. by exists err.
    + destruct (try_utun build (c2 :: candidates) (Some err)) as [err'|d].
      * destruct IH as (H1 & H2). split; [|exact H2].
        intros x [->|Hx]%elem_of_cons; [by exists err|by apply H1].
      * destruct IH as (before & x & after & E2 & Hx & Hb). exists (c :: before), x, after.
        rewrite E2. split_and!; [done|done|].
        intros y [->|Hy]%elem_of_cons; [by exists err|by apply Hb].
  - exists [], c, candidates. split_and!; [done|done|]. by intros x ?%elem_of_nil.
Qed.

(** The interfaces that are tried. *)
Definition tried (name : string) : list string :=
  (if utun_named name then [name] else []) ++ utun_candidates.

(** Decimal digits and the number they write. *)
Definition number_of (l : list Z) (acc : Z) : Z := fold_left (λ a c, a * 10 + (c - 48)) l acc.

Lemma number_of_le l acc : Forall (λ c, 48 ≤ c ≤ 57) l → 0 ≤ acc → acc ≤ number_of l acc.
Proof.
  intros Hl. revert acc. induction Hl as [|c l Hc _ IH]; intros acc Ha; cbn; [lia|].
  specialize (IH (acc * 10 + (c - 48))). unfold number_of in IH. lia.
Qed.

Lemma read_uint_spec bound l acc v : 0 ≤ acc ≤ bound →
  read_uint bound l acc = Some v ↔
  Forall (λ c, 48 ≤ c ≤ 57) l ∧ number_of l acc = v ∧ v ≤ bound.
Proof.
  revert acc. induction l as [|c l IH]; intros acc Ha; cbn [read_uint].
  { split; [intros [= <-]; cbn; split_and!; [constructor|done|lia]|by intros (_ & <- & _)]. }
  case_bool_decide as Hc; [|split; [done|by intros ([]%Forall_cons_1 & _)]].
  case_bool_decide as Hb; cycle 1.
  { split; [done|]. intros ([_ Hl]%Forall_cons_1 & <- & Hv). cbn in Hv.
    pose proof (number_of_le l (acc * 10 + (c - 48)) Hl). unfold number_of in *. lia. }
  rewrite IH by lia. rewrite Forall_cons. cbn. tauto.
Qed.

(** A name that begins with "utun" and goes on with what is read as a number of the machine's
    width: decimal digits, with at most one plus sign before them. *)
Definition numbered_utun (name : string) : Prop :=
  ∃ plus ds, bytes_of name = (bytes_of "utun" ++ plus ++ ds)%list ∧ (plus = [] ∨ plus = [43]) ∧ ds ≠ [] ∧
    Forall (λ c, 48 ≤ c ≤ 57) ds ∧ number_of ds 0 < 2 ^ 64.

Lemma parse_uint_spec bound l : 0 ≤ bound →
  is_Some (parse_uint bound l) ↔
  ∃ plus ds, l = (plus ++ ds)%list ∧ (plus = [] ∨ plus = [43]) ∧ ds ≠ [] ∧
    Forall (λ c, 48 ≤ c ≤ 57) ds ∧ number_of ds 0 ≤ bound.
Proof.
  intros Hb. pose proof (λ l v, read_uint_spec bound l 0 v ltac:(lia)) as Hr. split.
  - intros [v Hv]. destruct l as [|c l]; [done|].
    destruct (decide (c = 43 ∧ l ≠ [])) as [[-> Hl]|Hc].
    + destruct l as [|c l]; [done|]. apply Hr in Hv as (H1 & H2 & H3).
      exists [43], (c :: l). split_and!; first [done|by auto|by rewrite H2].
    + assert (read_uint bound (c :: l) 0 = Some v) as Hv'.
      { revert Hv. unfold parse_uint. repeat case_match; try done. subst. by destruct Hc. }
      apply Hr in Hv' as (H1 & H2 & H3). exists [], (c :: l).
      split_and!; first [done|by auto|by rewrite H2].
  - intros (plus & ds & -> & Hp & Hne & Hd & Hn).
    assert (read_uint bound ds 0 = Some (number_of ds 0)) as E by (by apply Hr).
    exists (number_of ds 0). destruct ds as [|c ds]; [done|].
    apply Forall_cons in Hd as [Hc _].
    destruct Hp as [->| ->]; [|exact E]. cbn [app]. unfold parse_uint. repeat case_match; simplify_eq; done || lia.
Qed.

Lemma utun_named_spec name : utun_named name = true ↔ numbered_utun name.
Proof.
  unfold utun_named, numbered_utun. rewrite andb_true_iff, !bool_decide_eq_true, parse_uint_spec by done.
  unfold usize_max. split.
  - intros (Hp & plus & ds & E & H1 & H2 & H3 & H4). exists plus, ds. split_and!; try done; [|lia].
    rewrite <- (take_drop 4 (bytes_of name)), Hp. by rewrite E.
  - intros (plus & ds & -> & H1 & H2 & H3 & H4).
    assert (length (bytes_of "utun") = 4%nat) as Hl by reflexivity.
    rewrite take_app_length', drop_app_length' by done. split; [done|].
    exists plus, ds. split_and!; try done. lia.
Qed.

Lemma utun_candidates_lookup i : (i < 90)%nat →
  utun_candidates !! i = Some ("utun" +:+ pretty (10 + Z.of_nat i)).
Proof.
  intros Hi. unfold utun_candidates. rewrite list_lookup_fmap, lookup_seqZ_lt by lia. done.
Qed.

Lemma new_macos_spec b name ipv4 netmask mtu m :
  let build n := built b n ipv4 netmask (normalize_mtu mtu) m in
  match new_macos b name ipv4 netmask mtu m with
  | Ok d => made ipv4 mtu m d ∧ ∃ before c after, tried name = (before ++ c :: after)%list ∧
      build c = inr d ∧ ∀ x, x ∈ before → ∃ err, build x = inl err
  | Err (Io text) => (∀ x, x ∈ tried name → ∃ err, build x = inl err) ∧ build "utun99" = inl text
  | _ => False
  end.
Proof.
  intros build. unfold new_macos, tried. fold build.
  assert (last utun_candidates = Some "utun99") as Hlast by (vm_compute; reflexivity).
  pose proof (try_utun_spec build [name] None) as H1.
  assert (∀ err, match try_utun build utun_candidates err with
    | inl err' => (∀ x, x ∈ utun_candidates → ∃ err, build x = inl err) ∧
        ∃ text, err' = Some text ∧ build "utun99" = inl text
    | inr d => ∃ before c after, utun_candidates = (before ++ c :: after)%list ∧ build c = inr d ∧
        ∀ x, x ∈ before → ∃ err, build x = inl err
    end) as Hs.
  { intros err. pose proof (try_utun_spec build utun_candidates err) as H.
    destruct (try_utun build utun_candidates err); [|done].
    destruct H as [H2 H3]. split; [done|by apply H3]. }
  destruct (utun_named name).
  - destruct (try_utun build [name] None) as [err|d].
    + destruct H1 as (H1 & _). specialize (Hs err).
      destruct (try_utun build utun_candidates err) as [err'|d].
      * destruct Hs as (H2 & text & -> & Ht). split; [|exact Ht].
        intros x [Hx|Hx]%elem_of_app; [by apply H1|by apply H2].
      * destruct Hs as (before & c & after & E & Hc & Hb). split; [by eapply built_made|].
        exists (name :: before), c, after. rewrite E. split_and!; [done|done|].
        intros x [->|Hx]%elem_of_cons; [by apply H1, elem_of_cons; left|by apply Hb].
    + destruct H1 as (before & c & after & E & Hc & Hb). split; [by eapply built_made|].
      exists before, c, (after ++ utun_candidates)%list. by rewrite E, <- app_assoc.
  - specialize (Hs None). destruct (try_utun build utun_candidates None) as [err'|d].
    { destruct Hs as (H2 & text & -> & Ht). by split. }
    destruct Hs as (before & c & after & E & Hc & Hb). split; [by eapply built_made|].
    by exists before, c, after.
Qed.

(** The descriptor of Android is put into the mode that waits, unless it is in it. *)
Lemma clear_nonblocking_spec os :
  match clear_nonblocking os with
  | Ok flags => 0 ≤ fd_flags os ∧ flags = Z.land (fd_flags os) (Z.lnot O_NONBLOCK) ∧
      (flags ≠ fd_flags os → fd_setfl os flags = None)
  | Err (Io text) => (fd_flags os < 0 ∧ text = fd_error os) ∨
      (0 ≤ fd_flags os ∧ fd_setfl os (Z.land (fd_flags os) (Z.lnot O_NONBLOCK)) = Some text)
  | _ => False
  end.
Proof.
  unfold clear_nonblocking. case_bool_decide as Hneg; [by left|].
  case_bool_decide as Hz; cbn [negb].
  - split; [lia|]. split; [|done]. apply Z.bits_inj'. intros i Hi.
    apply (f_equal (λ z, Z.testbit z i)) in Hz. rewrite Z.land_spec, Z.testbit_0_l in Hz.
    rewrite Z.land_spec, Z.lnot_spec by done.
    destruct (Z.testbit (fd_flags os) i); [|done]. cbn in *. by rewrite Hz.
  - destruct (fd_setfl os _) as [text|] eqn:E; [right; split; [lia|done]|].
    split_and!; [lia|done|by intros _].
Qed.

Lemma new_windows_spec os name ipv4 netmask mtu m d :
  new_windows os name ipv4 netmask mtu m = Ok d →
  made ipv4 mtu m d ∧
  (m = Tun → ∃ adapter actual, find_adapter os name = Ok adapter ∧ adapter_name os adapter = inr actual ∧
     inner d = Wintun actual (Z.max mtu 1280) ∧
     ∃ out err, win_powershell os (configure_command actual ipv4 netmask (Z.max mtu 1280))
       = inr (true, out, err)).
Proof.
  unfold new_windows. destruct m.
  - destruct (wintun_load os); [done|]. destruct (find_adapter os name) as [adapter| |]; [|done..].
    cbn [mbind outcome_bind]. destruct (adapter_name os adapter) as [|actual] eqn:Ea; [done|].
    unfold configure_windows_interface, run_powershell. rewrite normalize_mtu_max.
    destruct (win_powershell os _) as [|[[[] out] err]] eqn:Ep; cbn [mbind outcome_bind]; [done| |done].
    destruct (start_session os adapter); [done|]. intros [= <-]. split; [done|]. intros _.
    exists adapter, actual. split_and!; [done..|]. by exists out, err.
  - destruct (built _ _ _ _ _ _) as [err|d'] eqn:E; [done|]. intros [= <-].
    split; [by eapply built_made|done].
Qed.

(** C32: whatever the system, the device is the one that was asked for.  It has the mode and the
    address given, and an MTU of at least 1280 which is also what the system was told.  On Linux
    the error of the system is passed on.  On macOS the interface is the first that could be
    made of those tried: the one named, if its name is "utun" and a number, then utun10 to
    utun99 in order; there is none only when none of them could be made, with the error of
    utun99.  On Windows the adapter in use is the one that was configured.  On Android, where
    the device is made of a descriptor, it has the name and the address it was given, the
    descriptor was duplicated and no longer refuses to wait, and each failure has its error. *)
Theorem devices_made ipv4 netmask mtu m name :
  (∀ b, match new_linux b name ipv4 netmask mtu m with
   | Ok d => made ipv4 mtu m d ∧ ∃ n u, b name m ipv4 netmask (Z.max mtu 1280) = inr (n, u) ∧
       device_name d = n
   | Err (Io err) => b name m ipv4 netmask (Z.max mtu 1280) = inl err
   | _ => False
   end) ∧
  (∀ b, let build n := built b n ipv4 netmask (Z.max mtu 1280) m in
   ∃ first free, (first = [name] ∧ numbered_utun name ∨ first = [] ∧ ¬ numbered_utun name) ∧
   length free = 90%nat ∧
   (∀ i, (i < 90)%nat → free !! i = Some ("utun" +:+ pretty (10 + Z.of_nat i))) ∧
   match new_macos b name ipv4 netmask mtu m with
   | Ok d => made ipv4 mtu m d ∧ ∃ before c after, (first ++ free = before ++ c :: after)%list ∧
       build c = inr d ∧ ∀ x, x ∈ before → ∃ err, build x = inl err
   | Err (Io text) => (∀ x, x ∈ (first ++ free)%list → ∃ err, build x = inl err) ∧
       build "utun99" = inl text
   | _ => False
   end) ∧
  (∀ os d, new_windows os name ipv4 netmask mtu m = Ok d →
   made ipv4 mtu m d ∧
   (m = Tun → ∃ adapter actual, find_adapter os name = Ok adapter ∧
      adapter_name os adapter = inr actual ∧ inner d = Wintun actual (Z.max mtu 1280) ∧
      ∃ out err, win_powershell os (configure_command actual ipv4 netmask (Z.max mtu 1280))
        = inr (true, out, err))) ∧
  (∀ android os ip,
   let waiting := Z.land (fd_flags os) (Z.lnot O_NONBLOCK) in
   match from_fd android os name mtu ip with
   | Ok d => device_mode d = Tun ∧ device_name d = Some name ∧ ipv4_addr d = ip ∧
       device_mtu d = Some (Z.max mtu 1280) ∧ device_effective_mtu d = Z.max mtu 1280 ∧
       fd_clone os = None ∧
       (android = true → 0 ≤ fd_flags os ∧ (waiting ≠ fd_flags os → fd_setfl os waiting = None))
   | Err (Io text) => fd_clone os = Some text ∨ android = true ∧
       ((fd_flags os < 0 ∧ text = fd_error os) ∨ (0 ≤ fd_flags os ∧ fd_setfl os waiting = Some text))
   | _ => False
   end).
Proof.
  split_and!.
  - intros b. unfold new_linux. destruct (built _ _ _ _ _ _) as [err|d] eqn:E.
    + unfold built in E. rewrite normalize_mtu_max in E. by destruct (b _ _ _ _ _) as [|[]]; simplify_eq.
    + split; [by eapply built_made|]. unfold built in E. rewrite normalize_mtu_max in E.
      destruct (b _ _ _ _ _) as [|[n u]]; [done|]. exists n, u. by injection E as <-.
  - intros b build. exists (if utun_named name then [name] else []), utun_candidates.
    split; [|split; [|split; [apply utun_candidates_lookup|]]].
    + rewrite <- utun_named_spec. destruct (utun_named name); [by left|by right].
    + unfold utun_candidates. by rewrite length_fmap, length_seqZ.
    + subst build. rewrite <- normalize_mtu_max. apply new_macos_spec.
  - intros os d. apply new_windows_spec.
  - intros android os ip waiting. unfold from_fd. pose proof (clear_nonblocking_spec os) as Hc.
    fold waiting in Hc. rewrite normalize_mtu_max.
    destruct android; [destruct (clear_nonblocking os) as [flags|[]|]|]; cbn [mbind outcome_bind];
      try done; try (by right); destruct (fd_clone os) as [text|] eqn:E; try (by left);
      split_and!; try done; destruct Hc as (? & -> & ?); auto.
Qed.






(** What [send] does: a packet shorter than 2^16 is copied as it is; the length of a longer one
    is cut to 16 bits, and copying into what was allocated for that unwinds. *)
Theorem wintun_send_outcome allocated buf :
  let n := Z.of_nat (length buf) in
  wintun_send allocated buf =
  if allocated (n `mod` 65536)
  then if bool_decide (n < 65536) then Ok (length buf, buf) else Panic
  else Err (Io "allocate_send_packet").
Proof.
  cbv zeta. unfold wintun_send. destruct (allocated _); [|done]. unfold copy_from_slice.
  rewrite length_replicate. destruct (decide (Z.of_nat (length buf) < 65536)) as [H|H].
  - rewrite (bool_decide_eq_true_2 (_ < 65536)) by done. rewrite Z.mod_small by lia.
    rewrite bool_decide_eq_true_2 by lia.
    cbn [lift mbind outcome_bind take app].
    by rewrite drop_ge, app_nil_r by (rewrite length_replicate; lia).
  - pose proof (Z.mod_pos_bound (Z.of_nat (length buf)) 65536 eq_refl).
    rewrite (bool_decide_eq_false_2 (_ < 65536)) by done. by rewrite bool_decide_eq_false_2 by lia.
Qed.

(** ** The index of an interface *)
Lemma read_uint_digits bound ds acc : Forall (digit 10) ds → 0 ≤ acc →
  numeral 10 ds acc ≤ bound → read_uint bound (digit_char <$> ds) acc = Some (numeral 10 ds acc).
Proof.
  intros H. revert acc. induction H as [|d ds Hd Hds IH]; intros acc Hacc Hb; [done|].
  unfold digit in Hd. cbn [fmap list_fmap read_uint]. change (numeral 10 (d :: ds) acc) with
    (numeral 10 ds (acc * 10 + d)) in *.
  pose proof (numeral_le 10 ds (acc * 10 + d) Hds ltac:(lia) ltac:(lia)) as Hle.
  change (digit_char d) with (48 + d). rewrite bool_decide_eq_true_2 by lia.
  replace (acc * 10 + (48 + d - 48)) with (acc * 10 + d) by lia.
  rewrite bool_decide_eq_true_2 by lia. apply IH; lia.
Qed.

(** A number is read back as it is printed. *)
Lemma parse_printed bound n : 0 ≤ n ≤ bound → parse_uint bound (bytes_of (pretty n)) = Some n.
Proof.
  intros Hn. destruct (pretty_digits n ltac:(lia)) as (ds & -> & Hd & Hv & Hne & _).
  assert (numeral 10 ds 0 ≤ bound) as Hb by lia.
  pose proof (read_uint_digits bound ds 0 Hd ltac:(lia) Hb) as Hr. rewrite Hv in Hr.
  destruct ds as [|d ds]; [done|]. rewrite <- Hr. unfold parse_uint.
  apply Forall_cons in Hd as [Hd _]. unfold digit in Hd. cbn [fmap list_fmap].
  assert (digit_char d = 48 ∨ digit_char d = 49 ∨ digit_char d = 50 ∨ digit_char d = 51 ∨
    digit_char d = 52 ∨ digit_char d = 53 ∨ digit_char d = 54 ∨ digit_char d = 55 ∨
    digit_char d = 56 ∨ digit_char d = 57) as H by (unfold digit_char; lia).
  by repeat (destruct H as [->|H]; [done|]); rewrite H.
Qed.

(** On Windows the index is the number PowerShell prints, blanks around it ignored. *)
Theorem index_windows_read answer name out err n :
  answer (index_command name) = inr (true, out, err) → trim out = pretty n → 0 ≤ n < 2 ^ 32 →
  index_windows answer name = Ok n.
Proof.
  intros Ha Ht Hn. unfold index_windows. rewrite Ha, Ht.
  by rewrite (parse_printed u32_max) by (unfold u32_max; lia).
Qed.
