(* ===== verification/SystemsDemo.v ===== *)
(** A PowerShell with the apostrophe as its only quote, and a run of the pump of Windows. *)
From Stdlib Require Import ZArith Lia.
From stdpp Require Import base tactics numbers list strings.
From S2P Require Import Prelude Bytes Text Dataplane EdgeCore Systems SystemsSpec.
Local Open Scope string_scope.
Local Open Scope Z_scope.

#[export] Instance plain_powershell : PowerShell := {|
  ps_quote l := match l with 39 :: l => Some l | _ => None end |}.

Lemma plain_powershell_laws : PowerShellLaws plain_powershell.
Proof.
  split; [done|]. intros c l Hc Hne. cbn.
  repeat match goal with |- match ?x with _ => _ end = _ => destruct x; try done end.
Qed.

(** The name closes its literal only where the program closes it. *)
Lemma names_are_quoted_witness :
  ∃ pre c post body, bytes_of (index_command "it's'; Stop-Computer; '") = (pre ++ 39 :: body)%list ∧
    read_literal 100 body = Some (bytes_of "it's'; Stop-Computer; '", c :: post).
Proof.
  destruct (names_are_quoted (PS:=plain_powershell) (PowerShellLaws0:=plain_powershell_laws) "10.77.0.2" 24 1400)
    as (_ & (pre & c & post & H) & _).
  destruct (H "it's'; Stop-Computer; '") as (body & E & Hr).
  { apply (bool_decide_eq_true_1 (Forall (λ c, 0 ≤ c < 128) _)). by vm_compute. }
  exists pre, c, post, body. split; [exact E|]. apply Hr. apply Nat.ltb_lt. reflexivity.
Defined.



