(* ===== verification/Edge.v ===== *)
(** The edge: crates/r2n-edge-lib/src/lib.rs.

    The state holds what the tasks of [run] share.  The transport, the device, the metrics,
    the discovery manager and the room of the dataplane are those of [e_dp]; a handler is one
    step.  What is drawn at random, the answers of the system and the clock are arguments. *)
From Stdlib Require Import ZArith Lia.
From stdpp Require Import base tactics numbers list gmap strings pretty.
From S2P Require Import Prelude Bytes Net Text AddrText Common Proto Sorting Slab Etherparse.
From S2P Require Import Qos Crypto Noise Policy Rendezvous Discovery F32 Path Observability.
From S2P Require Import Transport Flood MacTable Dataplane Config Nat EdgeCore.
Local Open Scope Z_scope.
Local Open Scope string_scope.

Record RuntimeState := mkRuntime {
  rt_supernode_addr : string;
  rt_nat_type : string;
  rt_tun_name : option string;
  rt_virtual_ip : option string;
  rt_route_cidr : option string;
  rt_route_installed : bool;
  rt_discovery_routes_installed : bool;
  rt_discovery_route_errors : list string;
  rt_supernode_reachable : bool;
  rt_backend_requested : string;
  rt_backend_active : string;
  rt_backend_degraded : bool;
  rt_effective_mtu : Z;
  rt_supernodes : list string;
  rt_preference_requested : bool;
  rt_preference_supported : bool;
  rt_preference_applied : bool;
  rt_preference_error : option string;
  rt_last_supernode_activity_at : option Z;
  rt_port_mapping_acquired : bool;
  rt_port_mapping_protocol : option string;
  rt_port_mapping_external_addr : option string;
  rt_port_mapping_lease_expires_at : option Z;
  rt_last_error : option string;
}.

(** What a caller is answered. *)
Inductive Value :=
| VCreated (room_id assigned_ip virtual_cidr invite_code : string)
| VJoined (room_id assigned_ip virtual_cidr : string)
| VLeft | VStopping
| VRooms (rooms : list (string * string * nat))
| VSwitched (addr : SocketAddr).

(** The caller of a command is a number. *)
Inductive EdgeCommand :=
| CmdCreateRoom (name : string)
| CmdJoinRoom (invite : string)
| CmdLeaveRoom | CmdStop | CmdQueryRooms
| CmdSwitchSupernode (addr : SocketAddr).

(** A burst of handshake messages: what is sent where, and the delays left. *)
Record Burst := mkBurst { b_payload : list Z; b_targets : list SocketAddr; b_delays : list Z }.
Definition burst_delays : list Z := [0; 20; 30; 50; 100; 200; 400].

Section Edge.
Context `{L : Ipv4NetLib} `{Q : ArrayQueue} `{A : AeadLib} `{P : Etherparse} `{N : IpNetLib}
  `{R : RatelimitLib} `{K : Socket} `{T : TunIo} `{PC : Postcard} `{C : InviteCrypto}
  `{X : Hex} `{W : SnowLib} `{TL : Toml (N:=N)} `{F : Fs} `{HL : HistoryLib} `{PF : Platform}.

Record PeerState := mkPeerState {
  ps_info : PeerInfo;
  ps_candidates : list Candidate;
  ps_direct_addr : option SocketAddr;
  ps_cipher : option (Cipher A);
  ps_session_id : SessionId;
  ps_handshake : option NoiseSession;
  ps_pending_session_key : option (list Z);
}.
Definition build_peer_state (peer : PeerInfo) : PeerState :=
  mkPeerState peer [] None None (mkSessionId 0) None None.

(** What does not change while the edge runs. *)
Record EdgeSettings := mkSettings {
  node_id : NodeId;
  private_key : list Z;
  nickname : string;
  tun_name : string;
  supernode_list : list SocketAddr;
  tun_mtu : Z;
  backend : BackendConfig;
  virtual_lan : VirtualLanConfig;
  nat_fingerprint : NatFingerprint;
  base_candidates : list Candidate;
}.

Record Edge := mkEdge {
  settings : EdgeSettings;
  e_dp : DataPlane;
  e_room : option RoomId;
  e_peers : gmap NodeId PeerState;
  e_runtime : RuntimeState;
  e_supernode : SocketAddr;
  e_activity : Z;
  e_invite : option string;
  e_create : option nat;
  e_join : option nat;
  e_query : option nat;
  e_room_name : option string;
  e_advertised : list Candidate;
  e_reconnecting : bool;
  e_routes : RouteTable;
  e_history : option string;
  e_config : option string;
  e_bursts : list Burst;
  e_replies : list (nat * result Value);
  e_exited : bool;
}.

Definition put_dp x e := mkEdge (settings e) x (e_room e) (e_peers e) (e_runtime e)
  (e_supernode e) (e_activity e) (e_invite e) (e_create e) (e_join e) (e_query e) (e_room_name e)
  (e_advertised e) (e_reconnecting e) (e_routes e) (e_history e) (e_config e) (e_bursts e)
  (e_replies e) (e_exited e).
Definition put_room x e := mkEdge (settings e) (e_dp e) x (e_peers e) (e_runtime e)
  (e_supernode e) (e_activity e) (e_invite e) (e_create e) (e_join e) (e_query e) (e_room_name e)
  (e_advertised e) (e_reconnecting e) (e_routes e) (e_history e) (e_config e) (e_bursts e)
  (e_replies e) (e_exited e).
Definition put_peers x e := mkEdge (settings e) (e_dp e) (e_room e) x (e_runtime e)
  (e_supernode e) (e_activity e) (e_invite e) (e_create e) (e_join e) (e_query e) (e_room_name e)
  (e_advertised e) (e_reconnecting e) (e_routes e) (e_history e) (e_config e) (e_bursts e)
  (e_replies e) (e_exited e).
Definition put_runtime x e := mkEdge (settings e) (e_dp e) (e_room e) (e_peers e) x
  (e_supernode e) (e_activity e) (e_invite e) (e_create e) (e_join e) (e_query e) (e_room_name e)
  (e_advertised e) (e_reconnecting e) (e_routes e) (e_history e) (e_config e) (e_bursts e)
  (e_replies e) (e_exited e).
Definition put_supernode x e := mkEdge (settings e) (e_dp e) (e_room e) (e_peers e)
  (e_runtime e) x (e_activity e) (e_invite e) (e_create e) (e_join e) (e_query e)
  (e_room_name e) (e_advertised e) (e_reconnecting e) (e_routes e) (e_history e) (e_config e)
  (e_bursts e) (e_replies e) (e_exited e).
Definition put_activity x e := mkEdge (settings e) (e_dp e) (e_room e) (e_peers e)
  (e_runtime e) (e_supernode e) x (e_invite e) (e_create e) (e_join e) (e_query e)
  (e_room_name e) (e_advertised e) (e_reconnecting e) (e_routes e) (e_history e) (e_config e)
  (e_bursts e) (e_replies e) (e_exited e).
Definition put_invite x e := mkEdge (settings e) (e_dp e) (e_room e) (e_peers e)
  (e_runtime e) (e_supernode e) (e_activity e) x (e_create e) (e_join e) (e_query e)
  (e_room_name e) (e_advertised e) (e_reconnecting e) (e_routes e) (e_history e) (e_config e)
  (e_bursts e) (e_replies e) (e_exited e).
Definition put_create x e := mkEdge (settings e) (e_dp e) (e_room e) (e_peers e)
  (e_runtime e) (e_supernode e) (e_activity e) (e_invite e) x (e_join e) (e_query e)
  (e_room_name e) (e_advertised e) (e_reconnecting e) (e_routes e) (e_history e) (e_config e)
  (e_bursts e) (e_replies e) (e_exited e).
Definition put_join x e := mkEdge (settings e) (e_dp e) (e_room e) (e_peers e)
  (e_runtime e) (e_supernode e) (e_activity e) (e_invite e) (e_create e) x (e_query e)
  (e_room_name e) (e_advertised e) (e_reconnecting e) (e_routes e) (e_history e) (e_config e)
  (e_bursts e) (e_replies e) (e_exited e).
Definition put_query x e := mkEdge (settings e) (e_dp e) (e_room e) (e_peers e)
  (e_runtime e) (e_supernode e) (e_activity e) (e_invite e) (e_create e) (e_join e) x
  (e_room_name e) (e_advertised e) (e_reconnecting e) (e_routes e) (e_history e) (e_config e)
  (e_bursts e) (e_replies e) (e_exited e).
Definition put_room_name x e := mkEdge (settings e) (e_dp e) (e_room e) (e_peers e)
  (e_runtime e) (e_supernode e) (e_activity e) (e_invite e) (e_create e) (e_join e) (e_query e)
  x (e_advertised e) (e_reconnecting e) (e_routes e) (e_history e) (e_config e) (e_bursts e)
  (e_replies e) (e_exited e).
Definition put_advertised x e := mkEdge (settings e) (e_dp e) (e_room e) (e_peers e)
  (e_runtime e) (e_supernode e) (e_activity e) (e_invite e) (e_create e) (e_join e) (e_query e)
  (e_room_name e) x (e_reconnecting e) (e_routes e) (e_history e) (e_config e) (e_bursts e)
  (e_replies e) (e_exited e).
Definition put_reconnecting x e := mkEdge (settings e) (e_dp e) (e_room e) (e_peers e)
  (e_runtime e) (e_supernode e) (e_activity e) (e_invite e) (e_create e) (e_join e) (e_query e)
  (e_room_name e) (e_advertised e) x (e_routes e) (e_history e) (e_config e) (e_bursts e)
  (e_replies e) (e_exited e).
Definition put_routes x e := mkEdge (settings e) (e_dp e) (e_room e) (e_peers e)
  (e_runtime e) (e_supernode e) (e_activity e) (e_invite e) (e_create e) (e_join e) (e_query e)
  (e_room_name e) (e_advertised e) (e_reconnecting e) x (e_history e) (e_config e) (e_bursts e)
  (e_replies e) (e_exited e).
Definition put_history x e := mkEdge (settings e) (e_dp e) (e_room e) (e_peers e)
  (e_runtime e) (e_supernode e) (e_activity e) (e_invite e) (e_create e) (e_join e) (e_query e)
  (e_room_name e) (e_advertised e) (e_reconnecting e) (e_routes e) x (e_config e) (e_bursts e)
  (e_replies e) (e_exited e).
Definition put_config x e := mkEdge (settings e) (e_dp e) (e_room e) (e_peers e)
  (e_runtime e) (e_supernode e) (e_activity e) (e_invite e) (e_create e) (e_join e) (e_query e)
  (e_room_name e) (e_advertised e) (e_reconnecting e) (e_routes e) (e_history e) x (e_bursts e)
  (e_replies e) (e_exited e).
Definition put_bursts x e := mkEdge (settings e) (e_dp e) (e_room e) (e_peers e)
  (e_runtime e) (e_supernode e) (e_activity e) (e_invite e) (e_create e) (e_join e) (e_query e)
  (e_room_name e) (e_advertised e) (e_reconnecting e) (e_routes e) (e_history e) (e_config e) x
  (e_replies e) (e_exited e).
Definition put_replies x e := mkEdge (settings e) (e_dp e) (e_room e) (e_peers e)
  (e_runtime e) (e_supernode e) (e_activity e) (e_invite e) (e_create e) (e_join e) (e_query e)
  (e_room_name e) (e_advertised e) (e_reconnecting e) (e_routes e) (e_history e) (e_config e)
  (e_bursts e) x (e_exited e).
Definition put_exited x e := mkEdge (settings e) (e_dp e) (e_room e) (e_peers e)
  (e_runtime e) (e_supernode e) (e_activity e) (e_invite e) (e_create e) (e_join e) (e_query e)
  (e_room_name e) (e_advertised e) (e_reconnecting e) (e_routes e) (e_history e) (e_config e)
  (e_bursts e) (e_replies e) x.

Definition EM : Type → Type := M Edge string.

(** ** Steps on parts of the state *)

(** The result of a computation as a value, for an [if let Err]. *)
Definition mcatch {S E B} (m : M S E B) : M S E (outcome E B) := λ s,
  match m s with
  | (Panic, s) => (Panic, s)
  | (r, s) => (Ok r, s)
  end.

Definition on_dp (f : DataPlane → DataPlane) : EM unit := mmodify (λ e, put_dp (f (e_dp e)) e).
Definition on_runtime (f : RuntimeState → RuntimeState) : EM unit :=
  mmodify (λ e, put_runtime (f (e_runtime e)) e).

Definition put_transport (x : UdpTransport) (e : Edge) : Edge :=
  put_dp (set_transport x (e_dp e)) e.
Definition send (frame : ControlFrame) (addr : SocketAddr) : EM unit :=
  let* _ := mzoom (λ e, transport (e_dp e)) put_transport transport_error
              (send_control frame addr) in
  mreturn tt.

Definition show_room (r : RoomId) : string := hex_encode (room_bytes r).

(** The callers that wait. *)
Inductive Pending := PendingCreate | PendingJoin | PendingQuery.
Definition pending (w : Pending) (e : Edge) : option nat :=
  match w with
  | PendingCreate => e_create e | PendingJoin => e_join e | PendingQuery => e_query e
  end.
Definition put_pending (w : Pending) (x : option nat) (e : Edge) : Edge :=
  match w with
  | PendingCreate => put_create x e | PendingJoin => put_join x e | PendingQuery => put_query x e
  end.

Definition reply_to (caller : nat) (r : result Value) : EM unit :=
  mmodify (λ e, put_replies (e_replies e ++ [(caller, r)])%list e).

Definition send_pending_reply (w : Pending) (r : result Value) : EM unit :=
  let* e := mget in
  match pending w e with
  | Some caller => do* mmodify (put_pending w None) in reply_to caller r
  | None => mreturn tt
  end.

(** ** The runtime state *)
Definition set_last_error (x : option string) (r : RuntimeState) : RuntimeState :=
  mkRuntime (rt_supernode_addr r) (rt_nat_type r) (rt_tun_name r) (rt_virtual_ip r)
    (rt_route_cidr r) (rt_route_installed r) (rt_discovery_routes_installed r)
    (rt_discovery_route_errors r) (rt_supernode_reachable r) (rt_backend_requested r)
    (rt_backend_active r) (rt_backend_degraded r) (rt_effective_mtu r) (rt_supernodes r)
    (rt_preference_requested r) (rt_preference_supported r) (rt_preference_applied r)
    (rt_preference_error r) (rt_last_supernode_activity_at r) (rt_port_mapping_acquired r)
    (rt_port_mapping_protocol r) (rt_port_mapping_external_addr r)
    (rt_port_mapping_lease_expires_at r) x.

Definition set_supernode_text (x : string) (r : RuntimeState) : RuntimeState :=
  mkRuntime x (rt_nat_type r) (rt_tun_name r) (rt_virtual_ip r)
    (rt_route_cidr r) (rt_route_installed r) (rt_discovery_routes_installed r)
    (rt_discovery_route_errors r) (rt_supernode_reachable r) (rt_backend_requested r)
    (rt_backend_active r) (rt_backend_degraded r) (rt_effective_mtu r) (rt_supernodes r)
    (rt_preference_requested r) (rt_preference_supported r) (rt_preference_applied r)
    (rt_preference_error r) (rt_last_supernode_activity_at r) (rt_port_mapping_acquired r)
    (rt_port_mapping_protocol r) (rt_port_mapping_external_addr r)
    (rt_port_mapping_lease_expires_at r) (rt_last_error r).

Definition set_reachable (x : bool) (at_ : option Z) (r : RuntimeState) : RuntimeState :=
  mkRuntime (rt_supernode_addr r) (rt_nat_type r) (rt_tun_name r) (rt_virtual_ip r)
    (rt_route_cidr r) (rt_route_installed r) (rt_discovery_routes_installed r)
    (rt_discovery_route_errors r) x (rt_backend_requested r)
    (rt_backend_active r) (rt_backend_degraded r) (rt_effective_mtu r) (rt_supernodes r)
    (rt_preference_requested r) (rt_preference_supported r) (rt_preference_applied r)
    (rt_preference_error r) at_ (rt_port_mapping_acquired r)
    (rt_port_mapping_protocol r) (rt_port_mapping_external_addr r)
    (rt_port_mapping_lease_expires_at r) (rt_last_error r).

Definition set_device (active : string) (degraded : bool) (mtu : Z) (warning : option string)
    (r : RuntimeState) : RuntimeState :=
  mkRuntime (rt_supernode_addr r) (rt_nat_type r) (rt_tun_name r) (rt_virtual_ip r)
    (rt_route_cidr r) (rt_route_installed r) (rt_discovery_routes_installed r)
    (rt_discovery_route_errors r) (rt_supernode_reachable r) (rt_backend_requested r)
    active degraded mtu (rt_supernodes r)
    (rt_preference_requested r) (rt_preference_supported r) (rt_preference_applied r)
    (rt_preference_error r) (rt_last_supernode_activity_at r) (rt_port_mapping_acquired r)
    (rt_port_mapping_protocol r) (rt_port_mapping_external_addr r)
    (rt_port_mapping_lease_expires_at r) warning.

Definition set_port_mapping (acquired : bool) (protocol external : option string)
    (lease : option Z) (r : RuntimeState) : RuntimeState :=
  mkRuntime (rt_supernode_addr r) (rt_nat_type r) (rt_tun_name r) (rt_virtual_ip r)
    (rt_route_cidr r) (rt_route_installed r) (rt_discovery_routes_installed r)
    (rt_discovery_route_errors r) (rt_supernode_reachable r) (rt_backend_requested r)
    (rt_backend_active r) (rt_backend_degraded r) (rt_effective_mtu r) (rt_supernodes r)
    (rt_preference_requested r) (rt_preference_supported r) (rt_preference_applied r)
    (rt_preference_error r) (rt_last_supernode_activity_at r) acquired protocol external
    lease (rt_last_error r).

(** The last lines of [activate_room]. *)
Definition set_active (ip cidr interface : string) (errors : list string) (b : BackendConfig)
    (active_mode : TunDeviceMode) (mtu : Z) (requested supported applied : bool)
    (preference_error : option string) (r : RuntimeState) : RuntimeState :=
  let last_error :=
    if rt_backend_degraded r then
      match rt_last_error r with
      | None => Some "requested TAP/L2 backend degraded to TUN"
      | some => some
      end
    else match preference_error with
         | Some error => Some error
         | None => if bool_decide (errors = []) then None else rt_last_error r
         end in
  mkRuntime (rt_supernode_addr r) (rt_nat_type r) (Some interface) (Some ip)
    (Some cidr) true (bool_decide (errors = [])) errors (rt_supernode_reachable r)
    (backend_request_label b) (device_mode_label active_mode) (rt_backend_degraded r) mtu
    (rt_supernodes r) requested supported applied preference_error
    (rt_last_supernode_activity_at r) (rt_port_mapping_acquired r)
    (rt_port_mapping_protocol r) (rt_port_mapping_external_addr r)
    (rt_port_mapping_lease_expires_at r) last_error.

(** The last lines of [deactivate_room]. *)
Definition set_inactive (r : RuntimeState) : RuntimeState :=
  mkRuntime (rt_supernode_addr r) (rt_nat_type r) None None None false false []
    (rt_supernode_reachable r) (rt_backend_requested r) (rt_backend_active r)
    (rt_backend_degraded r) (rt_effective_mtu r) (rt_supernodes r) (rt_preference_requested r)
    (rt_preference_supported r) false None (rt_last_supernode_activity_at r)
    (rt_port_mapping_acquired r) (rt_port_mapping_protocol r)
    (rt_port_mapping_external_addr r) (rt_port_mapping_lease_expires_at r) None.

(** ** Entering and leaving a room *)
Definition on_routes {B} (m : M RouteTable string B) : EM B := mzoom e_routes put_routes id m.

(** The device there is, or a new one; the bool says which. *)
Definition room_device (os : Os) (assigned_ip : VirtualIp) : EM (TunDevice * bool) :=
  let* e := mget in
  match tun (e_dp e) with
  | Some device => mreturn (device, false)
  | None =>
      let* '(device, degraded, warning) := mlift (create_tun_device_with_backend os
        (tun_name (settings e)) (VirtualIp_to_string assigned_ip) 24 (tun_mtu (settings e))
        (backend (settings e))) in
      do* on_dp (set_tun (Some device)) in
      do* on_runtime (set_device (device_mode_label (tun_mode device)) degraded
                        (tun_effective_mtu device) warning) in
      mreturn (device, true)
  end.

(** Whether the preference was applied, and the error. *)
Definition apply_preference (os : Os) (requested : bool) (interface_name : string)
    : result (bool * option string) :=
  if requested && virtual_interface_preference_supported then
    match prefer_virtual_interface os interface_name with
    | Ok applied => Ok (applied, None)
    | Err err => Ok (false, Some ("failed to prefer virtual LAN interface "
                                    +:+ interface_name +:+ ": " +:+ err))
    | Panic => Panic
    end
  else Ok (false, None).

Definition activate_room (os : Os) (joined_room : RoomId) (assigned_ip : VirtualIp)
    (virtual_cidr : string) : EM unit :=
  let* e := mget in
  do* match e_room e with
      | Some active_room =>
          if bool_decide (active_room = joined_room) then mreturn tt
          else mthrow ("already in room " +:+ show_room active_room
                         +:+ ", leave it before joining or creating another room")
      | None => mreturn tt
      end in
  let* '(device, created_tun) := room_device os assigned_ip in
  let* interface_name := mlift (ok_or name_error (tun_if_name device)) in
  let requested := Config.prefer_virtual_interface (virtual_lan (settings e)) in
  let* '(applied, preference_error) := mlift (apply_preference os requested interface_name) in
  let* network := mlift (ok_or (net_error virtual_cidr) (net_parse virtual_cidr)) in
  let* added := mcatch (on_routes (add_route os network interface_name)) in
  match added with
  | Err err =>
      do* mwhen created_tun (on_dp (set_tun None)) in
      mthrow err
  | Panic => mlift Panic
  | Ok _ =>
      let* e := mget in
      let* errors := on_routes (add_lan_discovery_routes os (route_cidrs (discovery (e_dp e)))
                                  interface_name) in
      do* mmodify (put_room (Some joined_room)) in
      do* on_dp (set_room_id (Some joined_room)) in
      on_runtime (set_active (VirtualIp_to_string assigned_ip) virtual_cidr interface_name errors
        (backend (settings e)) (tun_mode device) (tun_effective_mtu device) requested
        virtual_interface_preference_supported applied preference_error)
  end.

Definition deactivate_room (os : Os) : EM unit :=
  let* e := mget in
  do* match rt_route_cidr (e_runtime e), rt_tun_name (e_runtime e) with
      | Some route_cidr, Some name =>
          do* match net_parse route_cidr with
              | Some network => mignore (on_routes (remove_route os network name))
              | None => mreturn tt
              end in
          on_routes (remove_lan_discovery_routes os (route_cidrs (discovery (e_dp e))) name)
      | _, _ => mreturn tt
      end in
  do* mmodify (put_room None) in
  do* on_dp (set_tun None) in
  do* on_dp clear_peers in
  do* on_dp (set_room_id None) in
  on_runtime set_inactive.

Definition apply_port_mapping_snapshot (now : Z) (s : PortMappingSnapshot) : EM unit :=
  let protocol := label <$> pm_protocol s in
  let external := show_addr <$> external_addr s in
  let lease := (λ l, now + l)%Z <$> lease_remaining s in
  do* on_runtime (set_port_mapping (acquired s) protocol external lease) in
  on_dp (count (set_port_mapping_status (acquired s) protocol external lease)).

(** ** Control frames *)

(** A peer that is told of: its entry, and that of the dataplane. *)
Definition learn_peer (now : Z) (supernode : SocketAddr) (peer : PeerInfo) : EM unit :=
  let id := peer_node_id peer in
  let* e := mget in
  let state := match e_peers e !! id with
               | Some s => mkPeerState peer (ps_candidates s) (ps_direct_addr s) (ps_cipher s)
                             (ps_session_id s) (ps_handshake s) (ps_pending_session_key s)
               | None => build_peer_state peer
               end in
  do* mmodify (put_peers (<[id := state]> (e_peers e))) in
  on_dp (upsert_peer (mkDataPeer peer (PathManager_new now supernode) None (mkSessionId 0) 1)).

Definition forget_peer (id : NodeId) : EM unit :=
  do* mmodify (λ e, put_peers (delete id (e_peers e)) e) in
  on_dp (remove_peer id).

Definition peer_list (now : Z) (supernode : SocketAddr) (room_peers : list PeerInfo) : EM unit :=
  let* e := mget in
  let others := List.filter (λ p, negb (bool_decide (peer_node_id p = node_id (settings e))))
                  room_peers in
  do* mforeach (learn_peer now supernode) others in
  let* e := mget in
  let active_nodes := peer_node_id <$> others in
  let to_remove := List.filter (λ id, negb (bool_decide (id ∈ active_nodes)))
                     (map_to_list (e_peers e)).*1 in
  mforeach forget_peer to_remove.

Definition on_peer (id : NodeId) (f : PeerState → PeerState) : EM unit :=
  mmodify (λ e, put_peers (alter f id (e_peers e)) e).
Definition set_candidates x p := mkPeerState (ps_info p) x (ps_direct_addr p) (ps_cipher p)
  (ps_session_id p) (ps_handshake p) (ps_pending_session_key p).
Definition set_handshake x p := mkPeerState (ps_info p) (ps_candidates p) (ps_direct_addr p)
  (ps_cipher p) (ps_session_id p) x (ps_pending_session_key p).
Definition set_pending_key x p := mkPeerState (ps_info p) (ps_candidates p) (ps_direct_addr p)
  (ps_cipher p) (ps_session_id p) (ps_handshake p) x.
Definition set_direct addr c p := mkPeerState (ps_info p) (ps_candidates p) (Some addr) (Some c)
  (ps_session_id p) (ps_handshake p) (ps_pending_session_key p).

Definition failed_handshake (id : NodeId) : EM unit := on_dp (count (mark_handshake id false)).

(** [key] and [ephemeral] are drawn; the burst is a task of its own. *)
Definition punch_request (pr : profile) (now : Z) (key : list Z) (ephemeral : Z)
    (target : NodeId) (candidates : list Candidate) : EM unit :=
  let* e := mget in
  match e_peers e !! target with
  | None => mreturn tt
  | Some peer =>
      do* on_peer target (set_candidates candidates) in
      do* mforeach (λ c, on_dp (add_peer_candidate now target (addr c))) candidates in
      let* pairs := mlift (lift (build_candidate_pairs pr (e_advertised e) candidates)) in
      match initiator (private_key (settings e)) (peer_public_key (ps_info peer)) with
      | Ok session =>
          match write_message ephemeral key 128 session with
          | (Ok message, session) =>
              do* on_peer target (set_handshake (Some session)) in
              do* on_peer target (set_pending_key (Some key)) in
              let selected := take 16 (List.filter (λ p, bool_decide (0 < p_score p)%Z) pairs) in
              mmodify (λ e, put_bursts (e_bursts e ++
                [mkBurst message ((λ p, addr (p_remote p)) <$> selected) burst_delays])%list e)
          | _ => failed_handshake target
          end
      | _ => failed_handshake target
      end
  end.

(** What a handshake message does to the peer it is from: the answer to send, and the key with
    whether the handshake is complete. *)
Definition handshake_message (ephemeral : Z) (from : NodeId) (payload : list Z)
    : EM (option (list Z) * option (list Z) * bool) :=
  let nothing := mreturn (None, None, false) in
  let* e := mget in
  match e_peers e !! from with
  | None => nothing
  | Some peer =>
      match ps_handshake peer with
      | Some session =>
          match read_message payload 128 session with
          | (Ok _, session) =>
              if is_handshake_finished session then
                do* on_peer from (set_handshake None) in
                mreturn (None, ps_pending_session_key peer, true)
              else do* on_peer from (set_handshake (Some session)) in nothing
          | _ => do* on_peer from (set_handshake None) in nothing
          end
      | None =>
          match responder (private_key (settings e)) with
          | Ok session =>
              match read_message payload 128 session with
              | (Ok output, session) =>
                  let key := if bool_decide (32 ≤ length output)%nat
                             then Some (take 32 output) else None in
                  let '(reply, session) := write_message ephemeral [] 128 session in
                  if is_handshake_finished session then mreturn (ok reply, key, true)
                  else do* on_peer from (set_handshake (Some session)) in
                       mreturn (ok reply, key, false)
              | _ => nothing
              end
          | _ => do* failed_handshake from in nothing
          end
      end
  end.

Definition handshake (now : Z) (ephemeral : Z) (from : NodeId) (payload : list Z)
    (addr : SocketAddr) : EM unit :=
  let* '(response, negotiated_key, completed) := handshake_message ephemeral from payload in
  let* e := mget in
  do* match response with
      | Some payload => mignore (send (Handshake (node_id (settings e)) payload) addr)
      | None => mreturn tt
      end in
  match negotiated_key, completed, e_peers e !! from with
  | Some key, true, Some peer =>
      match ps_cipher peer with
      | Some _ => mreturn tt
      | None =>
          let* cipher := mlift (lift (Crypto.new key)) in
          do* on_peer from (set_direct addr cipher) in
          do* on_dp (set_direct_path now from addr (Some cipher)) in
          on_dp (count (mark_handshake from true))
      end
  | _, _, _ => mreturn tt
  end.

(** What one event of the edge draws: a session key and an ephemeral key. *)
Record Draw := mkDraw { d_key : list Z; d_ephemeral : Z }.

Definition entered_room (w : Pending) (os : Os) (verb : string) (room : RoomId)
    (assigned_ip : VirtualIp) (virtual_cidr : string) (k : EM unit) : EM unit :=
  let* r := mcatch (activate_room os room assigned_ip virtual_cidr) in
  match r with
  | Err err =>
      do* on_runtime (set_last_error (Some err)) in
      send_pending_reply w (Err ("failed to activate " +:+ verb +:+ " room: " +:+ err))
  | _ => k
  end.

Definition remember_room (os : Os) (room name invite : string) : EM unit :=
  mmodify (λ e, put_history (add_to_history (os_unix_secs os) room name invite (e_history e)) e).

Definition handle_control (pr : profile) (os : Os) (now : Z) (draw : Draw)
    (supernode : SocketAddr) (frame : ControlFrame) (addr : SocketAddr) : EM unit :=
  match frame with
  | RoomCreated created_room assigned_ip virtual_cidr invite_code =>
      entered_room PendingCreate os "created" created_room assigned_ip virtual_cidr (
        let invite_code := normalize_invite_code invite_code supernode in
        do* mmodify (put_invite (Some invite_code)) in
        let* e := mget in
        let room_name := default ("Room-" +:+ show_room created_room) (e_room_name e) in
        do* mmodify (put_room_name None) in
        do* remember_room os (show_room created_room) room_name invite_code in
        send_pending_reply PendingCreate (Ok (VCreated (show_room created_room)
          (VirtualIp_to_string assigned_ip) virtual_cidr invite_code)))
  | JoinAccept joined_room assigned_ip virtual_cidr room_name =>
      entered_room PendingJoin os "joined" joined_room assigned_ip virtual_cidr (
        let r_name := default ("Room-" +:+ show_room joined_room) room_name in
        let* e := mget in
        do* match e_invite e with
            | Some invite => remember_room os (show_room joined_room) r_name invite
            | None => mreturn tt
            end in
        send_pending_reply PendingJoin (Ok (VJoined (show_room joined_room)
          (VirtualIp_to_string assigned_ip) virtual_cidr)))
  | JoinReject reason =>
      do* mmodify (put_invite None) in
      do* on_runtime (set_last_error (Some reason)) in
      send_pending_reply PendingJoin (Err reason)
  | PeerList room_peers => peer_list now supernode room_peers
  | PeerUpdate peer ActionRemove => forget_peer (peer_node_id peer)
  | PeerUpdate peer _ =>
      let* e := mget in
      if bool_decide (peer_node_id peer = node_id (settings e)) then mreturn tt
      else learn_peer now supernode peer
  | PunchRequest target candidates =>
      punch_request pr now (d_key draw) (d_ephemeral draw) target candidates
  | Handshake from payload => handshake now (d_ephemeral draw) from payload addr
  | ErrorFrame _ message =>
      do* on_runtime (set_last_error (Some message)) in
      do* send_pending_reply PendingCreate (Err message) in
      send_pending_reply PendingJoin (Err message)
  | RoomsList rooms =>
      send_pending_reply PendingQuery (Ok (VRooms
        ((λ r, (show_room (rd_room_id r), rd_name r, rd_member_count r)) <$> rooms)))
  | _ => mreturn tt
  end.

Definition supernode_seen (now : Z) (addr : SocketAddr) : EM unit :=
  let* e := mget in
  mwhen (bool_decide (addr = e_supernode e)) (
    do* mmodify (put_activity now) in
    on_runtime (set_reachable true (Some now))).

(** One round of the UDP loop. *)
Definition udp_round (pr : profile) (os : Os) (now : Z) (draw : Draw) (buf : list Z) (len : nat)
    (from : SocketAddr) : EM unit :=
  match recv_packet buf len from with
  | Err _ => mreturn tt
  | Panic => mlift Panic
  | Ok (packet, addr) =>
      let* e := mget in
      let supernode := e_supernode e in
      do* supernode_seen now addr in
      match packet with
      | PControl frame => handle_control pr os now draw supernode frame addr
      | PData (header, (first, last)) =>
          let* payload := mlift (lift (slice buf first last)) in
          mignore (mzoom e_dp put_dp (λ _, "")
                     (handle_incoming_frame pr now header payload addr))
      end
  end.

(** ** Commands *)
Definition register_frame (os : Os) (e : Edge) (external : option SocketAddr)
    (candidates : list Candidate) : ControlFrame :=
  RegisterNode (node_id (settings e)) (nat_type (nat_fingerprint (settings e))) external
    (derive_public_key (private_key (settings e))) candidates (nickname (settings e))
    (collect_local_networks os (tun_name (settings e))).

Definition create_room (name : string) (caller : nat) : EM unit :=
  let* e := mget in
  match e_room e, e_create e with
  | Some active_room, _ =>
      reply_to caller (Err ("already in room " +:+ show_room active_room
                              +:+ ", leave it before creating a new room"))
  | None, Some _ => reply_to caller (Err "another room creation is already in progress")
  | None, None =>
      do* mmodify (put_create (Some caller)) in
      do* mmodify (put_room_name (Some name)) in
      let* sent := mcatch (send (CreateRoom name) (e_supernode e)) in
      match sent with
      | Err err =>
          do* mmodify (put_room_name None) in
          send_pending_reply PendingCreate (Err ("failed to send create request: " +:+ err))
      | _ => mreturn tt
      end
  end.

(** The name the history has for an invite. *)
Definition remembered_name (invite : string) (e : Edge) : option string :=
  hi_name <$> List.find (λ i, bool_decide (hi_invite_code i = invite)) (load_history (e_history e)).

Definition join_room (invite : string) (caller : nat) : EM unit :=
  let* e := mget in
  match e_room e, e_join e with
  | Some active_room, _ =>
      reply_to caller (Err ("already in room " +:+ show_room active_room
                              +:+ ", leave it before joining another room"))
  | None, Some _ => reply_to caller (Err "another join operation is already in progress")
  | None, None =>
      match decode_invite invite with
      | None => reply_to caller (Err "invalid invite code")
      | Some data =>
          match resolve_supernode_addr (primary_supernode_addr data) (e_supernode e) with
          | None => reply_to caller (Err "invite contains an invalid supernode address")
          | Some target =>
              do* mmodify (put_join (Some caller)) in
              do* mmodify (put_invite (Some invite)) in
              let* sent := mcatch (send (JoinRoom (Common.room_id data) (token data)
                                           (remembered_name invite e)) target) in
              match sent with
              | Err err =>
                  do* mmodify (put_invite None) in
                  send_pending_reply PendingJoin (Err ("failed to send join request: " +:+ err))
              | _ => mreturn tt
              end
          end
      end
  end.

Definition no_room : RoomId := mkRoomId (replicate 16 0).

(** What leaving, stopping and switching have in common; [always] sends the frame even when
    there is no room. *)
Definition quit_room (os : Os) (always : bool) : EM unit :=
  let* e := mget in
  let room := default no_room (e_room e) in
  do* mmodify (put_invite None) in
  do* mwhen (always || negb (bool_decide (room = no_room)))
        (mignore (send (LeaveRoom room) (e_supernode e))) in
  do* mmodify (put_peers ∅) in
  deactivate_room os.

(** The configuration file is changed when it names another supernode. *)
Definition persist_supernode (path : option string) (fresh : EdgeConfig) (addr : SocketAddr)
    : M (option string) ConfigError unit :=
  match path with
  | None => mreturn tt
  | Some _ =>
      let* loaded := mcatch (edge_load_or_create path fresh) in
      match loaded with
      | Ok config =>
          mwhen (negb (bool_decide (default_supernode config = show_addr addr)))
            (mignore (edge_save (set_default_supernode (show_addr addr) config)))
      | _ => mreturn tt
      end
  end.

Definition switch_supernode (os : Os) (path : option string) (fresh : EdgeConfig)
    (addr : SocketAddr) (caller : nat) : EM unit :=
  do* quit_room os false in
  do* mmodify (put_supernode addr) in
  do* on_runtime (λ r, set_last_error None (set_supernode_text (show_addr addr) r)) in
  do* mignore (mzoom e_config put_config (λ _, "") (persist_supernode path fresh addr)) in
  let* e := mget in
  let* sent := mcatch (send (register_frame os e
    (preferred_external_addr (nat_fingerprint (settings e)) (e_advertised e)) (e_advertised e))
    addr) in
  match sent with
  | Err err => reply_to caller (Err ("failed to register on new supernode: " +:+ err))
  | _ => reply_to caller (Ok (VSwitched addr))
  end.

Definition handle_command (os : Os) (path : option string) (fresh : EdgeConfig)
    (cmd : EdgeCommand) (caller : nat) : EM unit :=
  match cmd with
  | CmdCreateRoom name => create_room name caller
  | CmdJoinRoom invite => join_room invite caller
  | CmdLeaveRoom => do* quit_room os true in reply_to caller (Ok VLeft)
  | CmdStop =>
      do* quit_room os false in
      do* reply_to caller (Ok VStopping) in
      mmodify (put_exited true)
  | CmdQueryRooms =>
      let* e := mget in
      match e_query e with
      | Some _ => reply_to caller (Err "another rooms query is already in progress")
      | None =>
          do* mmodify (put_query (Some caller)) in
          let* sent := mcatch (send QueryRooms (e_supernode e)) in
          match sent with
          | Err err =>
              send_pending_reply PendingQuery (Err ("failed to send query request: " +:+ err))
          | _ => mreturn tt
          end
      end
  | CmdSwitchSupernode addr => switch_supernode os path fresh addr caller
  end.

(** ** The periodic tasks *)
Definition heartbeat : EM unit :=
  let* e := mget in mignore (send Heartbeat (e_supernode e)).

Definition p2p_heartbeat : EM unit :=
  let* e := mget in
  mforeach (λ p, match ps_direct_addr p with
                 | Some addr => mignore (send Heartbeat addr)
                 | None => mreturn tt
                 end) (map_to_list (e_peers e)).*2.

Definition timed_out : string := "Supernode heartbeat timed out; trying to reconnect".

Definition watchdog_external (candidates : list Candidate) : option SocketAddr :=
  addr <$> List.find (λ c, bool_decide (source c = PortMapping)
                             || bool_decide (kind c = ServerReflexive)) candidates.

(** What the watchdog shows of the supernode. *)
Definition watch_runtime (reachable room_active : bool) (r : RuntimeState) : RuntimeState :=
  let r := set_reachable reachable (rt_last_supernode_activity_at r) r in
  if negb reachable && bool_decide (rt_last_error r = None) && room_active
  then set_last_error (Some timed_out) r
  else if reachable && bool_decide (rt_last_error r = Some timed_out)
  then set_last_error None r else r.

Definition reconnect (os : Os) : EM unit :=
  let* e := mget in
  let current := e_supernode e in
  let* target := mlift (lift (next_supernode_after current (supernode_list (settings e)))) in
  do* mwhen (negb (bool_decide (target = current))) (
        do* mmodify (put_supernode target) in
        on_runtime (λ r, set_last_error
          (Some ("Supernode heartbeat timed out; trying fallback " +:+ show_addr target))
          (set_supernode_text (show_addr target) r))) in
  do* mignore (send (register_frame os e (watchdog_external (e_advertised e)) (e_advertised e))
                 target) in
  match e_invite e with
  | Some invite =>
      match decode_invite invite with
      | Some data => mignore (send (JoinRoom (Common.room_id data) (token data)
                                      (remembered_name invite e)) target)
      | None => mreturn tt
      end
  | None => mreturn tt
  end.

(** One tick of the watchdog: 25 seconds of silence are too many. *)
Definition watchdog (os : Os) (now : Z) : EM unit :=
  let* e := mget in
  let room_active := bool_decide (is_Some (e_room e)) in
  let elapsed := duration_since now (e_activity e) in
  let reachable := bool_decide (elapsed ≤ secs 25)%Z in
  do* on_runtime (watch_runtime reachable room_active) in
  if negb room_active then mmodify (put_reconnecting false)
  else if negb reachable then
    do* mmodify (put_reconnecting true) in
    reconnect os
  else mmodify (put_reconnecting false).

(** The task that follows the port mapping. *)
Definition mapping_changed (os : Os) (now : Z) (s : PortMappingSnapshot) : EM unit :=
  do* apply_port_mapping_snapshot now s in
  let* e := mget in
  let merged := merge_mapped_candidate (base_candidates (settings e)) s in
  if bool_decide (e_advertised e = merged) then mreturn tt
  else
    do* mmodify (put_advertised merged) in
    mignore (send (register_frame os e
      (preferred_external_addr (nat_fingerprint (settings e)) merged) merged) (e_supernode e)).

(** The next send of a burst; it is over when no delay is left. *)
Definition burst_round (b : Burst) : EM (option Burst) :=
  match b_delays b with
  | [] => mreturn None
  | _ :: delays =>
      let* e := mget in
      do* mforeach (λ target, mignore (send (Handshake (node_id (settings e)) (b_payload b)) target))
            (b_targets b) in
      mreturn (Some (mkBurst (b_payload b) (b_targets b) delays))
  end.

(** ** Starting *)

(** [new_with_tun], with the transport the bind gave. *)
Record EdgeInit := mkInit {
  init_settings : EdgeSettings;
  init_transport : UdpTransport;
  init_tun : option TunDevice;
  init_supernode : SocketAddr;
  init_discovery : DiscoveryManager;
  init_policy : TrafficPolicy;
}.

(** Before the probe nothing is known of the NAT; a failed probe leaves it at that. *)
Definition degraded_fingerprint : NatFingerprint :=
  mkFingerprint Unknown [] false false None (secs 30) false false.

Definition new_with_tun (id : NodeId) (key : list Z) (nick : string) (transport : UdpTransport)
    (supernode : SocketAddr) (supernodes : list SocketAddr) (preconfigured : option TunDevice)
    (name : string) (mtu : Z) (discovery_config : DiscoveryConfig) (b : BackendConfig)
    (lan : VirtualLanConfig) (policy : TrafficPolicy) : total EdgeInit :=
  discovery ← with_config discovery_config;
  Ok (mkInit (mkSettings id key nick name (normalize_supernodes supernode supernodes)
                (normalize_tun_mtu mtu) b lan degraded_fingerprint [])
        transport preconfigured supernode discovery policy).

Definition edge_new (id : NodeId) (key : list Z) (nick : string) (transport : UdpTransport)
    (supernode : SocketAddr) (supernodes : list SocketAddr) (name : string) (mtu : Z)
    (discovery_config : DiscoveryConfig) (b : BackendConfig) (lan : VirtualLanConfig)
    (policy : TrafficPolicy) : total EdgeInit :=
  new_with_tun id key nick transport supernode supernodes None name mtu discovery_config b lan
    policy.

Definition show_nat_type (n : NatType) : string :=
  match n with
  | Common.Open => "Open" | Cone => "Cone" | Symmetric => "Symmetric" | Unknown => "Unknown"
  end.

(** [RuntimeState] at the start. *)
Definition initial_runtime (i : EdgeInit) : RuntimeState :=
  let s := init_settings i in
  mkRuntime (show_addr (init_supernode i)) "Unknown" None None None false false [] false
    (backend_request_label (backend s))
    (match init_tun i with Some d => device_mode_label (tun_mode d) | None => "" end) false
    (match init_tun i with Some d => tun_effective_mtu d | None => tun_mtu s end)
    (show_addr <$> supernode_list s)
    (Config.prefer_virtual_interface (virtual_lan s)) virtual_interface_preference_supported
    false None None false None None None None.

Definition set_nat_text (x : string) (r : RuntimeState) : RuntimeState :=
  mkRuntime (rt_supernode_addr r) x (rt_tun_name r) (rt_virtual_ip r)
    (rt_route_cidr r) (rt_route_installed r) (rt_discovery_routes_installed r)
    (rt_discovery_route_errors r) (rt_supernode_reachable r) (rt_backend_requested r)
    (rt_backend_active r) (rt_backend_degraded r) (rt_effective_mtu r) (rt_supernodes r)
    (rt_preference_requested r) (rt_preference_supported r) (rt_preference_applied r)
    (rt_preference_error r) (rt_last_supernode_activity_at r) (rt_port_mapping_acquired r)
    (rt_port_mapping_protocol r) (rt_port_mapping_external_addr r)
    (rt_port_mapping_lease_expires_at r) (rt_last_error r).

(** The state with what the probe found. *)
Definition initial_edge (i : EdgeInit) (dp : DataPlane) (fp : NatFingerprint)
    (base advertised : list Candidate) (now : Z) (history config : option string) : Edge :=
  let s := init_settings i in
  mkEdge (mkSettings (node_id s) (private_key s) (nickname s) (tun_name s) (supernode_list s)
            (tun_mtu s) (backend s) (virtual_lan s) fp base)
    dp None ∅ (set_nat_text (show_nat_type (nat_type fp)) (initial_runtime i)) (init_supernode i)
    now None None None None None advertised false [] history config [] [] false.

(** [run] up to its loops, once the IPC server, the search for a gateway and the route manager
    have started: [mapping] is the first snapshot of the port mapping, [collected] what the
    probe gave, when it ended within five seconds. *)
Definition run_start (os : Os) (now : Z) (mapping : PortMappingSnapshot)
    (collected : option (outcome TransportError (NatFingerprint * list Candidate)))
    (i : EdgeInit) (history config : option string) : result Edge :=
  let s := init_settings i in
  dp ← lift (Dataplane.new (node_id s) (init_transport i) (init_tun i) (init_discovery i)
               Observability.new (tun_mtu s));
  let '(fp, base) := match collected with
                     | Some (Ok r) => r
                     | _ => (degraded_fingerprint, [])
                     end in
  let advertised := merge_mapped_candidate base mapping in
  let e := initial_edge i (Dataplane.start (set_traffic_policy (init_policy i) dp)) fp base advertised now
             history config in
  let start :=
    do* apply_port_mapping_snapshot now mapping in
    send (register_frame os e (preferred_external_addr fp advertised) advertised)
      (init_supernode i) in
  match start e with
  | (Ok _, e) => Ok e
  | (Err err, _) => Err err
  | (Panic, _) => Panic
  end.

(** ** What can happen next *)
(** The loops but that of the commands. *)
Inductive loop_step (pr : profile) : Edge → Edge → Prop :=
| step_udp e os now draw buf len from e' :
    e_exited e = false → udp_round pr os now draw buf len from e = (Ok tt, e') →
    loop_step pr e e'
| step_heartbeat e r e' :
    e_exited e = false → (heartbeat e = (r, e') ∨ p2p_heartbeat e = (r, e')) → r ≠ Panic →
    loop_step pr e e'
| step_watchdog e os now e' :
    e_exited e = false → watchdog os now e = (Ok tt, e') → loop_step pr e e'
| step_mapping e os now s e' :
    e_exited e = false → mapping_changed os now s e = (Ok tt, e') → loop_step pr e e'
| step_burst e l b k b' e' :
    e_exited e = false → e_bursts e = (l ++ b :: k)%list → burst_round b e = (Ok b', e') →
    loop_step pr e (put_bursts (l ++ option_list b' ++ k)%list e')
| step_tun e now payload r dp' :
    e_exited e = false → tun_round pr now payload (e_dp e) = (r, dp') → r ≠ Panic →
    loop_step pr e (put_dp dp' e)
| step_ping e now seq r dp' :
    e_exited e = false → ping_round now seq (e_dp e) = (r, dp') → r ≠ Panic →
    loop_step pr e (put_dp dp' e).

Inductive edge_step (pr : profile) : Edge → Edge → Prop :=
| step_loop e e' : loop_step pr e e' → edge_step pr e e'
| step_command e os path fresh cmd caller r e' :
    e_exited e = false →
    (∀ w, pending w e ≠ Some caller) → caller ∉ (e_replies e).*1 →
    handle_command os path fresh cmd caller e = (r, e') → r ≠ Panic →
    edge_step pr e e'.

Definition edge_reachable (pr : profile) (e : Edge) : Prop :=
  ∃ os now mapping collected i history config e0,
    run_start os now mapping collected i history config = Ok e0 ∧ rtc (edge_step pr) e0 e.
End Edge.
