(* ===== verification/EdgeFacts.v ===== *)
(** What the handlers of an edge preserve. *)
From Stdlib Require Import ZArith Lia.
From stdpp Require Import base tactics numbers list gmap strings.
From S2P Require Import Prelude Bytes Net Text AddrText Common Proto Sorting Slab Etherparse.
From S2P Require Import Qos Crypto Noise Policy Rendezvous Discovery F32 Path Observability.
From S2P Require Import Transport Flood MacTable Dataplane Config Nat EdgeCore Edge.
Local Open Scope Z_scope.

(** ** The dataplane as the edge sees it *)
Section Dataplane.
Context `{Q : ArrayQueue} `{A : AeadLib} `{P : Etherparse} `{N : IpNetLib}
  `{R : RatelimitLib} `{K : Socket} `{T : TunIo}.
Implicit Types d : DataPlane.

(** Who a peer is, and whether it has a cipher. *)
Definition link_of (q : DataPeer) : PeerInfo * bool :=
  (Dataplane.info q, bool_decide (is_Some (cipher q))).
Definition links d : gmap NodeId (PeerInfo * bool) := link_of <$> peers d.
Definition overlay_view d := (room_id d, bool_decide (is_Some (tun d)), links d).

Lemma links_with_peer n f d :
  (∀ q, link_of (f q) = link_of q) → links (with_peer n f d) = links d.
Proof.
  intros Hf. unfold links, with_peer. cbn [peers Dataplane.put_peers]. apply map_eq. intros m.
  rewrite !lookup_fmap. destruct (decide (m = n)) as [->|].
  - rewrite lookup_alter_eq. destruct (peers d !! n); simpl; [by rewrite Hf|done].
  - by rewrite lookup_alter_ne.
Qed.

Lemma view_with_peer n f d :
  (∀ q, link_of (f q) = link_of q) → overlay_view (with_peer n f d) = overlay_view d.
Proof. intros Hf. unfold overlay_view. by rewrite links_with_peer. Qed.

Lemma view_with_paths n f d : overlay_view (with_paths n f d) = overlay_view d.
Proof. by apply view_with_peer. Qed.

Lemma view_put_peer n q q0 d :
  peers d !! n = Some q0 → link_of q = link_of q0 →
  overlay_view (Dataplane.put_peers (<[n := q]> (peers d)) d) = overlay_view d.
Proof.
  intros Hq E. unfold overlay_view, links. cbn [peers tun room_id Dataplane.put_peers].
  rewrite fmap_insert, E. f_equal. apply insert_id. by rewrite lookup_fmap, Hq.
Qed.

Lemma send_keeps_view n packet_type payload override flood :
  keeps overlay_view (send_to_peer n packet_type payload override flood).
Proof.
  unfold send_to_peer, fetch_nonce, fetch_packet_id. keeps. by apply view_with_peer.
Qed.
#[local] Hint Resolve send_keeps_view : keeps.

Lemma validate_keeps_view now h : keeps overlay_view (validate_incoming_header now h).
Proof. unfold validate_incoming_header. keeps. Qed.

Lemma write_tun_keeps_view packet : keeps overlay_view (write_tun packet).
Proof.
  intros d. unfold write_tun, mseq, mget. destruct (tun d) as [t|] eqn:Et; [|done].
  destruct (tun_accepts _ _); [|done]. unfold overlay_view. simpl. by rewrite Et.
Qed.
#[local] Hint Resolve write_tun_keeps_view validate_keeps_view : keeps.

Lemma pong_keeps_view now h packet : keeps overlay_view (handle_pong now h packet).
Proof. unfold handle_pong. keeps. by apply view_with_paths. Qed.

Lemma set_direct_path_view now n addr d :
  overlay_view (set_direct_path now n addr None d) = overlay_view d.
Proof. by apply view_with_peer. Qed.

Lemma deliver_keeps_view now h packet addr : keeps overlay_view (deliver_packet now h packet addr).
Proof. unfold deliver_packet. keeps. by apply set_direct_path_view. Qed.
#[local] Hint Resolve pong_keeps_view deliver_keeps_view : keeps.

Lemma open_frame_link pr h payload q : link_of (open_frame pr h payload q).2 = link_of q.
Proof.
  unfold open_frame. destruct (cipher q) as [c|] eqn:Ec; [|done].
  repeat split_match; unfold link_of; simpl; rewrite ?Ec; done.
Qed.

Lemma incoming_keeps_view pr now h payload addr :
  keeps overlay_view (handle_incoming_frame pr now h payload addr).
Proof.
  intros d. unfold handle_incoming_frame, mseq at 1.
  pose proof (validate_keeps_view now h d) as Hv.
  destruct (validate_incoming_header now h d) as [[valid|e|] d1]; simpl in Hv; [|done..].
  rewrite <- Hv. destruct valid; simpl; [|done]. unfold mseq at 1. cbn [mget].
  destruct (peers d1 !! h_src_node h) as [q|] eqn:Hq; [|done].
  pose proof (open_frame_link pr h payload q) as Hl.
  destruct (open_frame pr h payload q) as [r q']. simpl in Hl.
  unfold mseq at 1. cbn [mmodify]. rewrite <- (view_put_peer _ _ _ _ Hq Hl).
  match goal with |- overlay_view (?m ?s).2 = _ => enough (keeps overlay_view m) by done end.
  keeps. by apply view_with_paths.
Qed.

Lemma prepare_keeps_view pr payload : keeps overlay_view (prepare_outgoing pr payload).
Proof. unfold prepare_outgoing. keeps. Qed.

Lemma send_target_keeps_view packet_type payload target :
  keeps overlay_view (send_target packet_type payload target).
Proof.
  intros d. unfold send_target.
  pose proof (send_keeps_view target.1 packet_type payload None target.2 d) as H.
  by destruct (send_to_peer _ _ _ _ _ d) as [[] ?].
Qed.
#[local] Hint Resolve prepare_keeps_view send_target_keeps_view : keeps.

Lemma select_targets_view now mode packet_type payload d :
  overlay_view (select_targets now mode packet_type payload d).2 = overlay_view d.
Proof. destruct mode; reflexivity. Qed.

Lemma tun_round_keeps_view pr now payload : keeps overlay_view (tun_round pr now payload).
Proof.
  intros d. change (leads (λ s s', overlay_view s' = overlay_view s) (tun_round pr now payload) d).
  unfold tun_round. apply leads_mseq; [typeclasses eauto|apply leads_view, prepare_keeps_view|].
  intros [|mode packet_type packet] d1 _; [done|].
  apply leads_mget. apply leads_mseq; [typeclasses eauto|done|].
  intros allowed d2 [= _ <-]. destruct allowed; simpl; [|done].
  pose proof (select_targets_view now mode packet_type packet d1) as Ht.
  destruct (select_targets now mode packet_type packet d1) as [targets d3].
  apply leads_mseq; [typeclasses eauto|done|]. intros _ d4 _.
  apply leads_view. keeps.
Qed.

Lemma ping_path_keeps_view now n i active seq path :
  keeps overlay_view (ping_path now n i active seq path).
Proof. unfold ping_path. keeps. Qed.
#[local] Hint Resolve ping_path_keeps_view : keeps.

Lemma ping_paths_keeps_view now n i active ps seq :
  keeps overlay_view (ping_paths now n i active ps seq).
Proof. revert seq. induction ps as [|path ps IH]; intros seq; simpl; [done|]. keeps. Qed.
#[local] Hint Resolve ping_paths_keeps_view : keeps.

Lemma ping_peers_keeps_view now ns seq : keeps overlay_view (ping_peers now ns seq).
Proof. revert seq. induction ns as [|n ns IH]; intros seq; simpl; [done|]. keeps; apply IH. Qed.
#[local] Hint Resolve ping_peers_keeps_view : keeps.

Lemma ping_round_keeps_view now seq : keeps overlay_view (ping_round now seq).
Proof.
  unfold ping_round. keeps. revert s. induction l as [|na l IH]; intros s; simpl; [done|].
  by rewrite IH, view_with_paths.
Qed.
End Dataplane.

(** ** The edge *)
Section Edge.
Context `{L : Ipv4NetLib} `{Q : ArrayQueue} `{A : AeadLib} `{P : Etherparse} `{N : IpNetLib}
  `{R : RatelimitLib} `{K : Socket} `{T : TunIo} `{PC : Postcard} `{C : InviteCrypto}
  `{X : Hex} `{W : SnowLib} `{TL : Toml (N:=N)} `{F : Fs} `{HL : HistoryLib} `{PF : Platform}.
Implicit Types e : Edge.

Definition peer_link (s : PeerState) : PeerInfo * bool :=
  (ps_info s, bool_decide (is_Some (ps_cipher s))).
Definition peer_links e : gmap NodeId (PeerInfo * bool) := peer_link <$> e_peers e.

(** Which of the fields that belong to a room are set. *)
Definition room_fields (r : RuntimeState) : list bool :=
  [bool_decide (is_Some (rt_route_cidr r)); bool_decide (is_Some (rt_tun_name r));
   bool_decide (is_Some (rt_virtual_ip r)); rt_route_installed r].

Definition edge_view e :=
  (node_id (settings e), overlay_view (e_dp e), e_room e, peer_links e, room_fields (e_runtime e)).

(** The parts of an edge agree: the room of the dataplane is the edge's, and is entered only
    with a device; both know the same peers, have a cipher for the same ones, and file them
    under their ids, which are not the edge's own; and the runtime shows a room exactly when
    there is one. *)
Record edge_inv e : Prop := {
  ei_room : room_id (e_dp e) = e_room e;
  ei_device : is_Some (e_room e) → is_Some (tun (e_dp e));
  ei_links : links (e_dp e) = peer_links e;
  ei_ids : ∀ n l, peer_links e !! n = Some l →
    peer_node_id l.1 = n ∧ n ≠ node_id (settings e);
  ei_runtime : room_fields (e_runtime e) = replicate 4 (bool_decide (is_Some (e_room e)));
}.

Lemma edge_inv_of_view e e' : edge_view e' = edge_view e → edge_inv e → edge_inv e'.
Proof.
  intros [= H1 H2 H3 H4 H5 H6 H7 H8 H9 H10] [I1 I2 I3 I4 I5]. split.
  - congruence.
  - intros Hr. rewrite H5 in Hr. specialize (I2 Hr).
    apply (bool_decide_unpack (is_Some (tun (e_dp e')))). rewrite H3. by apply bool_decide_pack.
  - congruence.
  - intros n l. rewrite H6, H1. apply I4.
  - unfold room_fields. rewrite H7, H8, H9, H10. rewrite H5. exact I5.
Qed.

Lemma keeps_mcatch {S E B Y} (view : S → Y) (m : M S E B) : keeps view m → keeps view (mcatch m).
Proof. intros Hm s. specialize (Hm s). unfold mcatch. by destruct (m s) as [[] ?]. Qed.

Lemma keeps_zoom_dp {B} (w : DataplaneError → string) (m : DPM B) :
  keeps overlay_view m → keeps edge_view (mzoom e_dp put_dp w m).
Proof.
  intros Hm e. specialize (Hm (e_dp e)). unfold mzoom. destruct (m (e_dp e)) as [r d].
  simpl in *. unfold edge_view. cbn [settings e_dp e_room e_peers e_runtime put_dp].
  unfold peer_links. cbn [e_peers put_dp]. by rewrite Hm.
Qed.

Lemma keeps_on_dp f : (∀ d, overlay_view (f d) = overlay_view d) → keeps edge_view (on_dp f).
Proof.
  intros Hf e. unfold on_dp, mmodify, edge_view, peer_links. cbn. by rewrite Hf.
Qed.

Lemma keeps_on_runtime f :
  (∀ r, room_fields (f r) = room_fields r) → keeps edge_view (on_runtime f).
Proof. intros Hf e. unfold on_runtime, mmodify, edge_view, peer_links. cbn. by rewrite Hf. Qed.

Lemma peer_links_alter id f e :
  (∀ s, peer_link (f s) = peer_link s) → peer_link <$> alter f id (e_peers e) = peer_links e.
Proof.
  intros Hf. unfold peer_links. apply map_eq. intros n. rewrite !lookup_fmap.
  destruct (decide (n = id)) as [->|].
  - rewrite lookup_alter_eq. destruct (e_peers e !! id); simpl; [by rewrite Hf|done].
  - by rewrite lookup_alter_ne.
Qed.

Lemma keeps_on_peer id f : (∀ s, peer_link (f s) = peer_link s) → keeps edge_view (on_peer id f).
Proof.
  intros Hf e. unfold on_peer, mmodify, edge_view, peer_links at 1. cbn.
  by rewrite peer_links_alter.
Qed.

Lemma keeps_send frame addr : keeps edge_view (send frame addr).
Proof. unfold send. keeps. Qed.
Lemma keeps_reply caller r : keeps edge_view (reply_to caller r).
Proof. unfold reply_to. keeps. Qed.
#[local] Hint Resolve keeps_mcatch keeps_send keeps_reply keeps_zoom_dp : keeps.

Lemma keeps_pending_reply w r : keeps edge_view (send_pending_reply w r).
Proof. unfold send_pending_reply. keeps. by destruct w. Qed.

Lemma keeps_last_error x : keeps edge_view (on_runtime (set_last_error x)).
Proof. by apply keeps_on_runtime. Qed.
Lemma keeps_remember os room name invite : keeps edge_view (remember_room os room name invite).
Proof. unfold remember_room. keeps. Qed.
Lemma keeps_count f : keeps edge_view (on_dp (count f)).
Proof. by apply keeps_on_dp. Qed.
Lemma keeps_candidate now n a : keeps edge_view (on_dp (add_peer_candidate now n a)).
Proof. apply keeps_on_dp. intros. apply view_with_paths. Qed.
Lemma keeps_handshake_slot id x : keeps edge_view (on_peer id (set_handshake x)).
Proof. by apply keeps_on_peer. Qed.
#[local] Hint Resolve keeps_pending_reply keeps_last_error keeps_remember keeps_count
  keeps_candidate keeps_handshake_slot : keeps.

Lemma keeps_seen now addr : keeps edge_view (supernode_seen now addr).
Proof. unfold supernode_seen. keeps. by apply keeps_on_runtime. Qed.

Lemma keeps_punch pr now key eph target cands :
  keeps edge_view (punch_request pr now key eph target cands).
Proof. unfold punch_request, failed_handshake. keeps; by apply keeps_on_peer. Qed.

Lemma keeps_handshake_message eph from payload :
  keeps edge_view (handshake_message eph from payload).
Proof. unfold handshake_message, failed_handshake. keeps. Qed.
#[local] Hint Resolve keeps_seen keeps_punch keeps_handshake_message : keeps.

Lemma keeps_create_room name caller : keeps edge_view (create_room name caller).
Proof. unfold create_room. keeps. Qed.
Lemma keeps_join_room invite caller : keeps edge_view (join_room invite caller).
Proof. unfold join_room. keeps. Qed.
Lemma keeps_heartbeat : keeps edge_view heartbeat.
Proof. unfold heartbeat. keeps. Qed.
Lemma keeps_p2p_heartbeat : keeps edge_view p2p_heartbeat.
Proof. unfold p2p_heartbeat. keeps. Qed.

Lemma watch_runtime_fields a b r : room_fields (watch_runtime a b r) = room_fields r.
Proof. unfold watch_runtime. by repeat split_match. Qed.

Lemma keeps_reconnect os : keeps edge_view (reconnect os).
Proof. unfold reconnect. keeps. by apply keeps_on_runtime. Qed.
#[local] Hint Resolve keeps_reconnect : keeps.
Lemma keeps_watchdog os now : keeps edge_view (watchdog os now).
Proof. unfold watchdog. keeps. apply keeps_on_runtime. intros. apply watch_runtime_fields. Qed.
Lemma keeps_mapping_changed os now s : keeps edge_view (mapping_changed os now s).
Proof.
  unfold mapping_changed, apply_port_mapping_snapshot. keeps. by apply keeps_on_runtime.
Qed.
Lemma keeps_burst b : keeps edge_view (burst_round b).
Proof. unfold burst_round. keeps. Qed.
#[local] Hint Resolve keeps_create_room keeps_join_room keeps_heartbeat keeps_p2p_heartbeat
  keeps_watchdog keeps_mapping_changed keeps_burst : keeps.

(** *** Peers *)
Lemma links_upsert q d :
  links (upsert_peer q d) =
    <[peer_node_id (Dataplane.info q) := (Dataplane.info q,
        match links d !! peer_node_id (Dataplane.info q) with
        | Some l => l.2
        | None => bool_decide (is_Some (cipher q))
        end)]> (links d).
Proof.
  unfold upsert_peer, links. rewrite lookup_fmap.
  destruct (peers d !! peer_node_id (Dataplane.info q)) as [q0|] eqn:E;
    cbn [peers Dataplane.put_peers]; by rewrite fmap_insert.
Qed.

Lemma learn_peer_run now supernode peer e :
  edge_inv e → peer_node_id peer ≠ node_id (settings e) →
  ∃ e', learn_peer now supernode peer e = (Ok tt, e') ∧ edge_inv e' ∧ settings e' = settings e.
Proof.
  intros [I1 I2 I3 I4 I5] Hn. eexists.
  split; [unfold learn_peer, mseq, mget, mmodify, on_dp; cbv zeta beta; reflexivity|]. split; [|reflexivity].
  assert (∀ x, peer_links (put_dp x (put_peers (<[peer_node_id peer :=
      match e_peers e !! peer_node_id peer with
      | Some s => mkPeerState peer (ps_candidates s) (ps_direct_addr s) (ps_cipher s)
                    (ps_session_id s) (ps_handshake s) (ps_pending_session_key s)
      | None => build_peer_state peer
      end]> (e_peers e)) e)) = <[peer_node_id peer := (peer,
        match peer_links e !! peer_node_id peer with Some l => l.2 | None => false end)]>
        (peer_links e)) as Hp.
  { intros x. unfold peer_links. cbn [e_peers put_dp put_peers]. rewrite fmap_insert, lookup_fmap.
    by destruct (e_peers e !! peer_node_id peer). }
  split; cbn [e_dp e_room settings e_runtime put_dp put_peers].
  - rewrite <- I1. unfold upsert_peer. by destruct (peers (e_dp e) !! _).
  - intros Hr. specialize (I2 Hr). unfold upsert_peer. by destruct (peers (e_dp e) !! _).
  - rewrite Hp, links_upsert. cbn [Dataplane.info cipher]. by rewrite I3.
  - intros n l. rewrite Hp. destruct (decide (n = peer_node_id peer)) as [->|Hne].
    + rewrite lookup_insert_eq. by intros [= <-].
    + rewrite lookup_insert_ne by done. apply I4.
  - exact I5.
Qed.

Lemma forget_peer_run id e :
  edge_inv e → ∃ e', forget_peer id e = (Ok tt, e') ∧ edge_inv e' ∧ settings e' = settings e.
Proof.
  intros [I1 I2 I3 I4 I5]. eexists.
  split; [unfold forget_peer, mseq, on_dp, mmodify; cbv beta; reflexivity|]. split; [|reflexivity].
  split; cbn [e_dp e_room settings e_runtime put_dp put_peers]; [done|done| | |done].
  - unfold links, peer_links in *. cbn. by rewrite !fmap_delete, I3.
  - intros n l. unfold peer_links. cbn. rewrite fmap_delete.
    intros [_ H]%lookup_delete_Some. by apply I4.
Qed.

Lemma mforeach_inv {B} (f : B → EM unit) (ok : B → Edge → Prop) l e :
  (∀ x e, edge_inv e → ok x e →
     ∃ e', f x e = (Ok tt, e') ∧ edge_inv e' ∧ settings e' = settings e) →
  (∀ x e e', settings e' = settings e → ok x e → ok x e') →
  edge_inv e → Forall (λ x, ok x e) l →
  ∃ e', mforeach f l e = (Ok tt, e') ∧ edge_inv e' ∧ settings e' = settings e.
Proof.
  intros Hf Hok. revert e. induction l as [|x l IH]; intros e He Hl; [by exists e|].
  apply Forall_cons in Hl as [Hx Hl]. destruct (Hf x e He Hx) as (e1 & E1 & H1 & S1).
  destruct (IH e1 H1) as (e2 & E2 & H2 & S2).
  { eapply Forall_impl; [exact Hl|]. intros y. by apply Hok. }
  exists e2. split; [|split; congruence]. simpl. by rewrite (mseq_Ok _ _ _ _ _ E1).
Qed.

Lemma peer_list_run now supernode ps e :
  edge_inv e → ∃ e', peer_list now supernode ps e = (Ok tt, e') ∧ edge_inv e'.
Proof.
  intros He. unfold peer_list. rewrite (mseq_Ok mget _ e e e eq_refl).
  destruct (mforeach_inv (learn_peer now supernode)
    (λ p e, peer_node_id p ≠ node_id (settings e))
    (List.filter (λ p, negb (bool_decide (peer_node_id p = node_id (settings e)))) ps) e)
    as (e1 & E1 & H1 & _).
  - intros p e' He' Hp. by apply learn_peer_run.
  - intros p e1 e2 ->. done.
  - done.
  - apply Forall_forall. intros p Hp%list_elem_of_In%List.filter_In. destruct Hp as [_ Hp].
    by apply negb_true_iff, bool_decide_eq_false in Hp.
  - rewrite (mseq_Ok _ _ _ _ _ E1), (mseq_Ok mget _ e1 e1 e1 eq_refl).
    edestruct (mforeach_inv forget_peer (λ _ _, True)) as (e2 & E2 & H2 & _);
      [intros id e' He' _; by apply forget_peer_run|done|exact H1| |by exists e2].
    by apply Forall_true.
Qed.

(** *** A completed handshake *)
Lemma links_set_direct now n addr c d :
  links (set_direct_path now n addr (Some c) d) =
    alter (λ l, (l.1, true)) n (links d).
Proof.
  unfold links, set_direct_path, with_peer. cbn [peers Dataplane.put_peers]. apply map_eq.
  intros m. rewrite lookup_fmap. destruct (decide (m = n)) as [->|].
  - rewrite !lookup_alter_eq, lookup_fmap. by destruct (peers d !! n).
  - by rewrite !lookup_alter_ne, lookup_fmap.
Qed.

Lemma peer_links_set_direct from addr c e :
  peer_link <$> alter (set_direct addr c) from (e_peers e)
  = alter (λ l, (l.1, true)) from (peer_links e).
Proof.
  unfold peer_links. apply map_eq. intros m. rewrite lookup_fmap.
  destruct (decide (m = from)) as [->|].
  - rewrite !lookup_alter_eq, lookup_fmap. by destruct (e_peers e !! from).
  - by rewrite !lookup_alter_ne, lookup_fmap.
Qed.

Lemma install_inv now from addr c e :
  edge_inv e →
  edge_inv (put_dp (set_direct_path now from addr (Some c) (e_dp e))
              (put_peers (alter (set_direct addr c) from (e_peers e)) e)).
Proof.
  intros [I1 I2 I3 I4 I5]. split; cbn [e_dp e_room settings e_runtime put_dp put_peers];
    [done|done| | |done].
  - rewrite links_set_direct. unfold peer_links at 1. cbn [e_peers put_dp put_peers].
    by rewrite peer_links_set_direct, I3.
  - intros n l. unfold peer_links at 1. cbn [e_peers put_dp put_peers].
    rewrite peer_links_set_direct. destruct (decide (n = from)) as [->|].
    + rewrite lookup_alter_eq. destruct (peer_links e !! from) as [l0|] eqn:E; [|done].
      intros [= <-]. by apply (I4 from l0).
    + rewrite lookup_alter_ne by done. apply I4.
Qed.

Abbreviation inv_leads := (leads (λ s s', edge_inv s → edge_inv s')).

Lemma keeps_inv {B} (m : EM B) e : keeps edge_view m → inv_leads m e.
Proof. intros Hk. exact (edge_inv_of_view _ _ (Hk e)). Qed.

Lemma handshake_inv now eph from payload addr e : inv_leads (handshake now eph from payload addr) e.
Proof.
  unfold handshake. apply leads_mseq; [typeclasses eauto|apply keeps_inv; keeps|].
  intros [[response key] completed] e1 _. apply leads_mget.
  apply leads_mseq; [typeclasses eauto|apply keeps_inv; keeps|]. intros _ e2 _.
  destruct key as [key|], completed, (e_peers e1 !! from) as [peer|]; try exact id.
  destruct (ps_cipher peer); [exact id|].
  apply leads_mseq; [typeclasses eauto|exact id|]. intros c e3 _.
  intros H%(install_inv now from addr c). revert H. apply edge_inv_of_view. by apply keeps_count.
Qed.

(** *** Entering a room *)
Lemma create_device_total os name ip prefix mtu b :
  create_tun_device_with_backend os name ip prefix mtu b ≠ Panic.
Proof.
  unfold create_tun_device_with_backend, new_with_mode, answered.
  destruct (requested_tun_mode b);
    repeat match goal with |- context [os_build os ?n ?m ?a ?p ?u] =>
      destruct (os_build os n m a p u) end; done.
Qed.

Lemma apply_preference_total os requested name : ∃ x, apply_preference os requested name = Ok x.
Proof.
  unfold apply_preference, prefer_virtual_interface, answered.
  destruct (_ && _); [|by eexists]. destruct target_windows; [|by eexists].
  destruct (os_prefer os name); by eexists.
Qed.

(** The route is there, or was there before. *)
Definition route_added os dest name (t t' : RouteTable) : Prop :=
  t' = (t ++ [(dest, name)])%list ∨ (os_route_add os dest name = RouteAlreadyExists ∧ t' = t).

Lemma add_route_run os dest name t :
  ∃ r t', add_route os dest name t = (r, t') ∧
    match r with
    | Ok _ => route_added os dest name t t'
    | Err _ => t' = t
    | Panic => False
    end.
Proof.
  unfold add_route, route_added. destruct (os_no_ifindex os name); [by eexists _, _|].
  destruct (os_route_add os dest name) eqn:E; (eexists _, _; split; [reflexivity|]); simpl; auto.
Qed.

Lemma lan_routes_total os cidrs name t :
  ∃ errors t', add_lan_discovery_routes os cidrs name t = (Ok errors, t').
Proof.
  revert t. induction cidrs as [|cidr cidrs IH]; intros t; simpl; [by eexists _, _|].
  unfold mseq. destruct (net_parse cidr) as [route|]; simpl.
  - destruct (add_route_run os route name t) as (r & t1 & E & Hr). rewrite E.
    destruct r as [[]|err|]; [| |done]; destruct (IH t1) as (errors & t2 & E2); rewrite E2;
      by eexists _, _.
  - destruct (IH t) as (errors & t2 & E2). rewrite E2. by eexists _, _.
Qed.

(** What a failed activation has not touched. *)
Definition untouched e :=
  (settings e, e_room e, e_peers e, e_routes e, room_id (e_dp e), peers (e_dp e),
   room_fields (e_runtime e)).

Lemma inv_untouched e e' :
  untouched e' = untouched e → (is_Some (e_room e) → tun (e_dp e') = tun (e_dp e)) →
  edge_inv e → edge_inv e'.
Proof.
  intros E Ht [I1 I2 I3 I4 I5]. unfold untouched in E. injection E as E1 E2 E3 E4 E6 E7 E8.
  assert (links (e_dp e') = links (e_dp e)) as El by (unfold links; by rewrite E7).
  assert (peer_links e' = peer_links e) as Ep by (unfold peer_links; by rewrite E3).
  split.
  - congruence.
  - rewrite E2. intros Hr. rewrite Ht by done. by apply I2.
  - congruence.
  - intros n l. rewrite Ep, E1. apply I4.
  - rewrite E2, <- I5. unfold room_fields. rewrite E8. congruence.
Qed.

(** The device of the room: the one there was, or a new one. *)
Lemma room_device_run os ip e :
  ∃ r e', room_device os ip e = (r, e') ∧
    match r with
    | Ok (device, created) =>
        tun (e_dp e') = Some device ∧ untouched e' = untouched e ∧
        (if created : bool then tun (e_dp e) = None else e' = e)
    | Err _ => e' = e
    | Panic => False
    end.
Proof.
  unfold room_device. rewrite (mseq_Ok mget _ e e e eq_refl).
  destruct (tun (e_dp e)) as [device|] eqn:Et.
  { eexists (Ok _), e. split; [reflexivity|]. by split_and!. }
  set (made := create_tun_device_with_backend _ _ _ _ _ _).
  pose proof (create_device_total os (tun_name (settings e)) (VirtualIp_to_string ip) 24
    (tun_mtu (settings e)) (backend (settings e))) as Hmade. fold made in Hmade.
  destruct made as [[[device degraded] warning]|err|]; [| |done].
  - eexists (Ok (device, true)), _.
    split; [unfold mseq, mlift, on_dp, on_runtime, mmodify, mreturn; reflexivity|].
    cbn. by split_and!.
  - by eexists (Err err), e.
Qed.

(** What an activation leaves in the runtime, the device and the routes. *)
Record entered os room ip cidr e e' : Prop := {
  en_before : e_room e = None ∨ e_room e = Some room;
  en_room : e_room e' = Some room;
  en_same : e_peers e' = e_peers e ∧ settings e' = settings e;
  en_device : ∃ device name network t,
    tun (e_dp e') = Some device ∧ (∀ d, tun (e_dp e) = Some d → device = d) ∧
    tun_if_name device = Some name ∧ net_parse cidr = Some network ∧
    rt_tun_name (e_runtime e') = Some name ∧ route_added os network name (e_routes e) t ∧
    e_routes e' = (add_lan_discovery_routes os (route_cidrs (discovery (e_dp e'))) name t).2;
  en_runtime : rt_route_cidr (e_runtime e') = Some cidr ∧
    rt_virtual_ip (e_runtime e') = Some (VirtualIp_to_string ip) ∧
    rt_route_installed (e_runtime e') = true;
}.

Lemma finish_inv os room ip cidr e e1 device name network t f :
  edge_inv e → e_room e = None ∨ e_room e = Some room →
  tun (e_dp e1) = Some device → untouched e1 = untouched e →
  (∀ d, tun (e_dp e) = Some d → device = d) →
  tun_if_name device = Some name → net_parse cidr = Some network →
  route_added os network name (e_routes e) t →
  rt_route_cidr (f (e_runtime e1)) = Some cidr → rt_tun_name (f (e_runtime e1)) = Some name →
  rt_virtual_ip (f (e_runtime e1)) = Some (VirtualIp_to_string ip) →
  rt_route_installed (f (e_runtime e1)) = true →
  let e2 := put_runtime (f (e_runtime e1))
    (put_dp (set_room_id (Some room) (e_dp e1)) (put_room (Some room) (put_routes
      (add_lan_discovery_routes os (route_cidrs (discovery (e_dp e1))) name t).2 e1))) in
  edge_inv e2 ∧ entered os room ip cidr e e2.
Proof.
  intros [I1 I2 I3 I4 I5] Hr Ht Hu Hd Hn Hnet Hadd Hf1 Hf2 Hf3 Hf4 e2. subst e2.
  unfold untouched in Hu. injection Hu as U1 U2 U3 U4 U6 U7 U8 U9 U10 U11. split.
  - split; cbn [e_dp e_room settings e_runtime put_dp put_room put_routes put_runtime]; [done| | | |].
    + intros _. cbn. by rewrite Ht.
    + unfold links, peer_links in *. cbn. by rewrite U7, U3.
    + intros n l. unfold peer_links in *. cbn. rewrite U3, U1. apply I4.
    + unfold room_fields. by rewrite Hf1, Hf2, Hf3, Hf4.
  - split; cbn; [done|done|by split_and!| |by split_and!].
    exists device, name, network, t. by split_and!.
Qed.

Lemma activate_run os room ip cidr e :
  edge_inv e →
  ∃ r e', activate_room os room ip cidr e = (r, e') ∧ edge_inv e' ∧
    match r with
    | Ok _ => entered os room ip cidr e e'
    | Err _ => untouched e' = untouched e ∧
        (tun (e_dp e') = tun (e_dp e) ∨ tun (e_dp e) = None)
    | Panic => False
    end.
Proof.
  intros He. unfold activate_room. rewrite (mseq_Ok mget _ e e e eq_refl).
  destruct (decide (e_room e = None ∨ e_room e = Some room)) as [Hr|Hr].
  2: { destruct (e_room e) as [active|] eqn:Ea; [|tauto].
       rewrite bool_decide_eq_false_2 by (intros ->; tauto). cbn.
       eexists (Err _), e. split; [reflexivity|]. split; [done|]. split; [done|by left]. }
  match goal with |- context [mseq ?m _ e] => assert (m e = (Ok tt, e)) as Hg end.
  { destruct (e_room e); [|done]. by rewrite bool_decide_eq_true_2 by naive_solver. }
  rewrite (mseq_Ok _ _ _ _ _ Hg). clear Hg.
  destruct (room_device_run os ip e) as (r & e1 & E1 & Hd). 
  destruct r as [[device created]|err|]; [| |done].
  2: { unfold mseq at 1. rewrite E1. subst e1. eexists (Err err), e. split; [reflexivity|].
       split; [done|]. split; [done|by left]. }
  rewrite (mseq_Ok _ _ _ _ _ E1). destruct Hd as (Ht & Hu & Hc).
  assert (Hinv1 : edge_inv e1).
  { eapply inv_untouched; [exact Hu| |done]. intros Hs. destruct created; [|by subst e1].
    apply (ei_device e He) in Hs. rewrite Hc in Hs. by destruct Hs. }
  assert (Hdev : ∀ d, tun (e_dp e) = Some d → device = d).
  { intros d Hd. destruct created; [congruence|]. subst e1. congruence. }
  assert (Hleft : tun (e_dp e1) = tun (e_dp e) ∨ tun (e_dp e) = None).
  { destruct created; [by right|left; by subst e1]. }
  destruct (tun_if_name device) as [name|] eqn:Hname; cbn [ok_or]; cycle 1.
  { eexists (Err _), e1. by split; [reflexivity|]. }
  rewrite (mseq_Ok (mlift (Ok name)) _ e1 name e1 eq_refl).
  destruct (apply_preference_total os (Config.prefer_virtual_interface (virtual_lan (settings e))) name)
    as ([applied perr] & Hp).
  rewrite Hp, (mseq_Ok (mlift (Ok (applied, perr))) _ e1 _ e1 eq_refl).
  destruct (net_parse cidr) as [network|] eqn:Hnet; cbn [ok_or]; cycle 1.
  { eexists (Err _), e1. by split; [reflexivity|]. }
  rewrite (mseq_Ok (mlift (Ok network)) _ e1 network e1 eq_refl).
  destruct (add_route_run os network name (e_routes e1)) as (r & t & Eadd & Hadd).
  assert (mcatch (on_routes (add_route os network name)) e1 =
    (match r with Panic => Panic | r => Ok r end, put_routes t e1)) as Hm.
  { unfold mcatch, on_routes, mzoom. rewrite Eadd. by destruct r as [[]| |]. }
  destruct r as [[]|err|]; [| |done]; rewrite (mseq_Ok _ _ _ _ _ Hm); clear Hm.
  - destruct (lan_routes_total os (route_cidrs (discovery (e_dp e1))) name t) as (errors & t' & El).
    assert (e_routes e1 = e_routes e) as Er by (unfold untouched in Hu; congruence).
    rewrite Er in Hadd.
    destruct (finish_inv os room ip cidr e e1 device name network t
      (set_active (VirtualIp_to_string ip) cidr name errors (backend (settings e1))
         (tun_mode device) (tun_effective_mtu device)
         (Config.prefer_virtual_interface (virtual_lan (settings e)))
         virtual_interface_preference_supported applied perr)
      He Hr Ht Hu Hdev Hname Hnet Hadd eq_refl eq_refl eq_refl eq_refl) as [G1 G2].
    rewrite El in G1, G2. eexists (Ok tt), _. split; [|split; [exact G1|exact G2]].
    rewrite (mseq_Ok mget _ _ _ _ eq_refl). cbn [e_dp put_routes].
    assert (on_routes (add_lan_discovery_routes os (route_cidrs (discovery (e_dp e1))) name)
      (put_routes t e1) = (Ok errors, put_routes t' (put_routes t e1))) as Hl.
    { unfold on_routes, mzoom. cbn [e_routes put_routes]. by rewrite El. }
    rewrite (mseq_Ok _ _ _ _ _ Hl). reflexivity.
  - subst t. destruct created; cbn [mwhen].
    + eexists (Err err), _. split; [reflexivity|].
      assert (untouched (put_dp (set_tun None (e_dp (put_routes (e_routes e1) e1)))
        (put_routes (e_routes e1) e1)) = untouched e) as Hu' by exact Hu.
      split; [|split; [exact Hu'|by right]].
      eapply inv_untouched; [exact Hu'| |done]. intros Hs.
      apply (ei_device e He) in Hs. rewrite Hc in Hs. by destruct Hs.
    + eexists (Err err), _. split; [reflexivity|].
      assert (untouched (put_routes (e_routes e1) e1) = untouched e) as Hu' by exact Hu.
      split; [|split; [exact Hu'|exact Hleft]].
      eapply inv_untouched; [exact Hu'| |done]. intros Hs. cbn. by subst e1.
Qed.
End Edge.

#[export] Hint Resolve send_keeps_view write_tun_keeps_view validate_keeps_view pong_keeps_view
  deliver_keeps_view prepare_keeps_view send_target_keeps_view ping_path_keeps_view
  ping_paths_keeps_view ping_peers_keeps_view incoming_keeps_view : keeps.
#[export] Hint Resolve keeps_mcatch keeps_send keeps_reply keeps_zoom_dp keeps_pending_reply
  keeps_last_error keeps_remember keeps_count keeps_candidate keeps_handshake_slot keeps_seen
  keeps_punch keeps_handshake_message keeps_reconnect keeps_create_room keeps_join_room
  keeps_heartbeat keeps_p2p_heartbeat keeps_watchdog keeps_mapping_changed keeps_burst : keeps.
