(* ===== verification/EdgeInv.v ===== *)
(** The parts of an edge agree in every state it reaches. *)
From Stdlib Require Import ZArith Lia.
From stdpp Require Import base tactics numbers list gmap strings relations.
From S2P Require Import Prelude Bytes Net Text AddrText Common Proto Sorting Slab Etherparse.
From S2P Require Import Qos Crypto Noise Policy Rendezvous Discovery F32 Path Observability.
From S2P Require Import Transport Flood MacTable Dataplane Config Nat EdgeCore Edge EdgeFacts.
Local Open Scope Z_scope.
Local Open Scope string_scope.

Section Inv.
Context `{L : Ipv4NetLib} `{Q : ArrayQueue} `{A : AeadLib} `{P : Etherparse} `{N : IpNetLib}
  `{R : RatelimitLib} `{K : Socket} `{T : TunIo} `{PC : Postcard} `{C : InviteCrypto}
  `{X : Hex} `{W : SnowLib} `{TL : Toml (N:=N)} `{F : Fs} `{HL : HistoryLib} `{PF : Platform}.
Implicit Types e : Edge.
Abbreviation inv_leads := (leads (λ s s', edge_inv s → edge_inv s')).

(** *** Leaving *)
Lemma mignore_run {S E B} (m : M S E B) s r s' :
  m s = (r, s') → r ≠ Panic → mignore m s = (Ok tt, s').
Proof. intros H Hr. unfold mignore. rewrite H. by destruct r. Qed.

Lemma remove_route_run os dest name t :
  ∃ r t', remove_route os dest name t = (r, t') ∧ r ≠ Panic.
Proof.
  unfold remove_route. destruct (os_no_ifindex os name); [by eexists _, _|].
  destruct (os_route_delete os dest name); by eexists _, _.
Qed.

Lemma remove_lan_total os cidrs name t :
  ∃ t', remove_lan_discovery_routes os cidrs name t = (Ok tt, t').
Proof.
  unfold remove_lan_discovery_routes. revert t.
  induction cidrs as [|cidr cidrs IH]; intros t; simpl; [by eexists|].
  destruct (net_parse cidr) as [route|]; [|apply IH].
  destruct (remove_route_run os route name t) as (r & t1 & E & Hr).
  rewrite (mseq_Ok _ _ _ _ _ (mignore_run _ _ _ _ E Hr)). apply IH.
Qed.

(** What is left when a room is left. *)
Record left_room e e' : Prop := {
  lr_room : e_room e' = None;
  lr_device : tun (e_dp e') = None ∧ room_id (e_dp e') = None;
  lr_peers : peers (e_dp e') = ∅ ∧ mac_table (e_dp e') = ∅;
  lr_runtime : room_fields (e_runtime e') = replicate 4 false;
  lr_kept : settings e' = settings e ∧ e_replies e' = e_replies e ∧ (∀ w, pending w e' = pending w e)
    ∧ e_supernode e' = e_supernode e;
}.

Lemma deactivate_run os e :
  ∃ e', deactivate_room os e = (Ok tt, e') ∧ left_room e e' ∧ e_peers e' = e_peers e ∧
    e_invite e' = e_invite e.
Proof.
  unfold deactivate_room. rewrite (mseq_Ok mget _ e e e eq_refl).
  match goal with |- context [mseq ?m _ e] =>
    assert (∃ t, m e = (Ok tt, put_routes t e)) as [t Ht] end.
  { destruct (rt_route_cidr (e_runtime e)) as [cidr|]; [|exists (e_routes e); by destruct e].
    destruct (rt_tun_name (e_runtime e)) as [name|]; [|exists (e_routes e); by destruct e].
    destruct (net_parse cidr) as [network|].
    - destruct (remove_route_run os network name (e_routes e)) as (r & t & E & Hr).
      assert (on_routes (remove_route os network name) e = (r, put_routes t e)) as E'.
      { unfold on_routes, mzoom. rewrite E. by destruct r. }
      rewrite (mseq_Ok _ _ _ _ _ (mignore_run _ _ _ _ E' Hr)).
      destruct (remove_lan_total os (route_cidrs (discovery (e_dp e))) name t) as [t' Ht].
      exists t'. unfold on_routes, mzoom. cbn. by rewrite Ht.
    - destruct (remove_lan_total os (route_cidrs (discovery (e_dp e))) name (e_routes e)) as [t' Ht].
      exists t'. unfold on_routes, mzoom, mseq. cbn. by rewrite Ht. }
  rewrite (mseq_Ok _ _ _ _ _ Ht). eexists.
  split; [unfold mseq, mmodify, on_dp, on_runtime; cbv beta; reflexivity|].
  split; [split; try done; split_and!; try done; by intros []|done].
Qed.

Lemma left_inv e e' : left_room e e' → e_peers e' = ∅ → edge_inv e'.
Proof.
  intros [H1 [H2 H3] [H4 _] H5 _] H6. split.
  - congruence.
  - rewrite H1. by intros [].
  - unfold links, peer_links. rewrite H4, H6. by rewrite !fmap_empty.
  - intros n l. unfold peer_links. by rewrite H6, fmap_empty, lookup_empty.
  - by rewrite H1, H5.
Qed.

Lemma put_transport_id e : put_transport (transport (e_dp e)) e = e.
Proof. destruct e as [? []]. done. Qed.

Lemma send_run frame addr e :
  ∃ r t, send frame addr e = (r, put_transport t e) ∧ r ≠ Panic.
Proof.
  unfold send, mzoom, send_control, send_to, mseq, mget, mlift, mreturn.
  destruct (check_family _ addr); [destruct (to_stdvec frame)|]; simpl;
    [|eexists _, (transport (e_dp e)); by rewrite put_transport_id..].
  match goal with |- context [socket_send ?n ?d ?a] => destruct (socket_send n d a) end; simpl;
    [by eexists _, _|eexists _, (transport (e_dp e)); by rewrite put_transport_id].
Qed.

Lemma quit_run os always e :
  ∃ e', quit_room os always e = (Ok tt, e') ∧ left_room e e' ∧ e_peers e' = ∅ ∧ e_invite e' = None.
Proof.
  unfold quit_room. rewrite (mseq_Ok mget _ e e e eq_refl).
  set (room := default no_room (e_room e)).
  rewrite (mseq_Ok (mmodify (put_invite None)) _ e tt (put_invite None e) eq_refl).
  match goal with |- context [mseq (mwhen ?b ?m) _ ?s] =>
    assert (∃ t, mwhen b m s = (Ok tt, put_transport t s)) as [t Ht] end.
  { destruct (_ || _)%bool; cbn [mwhen].
    - destruct (send_run (LeaveRoom room) (e_supernode e) (put_invite None e)) as (r & t & E & Hr).
      exists t. exact (mignore_run _ _ _ _ E Hr).
    - eexists. by rewrite put_transport_id. }
  rewrite (mseq_Ok _ _ _ _ _ Ht), (mseq_Ok (mmodify (put_peers ∅)) _ _ tt _ eq_refl).
  match goal with |- context [deactivate_room os ?s] =>
    destruct (deactivate_run os s) as (e' & E & Hl & Hp & Hi) end.
  exists e'. split; [exact E|]. split; [|split; [exact Hp|exact Hi]].
  destruct Hl as [H1 H2 H3 H4 (H5 & H6 & H7 & H8)]. by split.
Qed.

Lemma quit_inv os always e e' : quit_room os always e = (Ok tt, e') → edge_inv e'.
Proof.
  intros E. destruct (quit_run os always e) as (e1 & E1 & Hl & Hp & _).
  rewrite E in E1. injection E1 as <-. by apply (left_inv e).
Qed.

(** *** Handlers *)
Lemma entered_room_inv w os verb room ip cidr k e :
  (∀ e, inv_leads k e) → inv_leads (entered_room w os verb room ip cidr k) e.
Proof.
  intros Hk. unfold entered_room. apply leads_mseq; [typeclasses eauto| |].
  - intros He. destruct (activate_run os room ip cidr e He) as (r & e' & E & He' & _).
    unfold mcatch. rewrite E. by destruct r.
  - intros [| err |] e' _; [apply Hk| |apply Hk]. apply keeps_inv. keeps.
Qed.

Lemma peer_inv now supernode peer e :
  peer_node_id peer ≠ node_id (settings e) → inv_leads (learn_peer now supernode peer) e.
Proof.
  intros Hne He. destruct (learn_peer_run now supernode peer e He Hne) as (e' & E & He' & _).
  by rewrite E.
Qed.

Lemma forget_inv id e : inv_leads (forget_peer id) e.
Proof. intros He. destruct (forget_peer_run id e He) as (e' & E & He' & _). by rewrite E. Qed.

Lemma control_inv pr os now draw supernode frame addr e :
  inv_leads (handle_control pr os now draw supernode frame addr) e.
Proof.
  destruct frame; simpl; try (apply keeps_inv; keeps; fail).
  - apply entered_room_inv. intros e1. apply keeps_inv. keeps.
  - apply entered_room_inv. intros e1. apply keeps_inv. keeps.
  - intros He. destruct (peer_list_run now supernode peers e He) as (e' & E & He'). by rewrite E.
  - destruct action; first [apply forget_inv
      |apply leads_mget; case_bool_decide; [exact id|by apply peer_inv]].
  - apply handshake_inv.
Qed.

Lemma udp_inv pr os now draw buf len from e : inv_leads (udp_round pr os now draw buf len from) e.
Proof.
  unfold udp_round. destruct (recv_packet buf len from) as [[packet addr]| |]; [|exact id..].
  apply leads_mget. apply leads_mseq; [typeclasses eauto|apply keeps_inv; keeps|]. intros _ e1 _.
  destruct packet as [frame|[header [first last]]]; [apply control_inv|].
  apply keeps_inv. keeps.
Qed.

Lemma command_inv os path fresh cmd caller e :
  inv_leads (handle_command os path fresh cmd caller) e.
Proof.
  destruct cmd; simpl; try (apply keeps_inv; keeps; fail).
  - apply leads_mseq; [typeclasses eauto| |intros; apply keeps_inv; keeps].
    intros _. destruct (quit_run os true e) as (e' & E & _). rewrite E. by apply (quit_inv os true e).
  - apply leads_mseq; [typeclasses eauto| |intros; apply keeps_inv; keeps].
    intros _. destruct (quit_run os false e) as (e' & E & _). rewrite E. by apply (quit_inv os false e).
  - unfold switch_supernode. apply leads_mseq; [typeclasses eauto| |].
    + intros _. destruct (quit_run os false e) as (e' & E & _). rewrite E.
      by apply (quit_inv os false e).
    + intros _ e1 _. apply keeps_inv. keeps. by apply keeps_on_runtime.
Qed.

Lemma step_inv pr e e' : edge_step pr e e' → edge_inv e → edge_inv e'.
Proof.
  intros Hs.
  assert (∀ B (m : EM B) r e1 e2, inv_leads m e1 → m e1 = (r, e2) → edge_inv e1 → edge_inv e2)
    as Hlead by (unfold leads; intros B m r e1 e2 H E; by rewrite E in H).
  destruct Hs as [e e' Hs|e os path fresh cmd caller r e' _ _ _ E _];
    [|exact (Hlead _ _ _ _ _ (command_inv os path fresh cmd caller e) E)].
  destruct Hs as [e os now draw buf len from e' _ E|e r e' _ E _|e os now e' _ E|e os now s e' _ E
    |e l b k b' e' _ _ E|e now payload r dp _ E _|e now seq r dp _ E _].
  - exact (Hlead _ _ _ _ _ (udp_inv pr os now draw buf len from e) E).
  - destruct E as [E|E]; [exact (Hlead _ _ _ _ _ (keeps_inv _ e keeps_heartbeat) E)
      |exact (Hlead _ _ _ _ _ (keeps_inv _ e keeps_p2p_heartbeat) E)].
  - exact (Hlead _ _ _ _ _ (keeps_inv _ e (keeps_watchdog os now)) E).
  - exact (Hlead _ _ _ _ _ (keeps_inv _ e (keeps_mapping_changed os now s)) E).
  - intros He. apply (edge_inv_of_view e'); [done|].
    exact (Hlead _ _ _ _ _ (keeps_inv _ e (keeps_burst b)) E He).
  - pose proof (tun_round_keeps_view pr now payload (e_dp e)) as H. rewrite E in H. simpl in H.
    apply edge_inv_of_view. unfold edge_view, peer_links. cbn. by rewrite H.
  - pose proof (ping_round_keeps_view now seq (e_dp e)) as H. rewrite E in H. simpl in H.
    apply edge_inv_of_view. unfold edge_view, peer_links. cbn. by rewrite H.
Qed.

(** The state [run] starts its loops with. *)
Lemma start_run os now mapping collected i history config e :
  run_start os now mapping collected i history config = Ok e →
  ∃ dp fp base adv frame,
    Dataplane.new (node_id (init_settings i)) (init_transport i) (init_tun i) (init_discovery i)
      Observability.new (Edge.tun_mtu (init_settings i)) = Ok dp ∧
    mseq (apply_port_mapping_snapshot now mapping) (λ _, send frame (init_supernode i))
      (initial_edge i (Dataplane.start (set_traffic_policy (init_policy i) dp)) fp base adv now history config)
    = (Ok tt, e).
Proof.
  unfold run_start. intros H. apply bind_Ok in H as (dp & Edp & H). apply lift_Ok in Edp.
  destruct (match collected with Some (Ok r) => r | _ => _ end) as [fp base].
  match type of H with match ?m with _ => _ end = _ => destruct m as [[[]|err|] e'] eqn:E end;
    [|done..].
  injection H as <-. by eexists dp, fp, base, _, _.
Qed.

Lemma start_inv os now mapping collected i history config e :
  run_start os now mapping collected i history config = Ok e → edge_inv e ∧ e_room e = None.
Proof.
  intros (dp & fp & base & adv & frame & Edp & E)%start_run.
  unfold Dataplane.new in Edp. apply bind_Ok in Edp as (slab & _ & [= <-]).
  match type of E with mseq ?m ?f ?e0 = _ =>
    assert (keeps edge_view (mseq m f)) as Hk by
      (unfold apply_port_mapping_snapshot; keeps; by apply keeps_on_runtime);
    specialize (Hk e0); rewrite E in Hk; cbn [snd] in Hk; set (e0' := e0) in * end.
  assert (edge_inv e0') as H0.
  { split; cbn; [done|by intros []| |done|done]. unfold links, peer_links. cbn. by rewrite !fmap_empty. }
  split; [by apply (edge_inv_of_view e0')|]. by injection Hk.
Qed.

Lemma reachable_inv pr e : edge_reachable pr e → edge_inv e.
Proof.
  intros (os & now & mapping & collected & i & history & config & e0 & E0 & Hs).
  apply start_inv in E0 as [E0 _]. induction Hs as [|e0 e1 e2 H1 _ IH]; [done|].
  apply IH. by apply (step_inv pr e0).
Qed.

(** C14: the parts of an edge never disagree.  In every state an edge can reach, whatever
    frames arrive, commands are given, and answers the system gives, the dataplane is in the
    room the edge is in, and in none without a device; the edge and the dataplane know the
    same peers, with the same description, under their own ids, never the edge itself, and
    have a cipher for the same ones; and a virtual address, an interface, a route and its
    CIDR are shown exactly when the edge is in a room. *)
Theorem edge_consistent pr e : edge_reachable pr e → edge_inv e.
Proof. apply reachable_inv. Qed.
End Inv.
