(* ===== verification/Json.v ===== *)
(** [serde_json::Value] as the IPC server and the client use it: the accessors, and the
    encodings [serde] derives for the types that are sent. *)
From Stdlib Require Import ZArith Lia.
From stdpp Require Import base tactics numbers list strings.
From S2P Require Import Prelude Bytes Net Text Common F32 Policy Observability MacTable.
Local Open Scope Z_scope.
Local Open Scope string_scope.

(** The keys of an object are those of a map: one value for each. *)
Inductive Json :=
| JNull
| JBool (b : bool)
| JInt (z : Z)
| JFloat (x : f32)
| JString (s : string)
| JArray (l : list Json)
| JObject (fields : list (string * Json)).

(** The text of a value, on one line, and its reader. *)
Class JsonText := {
  json_to_string : Json → string;
  json_from_str : string → string + Json;
}.

(** [value.get(key)] *)
Definition json_get (v : Json) (key : string) : option Json :=
  match v with
  | JObject fields => snd <$> List.find (λ kv, bool_decide (kv.1 = key)) fields
  | _ => None
  end.
(** [value[key]]: null when there is none. *)
Definition json_index (v : Json) (key : string) : Json := default JNull (json_get v key).

Definition as_str (v : Json) : option string :=
  match v with JString s => Some s | _ => None end.
Definition as_bool (v : Json) : option bool :=
  match v with JBool b => Some b | _ => None end.
Definition as_u64 (v : Json) : option Z :=
  match v with JInt z => if bool_decide (0 ≤ z < 2 ^ 64) then Some z else None | _ => None end.
Definition as_array (v : Json) : option (list Json) :=
  match v with JArray l => Some l | _ => None end.

(** ** Encodings *)
Definition opt_json {A} (f : A → Json) (o : option A) : Json :=
  match o with Some a => f a | None => JNull end.
Definition strings_json (l : list string) : Json := JArray (JString <$> l).
(** A tuple struct of one array is that array. *)
Definition node_json (n : NodeId) : Json := JArray (JInt <$> node_bytes n).

Definition action_json (a : TrafficAction) : Json :=
  JString match a with Allow => "allow" | Deny => "deny" end.
Definition direction_json (d : TrafficDirection) : Json :=
  JString match d with Inbound => "inbound" | Outbound => "outbound" | Both => "both" end.
Definition protocol_json (p : TrafficProtocol) : Json :=
  JString match p with
          | AnyProtocol => "any" | Tcp => "tcp" | Udp => "udp" | Icmp => "icmp"
          end.
Definition range_json (r : PortRange) : Json :=
  JObject [("start", JInt (range_start r)); ("end", JInt (range_end r))].

(** The printed form of a network, and what reads a rule. *)
Class RuleSerde `{N : IpNetLib} := {
  ipnet_to_string : IpNet → string;
  rule_from_value : Json → string + TrafficRule;
}.

Section Serde.
Context `{N : IpNetLib} `{S : RuleSerde (N:=N)}.

Definition rule_json (r : TrafficRule) : Json :=
  JObject [("id", JString (rule_id r)); ("enabled", JBool (rule_enabled r));
    ("action", action_json (rule_action r)); ("direction", direction_json (rule_direction r));
    ("src_cidr", opt_json (λ n, JString (ipnet_to_string n)) (rule_src_cidr r));
    ("dst_cidr", opt_json (λ n, JString (ipnet_to_string n)) (rule_dst_cidr r));
    ("protocol", protocol_json (rule_protocol r));
    ("src_ports", JArray (range_json <$> rule_src_ports r));
    ("dst_ports", JArray (range_json <$> rule_dst_ports r));
    ("description", opt_json JString (rule_description r))].
Definition policy_json (p : TrafficPolicy) : Json :=
  JObject [("enabled", JBool (policy_enabled p)); ("default_action", action_json (default_action p));
    ("rules", JArray (rule_json <$> rules p))].

(** What the derived reader promises: it reads what the derived writer prints. *)
Class RuleSerdeLaws : Prop := {
  rule_roundtrip : ∀ r, rule_from_value (rule_json r) = inr r;
}.
End Serde.

Definition path_json (p : PathKind) : Json :=
  JString match p with Direct => "Direct" | Relay => "Relay" end.
Definition peer_metrics_json (m : PeerPathMetrics) : Json :=
  JObject [("peer", node_json (pp_peer m)); ("path", path_json (pp_path m));
    ("last_rtt_ms", opt_json JInt (pp_last_rtt_ms m)); ("relay_hits", JInt (pp_relay_hits m));
    ("direct_hits", JInt (pp_direct_hits m));
    ("handshake_successes", JInt (pp_handshake_successes m));
    ("handshake_failures", JInt (pp_handshake_failures m));
    ("packet_drops", JInt (pp_packet_drops m));
    ("packet_loss_rate", JFloat (packet_loss_rate m))].
Definition metrics_json (m : MetricsSnapshot) : Json :=
  JObject [("handshake_successes", JInt (s_handshake_successes m));
    ("handshake_failures", JInt (s_handshake_failures m));
    ("relay_packets", JInt (s_relay_packets m)); ("direct_packets", JInt (s_direct_packets m));
    ("packet_drops", JInt (s_packet_drops m));
    ("broadcast_packets", JInt (s_broadcast_packets m));
    ("multicast_packets", JInt (s_multicast_packets m));
    ("l2_flood_packets", JInt (s_l2_flood_packets m));
    ("port_mapping_acquired", JBool (port_mapping_acquired m));
    ("port_mapping_protocol", opt_json JString (port_mapping_protocol m));
    ("port_mapping_external_addr", opt_json JString (port_mapping_external_addr m));
    ("port_mapping_lease_remaining_secs", opt_json JInt (port_mapping_lease_remaining_secs m));
    ("peers", JArray (peer_metrics_json <$> s_peers m))].

Definition l2_entry_json (x : L2TableEntry) : Json :=
  JObject [("mac", JString (l2_mac x)); ("node_id", node_json (l2_node_id x));
    ("learned_for_secs", JInt (learned_for_secs x)); ("idle_for_secs", JInt (idle_for_secs x))].
