(* ===== verification/Ipc.v ===== *)
(** The IPC server of an edge: crates/r2n-edge-lib/src/ipc.rs.

    A request is one line of JSON.  It is answered at once, or is a command for the command
    loop of the edge whose answer is awaited, or is not answered at all.  The build for
    Android, which also registers a device, is in Android.v. *)
From Stdlib Require Import ZArith Lia.
From stdpp Require Import base tactics numbers list gmap strings pretty.
From S2P Require Import Prelude Bytes Net Text AddrText Common Proto Sorting Slab Etherparse.
From S2P Require Import Qos Crypto Noise Policy Rendezvous Discovery F32 Path Observability.
From S2P Require Import Transport Flood MacTable Dataplane Config Nat EdgeCore Edge Json.
Local Open Scope Z_scope.
Local Open Scope string_scope.

Inductive Reaction :=
| Answer (v : Json)
| Await (cmd : EdgeCommand)
| NoAnswer.

Definition error_json (text : string) : Json :=
  JObject [("status", JString "error"); ("error", JString text)].
Definition ok_json (fields : list (string * Json)) : Json :=
  JObject (("status", JString "ok") :: fields).
Definition ok_message (text : string) : Json := ok_json [("message", JString text)].

(** The [json!] values the command loop and the control frames answer with. *)
Definition value_json (v : Value) : Json :=
  match v with
  | VCreated room_id assigned_ip virtual_cidr invite_code =>
      ok_json [("room_id", JString room_id); ("assigned_ip", JString assigned_ip);
        ("virtual_cidr", JString virtual_cidr); ("invite_code", JString invite_code)]
  | VJoined room_id assigned_ip virtual_cidr =>
      ok_json [("room_id", JString room_id); ("assigned_ip", JString assigned_ip);
        ("virtual_cidr", JString virtual_cidr)]
  | VLeft => ok_message "left room"
  | VStopping => ok_message "Daemon shutting down..."
  | VRooms rooms => ok_json [("rooms", JArray ((λ '(id, name, count),
      JObject [("room_id", JString id); ("name", JString name);
        ("member_count", JInt (Z.of_nat count))]) <$> rooms))]
  | VSwitched addr => ok_message ("Successfully switched supernode to " +:+ show_addr addr)
  end.

(** What came over the channel within 35 seconds: nothing, its end, or the answer. *)
Inductive CommandReply := ReplyTimeout | ReplyClosed | Replied (r : result Value).
Definition wait_for_command_reply (r : CommandReply) : Json :=
  match r with
  | Replied (Ok response) => value_json response
  | Replied (Err err) => error_json err
  | Replied Panic | ReplyClosed => error_json "daemon command channel closed"
  | ReplyTimeout => error_json "daemon command timed out"
  end.

Definition text_of (msg : Json) (key default_text : string) : string :=
  default default_text (as_str (json_index msg key)).
Definition str_json (o : option string) : Json := JString (default "" o).

Section Ipc.
Context `{L : Ipv4NetLib} `{Q : ArrayQueue} `{A : AeadLib} `{P : Etherparse} `{N : IpNetLib}
  `{R : RatelimitLib} `{K : Socket} `{T : TunIo} `{PC : Postcard} `{C : InviteCrypto}
  `{X : Hex} `{W : SnowLib} `{TL : Toml (N:=N)} `{F : Fs} `{HL : HistoryLib} `{PF : Platform}
  `{RS : RuleSerde (N:=N)}.
Implicit Types e : Edge.

(** ** The history *)
Definition history_item_json (i : HistoryItem) : Json :=
  JObject [("room_id", JString (hi_room_id i)); ("name", JString (hi_name i));
    ("invite_code", JString (hi_invite_code i)); ("last_joined", JInt (hi_last_joined i))].

Definition delete_history (room_id : string) (file : option string) : bool * option string :=
  let history := load_history file in
  let kept := List.filter (λ i, negb (bool_decide (hi_room_id i = room_id))) history in
  if bool_decide (length kept < length history)%nat then (true, save_history kept file)
  else (false, file).

(** The name of the first entry of the room is changed. *)
Fixpoint rename_first (room_id name : string) (l : list HistoryItem) : option (list HistoryItem) :=
  match l with
  | [] => None
  | i :: l =>
      if bool_decide (hi_room_id i = room_id)
      then Some (mkHistory (hi_room_id i) name (hi_invite_code i) (hi_last_joined i) :: l)
      else (i ::.) <$> rename_first room_id name l
  end.
Definition update_history_name (room_id name : string) (file : option string)
    : bool * option string :=
  match rename_first room_id name (load_history file) with
  | Some history => (true, save_history history file)
  | None => (false, file)
  end.

Definition history_request (change : option string → bool * option string) (done_text : string)
    : EM Reaction :=
  let* e := mget in
  let '(found, file) := change (e_history e) in
  if found then do* mmodify (put_history file) in mreturn (Answer (ok_message done_text))
  else mreturn (Answer (error_json "History item not found")).

(** ** What is shown *)
Definition show_node (n : NodeId) : string := hex_encode (node_bytes n).
Definition shown_room e : Json := str_json (show_room <$> e_room e).

Definition status_text e : string :=
  let r := e_runtime e in
  if negb (rt_supernode_reachable r) then
    match e_room e with
    | Some _ => "Supernode Unreachable"
    | None => "Waiting for supernode"
    end
  else if bool_decide (is_Some (tun (e_dp e))) && rt_route_installed r then "Connected"
  else match e_room e with Some _ => "Degraded" | None => "Disconnected" end.

Definition activity_secs (now : Z) (r : RuntimeState) : Json :=
  opt_json (λ seen, JInt (as_secs (duration_since now seen))) (rt_last_supernode_activity_at r).

Definition status_json (now : Z) e : Json :=
  let r := e_runtime e in
  JObject [("node_id", JString (show_node (node_id (settings e)))); ("room_id", shown_room e);
    ("status", JString (status_text e)); ("supernode", JString (rt_supernode_addr r));
    ("supernode_reachable", JBool (rt_supernode_reachable r));
    ("last_supernode_activity_secs", activity_secs now r);
    ("nat_type", JString (rt_nat_type r)); ("tun_name", str_json (rt_tun_name r));
    ("virtual_ip", str_json (rt_virtual_ip r)); ("route_cidr", str_json (rt_route_cidr r));
    ("route_status", JString (if rt_route_installed r then "Installed" else "Not Installed"));
    ("discovery_routes_installed", JBool (rt_discovery_routes_installed r));
    ("discovery_route_errors", strings_json (rt_discovery_route_errors r));
    ("backend_requested", JString (rt_backend_requested r));
    ("backend_active", JString (rt_backend_active r));
    ("backend_degraded", JBool (rt_backend_degraded r));
    ("effective_mtu", JInt (rt_effective_mtu r));
    ("virtual_interface_preference_requested", JBool (rt_preference_requested r));
    ("virtual_interface_preference_supported", JBool (rt_preference_supported r));
    ("virtual_interface_preference_applied", JBool (rt_preference_applied r));
    ("virtual_interface_preference_error", str_json (rt_preference_error r));
    ("port_mapping_acquired", JBool (rt_port_mapping_acquired r));
    ("port_mapping_protocol", str_json (rt_port_mapping_protocol r));
    ("port_mapping_external_addr", str_json (rt_port_mapping_external_addr r));
    ("port_mapping_lease_remaining_secs", JInt (default 0
       ((λ expires, as_secs (duration_since expires now)) <$> rt_port_mapping_lease_expires_at r)));
    ("peer_count", JInt (Z.of_nat (size (e_peers e))));
    ("last_error", str_json (rt_last_error r))].

Definition peer_json (m : MetricsSnapshot) (p : PeerState) : Json :=
  let id := peer_node_id (ps_info p) in
  let metric := List.find (λ x, bool_decide (pp_peer x = id)) (s_peers m) in
  JObject [("node_id", JString (show_node id));
    ("virtual_ip", JString (VirtualIp_to_string (peer_virtual_ip (ps_info p))));
    ("nickname", JString (peer_nickname (ps_info p)));
    ("connection", JString (match ps_direct_addr p with Some _ => "Direct" | None => "Relay" end));
    ("rtt_ms", opt_json JInt (metric ≫= pp_last_rtt_ms));
    ("loss_rate", JFloat (default f32_zero (packet_loss_rate <$> metric)))].
Definition peers_json (now : Z) e : Json :=
  JObject [("peers", JArray
    (peer_json (Observability.snapshot now (metrics (e_dp e))) <$> (map_to_list (e_peers e)).*2))].

Definition diagnose_json (now : Z) (entries : nat) e : Json :=
  let r := e_runtime e in
  let m := Observability.snapshot now (metrics (e_dp e)) in
  ok_json [("node_id", JString (show_node (node_id (settings e)))); ("room_id", shown_room e);
    ("supernode", JString (rt_supernode_addr r));
    ("supernode_reachable", JBool (rt_supernode_reachable r));
    ("supernodes", strings_json (rt_supernodes r));
    ("udp_working", JBool (rt_supernode_reachable r
                             || bool_decide (is_Some (rt_last_supernode_activity_at r))));
    ("nat_type", JString (rt_nat_type r));
    ("tun_active", JBool (bool_decide (is_Some (tun (e_dp e)))));
    ("tun_name", str_json (rt_tun_name r));
    ("backend_requested", JString (rt_backend_requested r));
    ("backend_active", JString (rt_backend_active r));
    ("backend_degraded", JBool (rt_backend_degraded r));
    ("effective_mtu", JInt (rt_effective_mtu r));
    ("mtu_ok", JBool (bool_decide (1280 ≤ rt_effective_mtu r)%Z));
    ("virtual_ip", str_json (rt_virtual_ip r)); ("route_cidr", str_json (rt_route_cidr r));
    ("route_installed", JBool (rt_route_installed r));
    ("discovery_routes_installed", JBool (rt_discovery_routes_installed r));
    ("discovery_route_errors", strings_json (rt_discovery_route_errors r));
    ("broadcast_packets", JInt (s_broadcast_packets m));
    ("multicast_packets", JInt (s_multicast_packets m));
    ("l2_flood_packets", JInt (s_l2_flood_packets m));
    ("packet_drops", JInt (s_packet_drops m));
    ("rules_enabled", JBool (policy_enabled (traffic_policy (e_dp e))));
    ("rules_count", JInt (Z.of_nat (length (rules (traffic_policy (e_dp e))))));
    ("l2_entries", JInt (Z.of_nat entries)); ("last_error", str_json (rt_last_error r))].

Definition supernodes_json (now : Z) e : Json :=
  let r := e_runtime e in
  ok_json [("active", JString (rt_supernode_addr r)); ("supernodes", strings_json (rt_supernodes r));
    ("reachable", JBool (rt_supernode_reachable r));
    ("last_supernode_activity_secs", activity_secs now r)].

Definition routes_json e : Json :=
  let r := e_runtime e in
  ok_json [("route_cidr", str_json (rt_route_cidr r));
    ("route_installed", JBool (rt_route_installed r));
    ("discovery_routes_installed", JBool (rt_discovery_routes_installed r));
    ("discovery_route_errors", strings_json (rt_discovery_route_errors r));
    ("tun_name", str_json (rt_tun_name r))].

Definition room_detail_json e : Json :=
  let r := e_runtime e in
  ok_json [("room_id", shown_room e); ("virtual_ip", str_json (rt_virtual_ip r));
    ("virtual_cidr", str_json (rt_route_cidr r));
    ("peers", JArray ((λ p, JObject [("node_id", JString (show_node (peer_node_id (ps_info p))));
        ("virtual_ip", JString (VirtualIp_to_string (peer_virtual_ip (ps_info p))));
        ("nickname", JString (peer_nickname (ps_info p)))]) <$> (map_to_list (e_peers e)).*2))].

(** The table without what has expired, which is forgotten. *)
Definition l2_table (now : Z) : EM (list L2TableEntry) :=
  let* e := mget in
  let '(entries, dp) := l2_table_snapshot now (e_dp e) in
  do* mmodify (put_dp dp) in mreturn entries.

(** ** Rules *)
Definition policy_of e : TrafficPolicy := traffic_policy (e_dp e).
Definition put_policy (p : TrafficPolicy) (e : Edge) : Edge :=
  put_dp (set_traffic_policy p (e_dp e)) e.
Definition rule_error_text (err : RuleError) : string :=
  match err with
  | RuleExists id => "rule id already exists: " +:+ id
  | RuleNotFound => "rule not found"
  end.
Definition policy_answer (p : TrafficPolicy) : Reaction := Answer (ok_json [("policy", policy_json p)]).

Definition rule_request (change : M TrafficPolicy RuleError unit) : EM Reaction :=
  let* r := mcatch (mzoom policy_of put_policy rule_error_text change) in
  match r with
  | Err text => mreturn (Answer (error_json text))
  | _ => let* e := mget in mreturn (policy_answer (policy_of e))
  end.

(** ** A request *)
Definition switch_request (msg : Json) : Reaction :=
  match parse_socket_addr (text_of msg "supernode" "") with
  | Some addr => Await (CmdSwitchSupernode addr)
  | None => Answer (error_json "Invalid supernode SocketAddr")
  end.

Definition add_request (msg : Json) : EM Reaction :=
  match rule_from_value (json_index msg "rule") with
  | inr rule => rule_request (rules_add rule)
  | inl err => mreturn (Answer (error_json ("invalid traffic rule: " +:+ err)))
  end.

Definition shown (f : Edge → Json) : EM Reaction := let* e := mget in mreturn (Answer (f e)).

(** The handlers, in the order of the code. *)
Definition ipc_handlers (now : Z) (msg : Json) : list (string * EM Reaction) :=
  [("create", mreturn (Await (CmdCreateRoom (text_of msg "name" "Room"))));
   ("join", mreturn (Await (CmdJoinRoom (text_of msg "invite" ""))));
   ("leave", mreturn (Await CmdLeaveRoom));
   ("stop", mreturn (Await CmdStop));
   ("history", shown (λ e,
      ok_json [("history", JArray (history_item_json <$> load_history (e_history e)))]));
   ("delete_history",
      history_request (delete_history (text_of msg "room_id" "")) "History item deleted");
   ("update_history_name",
      history_request (update_history_name (text_of msg "room_id" "") (text_of msg "name" ""))
        "History item name updated");
   ("switch_supernode", mreturn (switch_request msg));
   ("active", mreturn (Await CmdQueryRooms));
   ("status", shown (status_json now));
   ("peers", shown (peers_json now));
   ("metrics", shown (λ e, metrics_json (Observability.snapshot now (metrics (e_dp e)))));
   ("diagnose",
      let* entries := l2_table now in shown (diagnose_json now (length entries)));
   ("rules_list", shown (λ e, ok_json [("policy", policy_json (policy_of e))]));
   ("rules", shown (λ e, ok_json [("policy", policy_json (policy_of e))]));
   ("rules_add", add_request msg);
   ("rules_remove", rule_request (rules_remove (text_of msg "id" "")));
   ("rules_enable", rule_request (rules_enable (default true (as_bool (json_index msg "enabled")))));
   ("supernodes", shown (supernodes_json now));
   ("routes", shown routes_json);
   ("l2_table",
      let* entries := l2_table now in
      mreturn (Answer (ok_json [("entries", JArray (l2_entry_json <$> entries))])));
   ("room_detail", shown room_detail_json);
   ("register_tun_fd",
      mreturn (Answer (error_json "register_tun_fd is only supported on Android")))].

Definition ipc_request (now : Z) (msg : Json) : EM Reaction :=
  match as_str (json_index msg "command") with
  | Some command =>
      match List.find (λ h, bool_decide (h.1 = command)) (ipc_handlers now msg) with
      | Some (_, handler) => handler
      | None => mreturn NoAnswer
      end
  | None => mreturn NoAnswer
  end.

(** ** The daemon: the edge and its IPC server *)
Inductive daemon_step (pr : profile) : Edge → Edge → Prop :=
| daemon_edge e e' : edge_step pr e e' → daemon_step pr e e'
| daemon_ipc e now msg r e' :
    e_exited e = false → ipc_request now msg e = (r, e') → daemon_step pr e e'.

Definition daemon_reachable (pr : profile) (e : Edge) : Prop :=
  ∃ os now mapping collected i history config e0,
    run_start os now mapping collected i history config = Ok e0 ∧ rtc (daemon_step pr) e0 e.
End Ipc.
