(* ===== verification/IpcSpec.v ===== *)
(** What the IPC server shows of an edge, and what it can change. *)
From Stdlib Require Import ZArith Lia.
From stdpp Require Import base tactics numbers list gmap strings relations.
From S2P Require Import Prelude Bytes Net Text AddrText Common Proto Sorting Slab Etherparse.
From S2P Require Import Qos Crypto Noise Policy Rendezvous Discovery F32 Path Observability.
From S2P Require Import Transport Flood MacTable Dataplane Config Nat EdgeCore Edge EdgeFacts.
From S2P Require Import EdgeInv Json Ipc.
Local Open Scope Z_scope.
Local Open Scope string_scope.

Section Ipc.
Context `{L : Ipv4NetLib} `{Q : ArrayQueue} `{A : AeadLib} `{P : Etherparse} `{N : IpNetLib}
  `{R : RatelimitLib} `{K : Socket} `{T : TunIo} `{PC : Postcard} `{C : InviteCrypto}
  `{X : Hex} `{W : SnowLib} `{TL : Toml (N:=N)} `{F : Fs} `{HL : HistoryLib} `{PF : Platform}
  `{RS : RuleSerde (N:=N)}.
Implicit Types e : Edge.

(** ** What a request can change *)

(** The state with another history file, policy and MAC table. *)
Definition retouched h p t e : Edge :=
  put_history h (put_dp (put_mac_table t (set_traffic_policy p (e_dp e))) e).

(** [e'] is [e] but for these: the history and the policy are only others, and the MAC table
    only without what has expired, where the flags say so. *)
Definition confined (now : Z) (hist pol macs : bool) e e' : Prop :=
  ∃ h p, e' = retouched h p (if macs then prune_mac_table now (mac_table (e_dp e))
                             else mac_table (e_dp e)) e ∧
    (hist = false → h = e_history e) ∧ (pol = false → p = traffic_policy (e_dp e)).

Lemma retouched_same e : retouched (e_history e) (traffic_policy (e_dp e)) (mac_table (e_dp e)) e = e.
Proof. by destruct e as [? [] ? ? ? ? ? ? ? ? ? ? ? ? ? ? ? ? ? ?]. Qed.

Lemma confined_same now hist pol e : confined now hist pol false e e.
Proof. exists (e_history e), (traffic_policy (e_dp e)). by rewrite retouched_same. Qed.

Lemma confined_history now pol h e : confined now true pol false e (put_history h e).
Proof.
  exists h, (traffic_policy (e_dp e)). split; [|by split].
  by destruct e as [? [] ? ? ? ? ? ? ? ? ? ? ? ? ? ? ? ? ? ?].
Qed.

Lemma confined_policy now hist p e : confined now hist true false e (put_policy p e).
Proof.
  exists (e_history e), p. split; [|by split].
  by destruct e as [? [] ? ? ? ? ? ? ? ? ? ? ? ? ? ? ? ? ? ?].
Qed.

(** What is left of the table: every entry seen in the last 300 seconds, and no other. *)
Lemma pruned_lookup now t m entry :
  prune_mac_table now t !! m = Some entry ↔
  t !! m = Some entry ∧ (now - last_seen entry ≤ secs 300)%Z.
Proof.
  unfold prune_mac_table. rewrite map_lookup_filter_Some.
  unfold MAC_TABLE_MAX_AGE, duration_since. cbn [snd].
  assert (0 ≤ secs 300)%Z by (vm_compute; discriminate). intuition lia.
Qed.

(** Runs without an error or unwinding, answers something, and is confined. *)
Definition served (now : Z) (hist pol macs : bool) (m : EM Reaction) : Prop := ∀ e,
  ∃ r e', m e = (Ok r, e') ∧ confined now hist pol macs e e' ∧ r ≠ NoAnswer ∧
    (∀ cmd, r = Await cmd → e' = e).

Lemma served_return now hist pol r : r ≠ NoAnswer → served now hist pol false (mreturn r).
Proof. intros Hr e. exists r, e. split_and!; try done. apply confined_same. Qed.

Lemma served_shown now hist pol f : served now hist pol false (shown f).
Proof. intros e. exists (Answer (f e)), e. split_and!; try done. apply confined_same. Qed.

Lemma served_history now pol change text :
  served now true pol false (history_request change text).
Proof.
  intros e. unfold history_request. rewrite (mseq_Ok mget _ e e e eq_refl).
  destruct (change (e_history e)) as [[] file].
  - eexists _, (put_history file e). split; [reflexivity|]. split; [apply confined_history|done].
  - eexists _, e. split; [reflexivity|]. split; [apply confined_same|done].
Qed.

Lemma served_l2 hist pol now (f : list L2TableEntry → EM Reaction) :
  (∀ l e, ∃ v, f l e = (Ok (Answer v), e)) → served now hist pol true (mseq (l2_table now) f).
Proof.
  intros Hf e. unfold l2_table. rewrite (mseq_Ok (mseq mget _) _ e
    (l2_table_snapshot now (e_dp e)).1 (put_dp (l2_table_snapshot now (e_dp e)).2 e) eq_refl).
  destruct (Hf (l2_table_snapshot now (e_dp e)).1 (put_dp (l2_table_snapshot now (e_dp e)).2 e))
    as [v Hv].
  eexists _, _. split; [exact Hv|]. split; [|done].
  exists (e_history e), (traffic_policy (e_dp e)). split; [|done].
  by destruct e as [? [] ? ? ? ? ? ? ? ? ? ? ? ? ? ? ? ? ? ?].
Qed.

(** A change of the rules is refused, or done. *)
Definition changes_rules (m : M TrafficPolicy RuleError unit) : Prop := ∀ p, (m p).1 ≠ Panic.
Lemma served_rules now hist change :
  changes_rules change → served now hist true false (rule_request change).
Proof.
  intros Hc e. unfold rule_request. specialize (Hc (policy_of e)).
  destruct (change (policy_of e)) as [r p] eqn:E. simpl in Hc.
  assert (mcatch (mzoom policy_of put_policy rule_error_text change) e
    = (Ok (map_err rule_error_text r), put_policy p e)) as Hm.
  { unfold mcatch, mzoom. rewrite E. by destruct r. }
  rewrite (mseq_Ok _ _ _ _ _ Hm).
  destruct r as [[]|err|]; [| |done]; eexists _, (put_policy p e);
    (split; [reflexivity|split; [apply confined_policy|done]]).
Qed.

Lemma rule_changes : (∀ r, changes_rules (rules_add r)) ∧ (∀ id, changes_rules (rules_remove id)) ∧
  ∀ b, changes_rules (rules_enable b).
Proof.
  split_and!; intros x p; unfold rules_add, rules_remove, rules_enable, mseq, mget.
  - by destruct (existsb _ _).
  - by case_bool_decide.
  - done.
Qed.

(** The commands there are, and those that may change something by themselves. *)
Definition known_commands : list string :=
  ["create"; "join"; "leave"; "stop"; "history"; "delete_history"; "update_history_name";
   "switch_supernode"; "active"; "status"; "peers"; "metrics"; "diagnose"; "rules_list"; "rules";
   "rules_add"; "rules_remove"; "rules_enable"; "supernodes"; "routes"; "l2_table"; "room_detail";
   "register_tun_fd"].
Definition history_commands : list string := ["delete_history"; "update_history_name"].
Definition rule_commands : list string := ["rules_add"; "rules_remove"; "rules_enable"].
Definition mac_commands : list string := ["diagnose"; "l2_table"].
Definition in_names (names : list string) (command : string) : bool :=
  bool_decide (command ∈ names).

Lemma handlers_names now msg : (ipc_handlers now msg).*1 = known_commands.
Proof. done. Qed.

Lemma handlers_serve now msg :
  Forall (λ h, served now (in_names history_commands h.1) (in_names rule_commands h.1)
            (in_names mac_commands h.1) h.2) (ipc_handlers now msg).
Proof.
  destruct rule_changes as (H1 & H2 & H3).
  repeat apply Forall_cons_2; [..|apply Forall_nil_2]; cbn [fst snd];
    try (by apply served_return); try apply served_shown; try apply served_history;
    try (by apply served_rules).
  - apply served_return. unfold switch_request. by destruct (parse_socket_addr _).
  - apply served_l2. intros l e. by eexists.
  - unfold add_request. destruct (rule_from_value _); [by apply served_return|by apply served_rules].
  - apply served_l2. intros l e. by eexists.
Qed.

Lemma request_served now msg e :
  ∃ r e', ipc_request now msg e = (Ok r, e') ∧
    match as_str (json_index msg "command") with
    | Some command =>
        if decide (command ∈ known_commands)
        then r ≠ NoAnswer ∧ (∀ cmd, r = Await cmd → e' = e) ∧
          confined now (in_names history_commands command) (in_names rule_commands command)
            (in_names mac_commands command) e e'
        else r = NoAnswer ∧ e' = e
    | None => r = NoAnswer ∧ e' = e
    end.
Proof.
  unfold ipc_request. destruct (as_str _) as [command|]; [|by exists NoAnswer, e].
  rewrite <- (handlers_names now msg).
  destruct (List.find _ _) as [[name handler]|] eqn:E.
  - apply List.find_some in E as [Hin Hn%bool_decide_eq_true]. simpl in Hn. subst name.
    apply list_elem_of_In in Hin. pose proof (handlers_serve now msg) as Hs.
    rewrite Forall_forall in Hs. specialize (Hs _ Hin e) as (r & e' & Hr & Hc & Ha & Hw).
    exists r, e'. split; [exact Hr|]. rewrite decide_True; [done|].
    apply list_elem_of_fmap. by exists (command, handler).
  - exists NoAnswer, e. split; [done|]. rewrite decide_False; [done|].
    intros (h & -> & Hin)%list_elem_of_fmap. apply list_elem_of_In in Hin.
    pose proof (List.find_none _ _ E h Hin) as Hn. by apply bool_decide_eq_false in Hn.
Qed.

(** C34: the IPC server never fails and only touches what it is for.  Every request with one
    of the 23 commands is served without an error, and no other is answered or changes
    anything; a command that is passed on to the edge changes nothing by itself.  What a
    request can change is the history, by the two commands on it; the policy, by the three
    on rules; and the MAC table, which [diagnose] and [l2_table] leave with exactly the
    entries seen in the last 300 seconds and every other command as it is.  All else is left
    alone: room, peers, routes, runtime and callers. *)
Theorem ipc_confined now msg e :
  ∃ r e', ipc_request now msg e = (Ok r, e') ∧
    match as_str (json_index msg "command") with
    | Some command =>
        if decide (command ∈ known_commands)
        then r ≠ NoAnswer ∧ (∀ cmd, r = Await cmd → e' = e) ∧
          ∃ h p t, e' = retouched h p t e ∧
            (command ∉ ["delete_history"; "update_history_name"] → h = e_history e) ∧
            (command ∉ ["rules_add"; "rules_remove"; "rules_enable"] →
               p = traffic_policy (e_dp e)) ∧
            (command ∉ ["diagnose"; "l2_table"] → t = mac_table (e_dp e)) ∧
            (command ∈ ["diagnose"; "l2_table"] → ∀ m entry, t !! m = Some entry ↔
               mac_table (e_dp e) !! m = Some entry ∧ (now - last_seen entry ≤ secs 300)%Z)
        else r = NoAnswer ∧ e' = e
    | None => r = NoAnswer ∧ e' = e
    end.
Proof.
  destruct (request_served now msg e) as (r & e' & E & H). exists r, e'. split; [exact E|].
  destruct (as_str _) as [command|]; [|done]. destruct (decide _); [|done].
  destruct H as (Hr & Hw & h & p & Hh & H1 & H2). split; [done|]. split; [done|].
  eexists h, p, _. split; [exact Hh|]. unfold in_names in *. rewrite !bool_decide_eq_false in *.
  split; [exact H1|]. split; [exact H2|]. split; intros Hm.
  - by rewrite bool_decide_eq_false_2.
  - rewrite bool_decide_eq_true_2 by done. apply pruned_lookup.
Qed.

(** ** The daemon *)
Lemma request_keeps_view now msg : keeps edge_view (ipc_request now msg).
Proof.
  intros e. destruct (request_served now msg e) as (r & e' & -> & H). cbn [snd].
  destruct (as_str _) as [command|]; [|by destruct H as [_ ->]].
  destruct (decide _); [|by destruct H as [_ ->]].
  destruct H as (_ & _ & h & p & -> & _). done.
Qed.

Lemma daemon_inv pr e : daemon_reachable pr e → edge_inv e.
Proof.
  intros (os & now & mapping & collected & i & history & config & e0 & E0 & Hs).
  apply start_inv in E0 as [E0 _]. induction Hs as [|e0 e1 e2 H1 _ IH]; [done|]. apply IH.
  destruct H1 as [e0 e1 H1|e0 now' msg r e1 _ H1]; [by apply (step_inv pr e0)|].
  pose proof (request_keeps_view now' msg e0) as Hv. rewrite H1 in Hv.
  by apply (edge_inv_of_view e0).
Qed.

(** C25: what [status] shows, while the handlers of the edge run one after the other.  In
    every state that a daemon reaches by whole handlers and whole requests the word is
    decided by whether the supernode is reachable and whether there is a room, so that
    "Degraded" is not shown: in a room the device and the route are there.  The route is
    shown installed exactly in a room, address, interface and CIDR are empty outside, and the
    number of peers is that of the dataplane.  Nothing is claimed of the states inside a
    handler, nor of those two handlers reach side by side:
    [Interleave.leave_overtakes_join] ends in one where, while the supernode is reachable,
    "Degraded" is shown. *)
Theorem status_shows pr now e :
  daemon_reachable pr e →
  let shown key := json_index (status_json now e) key in
  let in_room := bool_decide (is_Some (e_room e)) in
  shown "status" = JString match rt_supernode_reachable (e_runtime e), in_room with
    | false, true => "Supernode Unreachable" | false, false => "Waiting for supernode"
    | true, true => "Connected" | true, false => "Disconnected"
    end ∧
  shown "route_status" = JString (if in_room then "Installed" else "Not Installed") ∧
  (∀ key, key ∈ ["room_id"; "virtual_ip"; "tun_name"; "route_cidr"] → in_room = false →
     shown key = JString "") ∧
  shown "peer_count" = JInt (Z.of_nat (size (peers (e_dp e)))) ∧
  ipc_request now (JObject [("command", JString "status")]) e = (Ok (Answer (status_json now e)), e).
Proof.
  intros [I1 I2 I3 I4 I5]%daemon_inv shown in_room. unfold room_fields in I5.
  injection I5 as R1 R2 R3 R4. fold in_room in R1, R2, R3, R4.
  assert (size (peers (e_dp e)) = size (e_peers e)) as Hsize.
  { apply (f_equal size) in I3. unfold links, peer_links in I3. by rewrite !map_size_fmap in I3. }
  assert (in_room = true → is_Some (tun (e_dp e))) as Htun by (intros H%bool_decide_eq_true; auto).
  split; [|split; [|split; [|split]]]; subst shown; cbn.
  - f_equal. unfold status_text. rewrite R4. clear R1 R2 R3 R4 I1 I2. subst in_room.
    destruct (rt_supernode_reachable _), (e_room e) eqn:Er; cbn [negb]; try done.
    + rewrite (bool_decide_eq_true_2 (is_Some (tun _))) by (by apply Htun). done.
    + by rewrite andb_false_r.
  - by rewrite R4.
  - intros key Hkey Hno. rewrite Hno in R1, R2, R3. apply bool_decide_eq_false in R1, R2, R3.
    apply bool_decide_eq_false in Hno. apply eq_None_not_Some in R1, R2, R3, Hno.
    repeat (apply elem_of_cons in Hkey as [->|Hkey]; [cbn; unfold shown_room, str_json;
      by rewrite ?R1, ?R2, ?R3, ?Hno|]). by apply not_elem_of_nil in Hkey.
  - by rewrite Hsize.
  - done.
Qed.
End Ipc.
