(* ===== verification/Android.v ===== *)
(** The edge on Android, where the device comes from the application: its descriptor is sent
    over the socket of the IPC server (register_tun_fd and recv_fd_from_raw in
    crates/r2n-edge-lib/src/ipc.rs), a room is entered without a device (activate_room in
    crates/r2n-edge-lib/src/lib.rs), and routes are the business of the system
    (crates/r2n-route/src/lib.rs). *)
From Stdlib Require Import ZArith Lia.
From stdpp Require Import base tactics numbers list gmap strings pretty.
From S2P Require Import Prelude Bytes Net Text Decimal AddrText AddrSpec Common Proto Sorting Slab.
From S2P Require Import Etherparse Qos Crypto Noise Policy Rendezvous Discovery F32 Path.
From S2P Require Import Observability Transport Flood MacTable Dataplane Config Nat EdgeCore.
From S2P Require Import Systems SystemsSpec Edge EdgeFacts Json Ipc.
Local Open Scope Z_scope.
Local Open Scope string_scope.

(** ** A descriptor over a socket *)
Record FdError := mkFdError { would_block : bool; fd_text : string }.

(** The answer of [recvmsg]: an error, or the number of bytes and the control messages, each
    with its level, its type and the descriptor it begins with. *)
Inductive RecvMsg :=
| RecvFailed (err : FdError)
| RecvMessage (n : Z) (cmsgs : list (Z * Z * Z)).

Definition SOL_SOCKET : Z := 1.
Definition SCM_RIGHTS : Z := 1.

Definition try_recv_fd_once (m : RecvMsg) : outcome FdError Z :=
  match m with
  | RecvFailed err => Err err
  | RecvMessage n cmsgs =>
      if bool_decide (n = 0) then
        Err (mkFdError false "IPC socket closed before TUN fd was received")
      else
        match List.find (λ '(level, type, _),
                bool_decide (level = SOL_SOCKET) && bool_decide (type = SCM_RIGHTS)) cmsgs with
        | Some (_, _, fd) => Ok fd
        | None => Err (mkFdError false "No file descriptor received in SCM_RIGHTS")
        end
  end.

(** The loop, from attempt [k] on: [answers] are the answers to the attempts, [clock] the
    readings of the clock after them.  [None] when the fuel is used up. *)
Fixpoint recv_fd_loop (fuel k : nat) (answers : nat → RecvMsg) (clock : nat → Z) (deadline : Z)
    : option (outcome FdError Z) :=
  match fuel with
  | O => None
  | S fuel =>
      match try_recv_fd_once (answers k) with
      | Err err =>
          if would_block err && bool_decide (clock k < deadline)
          then recv_fd_loop fuel (S k) answers clock deadline
          else Some (Err err)
      | r => Some r
      end
  end.
(** As many attempts as ten milliseconds fit into five seconds, and one. *)
Definition fd_attempts : nat := 501.
Definition recv_fd_from_raw (now : Z) (answers : nat → RecvMsg) (clock : nat → Z)
    : option (outcome FdError Z) :=
  recv_fd_loop fd_attempts 0 answers clock (now + secs 5).

Definition TunError_text (e : TunError) : string :=
  match e with
  | Io text => "IO error: " +:+ text
  | NotFound => "Device not found"
  | Systems.Config text => "Configuration error: " +:+ text
  | CommandFailed command out err =>
      "Configuration error: PowerShell command failed: cmd=" +:+ command +:+ ", stdout=" +:+ out
      +:+ ", stderr=" +:+ err
  end.

Section Android.
Context `{L : Ipv4NetLib} `{Q : ArrayQueue} `{A : AeadLib} `{P : Etherparse} `{N : IpNetLib}
  `{R : RatelimitLib} `{K : Socket} `{T : TunIo} `{PC : Postcard} `{C : InviteCrypto}
  `{X : Hex} `{W : SnowLib} `{TL : Toml (N:=N)} `{F : Fs} `{HL : HistoryLib} `{PF : Platform}.
Implicit Types e : Edge.

(** ** [register_tun_fd] *)
Definition set_registered (name : string) (mtu : Z) (r : RuntimeState) : RuntimeState :=
  mkRuntime (rt_supernode_addr r) (rt_nat_type r) (Some name) (rt_virtual_ip r)
    (rt_route_cidr r) (rt_route_installed r) (rt_discovery_routes_installed r)
    (rt_discovery_route_errors r) (rt_supernode_reachable r) (rt_backend_requested r)
    "tun" (negb (bool_decide (rt_backend_requested r = "tun"))) mtu (rt_supernodes r)
    (rt_preference_requested r) (rt_preference_supported r) (rt_preference_applied r)
    (rt_preference_error r) (rt_last_supernode_activity_at r) (rt_port_mapping_acquired r)
    (rt_port_mapping_protocol r) (rt_port_mapping_external_addr r)
    (rt_port_mapping_lease_expires_at r) (rt_last_error r).

Definition waiting_for_fd : Json := JObject [("status", JString "waiting_for_fd")].
Definition DEFAULT_FD_MTU : Z := 1280.

(** The lines written: the challenge, and the response when the descriptor came or did not. *)
Definition register_tun_fd (os : FdOs) (received : outcome FdError Z) (msg : Json)
    : EM (list Json) :=
  let answer v := mreturn [waiting_for_fd; v] in
  match received with
  | Ok fd =>
      let* e := mget in
      let tun_name := text_of msg "tun_name" "r2n0" in
      let mtu := wrap 16 (default DEFAULT_FD_MTU (as_u64 (json_index msg "mtu"))) in
      let assigned_ipv4 := rt_virtual_ip (e_runtime e) ≫= parse_ipv4 in
      match from_fd true os tun_name mtu assigned_ipv4 with
      | Ok device =>
          let name := default tun_name (device_name device) in
          do* on_dp (set_tun (Some (in_dataplane device))) in
          do* on_runtime (set_registered name (device_effective_mtu device)) in
          answer (ok_message "TUN device registered successfully")
      | Err err => answer (error_json ("Failed to create TunDevice: " +:+ TunError_text err))
      | Panic => mlift Panic
      end
  | Err err => answer (error_json ("Failed to receive fd: " +:+ fd_text err))
  | Panic => mlift Panic
  end.

(** ** Entering a room *)

(** [RouteManager] of Android adds nothing and never fails; what is left of
    [add_lan_discovery_routes] are the networks that cannot be read. *)
Definition lan_errors (cidrs : list string) : list string :=
  flat_map (λ cidr, match net_parse cidr with
                    | None => ["invalid LAN discovery route CIDR: " +:+ cidr]
                    | Some _ => []
                    end) cidrs.

(** The name, the mode and the MTU the runtime shows. *)
Definition android_interface (device : option TunDevice) e : result (string * TunDeviceMode * Z) :=
  match device with
  | Some d => name ← ok_or name_error (tun_if_name d); Ok (name, tun_mode d, tun_effective_mtu d)
  | None => Ok (tun_name (settings e), Tun, tun_mtu (settings e))
  end.

Definition activate_room_android (joined_room : RoomId) (assigned_ip : VirtualIp)
    (virtual_cidr : string) : EM unit :=
  let* e := mget in
  do* match e_room e with
      | Some active_room =>
          if bool_decide (active_room = joined_room) then mreturn tt
          else mthrow ("already in room " +:+ show_room active_room
                         +:+ ", leave it before joining or creating another room")
      | None => mreturn tt
      end in
  let device := tun (e_dp e) in
  let* '(interface_name, mode, mtu) := mlift (android_interface device e) in
  let requested := Config.prefer_virtual_interface (virtual_lan (settings e)) in
  let* _ := mlift (ok_or (net_error virtual_cidr) (net_parse virtual_cidr)) in
  let errors := match device with
                | Some _ => lan_errors (route_cidrs (discovery (e_dp e)))
                | None => []
                end in
  do* mmodify (put_room (Some joined_room)) in
  do* on_dp (set_room_id (Some joined_room)) in
  on_runtime (set_active (VirtualIp_to_string assigned_ip) virtual_cidr interface_name errors
    (backend (settings e)) mode mtu requested false false None).
End Android.
