(* ===== verification/AndroidSpec.v ===== *)
(** What an Android edge promises: the wait for a descriptor ends, a room is entered without a
    device, and a device that is registered there has the address of the room. *)
From Stdlib Require Import ZArith Lia.
From stdpp Require Import base tactics numbers list gmap strings pretty.
From S2P Require Import Prelude Bytes Net Text Decimal AddrText AddrSpec Common Proto Sorting Slab.
From S2P Require Import Etherparse Qos Crypto Noise Policy Rendezvous Discovery F32 Path.
From S2P Require Import Observability Transport Flood MacTable Dataplane Config Nat EdgeCore.
From S2P Require Import Systems SystemsSpec Edge EdgeFacts Json Ipc Android.
Local Open Scope string_scope.
Local Open Scope Z_scope.

(** ** The wait *)
Definition blocked (m : RecvMsg) : Prop :=
  ∃ err, try_recv_fd_once m = Err err ∧ would_block err = true.

(** From attempt [k] on with fuel for every attempt before the deadline. *)
Lemma recv_fd_ends fuel k answers clock deadline :
  (0 < fuel)%nat → deadline ≤ clock (k + fuel - 1)%nat →
  ∃ n r, (k ≤ n < k + fuel)%nat ∧ recv_fd_loop fuel k answers clock deadline = Some r ∧
    r = try_recv_fd_once (answers n) ∧
    (∀ j, (k ≤ j < n)%nat → blocked (answers j) ∧ clock j < deadline) ∧
    (blocked (answers n) → deadline ≤ clock n).
Proof.
  revert k. induction fuel as [|fuel IH]; intros k Hf Hc; [lia|]. cbn [recv_fd_loop].
  destruct (try_recv_fd_once (answers k)) as [fd|err|] eqn:E.
  - exists k, (Ok fd). split_and!; try done; try lia. by intros (? & ? & _); congruence.
  - destruct (would_block err) eqn:Eb; cbn [andb].
    + case_bool_decide as Hd; cycle 1.
      { exists k, (Err err). split_and!; try done; try lia. }
      destruct fuel as [|fuel]; [by replace (k + 1 - 1)%nat with k in Hc by lia; lia|].
      destruct (IH (S k)) as (n & r & Hn & Hr & Hrn & Hb & Hlast); [lia| |].
      { by replace (S k + S fuel - 1)%nat with (k + S (S fuel) - 1)%nat by lia. }
      exists n, r. split_and!; try done; try lia. intros j Hj.
      destruct (decide (j = k)) as [->|]; [split; [by exists err|done]|apply Hb; lia].
    + exists k, (Err err). split_and!; try done; try lia. intros (err' & E' & Hb). congruence.
  - exists k, Panic. split_and!; try done; try lia. by intros (? & ? & _); congruence.
Qed.

Lemma clock_grows (clock : nat → Z) step k :
  (∀ j, clock j + step ≤ clock (S j)) → clock 0%nat + step * Z.of_nat k ≤ clock k.
Proof. intros H. induction k as [|k IH]; [lia|]. specialize (H k). lia. Qed.

(** C21: waiting for a descriptor ends.  When the clock advances by at least the ten
    milliseconds slept between two attempts, there are at most 501 attempts; the result is
    that of the first attempt that does not find the socket empty, or of the first after five
    seconds. *)
Theorem recv_fd_terminates now answers clock :
  now ≤ clock 0%nat → (∀ k, clock k + millis 10 ≤ clock (S k)) →
  ∃ n, (n ≤ 500)%nat ∧
    recv_fd_from_raw now answers clock = Some (try_recv_fd_once (answers n)) ∧
    (∀ j, (j < n)%nat → blocked (answers j) ∧ clock j < now + secs 5) ∧
    (blocked (answers n) → now + secs 5 ≤ clock n).
Proof.
  intros H0 Hstep. pose proof (clock_grows clock (millis 10) 500 Hstep) as Hc.
  destruct (recv_fd_ends fd_attempts 0 answers clock (now + secs 5))
    as (n & r & Hn & Hr & -> & Hb & Hl).
  - unfold fd_attempts. lia.
  - unfold fd_attempts. cbn [Nat.add Nat.sub]. unfold millis, secs in *. lia.
  - exists n. unfold fd_attempts in Hn. split_and!; [lia|exact Hr| |exact Hl]. intros j Hj. apply Hb. lia.
Qed.

Lemma recv_fd_terminates_witness :
  recv_fd_from_raw 7 (λ k, if bool_decide (k = 3)%nat then RecvMessage 1 [(1, 1, 42)]
    else RecvFailed (mkFdError true "EAGAIN")) (λ k, 7 + millis 12 * Z.of_nat k) = Some (Ok 42).
Proof.
  destruct (recv_fd_terminates 7 (λ k, if bool_decide (k = 3)%nat then RecvMessage 1 [(1, 1, 42)]
    else RecvFailed (mkFdError true "EAGAIN")) (λ k, 7 + millis 12 * Z.of_nat k))
    as (n & _ & E & Hb & Hl).
  - lia.
  - intros k. unfold millis. lia.
  - assert (n = 3)%nat as ->.
    { destruct (decide (n = 3)%nat) as [|Hne]; [done|]. destruct (decide (n < 3)%nat) as [Hlt|Hlt].
      - assert (7 + secs 5 ≤ 7 + millis 12 * Z.of_nat n) as H; [|unfold millis, secs in H; lia].
        apply Hl. rewrite bool_decide_eq_false_2 by done. by eexists.
      - destruct (Hb 3%nat ltac:(lia)) as [(err & E3 & _) _]. discriminate. }
    exact E.
Defined.

(** ** The address of a room as text *)
Lemma pretty_octet_short b : 0 ≤ b < 256 → (length (bytes_of (pretty b)) ≤ 3)%nat.
Proof.
  intros Hb. destruct (pretty_digits b ltac:(lia)) as (ds & -> & Hd).
  rewrite length_fmap. apply (digits_few b ds 3 Hd); lia.
Qed.

Lemma parse_show_v4 a : u_ok 32 a → parse_ipv4 (show_v4 a) = Some a.
Proof.
  intros Ha. unfold parse_ipv4. pose proof (read_show_v4 a [] Ha I) as Hr. rewrite app_nil_r in Hr.
  rewrite Hr. cbn [mbind option_bind].
  destruct (octets_spec a Ha) as (b0 & b1 & b2 & b3 & E & Hb & _).
  repeat (apply Forall_cons in Hb as [? Hb]).
  rewrite bool_decide_eq_true_2; [by rewrite bool_decide_eq_true_2|].
  rewrite (show_v4_bytes b0 b1 b2 b3) by done.
  pose proof (pretty_octet_short b0). pose proof (pretty_octet_short b1).
  pose proof (pretty_octet_short b2). pose proof (pretty_octet_short b3).
  repeat (rewrite length_app || cbn [length]). lia.
Qed.

Definition vip_ok (ip : VirtualIp) : Prop :=
  length (vip_octets ip) = 4%nat ∧ bytes_ok (vip_octets ip).

Lemma parse_vip ip : vip_ok ip →
  parse_ipv4 (VirtualIp_to_string ip) = Some (of_octets (vip_octets ip)).
Proof.
  intros [Hl Hb]. set (a := of_octets (vip_octets ip)).
  assert (octets a = vip_octets ip) as E.
  { unfold a, octets, of_octets. rewrite <- Hl at 1. by apply to_from_be_bytes. }
  assert (u_ok 32 a) as Ha.
  { pose proof (from_be_bytes_range _ Hb) as H. rewrite Hl in H. exact H. }
  rewrite <- (parse_show_v4 a Ha). f_equal.
  destruct (vip_octets ip) as [|b0 [|b1 [|b2 [|b3 [|]]]]] eqn:Ev; try done.
  rewrite <- (string_of_bytes_of (VirtualIp_to_string ip)), <- (string_of_bytes_of (show_v4 a)).
  f_equal. rewrite (show_v4_bytes b0 b1 b2 b3) by done. unfold VirtualIp_to_string. rewrite Ev.
  by rewrite !bytes_of_app.
Qed.

Lemma clear_total os : clear_nonblocking os ≠ Panic.
Proof.
  unfold clear_nonblocking. destruct (bool_decide _); [done|]. destruct (negb _); [|done]. cbv zeta.
  by destruct (fd_setfl os _).
Qed.

Section Android.
Context `{L : Ipv4NetLib} `{Q : ArrayQueue} `{A : AeadLib} `{P : Etherparse} `{N : IpNetLib}
  `{R : RatelimitLib} `{K : Socket} `{T : TunIo} `{PC : Postcard} `{C : InviteCrypto}
  `{X : Hex} `{W : SnowLib} `{TL : Toml (N:=N)} `{F : Fs} `{HL : HistoryLib} `{PF : Platform}.
Implicit Types e : Edge.

(** What neither entering a room nor a new device changes. *)
Definition beside e := (settings e, e_peers e, e_routes e, links (e_dp e), e_replies e,
  rt_route_cidr (e_runtime e), rt_virtual_ip (e_runtime e)).

(** The device that was registered. *)
Record registered (ip : option Z) (msg : Json) (e1 e2 : Edge) (device : TunDevice) : Prop := {
  rg_device : tun (e_dp e2) = Some device;
  rg_mode : tun_mode device = Tun;
  rg_ip : tun_ipv4 device = ip;
  rg_name : tun_if_name device = Some (text_of msg "tun_name" "r2n0");
  rg_mtu : 1280 ≤ tun_effective_mtu device < 65536;
  rg_beside : beside e2 = beside e1 ∧ e_room e2 = e_room e1 ∧ room_id (e_dp e2) = room_id (e_dp e1);
  rg_shown : rt_tun_name (e_runtime e2) = tun_if_name device ∧
    rt_effective_mtu (e_runtime e2) = tun_effective_mtu device ∧
    rt_backend_active (e_runtime e2) = "tun" ∧
    (rt_backend_degraded (e_runtime e2) = true ↔ rt_backend_requested (e_runtime e1) ≠ "tun");
}.

Lemma register_run os received msg e : received ≠ Panic →
  ∃ line e2, register_tun_fd os received msg e = (Ok [waiting_for_fd; line], e2) ∧
    ((line = ok_message "TUN device registered successfully" ∧
      ∃ device, registered (rt_virtual_ip (e_runtime e) ≫= parse_ipv4) msg e e2 device) ∨
     (∃ text, line = error_json text) ∧ e2 = e).
Proof.
  intros Hr. unfold register_tun_fd. destruct received as [fd|err|]; [| |done].
  2: { do 2 eexists. split; [reflexivity|]. right. split; [by eexists|done]. }
  rewrite (mseq_Ok mget _ e e e eq_refl). set (mtu := wrap 16 _). set (ip := _ ≫= parse_ipv4).
  assert (0 ≤ mtu < 65536) as Hm by (by apply (wrap_range 16)).
  unfold from_fd. pose proof (clear_total os) as Hc.
  destruct (clear_nonblocking os) as [fl|err|]; cbn [mbind outcome_bind]; [| |done].
  2: { do 2 eexists. split; [reflexivity|]. right. split; [by eexists|done]. }
  destruct (fd_clone os) as [err|].
  { do 2 eexists. split; [reflexivity|]. right. split; [by eexists|done]. }
  do 2 eexists. split; [reflexivity|]. left. split; [done|]. eexists. split; try reflexivity.
  - cbn. rewrite normalize_mtu_max. lia.
  - split_and!; reflexivity.
  - do 3 (split; [reflexivity|]). cbn. by case_bool_decide.
Qed.

(** An Android edge enters a room without a device, and the device comes later.  Entering
    is refused, with nothing changed, when the edge is in another room or the network cannot
    be read; otherwise edge and dataplane are in the room, with the device there was, the same
    peers and no route added.  A descriptor that is sent then becomes a device with the
    address of the room, the name asked for and an MTU between 1280 and 65535, which the
    runtime shows with the backend, and leaves room, peers and routes; one that does not come is answered with
    an error and changes nothing.  Nothing unwinds. *)
Theorem android_room room ip cidr e :
  vip_ok ip →
  ∃ r e1, activate_room_android room ip cidr e = (r, e1) ∧
  match r with
  | Ok _ =>
      (e_room e = None ∨ e_room e = Some room) ∧ is_Some (net_parse cidr) ∧
      e_room e1 = Some room ∧ room_id (e_dp e1) = Some room ∧ tun (e_dp e1) = tun (e_dp e) ∧
      e_peers e1 = e_peers e ∧ links (e_dp e1) = links (e_dp e) ∧ e_routes e1 = e_routes e ∧
      ∀ os received msg, received ≠ Panic →
        ∃ line e2, register_tun_fd os received msg e1 = (Ok [waiting_for_fd; line], e2) ∧
          ((line = ok_message "TUN device registered successfully" ∧
            ∃ device, registered (Some (of_octets (vip_octets ip))) msg e1 e2 device) ∨
           (∃ text, line = error_json text) ∧ e2 = e1)
  | Err _ => e1 = e
  | Panic => False
  end.
Proof.
  intros Hip. unfold activate_room_android. rewrite (mseq_Ok mget _ e e e eq_refl).
  destruct (decide (e_room e = None ∨ e_room e = Some room)) as [Hr|Hr]; cycle 1.
  { destruct (e_room e) as [active|]; [|tauto]. rewrite bool_decide_eq_false_2 by naive_solver.
    by do 2 eexists. }
  match goal with |- context [mseq ?m _ e] => assert (m e = (Ok tt, e)) as Hguard end.
  { destruct Hr as [->| ->]; [done|]. by rewrite bool_decide_eq_true_2. }
  rewrite (mseq_Ok _ _ _ _ _ Hguard). cbv zeta. unfold mseq at 1, mlift at 1.
  assert (android_interface (tun (e_dp e)) e ≠ Panic) as Hi.
  { unfold android_interface. destruct (tun (e_dp e)) as [d|]; [|done]. by destruct (tun_if_name d). }
  destruct (android_interface _ e) as [[[name mode] mtu]|err|]; [|by do 2 eexists|done].
  unfold mseq at 1, mlift at 1. destruct (net_parse cidr) as [network|]; cbn [ok_or]; [|by do 2 eexists].
  unfold mseq, mmodify, on_dp, on_runtime. do 2 eexists. split; [reflexivity|].
  split_and!; try done. intros os received msg Hrec. rewrite <- (parse_vip ip Hip).
  exact (register_run os received msg _ Hrec).
Qed.
End Android.
