(* ===== verification/Cli.v ===== *)
(** The command line client: crates/r2n-cli/src/lib.rs.

    What a command asks of the daemon and decides on; CliPrint has what it prints. *)
From Stdlib Require Import ZArith Lia.
From stdpp Require Import base tactics numbers list gmap strings pretty.
From S2P Require Import Prelude Bytes Net Text AddrText Common Proto Sorting Slab Etherparse.
From S2P Require Import Qos Crypto Noise Policy Rendezvous Discovery F32 Path Observability.
From S2P Require Import Transport Flood MacTable Dataplane Config Nat EdgeCore Edge Json Ipc.
Local Open Scope Z_scope.
Local Open Scope string_scope.

Definition DAEMON_BOOT_WAIT_RETRIES : nat := 15.
Definition COMMAND_RESPONSE_TIMEOUT_SECS : Z := 30.
Definition COLD_START_COMMAND_RESPONSE_TIMEOUT_SECS : Z := 40.

(** ** Commands *)
Record RuleArgs := mkRuleArgs {
  arg_id : string; arg_action : string; arg_direction : string; arg_protocol : string;
  arg_src_cidr : option string; arg_dst_cidr : option string;
  arg_src_port : option string; arg_dst_port : option string; arg_description : option string;
}.
Inductive RulesCommands :=
| RuleList | RuleAdd (args : RuleArgs) | RuleRemove (id : string) | RuleEnable | RuleDisable.
Inductive SupernodeCommands := SupernodeList | SupernodeSwitch (addr : string).
Inductive RouteCommands := RouteShow.
Inductive L2Commands := L2Table.
Inductive RoomCommands :=
| RoomCreate (name : string)
| RoomJoin (invite : option string) (index : option nat)
| RoomLeave | RoomList | RoomActive | RoomHistory.
Inductive Commands :=
| DoRoom (action : RoomCommands) | DoStatus | DoMetrics | DoDiagnose | DoDoctor
| DoRules (action : RulesCommands) | DoSupernode (action : SupernodeCommands)
| DoRoute (action : RouteCommands) | DoL2 (action : L2Commands) | DoStop
| DoDaemon (supernode tun : option string).

(** ** Port ranges *)
Definition digit_of (c : Z) : option Z :=
  if bool_decide (48 ≤ c ≤ 57)%Z then Some (c - 48)%Z else None.
Fixpoint read_u16 (l : list Z) (acc : Z) : result Z :=
  match l with
  | [] => Ok acc
  | c :: l =>
      match digit_of c with
      | None => Err "invalid digit found in string"
      | Some d =>
          if bool_decide (65535 < acc * 10 + d)%Z
          then Err "number too large to fit in target type"
          else read_u16 l (acc * 10 + d)
      end
  end.
(** [str::parse::<u16>]: a plus sign is allowed before the digits. *)
Definition parse_u16 (l : list Z) : result Z :=
  match l with
  | [] => Err "cannot parse integer from empty string"
  | 43 :: ((_ :: _) as ds) => read_u16 ds 0
  | _ => read_u16 l 0
  end.

(** [split(c)] and [split_once(c)] *)
Fixpoint split (c : Z) (l : list Z) : list (list Z) :=
  match l with
  | [] => [[]]
  | x :: l =>
      if bool_decide (x = c) then [] :: split c l
      else match split c l with w :: ws => (x :: w) :: ws | [] => [[x]] end
  end.
Fixpoint split_once (c : Z) (l : list Z) : option (list Z * list Z) :=
  match l with
  | [] => None
  | x :: l =>
      if bool_decide (x = c) then Some ([], l)
      else '(a, b) ← split_once c l; Some (x :: a, b)
  end.

Definition parse_range (part : list Z) : result PortRange :=
  range ← match split_once 45 part with
          | Some (first, last) => a ← parse_u16 first; b ← parse_u16 last; Ok (a, b)
          | None => a ← parse_u16 part; Ok (a, a)
          end;
  let '(a, b) := (range : Z * Z) in
  if bool_decide (b < a)%Z then Err ("invalid port range: " +:+ string_of part)
  else Ok (mkPortRange a b).

Fixpoint parse_ranges (parts : list (list Z)) : result (list PortRange) :=
  match parts with
  | [] => Ok []
  | part :: parts => r ← parse_range part; rs ← parse_ranges parts; Ok (r :: rs)
  end.

Definition trimmed (l : list Z) : list Z := bytes_of (trim (string_of l)).
Definition parse_port_ranges (value : option string) : result (list Json) :=
  match value with
  | None => Ok []
  | Some value =>
      let parts := List.filter (λ p, negb (bool_decide (p = []))) (trimmed <$> split 44 (bytes_of value)) in
      ranges ← parse_ranges parts; Ok (range_json <$> (ranges : list PortRange))
  end.

(** ** Sending a command *)
(** Full case mapping of [str::to_lowercase]; it lowers the ASCII letters. *)
Definition lower_ascii (c : Z) : Z := if bool_decide (65 ≤ c ≤ 90)%Z then (c + 32)%Z else c.
Class Unicode := { to_lowercase : string → string }.
Class UnicodeLaws (U : Unicode) : Prop := {
  lowercase_ascii : ∀ s, Forall (λ c, c < 128)%Z (bytes_of s) →
    to_lowercase s = string_of (lower_ascii <$> bytes_of s);
}.

(** Opening the pipe on Windows: every 50 milliseconds again while it is busy, without end;
    [None] while it still tries. *)
Definition ERROR_PIPE_BUSY : Z := 231.
Inductive PipeAnswer := PipeOpen | PipeFailed (raw_os_error : option Z) (text : string).
Fixpoint try_connect_windows (answers : list PipeAnswer) : option (option string) :=
  match answers with
  | [] => None
  | PipeOpen :: _ => Some None
  | PipeFailed code text :: answers =>
      if bool_decide (code = Some ERROR_PIPE_BUSY) then try_connect_windows answers
      else Some (Some text)
  end.

(** What the system answers while a command is sent: the first connect, the start of a
    daemon, the connects that follow, the write, and what is read before the time is up. *)
Record Link := mkLink {
  link_connects : option string;
  link_starts : option string;
  link_retries : list bool;
  link_write : option string;
  link_read : option (string + string);
}.

(** [Exits]: the process ends at once. *)
Inductive Sent := SentOk (res : Json) | SentErr (text : string) | Exits.

Section Cli.
Context `{J : JsonText} `{U : Unicode}.

Definition command_text (v : Json) : option string := as_str (json_index v "command").

Definition no_daemon (e : string) : string :=
  "Failed to start/connect to daemon. Note: Creating a TUN interface usually requires root/Administrator privileges. Please run 'sudo r2n daemon' or start the daemon manually. Connection error details: "
    +:+ e.
Definition no_answer (started : bool) : string :=
  if started then "daemon started but did not answer the first command within 40 seconds; try running 'r2n daemon' manually to inspect startup logs"
  else "daemon did not answer within 30 seconds".

(** The answer, or the error it holds. *)
Definition checked_response (res : Json) : Sent :=
  if bool_decide (as_str (json_index res "status") = Some "error")
  then SentErr (default "local daemon command failed" (as_str (json_index res "error")))
  else SentOk res.

Definition exchange (l : Link) (started : bool) : Sent :=
  match link_write l with
  | Some err => SentErr err
  | None =>
      match link_read l with
      | None => SentErr (no_answer started)
      | Some (inl err) => SentErr err
      | Some (inr response) =>
          match json_from_str response with
          | inl err => SentErr err
          | inr res => checked_response res
          end
      end
  end.

(** The result, and the line that was sent. *)
Definition send_command (l : Link) (cmd : Json) : Sent * option string :=
  let line := json_to_string cmd in
  match link_connects l with
  | None => (exchange l false, Some line)
  | Some e =>
      if bool_decide (command_text cmd = Some "stop") then (Exits, None)
      else match link_starts l with
           | Some err => (SentErr err, None)
           | None =>
               if existsb id (take DAEMON_BOOT_WAIT_RETRIES (link_retries l))
               then (exchange l true, Some line)
               else (SentErr (no_daemon e), None)
           end
  end.

(** ** What a command does *)
Inductive Dialog := Done (r : result unit) | Send (cmd : Json) (k : result Json → Dialog).

Definition plain (command : string) : Json := JObject [("command", JString command)].
Definition with_text (command key value : string) : Json :=
  JObject [("command", JString command); (key, JString value)].
(** The result is printed, the error passed on. *)
Definition ask (cmd : Json) : Dialog :=
  Send cmd (λ r, Done (match r with Ok _ => Ok tt | Err err => Err err | Panic => Panic end)).
(** The error is only printed. *)
Definition ask_quietly (cmd : Json) : Dialog := Send cmd (λ _, Done (Ok tt)).

Definition invite_at (index : nat) (res : Json) : result string :=
  match as_array (json_index res "history") with
  | None => Err "Failed to retrieve history list from daemon"
  | Some history =>
      if bool_decide (index = 0%nat) || bool_decide (length history < index)%nat
      then Err "Invalid history index. Please run 'r2n room history' to view valid indexes."
      else match history !! (index - 1)%nat with
           | Some item => ok_or "Invalid invite code in history" (as_str (json_index item "invite_code"))
           | None => Panic
           end
  end.

Definition join_dialog (invite : option string) (index : option nat) : Dialog :=
  let join code := ask (with_text "join" "invite" code) in
  match index, invite with
  | Some idx, _ =>
      Send (plain "history") (λ r,
        match r with
        | Ok res => match invite_at idx res with
                    | Ok code => join code
                    | Err err => Done (Err err)
                    | Panic => Done Panic
                    end
        | Err err => Done (Err err)
        | Panic => Done Panic
        end)
  | None, Some inv => join inv
  | None, None => Done (Err "Please specify either an invite code with --invite, or a history index with --index.")
  end.

Definition room_dialog (a : RoomCommands) : Dialog :=
  match a with
  | RoomCreate name => ask (with_text "create" "name" name)
  | RoomJoin invite index => join_dialog invite index
  | RoomActive => ask (plain "active")
  | RoomHistory => ask (plain "history")
  | RoomLeave => ask (plain "leave")
  | RoomList => ask_quietly (plain "peers")
  end.

(** The peers are asked for too when there is a room. *)
Definition status_dialog : Dialog :=
  Send (plain "status") (λ r,
    match r with
    | Ok res =>
        if bool_decide (default "" (as_str (json_index res "room_id")) = "") then Done (Ok tt)
        else ask_quietly (plain "peers")
    | _ => Done (Ok tt)
    end).

Definition rule_value (a : RuleArgs) : result Json :=
  src_ports ← parse_port_ranges (arg_src_port a);
  dst_ports ← parse_port_ranges (arg_dst_port a);
  Ok (JObject [("id", JString (arg_id a)); ("enabled", JBool true);
    ("action", JString (to_lowercase (arg_action a)));
    ("direction", JString (to_lowercase (arg_direction a)));
    ("src_cidr", opt_json JString (arg_src_cidr a)); ("dst_cidr", opt_json JString (arg_dst_cidr a));
    ("protocol", JString (to_lowercase (arg_protocol a)));
    ("src_ports", JArray src_ports); ("dst_ports", JArray dst_ports);
    ("description", opt_json JString (arg_description a))]).
Definition add_command (rule : Json) : Json :=
  JObject [("command", JString "rules_add"); ("rule", rule)].
Definition enable_command (enabled : bool) : Json :=
  JObject [("command", JString "rules_enable"); ("enabled", JBool enabled)].

Definition rules_dialog (a : RulesCommands) : Dialog :=
  match a with
  | RuleList => ask (plain "rules_list")
  | RuleAdd args =>
      match rule_value args with
      | Ok rule => ask (add_command rule)
      | Err err => Done (Err err)
      | Panic => Done Panic
      end
  | RuleRemove id => ask (with_text "rules_remove" "id" id)
  | RuleEnable => ask (enable_command true)
  | RuleDisable => ask (enable_command false)
  end.

Definition dialog (c : Commands) : option Dialog :=
  match c with
  | DoRoom a => Some (room_dialog a)
  | DoStatus => Some status_dialog
  | DoMetrics => Some (ask_quietly (plain "metrics"))
  | DoDiagnose | DoDoctor => Some (ask (plain "diagnose"))
  | DoRules a => Some (rules_dialog a)
  | DoSupernode SupernodeList => Some (ask (plain "supernodes"))
  | DoSupernode (SupernodeSwitch addr) => Some (ask (with_text "switch_supernode" "supernode" addr))
  | DoRoute RouteShow => Some (ask (plain "routes"))
  | DoL2 L2Table => Some (ask (plain "l2_table"))
  | DoStop => Some (ask_quietly (plain "stop"))
  | DoDaemon _ _ => None
  end.
End Cli.

(** ** Starting the daemon *)
Class Resolver := { lookup_host : string → option (list SocketAddr) }.
Inductive DaemonError := ConfigFailed (err : ConfigError) | LookupFailed | Unresolved | BindFailed.

Section Daemon.
Context `{A : AeadLib} `{P : Etherparse} `{N : IpNetLib} `{R : RatelimitLib} `{K : Socket}
  `{TL : Toml (N:=N)} `{F : Fs} `{RV : Resolver}.

Definition set_default_tun (x : string) (c : EdgeConfig) : EdgeConfig :=
  mkEdgeConfig (edge_node_id c) (Config.private_key c) (default_supernode c) (supernodes c) x
    (local_udp_port c) (edge_tun_mtu c) (stun_servers c) (ping_interval_secs c)
    (watchdog_timeout_secs c) (log_level c) (edge_nickname c) (edge_discovery c)
    (Config.backend c) (Config.virtual_lan c) (edge_policy c).

(** The configuration with the arguments of the command line, and whether it is another. *)
Definition override_supernode (s : string) (c : EdgeConfig) : EdgeConfig * bool :=
  if bool_decide (default_supernode c = s) then (c, false)
  else
    let c := set_default_supernode s c in
    (if bool_decide (s ∈ supernodes c) then c else set_supernodes (s :: supernodes c) c, true).
Definition override_tun (t : string) (c : EdgeConfig) : EdgeConfig * bool :=
  if bool_decide (default_tun c = t) then (c, false) else (set_default_tun t c, true).
Definition override_config (supernode tun : option string) (c : EdgeConfig) : EdgeConfig * bool :=
  let s := default (default_supernode c) supernode in
  let t := default (default_tun c) tun in
  let '(c1, changed1) := override_supernode s c in
  let '(c2, changed2) := override_tun t c1 in
  (c2, changed1 || changed2).

(** The first address of each; one that cannot be looked up ends it all. *)
Fixpoint resolve_all (l : list string) : option (list SocketAddr) :=
  match l with
  | [] => Some []
  | s :: l =>
      found ← lookup_host s; rest ← resolve_all l;
      Some (match found with a :: _ => a :: rest | [] => rest end)
  end.

Definition resolve_supernodes (c : EdgeConfig) : outcome DaemonError (SocketAddr * list SocketAddr) :=
  match lookup_host (default_supernode c) with
  | None => Err LookupFailed
  | Some [] => Err Unresolved
  | Some (addr :: _) =>
      match resolve_all (supernodes c) with
      | None => Err LookupFailed
      | Some l => Ok (addr, if bool_decide (addr ∈ l) then l else addr :: l)
      end
  end.

Definition daemon (path : option string) (fresh : EdgeConfig) (supernode tun : option string)
    (bound : option UdpTransport) : M (option string) DaemonError EdgeInit :=
  let* config := mzoom id (λ x _, x) ConfigFailed (edge_load_or_create path fresh) in
  let '(config, changed) := override_config supernode tun config in
  do* mwhen changed (mzoom id (λ x _, x) ConfigFailed (edge_save config)) in
  let* '(addr, nodes) := mlift (resolve_supernodes config) in
  let* transport := mlift (ok_or BindFailed bound) in
  mlift (lift (edge_new (edge_node_id config) (Config.private_key config) (edge_nickname config)
    transport addr nodes (default_tun config) (edge_tun_mtu config) (edge_discovery config)
    (Config.backend config) (Config.virtual_lan config) (edge_policy config))).
End Daemon.
