(* ===== verification/CliSpec.v ===== *)
(** What the client makes of its arguments, what it asks of a daemon, and how a daemon is
    started. *)
From Stdlib Require Import ZArith Lia.
From stdpp Require Import base tactics numbers list gmap strings pretty.
From S2P Require Import Prelude Bytes Net Text Decimal AddrText Common Proto Sorting Slab.
From S2P Require Import Etherparse Qos Crypto Noise Policy Rendezvous Discovery F32 Path.
From S2P Require Import Observability Transport Flood MacTable Dataplane Config Nat EdgeCore Edge.
From S2P Require Import EdgeFacts EdgeInv Json Ipc IpcSpec Cli.
Local Open Scope string_scope.
Local Open Scope Z_scope.

(** ** Port ranges *)
Lemma digit_of_char d : digit 10 d → digit_of (digit_char d) = Some d.
Proof.
  unfold digit, digit_of, digit_char. intros Hd. rewrite bool_decide_eq_true_2 by lia. f_equal. lia.
Qed.

Lemma read_u16_ok ds acc : Forall (digit 10) ds → 0 ≤ acc → numeral 10 ds acc ≤ 65535 →
  read_u16 (digit_char <$> ds) acc = Ok (numeral 10 ds acc).
Proof.
  intros Hds. revert acc. induction Hds as [|d ds Hd Hds IH]; intros acc Hacc Hv; [done|].
  cbn [fmap list_fmap read_u16]. rewrite digit_of_char by done. unfold digit in Hd.
  cbn [numeral fold_left] in Hv |- *. fold (numeral 10 ds (acc * 10 + d)) in Hv |- *.
  pose proof (numeral_le 10 ds (acc * 10 + d) Hds ltac:(lia) ltac:(lia)).
  rewrite bool_decide_eq_false_2 by lia. apply IH; [lia|done].
Qed.

(** A plus sign and digits are a number; a plus sign alone or two of them are none. *)
Example plus_read : (parse_u16 (bytes_of "+22"), is_ok (parse_u16 (bytes_of "+")),
  is_ok (parse_u16 (bytes_of "++2"))) = (Ok 22, false, false).
Proof. reflexivity. Qed.

(** Text of decimal digits. *)
Definition decimal_text (l : list Z) : Prop := l ≠ [] ∧ Forall (λ c, 48 ≤ c < 58) l.

Lemma digit_chars ds : Forall (digit 10) ds → Forall (λ c, 48 ≤ c < 58) (digit_char <$> ds).
Proof.
  intros H. apply Forall_fmap. eapply Forall_impl; [exact H|].
  unfold digit, digit_char, compose. lia.
Qed.

Lemma pretty_u16 z : 0 ≤ z < 65536 →
  decimal_text (bytes_of (pretty z)) ∧ parse_u16 (bytes_of (pretty z)) = Ok z.
Proof.
  intros Hz. destruct (pretty_digits z) as (ds & -> & Hds & Hv & Hne & _); [lia|].
  split; [split; [by destruct ds|by apply digit_chars]|].
  assert (read_u16 (digit_char <$> ds) 0 = Ok z) as Hr by (rewrite <- Hv; apply read_u16_ok; lia || done).
  destruct ds as [|d ds]; [done|]. apply Forall_cons in Hds as [Hd _]. unfold digit in Hd.
  rewrite <- Hr. cbn [fmap list_fmap]. unfold parse_u16, digit_char at 1.
  assert (∃ n, 48 + d = n ∧ 48 ≤ n < 58) as (n & -> & Hn) by (exists (48 + d); lia).
  fold (digit_char d). by repeat case_match; try lia.
Qed.

(** Text without white space around it. *)
Definition plain_char (c : Z) : Prop := 33 ≤ c < 127.

Lemma starts_plain s2 s3 l : Forall plain_char l →
  (∀ a b, plain_char a → plain_char b → s2 a b = false) →
  (∀ a b c, plain_char a → plain_char b → plain_char c → s3 a b c = false) →
  starts s2 s3 l = false.
Proof.
  intros H H2 H3. destruct H as [|a l Ha H]; [done|]. cbn [starts].
  assert (space1 a = false) as -> by (unfold space1, plain_char in *; by repeat case_bool_decide; try lia).
  destruct H as [|b l Hb H]; [done|]. rewrite H2 by done.
  destruct H as [|c l Hc H]; [done|]. by rewrite H3.
Qed.

Lemma plain_spaces a b c : plain_char a →
  space2 a b = false ∧ space3 a b c = false.
Proof.
  unfold plain_char, space2, space3. intros Ha.
  split; repeat case_bool_decide; cbn; try done; simplify_eq; lia.
Qed.

Lemma trimmed_plain l : Forall plain_char l → trimmed l = l.
Proof.
  intros H. assert (Forall byte_char l) as Hb.
  { eapply Forall_impl; [exact H|]. unfold plain_char, byte_char. lia. }
  unfold trimmed, trim. rewrite (bytes_of_string_of l) by done.
  assert (trim_end (trim_start l) = l) as ->; [|by rewrite bytes_of_string_of].
  unfold trim_start. rewrite strip_fixed.
  2: { apply starts_plain; try done; intros; by apply plain_spaces. }
  unfold trim_end. rewrite strip_fixed, rev_involutive; [done|].
  apply starts_plain; [by apply Forall_rev|intros; by apply plain_spaces..].
Qed.

Lemma split_word c w : c ∉ w → split c w = [w].
Proof.
  induction w as [|x w IH]; intros Hc; [done|]. apply not_elem_of_cons in Hc as [Hx Hc].
  cbn [split]. rewrite bool_decide_eq_false_2 by congruence. by rewrite IH.
Qed.

Lemma split_words c w l : c ∉ w → split c (w ++ c :: l)%list = w :: split c l.
Proof.
  induction w as [|x w IH]; intros Hc; cbn [app split]; [by rewrite bool_decide_eq_true_2|].
  apply not_elem_of_cons in Hc as [Hx Hc]. rewrite bool_decide_eq_false_2 by congruence.
  by rewrite IH.
Qed.

Lemma split_once_words c w l : c ∉ w → split_once c (w ++ c :: l)%list = Some (w, l).
Proof.
  induction w as [|x w IH]; intros Hc; cbn [app split_once]; [by rewrite bool_decide_eq_true_2|].
  apply not_elem_of_cons in Hc as [Hx Hc]. rewrite bool_decide_eq_false_2 by congruence.
  by rewrite IH.
Qed.

Lemma split_joined x l : Forall (λ s, 44 ∉ bytes_of s) (x :: l) →
  split 44 (bytes_of (join "," (x :: l))) = bytes_of <$> x :: l.
Proof.
  revert x. induction l as [|y l IH]; intros x [Hx Hl]%Forall_cons.
  - cbn [join foldr]. rewrite bytes_of_app, app_nil_r. by rewrite split_word.
  - cbn [join foldr]. rewrite bytes_of_app. change (bytes_of ("," +:+ ?s)) with (44 :: bytes_of s).
    rewrite split_words by done. cbn [fmap list_fmap]. f_equal. exact (IH y Hl).
Qed.

(** ** Ranges as text *)
Definition range_ok (r : PortRange) : Prop := 0 ≤ range_start r ≤ range_end r ∧ range_end r < 65536.
Definition show_range (r : PortRange) : string :=
  pretty (range_start r) +:+ "-" +:+ pretty (range_end r).
Definition show_ranges (l : list PortRange) : string := join "," (show_range <$> l).

Lemma decimal_text_without c l : decimal_text l → ¬ (48 ≤ c < 58) → c ∉ l.
Proof. intros [_ H] Hc Hin. rewrite Forall_forall in H. by apply Hc, H. Qed.
Lemma decimal_text_plain l : decimal_text l → Forall plain_char l.
Proof. intros [_ H]. eapply Forall_impl; [exact H|]. unfold plain_char. lia. Qed.

Lemma shown_range r : range_ok r → let w := bytes_of (show_range r) in
  w ≠ [] ∧ Forall plain_char w ∧ 44 ∉ w ∧ parse_range w = Ok r.
Proof.
  intros [H1 H2]. destruct (pretty_u16 (range_start r)) as [Ts Ps]; [lia|].
  destruct (pretty_u16 (range_end r)) as [Te Pe]; [lia|]. unfold show_range.
  rewrite !bytes_of_app. change (bytes_of "-" ++ ?l)%list with (45 :: l). split_and!.
  - by destruct (bytes_of (pretty (range_start r))).
  - apply Forall_app_2; [by apply decimal_text_plain|].
    constructor; [unfold plain_char; lia|by apply decimal_text_plain].
  - intros [Hin|[?|Hin]%elem_of_cons]%elem_of_app; [|done|];
      (eapply decimal_text_without; [| |exact Hin]; [done|lia]).
  - unfold parse_range. rewrite split_once_words by (by apply decimal_text_without; [|lia]).
    rewrite Ps. cbn [mbind outcome_bind]. rewrite Pe. cbn [mbind outcome_bind].
    rewrite bool_decide_eq_false_2 by lia. by destruct r.
Qed.

Lemma parse_shown l : Forall range_ok l →
  parse_ranges ((λ r, bytes_of (show_range r)) <$> l) = Ok l.
Proof.
  induction 1 as [|r l Hr _ IH]; [done|]. cbn [fmap list_fmap parse_ranges].
  destruct (shown_range r Hr) as (_ & _ & _ & ->). cbn [mbind outcome_bind]. by rewrite IH.
Qed.

Lemma kept_ranges l : Forall range_ok l →
  List.filter (λ p, negb (bool_decide (p = []))) (trimmed <$> ((λ r, bytes_of (show_range r)) <$> l))
  = (λ r, bytes_of (show_range r)) <$> l.
Proof.
  induction 1 as [|r l Hr _ IH]; [done|]. cbn [fmap list_fmap List.filter].
  destruct (shown_range r Hr) as (Hne & Hp & _). rewrite trimmed_plain by done.
  rewrite (bool_decide_eq_false_2 _ Hne). cbn [negb]. f_equal. exact IH.
Qed.

(** Ranges that are printed are read. *)
Lemma ranges_read l : Forall range_ok l →
  parse_port_ranges (Some (show_ranges l)) = Ok (range_json <$> l).
Proof.
  intros Hl. unfold parse_port_ranges.
  assert (split 44 (bytes_of (show_ranges l)) = (λ r, bytes_of (show_range r)) <$> l ∨
    l = [] ∧ split 44 (bytes_of (show_ranges l)) = [[]]) as [->|[-> ->]];
    [|rewrite kept_ranges by done|done].
  - destruct Hl as [|r l Hr Hl]; [by right|]. left. unfold show_ranges. rewrite (fmap_cons show_range).
    rewrite split_joined; rewrite <- (fmap_cons show_range); [by rewrite <- list_fmap_compose|].
    apply Forall_fmap. eapply Forall_impl; [by constructor|]. intros x Hx. by apply shown_range.
  - by rewrite parse_shown.
Qed.

(** What is read are ranges. *)
Lemma parse_u16_range l z : parse_u16 l = Ok z → 0 ≤ z < 65536.
Proof.
  assert (∀ l acc, 0 ≤ acc < 65536 → read_u16 l acc = Ok z → 0 ≤ z < 65536) as Hr.
  { clear l. induction l as [|c l IH]; intros acc Hacc; cbn; [by intros [= <-]|].
    destruct (digit_of c) as [d|] eqn:Ed; [|done]. case_bool_decide; [done|].
    apply IH. unfold digit_of in Ed. case_bool_decide; simplify_eq. lia. }
  unfold parse_u16. repeat case_match; try done; apply Hr; lia.
Qed.

Lemma parse_range_ok w : match parse_range w with
  | Ok r => range_ok r | Err _ => True | Panic => False end.
Proof.
  assert (∀ l, parse_u16 l ≠ Panic) as Hp.
  { assert (∀ l acc, read_u16 l acc ≠ Panic) as Hr; [|intros l; unfold parse_u16; by repeat case_match].
    induction l as [|c l IH]; intros acc; cbn; [done|]. destruct (digit_of c); [|done].
    by case_bool_decide. }
  unfold parse_range. destruct (split_once 45 w) as [[a b]|].
  - destruct (parse_u16 a) as [x| |] eqn:Ea; [|done|by edestruct Hp]. cbn [mbind outcome_bind].
    destruct (parse_u16 b) as [y| |] eqn:Eb; [|done|by edestruct Hp]. cbn [mbind outcome_bind].
    apply parse_u16_range in Ea, Eb. case_bool_decide; [done|]. unfold range_ok. cbn. lia.
  - destruct (parse_u16 w) as [x| |] eqn:Ea; [|done|by edestruct Hp]. cbn [mbind outcome_bind].
    apply parse_u16_range in Ea. case_bool_decide; [done|]. unfold range_ok. cbn. lia.
Qed.

Lemma ranges_sound v : match parse_port_ranges v with
  | Ok js => ∃ l, js = range_json <$> l ∧ Forall range_ok l | Err _ => True | Panic => False end.
Proof.
  destruct v as [v|]; [|by exists []]. unfold parse_port_ranges.
  generalize (List.filter (λ p, negb (bool_decide (p = []))) (trimmed <$> split 44 (bytes_of v))).
  intros parts. assert (match parse_ranges parts with
    | Ok l => Forall range_ok l | Err _ => True | Panic => False end) as H.
  { induction parts as [|w parts IH]; [by constructor|]. cbn [parse_ranges].
    pose proof (parse_range_ok w) as Hw. destruct (parse_range w); [|done..]. cbn [mbind outcome_bind].
    destruct (parse_ranges parts); [|done..]. cbn [mbind outcome_bind]. by constructor. }
  destruct (parse_ranges parts) as [l| |]; [|done..]. by exists l.
Qed.

Section Client.
Context `{L : Ipv4NetLib} `{Q : ArrayQueue} `{A : AeadLib} `{P : Etherparse} `{N : IpNetLib}
  `{R : RatelimitLib} `{K : Socket} `{T : TunIo} `{PC : Postcard} `{C : InviteCrypto}
  `{X : Hex} `{W : SnowLib} `{TL : Toml (N:=N)} `{F : Fs} `{HL : HistoryLib} `{PF : Platform}
  `{RS : RuleSerde (N:=N)} `{U : Unicode}.
Implicit Types e : Edge.

(** ** Entering a rule *)

(** The argument is a word of the rule format, in small or large letters. *)
Definition word (arg : string) (v : Json) : Prop :=
  Forall (λ c, c < 128) (bytes_of arg) ∧
  ∃ t, v = JString t ∧ lower_ascii <$> bytes_of arg = bytes_of t.
Definition ports_arg (arg : option string) (l : list PortRange) : Prop :=
  Forall range_ok l ∧ (arg = Some (show_ranges l) ∨ arg = None ∧ l = []).

(** The arguments that stand for a rule. *)
Record denotes (a : RuleArgs) (r : TrafficRule) : Prop := {
  denotes_id : arg_id a = rule_id r;
  denotes_enabled : rule_enabled r = true;
  denotes_action : word (arg_action a) (action_json (rule_action r));
  denotes_direction : word (arg_direction a) (direction_json (rule_direction r));
  denotes_protocol : word (arg_protocol a) (protocol_json (rule_protocol r));
  denotes_src : arg_src_cidr a = ipnet_to_string <$> rule_src_cidr r;
  denotes_dst : arg_dst_cidr a = ipnet_to_string <$> rule_dst_cidr r;
  denotes_src_ports : ports_arg (arg_src_port a) (rule_src_ports r);
  denotes_dst_ports : ports_arg (arg_dst_port a) (rule_dst_ports r);
  denotes_description : arg_description a = rule_description r;
}.

Lemma word_lowered `{!UnicodeLaws U} arg v : word arg v → JString (to_lowercase arg) = v.
Proof.
  intros [Ha (t & -> & E)]. rewrite lowercase_ascii, E by done. by rewrite string_of_bytes_of.
Qed.

Lemma ports_parsed arg l : ports_arg arg l → parse_port_ranges arg = Ok (range_json <$> l).
Proof. intros [Hl [-> | [-> ->]]]; [by apply ranges_read|done]. Qed.

Lemma rule_value_denotes `{!UnicodeLaws U} a r : denotes a r → rule_value a = Ok (rule_json r).
Proof.
  intros []. unfold rule_value, rule_json.
  rewrite (ports_parsed _ _ denotes_src_ports0), (ports_parsed _ _ denotes_dst_ports0).
  cbn [mbind outcome_bind].
  rewrite (word_lowered (arg_action a) (action_json (rule_action r))),
    (word_lowered (arg_direction a) (direction_json (rule_direction r))),
    (word_lowered (arg_protocol a) (protocol_json (rule_protocol r))) by done.
  rewrite denotes_id0, denotes_enabled0, denotes_src0, denotes_dst0, denotes_description0.
  by destruct (rule_src_cidr r), (rule_dst_cidr r).
Qed.

(** C27: a rule entered on the command line is the rule that is enforced.  For arguments that
    stand for a rule, action, direction and protocol in any letter case and the port ranges
    as text, the client sends that rule; a daemon without a rule of its id answers with its
    policy, whose rules are those before and that one at the end. *)
Theorem rule_entered `{!UnicodeLaws U} `{!RuleSerdeLaws} now a r e :
  denotes a r → rule_id r ∉ rule_id <$> rules (policy_of e) →
  rules_dialog (RuleAdd a) = ask (add_command (rule_json r)) ∧
  ∃ e', ipc_request now (add_command (rule_json r)) e = (Ok (policy_answer (policy_of e')), e') ∧
    policy_of e' = set_rules (rules (policy_of e) ++ [r]) (policy_of e).
Proof.
  intros Ha Hid. split; [by cbn; rewrite (rule_value_denotes a r)|].
  exists (put_policy (set_rules (rules (policy_of e) ++ [r]) (policy_of e)) e). split; [|done].
  change (ipc_request now (add_command (rule_json r))) with (add_request (add_command (rule_json r))).
  unfold add_request. change (json_index (add_command (rule_json r)) "rule") with (rule_json r).
  rewrite rule_roundtrip. unfold rule_request.
  assert (rules_add r (policy_of e)
    = (Ok tt, set_rules (rules (policy_of e) ++ [r]) (policy_of e))) as Hadd.
  { unfold rules_add. rewrite (mseq_Ok mget _ _ _ _ eq_refl).
    destruct (existsb _ _) eqn:E; [|done]. apply existsb_exists in E as (x & Hx & Hxr).
    apply bool_decide_eq_true in Hxr. apply list_elem_of_In in Hx. destruct Hid.
    rewrite <- Hxr. by apply list_elem_of_fmap_2. }
  rewrite (mseq_Ok (mcatch _) _ e (Ok tt)
    (put_policy (set_rules (rules (policy_of e) ++ [r]) (policy_of e)) e)); [done|].
  unfold mcatch, mzoom. by rewrite Hadd.
Qed.

(** ** A command carried out *)
Definition client_result (s : Sent) : result Json :=
  match s with SentOk v => Ok v | SentErr text => Err text | Exits => Err "" end.

(** A dialog with a daemon.  For each command that is passed on to the edge, what came back
    in the 35 seconds and the edge at that time. *)
Fixpoint run_dialog (now : Z) (d : Dialog) (e : Edge) (later : list (CommandReply * Edge))
    : list EdgeCommand * result unit * Edge :=
  match d with
  | Done r => ([], r, e)
  | Send req k =>
      match ipc_request now req e with
      | (Ok (Answer v), e') => run_dialog now (k (client_result (checked_response v))) e' later
      | (Ok (Await c), e') =>
          match later with
          | (reply, e2) :: later =>
              let '(cs, r, e3) := run_dialog now
                (k (client_result (checked_response (wait_for_command_reply reply)))) e2 later in
              (c :: cs, r, e3)
          | [] => ([c], Err (no_answer false), e')
          end
      | (_, e') => run_dialog now (k (Err (no_answer false))) e' later
      end
  end.

(** The answer to the last request of a dialog, which is what the client then prints; none
    when it is an error. *)
Fixpoint heard (now : Z) (d : Dialog) (e : Edge) (later : list (CommandReply * Edge))
    : option Json :=
  match d with
  | Done _ => None
  | Send req k =>
      match ipc_request now req e with
      | (Ok (Answer v), e') =>
          let r := client_result (checked_response v) in
          match k r with Done _ => ok r | _ => heard now (k r) e' later end
      | (Ok (Await c), e') =>
          match later with
          | (reply, e2) :: later =>
              let r := client_result (checked_response (wait_for_command_reply reply)) in
              match k r with Done _ => ok r | _ => heard now (k r) e2 later end
          | [] => None
          end
      | _ => None
      end
  end.

(** What a command is meant to have the edge do. *)
Definition history_invite (index : nat) e : option string :=
  match index with
  | O => None
  | S i => hi_invite_code <$> load_history (e_history e) !! i
  end.
Definition intended (c : Commands) e : list EdgeCommand :=
  match c with
  | DoRoom (RoomCreate name) => [CmdCreateRoom name]
  | DoRoom (RoomJoin invite None) => match invite with Some i => [CmdJoinRoom i] | None => [] end
  | DoRoom (RoomJoin _ (Some index)) =>
      match history_invite index e with Some i => [CmdJoinRoom i] | None => [] end
  | DoRoom RoomLeave => [CmdLeaveRoom]
  | DoRoom RoomActive => [CmdQueryRooms]
  | DoSupernode (SupernodeSwitch addr) =>
      match parse_socket_addr addr with Some a => [CmdSwitchSupernode a] | None => [] end
  | DoStop => [CmdStop]
  | _ => []
  end.
(** The policy a command on rules leaves. *)
Definition intended_policy (c : Commands) (p : TrafficPolicy) : TrafficPolicy :=
  match c with
  | DoRules (RuleAdd a) =>
      match rule_value a with
      | Ok v => match rule_from_value v with inr r => (rules_add r p).2 | inl _ => p end
      | _ => p
      end
  | DoRules (RuleRemove id) => (rules_remove id p).2
  | DoRules RuleEnable => (rules_enable true p).2
  | DoRules RuleDisable => (rules_enable false p).2
  | _ => p
  end.

(** Nothing unwinds, these commands are passed on, and without any this policy is left. *)
Definition went (x : list EdgeCommand * result unit * Edge) (cs : list EdgeCommand)
    (p : TrafficPolicy) : Prop :=
  x.1.1 = cs ∧ x.1.2 ≠ Panic ∧ (cs = [] → policy_of x.2 = p).

Definition passed (r : Reaction) : list EdgeCommand :=
  match r with Await c => [c] | _ => [] end.

Lemma asked now e later req r e' :
  ipc_request now req e = (Ok r, e') →
  went (run_dialog now (ask req) e later) (passed r) (policy_of e') ∧
  went (run_dialog now (ask_quietly req) e later) (passed r) (policy_of e').
Proof.
  intros H. cbn [ask ask_quietly run_dialog]. rewrite H.
  split; destruct r as [v|c|]; cbn [passed]; try done.
  - by destruct (checked_response v).
  - destruct later as [|[reply e2] later]; [done|].
    by destruct (checked_response (wait_for_command_reply reply)).
  - by destruct later as [|[reply e2] later].
Qed.

Lemma ask_went now e later req r e' p :
  ipc_request now req e = (Ok r, e') → (passed r = [] → p = policy_of e') →
  went (run_dialog now (ask req) e later) (passed r) p.
Proof.
  intros H Hp. destruct (asked now e later req r e' H) as [(H1 & H2 & H3) _].
  split_and!; [done|done|]. intros E. rewrite Hp by done. by apply H3.
Qed.

Lemma rules_request (change : M TrafficPolicy RuleError unit) e :
  changes_rules change →
  ∃ v, rule_request change e
    = (Ok (Answer v), put_policy (change (policy_of e)).2 e).
Proof.
  intros Hc. specialize (Hc (policy_of e)). unfold rule_request.
  destruct (change (policy_of e)) as [r p] eqn:E. cbn [fst snd] in *.
  rewrite (mseq_Ok (mcatch _) _ e (map_err rule_error_text r) (put_policy p e)).
  2: { unfold mcatch, mzoom. rewrite E. by destruct r. }
  destruct r; [by eexists..|done].
Qed.

Lemma add_requested now v e : ∃ w e',
  ipc_request now (add_command v) e = (Ok (Answer w), e') ∧
  policy_of e' = match rule_from_value v with
    | inr r => (rules_add r (policy_of e)).2 | inl _ => policy_of e end.
Proof.
  change (ipc_request now (add_command v)) with (add_request (add_command v)).
  unfold add_request. change (json_index (add_command v) "rule") with v.
  destruct (rule_from_value v) as [err|r]; [by eexists _, e|].
  destruct (rules_request (rules_add r) e (proj1 rule_changes r)) as [w ->]. by eexists _, _.
Qed.

Lemma rule_value_total a : rule_value a ≠ Panic.
Proof.
  unfold rule_value. pose proof (ranges_sound (arg_src_port a)) as H1.
  pose proof (ranges_sound (arg_dst_port a)) as H2.
  destruct (parse_port_ranges (arg_src_port a)); [|done..]. cbn [mbind outcome_bind].
  by destruct (parse_port_ranges (arg_dst_port a)).
Qed.

Lemma went_request now e later req r e' cs p :
  ipc_request now req e = (Ok r, e') → passed r = cs → (cs = [] → policy_of e' = p) →
  went (run_dialog now (ask req) e later) cs p.
Proof. intros H <- Hp. apply (ask_went _ _ _ _ _ _ _ H). intros E. by rewrite Hp. Qed.

(** The answer to [history] gives the entry that was chosen. *)
Definition history_answer e : Json :=
  ok_json [("history", JArray (history_item_json <$> load_history (e_history e)))].
Lemma history_chosen index e :
  invite_at index (history_answer e) = match history_invite index e with
    | Some i => Ok i
    | None => Err "Invalid history index. Please run 'r2n room history' to view valid indexes."
    end.
Proof.
  unfold invite_at, history_invite.
  change (as_array (json_index (history_answer e) "history"))
    with (Some (history_item_json <$> load_history (e_history e))).
  cbv beta iota. rewrite length_fmap, list_lookup_fmap.
  destruct index as [|i]; [done|]. rewrite Nat.sub_succ, Nat.sub_0_r.
  rewrite (bool_decide_eq_false_2 (S i = 0%nat)) by done. cbn [orb].
  case_bool_decide as Hl.
  - by rewrite (lookup_ge_None_2 (load_history (e_history e)) i) by lia.
  - destruct (lookup_lt_is_Some_2 (load_history (e_history e)) i) as [x ->]; [lia|]. done.
Qed.

(** The dialog of every command: the commands that reach the edge, no unwinding, and the
    policy that is left. *)
Lemma commands_carried_out now c d e later :
  dialog c = Some d →
  let '(cs, r, e') := run_dialog now d e later in
  cs = intended c e ∧ r ≠ Panic ∧
    (cs = [] → policy_of e' = intended_policy c (policy_of e)).
Proof.
  assert (∀ x cs p, went x cs p → let '(cs', r, e') := x in
    cs' = cs ∧ r ≠ Panic ∧ (cs' = [] → policy_of e' = p)) as Hw.
  { intros [[cs' r] e'] cs p (H1 & H2 & H3). cbn in *. by subst. }
  intros Hd. apply Hw. clear Hw. destruct rule_changes as (Hra & Hrr & Hre).
  destruct c as [a| | | | |a|[|addr]|[]|[]| |]; [..|discriminate Hd]; injection Hd as <-.
  - destruct a as [name|invite index| | | |]; try (by eapply went_request).
    + destruct index as [index|]; [|destruct invite; [by eapply went_request|done]].
      cbn [room_dialog join_dialog run_dialog].
      change (ipc_request now (plain "history") e) with (Ok (E:=string) (Answer (history_answer e)), e).
      cbv beta iota. change (checked_response (history_answer e)) with (SentOk (history_answer e)).
      cbn [client_result]. rewrite history_chosen. cbn [intended].
      destruct (history_invite index e) as [i|]; [by eapply went_request|done].
    + by apply (asked now e later _ (Answer (peers_json now e)) e).
  - cbn [status_dialog run_dialog].
    change (ipc_request now (plain "status") e) with (Ok (E:=string) (Answer (status_json now e)), e).
    cbv beta iota. destruct (client_result _) as [res| |]; [|done..].
    case_bool_decide; [done|]. by apply (asked now e later _ (Answer (peers_json now e)) e).
  - by eapply (asked now e later _ (Answer _) e).
  - eapply went_request; [reflexivity|done|done].
  - eapply went_request; [reflexivity|done|done].
  - destruct a as [|a|id| |]; [by eapply went_request| |..].
    + cbn [rules_dialog intended_policy]. destruct (rule_value a) as [v|err|] eqn:Ev; [|done|].
      * destruct (add_requested now v e) as (w & e' & Hv & Hp). by eapply went_request; [exact Hv|..].
      * pose proof (rule_value_total a) as Hv. by rewrite Ev in Hv.
    + destruct (rules_request (rules_remove id) e (Hrr id)) as [v Hv].
      by eapply went_request; [exact Hv|..].
    + destruct (rules_request (rules_enable true) e (Hre true)) as [v Hv].
      by eapply went_request; [exact Hv|..].
    + destruct (rules_request (rules_enable false) e (Hre false)) as [v Hv].
      by eapply went_request; [exact Hv|..].
  - by eapply went_request.
  - cbn [intended]. eapply went_request.
    + change (ipc_request now (with_text "switch_supernode" "supernode" addr) e)
        with (Ok (E:=string) (switch_request (with_text "switch_supernode" "supernode" addr)), e).
      reflexivity.
    + unfold switch_request. change (text_of _ _ _) with addr. by destruct (parse_socket_addr addr).
    + done.
  - by eapply went_request.
  - eapply went_request; [reflexivity|done|done].
  - by apply (asked now e later _ (Await CmdStop) e).
Qed.
End Client.

(** ** Starting the daemon *)
Section Daemon.
Context `{A : AeadLib} `{P : Etherparse} `{N : IpNetLib} `{R : RatelimitLib} `{K : Socket}
  `{TL : Toml (N:=N)} `{F : Fs} `{RV : Resolver}.

Lemma edge_saved `{!TomlLaws TL} c file file' :
  fs_readable = true → edge_save c file = (Ok tt, file') →
  edge_load file' = (Ok (normalize c), file').
Proof.
  intros Hr Hs. pose proof (save_with (λ old, mkShared (Some c) (supernode old)) file) as H.
  unfold edge_save in Hs. cbv beta in H. rewrite Hs in H. destruct H as (old & _ & Hl).
  unfold edge_load. by rewrite (mseq_Ok _ _ _ _ _ (Hl Hr)).
Qed.

Lemma elem_of_dedup_from {B} `{!EqDecision B} (kept x : B) l :
  x ∈ kept :: dedup_from (λ a b, bool_decide (a = b)) kept l ↔ x ∈ kept :: l.
Proof.
  revert kept. induction l as [|y l IH]; intros kept; [done|]. cbn [dedup_from].
  case_bool_decide as Hy.
  - subst y. rewrite IH, !elem_of_cons. naive_solver.
  - rewrite (elem_of_cons _ _ kept), IH, !elem_of_cons. naive_solver.
Qed.

Lemma elem_of_normalize_supernodes p l a : a ∈ normalize_supernodes p l ↔ a = p ∨ a ∈ l.
Proof.
  unfold normalize_supernodes, dedup_by. rewrite elem_of_dedup_from, elem_of_cons.
  rewrite list_elem_of_In, filter_In, <- list_elem_of_In, negb_true_iff, bool_decide_eq_false.
  destruct (decide (a = p)); naive_solver.
Qed.

Lemma resolve_all_spec l : match resolve_all l with
  | Some addrs => (∀ x, x ∈ l → is_Some (lookup_host x)) ∧
      ∀ a, a ∈ addrs ↔ ∃ x rest, x ∈ l ∧ lookup_host x = Some (a :: rest)
  | None => ∃ x, x ∈ l ∧ lookup_host x = None
  end.
Proof.
  induction l as [|s l IH]; cbn [resolve_all].
  { split; [by intros x ?%elem_of_nil|]. intros a. split; [by intros ?%elem_of_nil|].
    by intros (x & rest & ?%elem_of_nil & _). }
  destruct (lookup_host s) as [found|] eqn:Es; cbn [mbind option_bind].
  2: { exists s. split; [by apply elem_of_cons; left|done]. }
  destruct (resolve_all l) as [rest|]; cbn [mbind option_bind].
  2: { destruct IH as (x & Hx & Hn). exists x. split; [by apply elem_of_cons; right|done]. }
  destruct IH as [IH1 IH2]. split.
  - intros x [->|Hx]%elem_of_cons; [by rewrite Es|by apply IH1].
  - intros a. transitivity ((∃ r, found = a :: r) ∨ a ∈ rest).
    + destruct found as [|b found]; [naive_solver|]. rewrite elem_of_cons. naive_solver.
    + rewrite IH2. setoid_rewrite elem_of_cons. naive_solver.
Qed.

Lemma override_spec s t c : let c' := (override_config s t c).1 in
  default_supernode c' = default (default_supernode c) s ∧
  default_tun c' = default (default_tun c) t ∧
  (∀ x, x ∈ supernodes c → x ∈ supernodes c') ∧
  (default_supernode c ∈ supernodes c → default_supernode c' ∈ supernodes c') ∧
  ((override_config s t c).2 = false → c' = c).
Proof.
  unfold override_config, override_supernode, override_tun.
  repeat case_bool_decide; cbn; (split_and!; [done|done|..]);
    rewrite ?elem_of_cons; try set_solver; try naive_solver congruence.
Qed.

Lemma resolve_spec c : match resolve_supernodes c with
  | Ok (addr, nodes) => (∃ rest, lookup_host (default_supernode c) = Some (addr :: rest)) ∧
      (∀ x, x ∈ supernodes c → is_Some (lookup_host x)) ∧
      ∀ a, a = addr ∨ a ∈ nodes ↔
        a = addr ∨ ∃ x rest, x ∈ supernodes c ∧ lookup_host x = Some (a :: rest)
  | Err LookupFailed => ∃ x, (x = default_supernode c ∨ x ∈ supernodes c) ∧ lookup_host x = None
  | Err Unresolved => lookup_host (default_supernode c) = Some []
  | _ => False
  end.
Proof.
  unfold resolve_supernodes. destruct (lookup_host (default_supernode c)) as [[|addr rest]|] eqn:E;
    [done| |by exists (default_supernode c); split; [left|]].
  pose proof (resolve_all_spec (supernodes c)) as H. destruct (resolve_all (supernodes c)) as [l|].
  - destruct H as [H1 H2]. split; [by exists rest|]. split; [done|]. intros a. rewrite <- H2.
    case_bool_decide; [done|]. rewrite elem_of_cons. naive_solver.
  - destruct H as (x & Hx & Hn). exists x. split; [by right|done].
Qed.

(** C28: a daemon starts with what it was configured to.  Its configuration is the one of the
    file with the arguments in place of its default supernode and interface, and what is
    read from the file afterwards when they changed it; it uses the first address of the
    default supernode, knows the first address of every configured supernode and no others,
    and has the identity, key and policy of the configuration.  It only starts when every
    configured supernode can be looked up: that one cannot is the error otherwise. *)
Theorem daemon_start `{!TomlLaws TL} path fresh s t bound file :
  fs_readable = true →
  let '(loaded, file1) := edge_load_or_create path fresh file in
  match daemon path fresh s t bound file with
  | (Ok i, file') => ∃ c, loaded = Ok c ∧ let c' := (override_config s t c).1 in
      default_supernode c' = default (default_supernode c) s ∧
      default_tun c' = default (default_tun c) t ∧
      (if (override_config s t c).2 then edge_load file' = (Ok (normalize c'), file')
       else c' = c ∧ file' = file1) ∧
      (∃ rest, lookup_host (default_supernode c') = Some (init_supernode i :: rest)) ∧
      (∀ x, x ∈ supernodes c' → is_Some (lookup_host x)) ∧
      (∀ a, a ∈ supernode_list (init_settings i) ↔ a = init_supernode i ∨
         ∃ x rest, x ∈ supernodes c' ∧ lookup_host x = Some (a :: rest)) ∧
      node_id (init_settings i) = edge_node_id c' ∧
      private_key (init_settings i) = Config.private_key c' ∧
      tun_name (init_settings i) = default_tun c' ∧ init_policy i = edge_policy c'
  | (Err LookupFailed, _) => ∃ c x, loaded = Ok c ∧ lookup_host x = None ∧
      let c' := (override_config s t c).1 in x = default_supernode c' ∨ x ∈ supernodes c'
  | (Err Unresolved, _) => ∃ c, loaded = Ok c ∧
      lookup_host (default_supernode (override_config s t c).1) = Some []
  | (Err BindFailed, _) => bound = None
  | (Err (ConfigFailed _), _) | (Panic, _) => True
  end.
Proof.
  intros Hr. unfold daemon, mzoom. cbn [id].
  destruct (edge_load_or_create path fresh file) as [loaded file1] eqn:El. cbn [fst snd].
  unfold mseq at 1. rewrite El. destruct loaded as [c|err|]; [|done|done]. cbn [map_err].
  pose proof (override_spec s t c) as Ho. cbv zeta in Ho.
  destruct (override_config s t c) as [c' changed] eqn:Eo. cbn [fst snd] in *.
  destruct Ho as (H1 & H2 & _ & _ & H5).
  assert (∀ r file2, mwhen changed (λ x, let '(r, t) := edge_save c' (id x) in (map_err ConfigFailed r, t)) file1
    = (r, file2) → match r with
      | Ok _ => if changed then edge_load file2 = (Ok (normalize c'), file2) else c' = c ∧ file2 = file1
      | Err err => ∃ x, err = ConfigFailed x | Panic => True end) as Hsave.
  { intros r file2. destruct changed; cbn [mwhen id].
    - destruct (edge_save c' file1) as [[[]|err|] f2] eqn:Es; intros [= <- <-]; cbn [map_err]; eauto.
      by apply (edge_saved c' file1).
    - intros [= <- <-]. split; [by apply H5|done]. }
  unfold mseq at 1. destruct (mwhen _ _ _) as [[[]|err|] file2] eqn:Ew; specialize (Hsave _ _ eq_refl);
    [|by destruct Hsave as [x ->]|done].
  pose proof (resolve_spec c') as Hres.
  unfold mseq at 1, mlift. destruct (resolve_supernodes c') as [[addr nodes]|[]|]; try done.
  - destruct Hres as (Ha & Hx & Hn). unfold mseq. destruct bound as [transport|]; [|done].
    cbn [ok_or]. unfold edge_new, new_with_tun.
    destruct (with_config (edge_discovery c')) as [dm|[]|]; [|done].
    cbn [mbind outcome_bind lift]. exists c. rewrite Eo. cbn [fst snd init_settings init_supernode
      supernode_list node_id private_key tun_name init_policy].
    split_and!; try done. intros a. rewrite elem_of_normalize_supernodes. apply Hn.
  - destruct Hres as (x & Hx & Hnone). exists c, x. by rewrite Eo.
  - exists c. by rewrite Eo.
Qed.
End Daemon.
