(* ===== verification/CliPrint.v ===== *)
(** What the command line client prints of the answers: the lines of every command in [run]
    and [print_diagnosis] of crates/r2n-cli/src/lib.rs.

    A line is a string of UTF-8; slicing it away from a character boundary unwinds, and of the
    lines printed before that nothing is said.  How a
    number of JSON is printed as a percentage is an interface. *)
From Stdlib Require Import ZArith Lia.
From stdpp Require Import base tactics numbers list gmap strings pretty.
From S2P Require Import Prelude Bytes Net Text Common Json Cli.
Local Open Scope Z_scope.
Local Open Scope string_scope.

(** ** Formatting *)

(** A byte that is not the first of a character. *)
Definition continuation (c : Z) : bool := bool_decide (128 ≤ c < 192)%Z.
(** The number of characters. *)
Definition chars (s : string) : nat := length (List.filter (λ c, negb (continuation c)) (bytes_of s)).
Definition repeat_char (c : Z) (n : nat) : string := string_of (replicate n c).
(** [{:<n}] *)
Definition pad (n : nat) (s : string) : string := s +:+ repeat_char 32 (n - chars s).
Definition columns (widths : list nat) (cells : list string) : string :=
  String.concat " " (zip_with pad widths cells).
(** ["-".repeat(n)] *)
Definition rule_off (n : nat) : string := repeat_char 45 n.

(** [&s[..n]] *)
Definition str_prefix (n : nat) (s : string) : total string :=
  let l := bytes_of s in
  if bool_decide (n ≤ length l)%nat
  then match l !! n with
       | Some c => if continuation c then Panic else Ok (string_of (take n l))
       | None => Ok s
       end
  else Panic.

Definition show_bool (b : bool) : string := if b then "true" else "false".
Definition str_or (default_text : string) (res : Json) (key : string) : string :=
  default default_text (as_str (json_index res key)).
Definition u64_of (res : Json) (key : string) : Z := default 0%Z (as_u64 (json_index res key)).
Definition u64_text (res : Json) (key : string) : string := pretty (u64_of res key).
Definition bool_of (res : Json) (key : string) : bool := default false (as_bool (json_index res key)).
Definition bool_text (res : Json) (key : string) : string := show_bool (bool_of res key).
(** A line that is left out when its text is empty. *)
Definition unless_empty (label text : string) : list string :=
  if bool_decide (text = "") then [] else [label +:+ text].
Definition or_dash (s : string) : string := if bool_decide (s = "") then "-" else s.

(** [as_f64] and [{:.1}%] of a hundred times it. *)
Class Percent := { percent : Json → option string }.

Section Print.
Context `{PT : Percent}.

Definition ms_text (res : Json) (key : string) : string :=
  match as_u64 (json_index res key) with Some v => pretty v +:+ "ms" | None => "-" end.
Definition percent_text (res : Json) (key : string) : string :=
  default "-" (percent (json_index res key)).

(** ** Rooms *)
Definition print_create (res : Json) : list string :=
  ["Room ID:      " +:+ str_or "-" res "room_id"; "Virtual IP:   " +:+ str_or "-" res "assigned_ip";
   "Virtual CIDR: " +:+ str_or "-" res "virtual_cidr"; "Invite Code:  " +:+ str_or "-" res "invite_code"].
Definition print_join (res : Json) : list string :=
  ["Joined Room:  " +:+ str_or "-" res "room_id"; "Virtual IP:   " +:+ str_or "-" res "assigned_ip";
   "Virtual CIDR: " +:+ str_or "-" res "virtual_cidr"].

(** Rows with their numbers, from 1. *)
Fixpoint numbered_rows (row : nat → Json → total string) (i : nat) (l : list Json)
    : total (list string) :=
  match l with
  | [] => Ok []
  | x :: l => line ← row i x; rest ← numbered_rows row (S i) l; Ok (line :: rest)
  end.

Definition print_active (res : Json) : total (list string) :=
  match as_array (json_index res "rooms") with
  | None => Ok ["Failed to retrieve active rooms list."]
  | Some [] => Ok ["No active rooms on the supernode."]
  | Some rooms =>
      rows ← numbered_rows (λ i r, Ok (columns [4; 36; 15; 6]%nat [pretty i; str_or "-" r "room_id";
               str_or "-" r "name"; u64_text r "member_count"])) 1 rooms;
      Ok (columns [4; 36; 15; 6]%nat ["No."; "Room ID"; "Name"; "Peers"] :: rule_off 65 :: rows)
  end.

Definition display_invite (item : Json) : total string :=
  let invite := str_or "-" item "invite_code" in
  if bool_decide (30 < length (bytes_of invite))%nat
  then p ← str_prefix 27 invite; Ok (p +:+ "...")
  else Ok invite.
Definition history_row (i : nat) (item : Json) : total string :=
  invite ← display_invite item;
  Ok (columns [4; 36; 15; 30]%nat [pretty i; str_or "-" item "room_id"; str_or "-" item "name"; invite]).
Definition print_history (res : Json) : total (list string) :=
  match as_array (json_index res "history") with
  | None => Ok ["Failed to retrieve history list."]
  | Some [] => Ok ["No local room history found."]
  | Some history =>
      rows ← numbered_rows history_row 1 history;
      Ok (columns [4; 36; 15; 30]%nat ["No."; "Room ID"; "Name"; "Invite Code"] :: rule_off 90 :: rows)
  end.

Definition peer_row (p : Json) : string :=
  columns [20; 15; 12; 6; 8]%nat [str_or "-" p "nickname"; str_or "-" p "virtual_ip";
    str_or "Relay" p "connection"; ms_text p "rtt_ms"; percent_text p "loss_rate"].
Definition peer_table (l : list Json) : list string :=
  match l with
  | [] => ["No other peers in the room."]
  | _ => columns [20; 15; 12; 6; 8]%nat ["Nickname"; "Virtual IP"; "Connection"; "RTT"; "Loss"]
         :: rule_off 67 :: (peer_row <$> l)
  end.
Definition print_peers (res : Json) : list string :=
  match as_array (json_index res "peers") with Some l => peer_table l | None => [] end.

(** ** Status: its own lines, and the peers that are asked for when there is a room *)
Definition status_backend (res : Json) : list string :=
  let requested := str_or "" res "backend_requested" in
  let active := str_or "" res "backend_active" in
  if bool_decide (requested = "") && bool_decide (active = "") then []
  else ["Backend:   requested=" +:+ or_dash requested +:+ ", active=" +:+ or_dash active
          +:+ ", degraded=" +:+ bool_text res "backend_degraded"].
Definition status_preference (res : Json) : list string :=
  if bool_of res "virtual_interface_preference_requested" then
    ("VLAN Pref: supported=" +:+ bool_text res "virtual_interface_preference_supported"
       +:+ ", applied=" +:+ bool_text res "virtual_interface_preference_applied")
    :: unless_empty "VLAN Err:  " (str_or "" res "virtual_interface_preference_error")
  else [].
Definition status_errors (res : Json) : list string :=
  match as_array (json_index res "discovery_route_errors") with
  | Some errors => omap (λ e, (λ text, "Disc Err:  " +:+ text) <$> as_str e) errors
  | None => []
  end.
Definition lease_line (label : string) (res : Json) : list string :=
  if bool_decide (0 < u64_of res "port_mapping_lease_remaining_secs")%Z
  then [label +:+ u64_text res "port_mapping_lease_remaining_secs" +:+ "s"] else [].
Definition status_room (res : Json) : string := str_or "" res "room_id".

Definition print_status (res : Json) : list string :=
  (["Node ID:  " +:+ str_or "-" res "node_id";
   if bool_decide (status_room res = "") then "Room ID:  Not in a room"
   else "Room ID:  " +:+ status_room res;
   "Status:   " +:+ str_or "Disconnected" res "status"; "Supernode: " +:+ str_or "-" res "supernode"]
  ++ unless_empty "TUN:       " (str_or "" res "tun_name")
  ++ unless_empty "Virtual IP: " (str_or "" res "virtual_ip")
  ++ unless_empty "Route:     " (str_or "" res "route_cidr")
  ++ ["Route OK:  " +:+ str_or "Unknown" res "route_status"]
  ++ status_backend res
  ++ (if bool_decide (0 < u64_of res "effective_mtu")%Z
      then ["MTU:       " +:+ u64_text res "effective_mtu"] else [])
  ++ status_preference res
  ++ ["Discovery: " +:+ if bool_of res "discovery_routes_installed" then "Routes Installed" else "Routes Missing"]
  ++ status_errors res
  ++ ["Port Map:  " +:+ if bool_of res "port_mapping_acquired" then "Acquired" else "Not Acquired"]
  ++ unless_empty "Map Proto: " (str_or "" res "port_mapping_protocol")
  ++ unless_empty "Map Addr:  " (str_or "" res "port_mapping_external_addr")
  ++ lease_line "Map Lease: " res
  ++ ["Peers:     " +:+ u64_text res "peer_count"]
  ++ unless_empty "Last Err:  " (str_or "" res "last_error"))%list.

(** The second answer, when it came. *)
Definition print_status_peers (res : Json) (peer_res : option Json) : list string :=
  match bool_decide (status_room res = ""), peer_res ≫= λ r, as_array (json_index r "peers") with
  | false, Some l => "" :: "--- Room Peers ---" :: peer_table l
  | _, _ => []
  end.

(** ** Metrics *)
Definition metrics_row (peer : Json) : total string :=
  label ← match as_str (json_index peer "peer") with
          | Some value => str_prefix (Nat.min 16 (length (bytes_of value))) value
          | None => Ok "-"
          end;
  Ok (columns [18; 8; 8; 8; 8; 8]%nat [label; str_or "-" peer "path"; ms_text peer "last_rtt_ms";
    percent_text peer "packet_loss_rate"; u64_text peer "direct_hits"; u64_text peer "relay_hits"]).
Definition metrics_table (res : Json) : total (list string) :=
  match as_array (json_index res "peers") with
  | Some ((_ :: _) as peers) =>
      rows ← numbered_rows (λ _, metrics_row) 0 peers;
      Ok ("" :: columns [18; 8; 8; 8; 8; 8]%nat ["Peer"; "Path"; "RTT"; "Loss"; "Direct"; "Relay"]
          :: rule_off 68 :: rows)
  | _ => Ok []
  end.

Definition metrics_lines (res : Json) : list string :=
  (["Handshake Successes: " +:+ u64_text res "handshake_successes";
   "Handshake Failures: " +:+ u64_text res "handshake_failures";
   "Direct Packets:      " +:+ u64_text res "direct_packets";
   "Relay Packets:       " +:+ u64_text res "relay_packets";
   "Packet Drops:        " +:+ u64_text res "packet_drops";
   "Broadcast Packets:   " +:+ u64_text res "broadcast_packets";
   "Multicast Packets:   " +:+ u64_text res "multicast_packets";
   "L2 Flood Packets:    " +:+ u64_text res "l2_flood_packets";
   "Port Mapping:        " +:+ if bool_of res "port_mapping_acquired" then "Yes" else "No"]
  ++ unless_empty "Mapping Protocol:    " (str_or "" res "port_mapping_protocol")
  ++ unless_empty "Mapped Public Addr:  " (str_or "" res "port_mapping_external_addr")
  ++ lease_line "Lease Remaining:     " res)%list.
Definition print_metrics (res : Json) : total (list string) :=
  table ← metrics_table res; Ok (metrics_lines res ++ table)%list.

(** ** Diagnosis *)
Definition print_diagnosis (res : Json) : list string :=
  (["Node ID:      " +:+ str_or "-" res "node_id"; "Room ID:      " +:+ str_or "-" res "room_id";
   "Supernode:    " +:+ str_or "-" res "supernode";
   "Reachable:    " +:+ bool_text res "supernode_reachable";
   "NAT:          " +:+ str_or "-" res "nat_type";
   "Backend:      requested=" +:+ str_or "-" res "backend_requested" +:+ ", active="
     +:+ str_or "-" res "backend_active" +:+ ", degraded=" +:+ bool_text res "backend_degraded";
   "MTU:          " +:+ u64_text res "effective_mtu";
   "Route:        cidr=" +:+ str_or "-" res "route_cidr" +:+ ", installed="
     +:+ bool_text res "route_installed";
   "Discovery:    routes=" +:+ bool_text res "discovery_routes_installed" +:+ ", broadcast="
     +:+ u64_text res "broadcast_packets" +:+ ", multicast=" +:+ u64_text res "multicast_packets"
     +:+ ", l2_flood=" +:+ u64_text res "l2_flood_packets";
   "Rules:        enabled=" +:+ bool_text res "rules_enabled" +:+ ", count="
     +:+ u64_text res "rules_count"]
  ++ unless_empty "Last Error:   " (str_or "" res "last_error"))%list.

(** ** Rules, supernodes, routes and the MAC table *)
Definition rule_line (rule : Json) : string :=
  columns [18; 7; 9; 7; 18; 18]%nat [str_or "-" rule "id"; str_or "-" rule "action";
    str_or "-" rule "direction"; str_or "any" rule "protocol"; str_or "*" rule "src_cidr";
    str_or "*" rule "dst_cidr"].
Definition print_rules (res : Json) : list string :=
  let policy := json_index res "policy" in
  ("Enabled: " +:+ bool_text policy "enabled")
  :: ("Default: " +:+ str_or "allow" policy "default_action")
  :: match default [] (as_array (json_index policy "rules")) with
     | [] => ["No traffic rules configured."]
     | rules => columns [18; 7; 9; 7; 18; 18]%nat ["ID"; "Action"; "Direction"; "Proto"; "Src"; "Dst"]
                :: rule_off 78 :: (rule_line <$> rules)
     end.
Definition print_rule_count (what : string) (res : Json) : list string :=
  ["Rule " +:+ what +:+ ". Count: " +:+ pretty (Z.of_nat (length (default []
     (as_array (json_index (json_index res "policy") "rules")))))].

Definition print_supernodes (res : Json) : list string :=
  ("Active:    " +:+ str_or "-" res "active") :: ("Reachable: " +:+ bool_text res "reachable")
  :: match as_array (json_index res "supernodes") with
     | Some nodes => "Configured:" :: ((λ node, "  " +:+ default "-" (as_str node)) <$> nodes)
     | None => []
     end.
Definition print_routes (res : Json) : list string :=
  (["TUN:        " +:+ str_or "-" res "tun_name"; "Route CIDR: " +:+ str_or "-" res "route_cidr";
   "Installed:  " +:+ bool_text res "route_installed";
   "Discovery:  " +:+ bool_text res "discovery_routes_installed"]
  ++ ((λ error, "Error:      " +:+ default "-" (as_str error))
      <$> default [] (as_array (json_index res "discovery_route_errors"))))%list.

Definition l2_row (entry : Json) : total string :=
  let node := str_or "-" entry "node_id" in
  node_short ← str_prefix (Nat.min 18 (length (bytes_of node))) node;
  Ok (columns [18; 18; 10; 10]%nat [str_or "-" entry "mac"; node_short;
    u64_text entry "learned_for_secs" +:+ "s"; u64_text entry "idle_for_secs" +:+ "s"]).
Definition print_l2_table (res : Json) : total (list string) :=
  match default [] (as_array (json_index res "entries")) with
  | [] => Ok ["No learned L2 MAC entries."]
  | entries =>
      rows ← numbered_rows (λ _, l2_row) 0 entries;
      Ok (columns [18; 18; 10; 10]%nat ["MAC"; "Node"; "Learned"; "Idle"] :: rule_off 62 :: rows)
  end.

(** ** What a command prints of the answer to its last request *)
Definition printed (c : Commands) (res : Json) : total (list string) :=
  match c with
  | DoRoom (RoomCreate _) => Ok (print_create res)
  | DoRoom (RoomJoin _ _) => Ok (print_join res)
  | DoRoom RoomActive => print_active res
  | DoRoom RoomHistory => print_history res
  | DoRoom RoomLeave => Ok [str_or "Left room." res "message"]
  | DoRoom RoomList => Ok (print_peers res)
  | DoStatus => Ok (print_status res)
  | DoMetrics => print_metrics res
  | DoDiagnose | DoDoctor => Ok (print_diagnosis res)
  | DoRules RuleList => Ok (print_rules res)
  | DoRules (RuleAdd _) => Ok (print_rule_count "added" res)
  | DoRules (RuleRemove _) => Ok (print_rule_count "removed" res)
  | DoRules RuleEnable => Ok ["Traffic rules enabled."]
  | DoRules RuleDisable => Ok ["Traffic rules disabled."]
  | DoSupernode SupernodeList => Ok (print_supernodes res)
  | DoSupernode (SupernodeSwitch _) => Ok [str_or "Supernode switched." res "message"]
  | DoRoute RouteShow => Ok (print_routes res)
  | DoL2 L2Table => print_l2_table res
  | DoStop => Ok [str_or "Daemon stopped successfully." res "message"]
  | DoDaemon _ _ => Ok []
  end.
End Print.
