(* ===== verification/CliPrintSpec.v ===== *)
(** What the client prints: when printing unwinds, what the tables of the daemon's own answers
    show, and a command from its first request to its last line. *)
From Stdlib Require Import ZArith Lia.
From stdpp Require Import base tactics numbers list gmap strings pretty.
From S2P Require Import Prelude Bytes Net Text Common Proto Sorting Slab Etherparse Qos Crypto.
From S2P Require Import Noise Policy Rendezvous Discovery F32 Path Observability Transport Flood.
From S2P Require Import MacTable Dataplane Config Nat EdgeCore Edge EdgeFacts EdgeInv Json Ipc.
From S2P Require Import IpcSpec Cli CliSpec CliPrint.
Local Open Scope string_scope.
Local Open Scope Z_scope.

(** A cut at byte [n] is inside a character. *)
Definition splits (n : nat) (s : string) : Prop :=
  ∃ c, bytes_of s !! n = Some c ∧ continuation c = true.

Lemma str_prefix_panic n s : (n ≤ length (bytes_of s))%nat → (str_prefix n s = Panic ↔ splits n s).
Proof.
  intros Hn. unfold str_prefix, splits. rewrite bool_decide_eq_true_2 by done.
  destruct (bytes_of s !! n) as [c|] eqn:E; [|split; [done|by intros (? & ? & _)]].
  destruct (continuation c) eqn:Ec; split; try done; [by intros _; exists c|].
  intros (c' & [= <-] & ?). congruence.
Qed.

(** A table unwinds exactly when one of its rows does. *)
Lemma rows_panic (row : nat → Json → total string) (bad : Json → Prop) i l :
  (∀ i x, row i x = Panic ↔ bad x) → (numbered_rows row i l = Panic ↔ Exists bad l).
Proof.
  intros Hrow. revert i. induction l as [|x l IH]; intros i; cbn [numbered_rows].
  { by rewrite Exists_nil. }
  specialize (Hrow i x). specialize (IH (S i)). rewrite Exists_cons.
  destruct (row i x) as [line|[]|]; cbn [mbind outcome_bind]; [|by intuition].
  destruct (numbered_rows row (S i) l) as [rest|[]|]; cbn [mbind outcome_bind]; intuition congruence.
Qed.

Section Print.
Context `{PT : Percent}.

Definition bad_invite (item : Json) : Prop :=
  let invite := str_or "-" item "invite_code" in
  (30 < length (bytes_of invite))%nat ∧ splits 27 invite.
Definition bad_label (n : nat) (s : string) : Prop := splits (Nat.min n (length (bytes_of s))) s.
Definition bad_peer (peer : Json) : Prop :=
  ∃ value, as_str (json_index peer "peer") = Some value ∧ bad_label 16 value.
Definition bad_entry (entry : Json) : Prop := bad_label 18 (str_or "-" entry "node_id").

Lemma label_panic n s : str_prefix (Nat.min n (length (bytes_of s))) s = Panic ↔ bad_label n s.
Proof. apply str_prefix_panic. lia. Qed.

Lemma history_row_panic i item : history_row i item = Panic ↔ bad_invite item.
Proof.
  unfold history_row, display_invite, bad_invite. set (invite := str_or "-" item "invite_code").
  case_bool_decide as H; cbn [mbind outcome_bind]; [|split; [done|tauto]].
  pose proof (str_prefix_panic 27 invite ltac:(lia)) as Hp.
  destruct (str_prefix 27 invite) as [p|[]|]; cbn [mbind outcome_bind]; intuition congruence.
Qed.

Lemma metrics_row_panic (i : nat) peer : metrics_row peer = Panic ↔ bad_peer peer.
Proof.
  unfold metrics_row, bad_peer. destruct (as_str _) as [value|]; cbn [mbind outcome_bind].
  - pose proof (label_panic 16 value) as Hp.
    destruct (str_prefix _ value) as [p|[]|]; cbn [mbind outcome_bind]; split; intros H;
      try done; [by destruct H as (v & [= <-] & ?%Hp)|by exists value; split; [|apply Hp]].
  - split; [done|]. by intros (? & ? & _).
Qed.

Lemma l2_row_panic (i : nat) entry : l2_row entry = Panic ↔ bad_entry entry.
Proof.
  unfold l2_row, bad_entry. set (node := str_or "-" entry "node_id"). pose proof (label_panic 18 node) as Hp.
  destruct (str_prefix _ node) as [p|[]|]; cbn [mbind outcome_bind]; intuition congruence.
Qed.

(** When printing an answer unwinds. *)
Definition unwinds (c : Commands) (res : Json) : Prop :=
  match c with
  | DoRoom RoomHistory => ∃ l, as_array (json_index res "history") = Some l ∧ Exists bad_invite l
  | DoMetrics => ∃ l, as_array (json_index res "peers") = Some l ∧ Exists bad_peer l
  | DoL2 L2Table => ∃ l, as_array (json_index res "entries") = Some l ∧ Exists bad_entry l
  | _ => False
  end.

(** A table under an optional key. *)
Lemma table_panic (row : nat → Json → total string) bad i l (head : list string → list string) :
  (∀ i x, row i x = Panic ↔ bad x) →
  ((rows ← numbered_rows row i l; Ok (head rows)) = (Panic : total (list string)) ↔ Exists bad l).
Proof.
  intros H. rewrite <- (rows_panic row bad i l H).
  by destruct (numbered_rows row i l) as [|[]|].
Qed.

Lemma printed_panic c res : printed c res = Panic ↔ unwinds c res.
Proof.
  destruct c as [[]| | | | |[]|[]|[]|[]| |]; try done; cbn [printed unwinds].
  - unfold print_active. destruct (as_array _) as [[|x l]|]; [done| |done].
    rewrite (table_panic _ (λ _, False)) by done. split; [|done].
    intros (? & _ & [])%Exists_exists.
  - unfold print_history. destruct (as_array _) as [[|x l]|].
    + split; [done|]. by intros (l & [= <-] & ?%Exists_nil).
    + rewrite (table_panic _ bad_invite) by apply history_row_panic.
      split; [by intros H; eexists|by intros (? & [= <-] & ?)].
    + split; [done|by intros (? & ? & _)].
  - unfold print_metrics, metrics_table. destruct (as_array _) as [[|x l]|]; cbn [mbind outcome_bind].
    + split; [done|]. by intros (l & [= <-] & ?%Exists_nil).
    + pose proof (rows_panic (λ _, metrics_row) bad_peer 0 (x :: l) metrics_row_panic) as Hp.
      destruct (numbered_rows _ _ _) as [|[]|]; cbn [mbind outcome_bind];
        (split; [first [done | intros _; exists (x :: l); split; [done|by apply Hp]]
                |intros (? & [= <-] & ?%Hp); done]).
    + split; [done|by intros (? & ? & _)].
  - unfold print_l2_table. destruct (as_array _) as [[|x l]|]; cbn [from_option id].
    + split; [done|]. by intros (l & [= <-] & ?%Exists_nil).
    + rewrite (table_panic _ bad_entry) by apply l2_row_panic.
      split; [by intros H; eexists|by intros (? & [= <-] & ?)].
    + split; [done|by intros (? & ? & _)].
Qed.
End Print.

(** ** The daemon's own answers *)
Section Answers.
Context `{PT : Percent}.

Lemma rows_shown {B} (row : nat → Json → total string) (f : B → Json) (g : B → string) i l :
  (∀ i x, row i (f x) = Ok (g x)) → numbered_rows row i (f <$> l) = Ok (g <$> l).
Proof.
  intros H. revert i. induction l as [|x l IH]; intros i; [done|].
  cbn [fmap list_fmap numbered_rows]. rewrite H. cbn [mbind outcome_bind]. by rewrite (IH (S i)).
Qed.

(** The row of a peer in the metrics, and of an entry of the MAC table: a node is an array of
    numbers in JSON, which the client does not take for a text. *)
Definition metrics_shown (p : PeerPathMetrics) : string :=
  let v := peer_metrics_json p in
  columns [18; 8; 8; 8; 8; 8]%nat ["-"; str_or "-" v "path"; ms_text v "last_rtt_ms";
    percent_text v "packet_loss_rate"; u64_text v "direct_hits"; u64_text v "relay_hits"].
Definition l2_shown (x : L2TableEntry) : string :=
  let v := l2_entry_json x in
  columns [18; 18; 10; 10]%nat [l2_mac x; "-"; u64_text v "learned_for_secs" +:+ "s";
    u64_text v "idle_for_secs" +:+ "s"].

Lemma metrics_row_shown p : metrics_row (peer_metrics_json p) = Ok (metrics_shown p).
Proof. reflexivity. Qed.
Lemma l2_row_shown x : l2_row (l2_entry_json x) = Ok (l2_shown x).
Proof. reflexivity. Qed.

(** Printing an answer unwinds only where a text is cut inside a character: an invite code
    of more than thirty bytes in the history, at byte 27, and a label in the tables of metrics
    and MAC addresses.  The daemon's own metrics and MAC tables are always printed, one row
    for each peer or entry, and none of these rows names a node: where its name belongs there
    is a dash. *)
Theorem client_printing :
  (∀ c res, printed c res = Panic ↔ unwinds c res) ∧
  (∀ m, ∃ table, print_metrics (metrics_json m) = Ok (metrics_lines (metrics_json m) ++ table)%list ∧
    match s_peers m with
    | [] => table = []
    | ps => ∃ header, table = ("" :: header :: rule_off 68 :: (metrics_shown <$> ps))
    end) ∧
  (∀ fields entries, json_index (JObject fields) "entries" = JArray (l2_entry_json <$> entries) →
    match entries with
    | [] => print_l2_table (JObject fields) = Ok ["No learned L2 MAC entries."]
    | _ => ∃ header, print_l2_table (JObject fields)
             = Ok (header :: rule_off 62 :: (l2_shown <$> entries))
    end).
Proof.
  split; [apply printed_panic|]. split.
  - intros m. unfold print_metrics, metrics_table.
    change (json_index (metrics_json m) "peers") with (JArray (peer_metrics_json <$> s_peers m)).
    cbn [as_array]. destruct (s_peers m) as [|p ps]; cbn [fmap list_fmap]; [by exists []|].
    change (peer_metrics_json p :: (peer_metrics_json <$> ps)) with (peer_metrics_json <$> (p :: ps)).
    rewrite (rows_shown _ peer_metrics_json metrics_shown) by (intros; apply metrics_row_shown).
    cbn [mbind outcome_bind]. eexists. split; [reflexivity|]. by eexists.
  - intros fields entries E. unfold print_l2_table. rewrite E. cbn [as_array from_option id].
    destruct entries as [|x entries]; [done|]. cbn [fmap list_fmap].
    change (l2_entry_json x :: (l2_entry_json <$> entries)) with (l2_entry_json <$> (x :: entries)).
    rewrite (rows_shown _ l2_entry_json l2_shown) by (intros; apply l2_row_shown).
    cbn [mbind outcome_bind]. by eexists.
Qed.

(** An invite code of 31 bytes with a character of three bytes from byte 25 on. *)
Example history_unwinds :
  printed (DoRoom RoomHistory) (JObject [("history", JArray [JObject [("invite_code",
    JString (string_of (replicate 25 65 ++ [226; 130; 172] ++ replicate 3 65)))]])]) = Panic.
Proof. reflexivity. Qed.
End Answers.

(** ** A command from its first request to its last line *)
Section Whole.
Context `{L : Ipv4NetLib} `{Q : ArrayQueue} `{A : AeadLib} `{P : Etherparse} `{N : IpNetLib}
  `{R : RatelimitLib} `{K : Socket} `{T : TunIo} `{PC : Postcard} `{C : InviteCrypto}
  `{X : Hex} `{W : SnowLib} `{TL : Toml (N:=N)} `{F : Fs} `{HL : HistoryLib} `{PF : Platform}
  `{RS : RuleSerde (N:=N)} `{U : Unicode} `{PT : Percent}.
Implicit Types e : Edge.

(** An invite code that is too long for its column and has a character across byte 27. *)
Definition cut_inside (code : string) : Prop :=
  (30 < length (bytes_of code))%nat ∧ ∃ b, bytes_of code !! 27%nat = Some b ∧ 128 ≤ b < 192.

Lemma bad_invite_code i : bad_invite (history_item_json i) ↔ cut_inside (hi_invite_code i).
Proof.
  unfold bad_invite, cut_inside, splits, continuation.
  change (str_or "-" (history_item_json i) "invite_code") with (hi_invite_code i).
  by setoid_rewrite bool_decide_eq_true.
Qed.

(** Of the daemon's answers only the history can be one that the client unwinds on. *)
Lemma history_heard now e later res :
  heard now (ask (plain "history")) e later = Some res →
  unwinds (DoRoom RoomHistory) res ↔
    Exists cut_inside (hi_invite_code <$> load_history (e_history e)).
Proof.
  cbn [ask heard].
  change (ipc_request now (plain "history") e) with (Ok (E:=string) (Answer (history_answer e)), e).
  cbv beta iota. change (checked_response (history_answer e)) with (SentOk (history_answer e)).
  intros [= <-]. cbn [unwinds].
  change (as_array (json_index (history_answer e) "history"))
    with (Some (history_item_json <$> load_history (e_history e))).
  generalize (load_history (e_history e)). intros l. rewrite !Exists_fmap.
  assert (Exists (bad_invite ∘ history_item_json) l ↔ Exists (cut_inside ∘ hi_invite_code) l) as <-.
  { split; intros H; (eapply Exists_impl; [exact H|]); intros i; apply bad_invite_code. }
  split; [intros (? & [= <-] & H)|intros H; eexists; split; [reflexivity|]]; by apply Exists_fmap.
Qed.

Lemma metrics_heard now e later res :
  heard now (ask (plain "metrics")) e later = Some res → ¬ unwinds DoMetrics res.
Proof.
  cbn [ask heard]. set (m := Observability.snapshot now (metrics (e_dp e))).
  change (ipc_request now (plain "metrics") e) with (Ok (E:=string) (Answer (metrics_json m)), e).
  cbv beta iota. change (checked_response (metrics_json m)) with (SentOk (metrics_json m)).
  intros [= <-] (l & [= <-] & H).
  apply Exists_exists in H as (? & (p & -> & _)%list_elem_of_fmap & v & Hv & _). discriminate Hv.
Qed.

Lemma table_heard now e later res :
  heard now (ask (plain "l2_table")) e later = Some res → ¬ unwinds (DoL2 L2Table) res.
Proof.
  cbn [ask heard]. set (t := (l2_table_snapshot now (e_dp e)).1).
  change (ipc_request now (plain "l2_table") e) with
    (Ok (E:=string) (Answer (ok_json [("entries", JArray (l2_entry_json <$> t))])),
     put_dp (l2_table_snapshot now (e_dp e)).2 e).
  cbv beta iota. change (checked_response ?v) with (SentOk v).
  intros [= <-] (l & [= <-] & H).
  apply Exists_exists in H as (? & (x & -> & _)%list_elem_of_fmap & c & Hc & _). discriminate Hc.
Qed.

(** C26: every command of the client that asks the daemon does what it is for.  Its dialog with
    the daemon never unwinds; it has the edge carry out exactly the command that
    was meant, for a join by index that of the invite of this entry of the history, and
    nothing for an index or an address that is none; and a command that has the edge do
    nothing leaves the policy as it was, but for the change of rules it asks for.  Printing
    the answer unwinds for one command only: [room history], exactly when an invite code of
    the history is longer than 30 bytes and has a character across its byte 27. *)
Theorem client_commands now c d e later :
  dialog c = Some d →
  let '(cs, r, e') := run_dialog now d e later in
  (cs = intended c e ∧ r ≠ Panic ∧
    (cs = [] → policy_of e' = intended_policy c (policy_of e))) ∧
  ∀ res, heard now d e later = Some res →
    (printed c res = Panic ↔ c = DoRoom RoomHistory ∧
       Exists cut_inside (hi_invite_code <$> load_history (e_history e))).
Proof.
  intros Hd. pose proof (commands_carried_out now c d e later Hd) as Hrun.
  destruct (run_dialog now d e later) as [[cs r] e']. split; [exact Hrun|]. clear Hrun.
  intros res Hh. rewrite printed_panic.
  destruct c as [[]| | | | |[]|[]|[]|[]| |]; try (split; [done|by intros [? _]]);
    injection Hd as <-.
  - rewrite (history_heard now e later res Hh). by split; [|intros [_ ?]].
  - pose proof (metrics_heard now e later res Hh) as Hno. by split; [|intros [? _]].
  - pose proof (table_heard now e later res Hh) as Hno. by split; [|intros [? _]].
Qed.
End Whole.
