(* ===== verification/EdgeSpec.v ===== *)
(** What an edge promises: every command is answered once, entering a room succeeds or
    changes nothing that shows, and the supernodes are tried in turn. *)
From Stdlib Require Import ZArith Lia.
From stdpp Require Import base tactics numbers list gmap strings relations.
From S2P Require Import Prelude Bytes Net Text AddrText Common Proto Sorting Slab Etherparse.
From S2P Require Import Qos Crypto Noise Policy Rendezvous Discovery F32 Path Observability.
From S2P Require Import Transport Flood MacTable Dataplane Config Nat EdgeCore Edge EdgeFacts.
From S2P Require Import EdgeInv.
Local Open Scope Z_scope.
Local Open Scope string_scope.

Lemma in_option_list {B} (x : B) o : x ∈ option_list o ↔ o = Some x.
Proof.
  destruct o as [y|]; simpl.
  - rewrite list_elem_of_singleton. split; [by intros ->|by intros [= ->]].
  - split; [by intros ?%not_elem_of_nil|done].
Qed.

(** ** A command never makes the loop unwind *)
Section Calm.
Context `{L : Ipv4NetLib} `{Q : ArrayQueue} `{A : AeadLib} `{P : Etherparse} `{N : IpNetLib}
  `{R : RatelimitLib} `{K : Socket} `{T : TunIo} `{PC : Postcard} `{C : InviteCrypto}
  `{X : Hex} `{W : SnowLib} `{TL : Toml (N:=N)} `{F : Fs} `{HL : HistoryLib} `{PF : Platform}.
Definition calm {S E B} (m : M S E B) : Prop := ∀ s, (m s).1 ≠ Panic.

Lemma calm_mseq {S E B B'} (m : M S E B) (f : B → M S E B') :
  calm m → (∀ b, calm (f b)) → calm (mseq m f).
Proof.
  intros Hm Hf s. specialize (Hm s). unfold mseq. destruct (m s) as [[b|err|] s1]; [apply Hf|done|done].
Qed.
Lemma calm_mlift {S E B} (r : outcome E B) : r ≠ Panic → calm (S:=S) (mlift r).
Proof. by intros Hr s. Qed.
Lemma calm_mcatch {S E B} (m : M S E B) : calm m → calm (mcatch m).
Proof. intros Hm s. specialize (Hm s). unfold mcatch. by destruct (m s) as [[] ?]. Qed.
Lemma calm_mignore {S E B} (m : M S E B) : calm m → calm (mignore m).
Proof. intros Hm s. specialize (Hm s). unfold mignore. by destruct (m s) as [[] ?]. Qed.
Lemma calm_mwhen {S E} b (m : M S E unit) : calm m → calm (mwhen b m).
Proof. by destruct b. Qed.
Lemma calm_mzoom {S S' E E' B} (get : S → S') put (w : E' → E) (m : M S' E' B) :
  calm m → calm (mzoom get put w m).
Proof. intros Hm s. specialize (Hm (get s)). unfold mzoom. by destruct (m (get s)) as [[] ?]. Qed.
Lemma calm_mget {S E} : calm (S:=S) (E:=E) mget.
Proof. done. Qed.
Lemma calm_mmodify {S E} f : calm (S:=S) (E:=E) (mmodify f).
Proof. done. Qed.
Lemma calm_mreturn {S E B} (b : B) : calm (S:=S) (E:=E) (mreturn b).
Proof. done. Qed.
Lemma calm_mthrow {S E B} (err : E) : calm (S:=S) (B:=B) (mthrow err).
Proof. done. Qed.
Lemma calm_send frame addr : calm (send frame addr).
Proof. intros e. destruct (send_run frame addr e) as (r & t & -> & Hr). exact Hr. Qed.
Lemma calm_quit os always : calm (quit_room os always).
Proof. intros e. destruct (quit_run os always e) as (e' & -> & _). done. Qed.

Create HintDb calm.
#[local] Hint Resolve calm_mget calm_mmodify calm_mreturn calm_mthrow calm_send calm_quit
  calm_mcatch calm_mignore calm_mwhen calm_mzoom : calm.
Ltac calm :=
  repeat first
  [ solve [eauto with calm] | apply calm_mseq; [|intros] | apply calm_mcatch | apply calm_mignore
  | apply calm_mwhen | apply calm_mzoom | apply calm_mlift; unfold parse_shared_config_content; by repeat case_match
  | match goal with |- calm (match ?x with _ => _ end) => destruct x end ].

Lemma calm_command os path fresh cmd caller : calm (handle_command os path fresh cmd caller).
Proof.
  destruct cmd; cbn [handle_command];
    unfold create_room, join_room, switch_supernode, persist_supernode, send_pending_reply, reply_to,
      on_runtime, edge_load_or_create, edge_load, edge_save, load_shared_config,
      load_shared_config_if_present, save_shared_config, parse_shared_config_content,
      read_to_string, write_file, create_dir_all, ok_or; calm.
Qed.
End Calm.

(** ** Callers *)
Section Callers.
Context `{L : Ipv4NetLib} `{Q : ArrayQueue} `{A : AeadLib} `{P : Etherparse} `{N : IpNetLib}
  `{R : RatelimitLib} `{K : Socket} `{T : TunIo} `{PC : Postcard} `{C : InviteCrypto}
  `{X : Hex} `{W : SnowLib} `{TL : Toml (N:=N)} `{F : Fs} `{HL : HistoryLib} `{PF : Platform}.
Implicit Types e : Edge.

(** Who waits for an answer or has one. *)
Definition callers e : list nat :=
  option_list (e_create e) ++ option_list (e_join e) ++ option_list (e_query e)
    ++ (e_replies e).*1.

Definition queues e := (e_create e, e_join e, e_query e, e_replies e).

(** Nobody is forgotten, nobody is made up, and no answer is taken back. *)
Definition answered_more e e' : Prop :=
  callers e' ≡ₚ callers e ∧ e_replies e `prefix_of` e_replies e'.
#[local] Instance answered_more_preorder : PreOrder answered_more.
Proof.
  split; [by intros e|]. intros e1 e2 e3 [H1 H2] [H3 H4].
  split; [by rewrite H3|by etrans].
Qed.
Abbreviation answers := (leads answered_more).

Lemma more_of_queues e e' : queues e' = queues e → answered_more e e'.
Proof. unfold queues. intros [= H1 H2 H3 H4]. unfold answered_more, callers. by rewrite H1, H2, H3, H4. Qed.

Lemma answers_queues {B} (m : EM B) e : keeps queues m → answers m e.
Proof. intros Hk. apply more_of_queues, Hk. Qed.

Lemma answers_pending w r e : answers (send_pending_reply w r) e.
Proof.
  unfold send_pending_reply. apply leads_mget. destruct (pending w e) as [caller|] eqn:E; [|done].
  unfold leads, mseq, mmodify, reply_to. split; cbn; destruct w; simpl in *;
    unfold callers; cbn; rewrite ?E, ?fmap_app; simpl;
    try solve_Permutation; by apply prefix_app_r.
Qed.

Lemma queues_on_dp f : keeps queues (on_dp f).
Proof. by intros e. Qed.
Lemma queues_on_runtime f : keeps queues (on_runtime f).
Proof. by intros e. Qed.
Lemma queues_on_peer id f : keeps queues (on_peer id f).
Proof. by intros e. Qed.
Lemma queues_send frame addr : keeps queues (send frame addr).
Proof. unfold send. keeps. Qed.
Lemma queues_routes {B} (m : M RouteTable string B) : keeps queues (on_routes m).
Proof. unfold on_routes. keeps. Qed.
#[local] Hint Resolve queues_on_dp queues_on_runtime queues_on_peer queues_send queues_routes
  : keeps.
Lemma queues_activate os room ip cidr : keeps queues (activate_room os room ip cidr).
Proof. unfold activate_room, room_device. keeps. Qed.
Lemma queues_deactivate os : keeps queues (deactivate_room os).
Proof. unfold deactivate_room. keeps. Qed.
Lemma queues_learn now supernode peer : keeps queues (learn_peer now supernode peer).
Proof. unfold learn_peer. keeps. Qed.
Lemma queues_forget id : keeps queues (forget_peer id).
Proof. unfold forget_peer. keeps. Qed.
#[local] Hint Resolve queues_activate queues_deactivate queues_learn queues_forget : keeps.
Lemma queues_peer_list now supernode ps : keeps queues (peer_list now supernode ps).
Proof. unfold peer_list. keeps. Qed.
Lemma queues_punch pr now key eph target cands :
  keeps queues (punch_request pr now key eph target cands).
Proof. unfold punch_request, failed_handshake. keeps. Qed.
Lemma queues_handshake now eph from payload addr :
  keeps queues (handshake now eph from payload addr).
Proof. unfold handshake, handshake_message, failed_handshake. keeps. Qed.
Lemma queues_remember os room name invite : keeps queues (remember_room os room name invite).
Proof. unfold remember_room. keeps. Qed.
Lemma queues_quit os always : keeps queues (quit_room os always).
Proof. unfold quit_room. keeps. Qed.
#[local] Hint Resolve queues_peer_list queues_punch queues_handshake queues_remember queues_quit
  : keeps.

Ltac by_queues := apply answers_queues; keeps.

Lemma answers_entered w os verb room ip cidr k e :
  (∀ e, answers k e) → answers (entered_room w os verb room ip cidr k) e.
Proof.
  intros Hk. unfold entered_room. apply leads_mseq; [typeclasses eauto|by_queues|].
  intros [|err|] e' _; [apply Hk| |apply Hk].
  apply leads_mseq; [typeclasses eauto|by_queues|]. intros _ e2 _. apply answers_pending.
Qed.

Lemma answers_control pr os now draw supernode frame addr e :
  answers (handle_control pr os now draw supernode frame addr) e.
Proof.
  destruct frame; simpl; try (by_queues; fail).
  - apply answers_entered. intros e1. apply leads_mseq; [typeclasses eauto|by_queues|].
    intros _ e2 _. apply leads_mget. do 2 (apply leads_mseq; [typeclasses eauto|by_queues|intros]).
    apply answers_pending.
  - apply answers_entered. intros e1. apply leads_mget.
    apply leads_mseq; [typeclasses eauto|by_queues|intros]. apply answers_pending.
  - do 2 (apply leads_mseq; [typeclasses eauto|by_queues|intros]). apply answers_pending.
  - do 2 (apply leads_mseq; [typeclasses eauto|first [apply answers_pending|by_queues]|intros]).
    apply answers_pending.
  - apply answers_pending.
Qed.

Lemma answers_udp pr os now draw buf len from e : answers (udp_round pr os now draw buf len from) e.
Proof.
  unfold udp_round. destruct (recv_packet buf len from) as [[packet addr]| |]; [|done..].
  apply leads_mget. apply leads_mseq; [typeclasses eauto| |].
  { apply answers_queues. unfold supernode_seen. keeps. }
  intros _ e1 _. destruct packet as [frame|[header [first last]]]; [apply answers_control|by_queues].
Qed.

Lemma reply_run caller r e :
  ∃ e', reply_to caller r e = (Ok tt, e') ∧ callers e' ≡ₚ caller :: callers e ∧
    e_replies e' = (e_replies e ++ [(caller, r)])%list.
Proof.
  eexists. split; [reflexivity|]. split; [|done].
  unfold callers. cbn. rewrite fmap_app. simpl. solve_Permutation.
Qed.

(** A command that is refused, or waits, or fails to be sent. *)
Definition taken caller (m : EM unit) e : Prop :=
  ∀ r e', m e = (r, e') → r ≠ Panic →
    callers e' ≡ₚ caller :: callers e ∧ e_replies e `prefix_of` e_replies e'.

Lemma taken_reply caller r e : taken caller (reply_to caller r) e.
Proof.
  intros r' e' E _. destruct (reply_run caller r e) as (e1 & E1 & H1 & H2).
  rewrite E in E1. injection E1 as _ <-. split; [exact H1|]. rewrite H2. by apply prefix_app_r.
Qed.

Definition no_error {B} (m : EM B) : Prop := ∀ e err e', m e ≠ (Err err, e').
Lemma no_error_mignore {B} (m : EM B) : no_error (mignore m).
Proof. intros e err e'. unfold mignore. by destruct (m e) as [[] ?]. Qed.
Lemma no_error_mcatch {B} (m : EM B) : no_error (mcatch m).
Proof. intros e err e'. unfold mcatch. by destruct (m e) as [[] ?]. Qed.
Lemma no_error_mmodify f : no_error (mmodify f).
Proof. done. Qed.
Lemma no_error_quit os always : no_error (quit_room os always).
Proof. intros e err e'. destruct (quit_run os always e) as (e1 & -> & _). done. Qed.

Lemma taken_after {B} caller (m : EM B) (f : B → EM unit) e :
  keeps queues m → no_error m → (∀ b e, taken caller (f b) e) → taken caller (mseq m f) e.
Proof.
  intros Hm He Hf r e' E Hr. specialize (Hm e). specialize (He e). unfold mseq in E.
  destruct (m e) as [[b|err|] e1]; [|by destruct (He err e1)|by injection E as <- <-].
  destruct (Hf b e1 r e' E Hr) as [H1 H2]. apply more_of_queues in Hm as [H3 H4].
  split; [by rewrite H1, H3|by etrans].
Qed.

Lemma taken_get caller (f : Edge → EM unit) e : taken caller (f e) e → taken caller (mseq mget f) e.
Proof. done. Qed.

Lemma taken_pending w caller (m : EM unit) e :
  pending w e = None → (∀ e, answers m e) →
  taken caller (mseq (mmodify (put_pending w (Some caller))) (λ _, m)) e.
Proof.
  intros Hw Hm r e' E _. specialize (Hm (put_pending w (Some caller) e)).
  unfold mseq, mmodify in E. unfold leads in Hm. rewrite E in Hm. destruct Hm as [H1 H2].
  assert (callers (put_pending w (Some caller) e) ≡ₚ caller :: callers e) as H3.
  { destruct w; simpl in Hw; unfold callers; cbn; rewrite Hw; simpl; solve_Permutation. }
  split; [by rewrite H1, H3|by destruct w].
Qed.

Lemma taken_create name caller e : taken caller (create_room name caller) e.
Proof.
  unfold create_room. apply taken_get. destruct (e_room e); [apply taken_reply|].
  destruct (e_create e) eqn:E; [apply taken_reply|].
  apply (taken_pending PendingCreate); [done|]. intros e1.
  do 2 (apply leads_mseq; [typeclasses eauto|by_queues|intros]).
  match goal with |- leads _ (match ?r with _ => _ end) _ => destruct r end; [done| |done].
  apply leads_mseq; [typeclasses eauto|by_queues|intros]. apply answers_pending.
Qed.

Lemma taken_join invite caller e : taken caller (join_room invite caller) e.
Proof.
  unfold join_room. apply taken_get. destruct (e_room e); [apply taken_reply|].
  destruct (e_join e) eqn:E; [apply taken_reply|].
  destruct (decode_invite invite) as [data|]; [|apply taken_reply].
  destruct (resolve_supernode_addr _ _) as [target|]; [|apply taken_reply].
  apply (taken_pending PendingJoin); [done|]. intros e1.
  do 2 (apply leads_mseq; [typeclasses eauto|by_queues|intros]).
  match goal with |- leads _ (match ?r with _ => _ end) _ => destruct r end; [done| |done].
  apply leads_mseq; [typeclasses eauto|by_queues|intros]. apply answers_pending.
Qed.

Lemma taken_command os path fresh cmd caller e :
  taken caller (handle_command os path fresh cmd caller) e.
Proof.
  assert (∀ always, keeps queues (quit_room os always) ∧ no_error (quit_room os always)) as Hq
    by (intros; split; [keeps|apply no_error_quit]).
  destruct cmd; cbn [handle_command].
  - apply taken_create.
  - apply taken_join.
  - apply taken_after; [apply Hq..|]. intros _ e1. apply taken_reply.
  - apply taken_after; [apply Hq..|]. intros _ e1 r e' E Hr.
    unfold mseq in E. destruct (reply_run caller (Ok VStopping) e1) as (e2 & E2 & H1 & H2).
    rewrite E2 in E. injection E as <- <-. split; [exact H1|]. cbn. rewrite H2. by apply prefix_app_r.
  - apply taken_get. destruct (e_query e) eqn:E; [apply taken_reply|].
    apply (taken_pending PendingQuery); [done|]. intros e1.
    apply leads_mseq; [typeclasses eauto|by_queues|intros].
    match goal with |- leads _ (match ?r with _ => _ end) _ => destruct r end; [done| |done].
    apply answers_pending.
  - unfold switch_supernode. apply taken_after; [apply Hq..|]. intros _ e1.
    apply taken_after; [keeps|apply no_error_mmodify|]. intros _ e2.
    apply taken_after; [keeps|apply no_error_mmodify|]. intros _ e3.
    apply taken_after; [keeps|apply no_error_mignore|]. intros _ e4. apply taken_get.
    apply taken_after; [keeps|apply no_error_mcatch|]. intros [] e5; apply taken_reply.
Qed.

(** What an event other than a command does to the callers. *)
Lemma loop_answers pr e e' : loop_step pr e e' → answered_more e e'.
Proof.
  assert (∀ B (m : EM B) r e1 e2, answers m e1 → m e1 = (r, e2) → answered_more e1 e2)
    as Hlead by (unfold leads; intros B m r e1 e2 H E; by rewrite E in H).
  intros [e1 os now draw buf len from e2 _ E|e1 r e2 _ E _|e1 os now e2 _ E|e1 os now s e2 _ E
    |e1 l b k b' e2 _ _ E|e1 now payload r dp _ E _|e1 now seq r dp _ E _].
  - exact (Hlead _ _ _ _ _ (answers_udp pr os now draw buf len from e1) E).
  - destruct E as [E|E]; refine (Hlead _ _ _ _ _ _ E); apply answers_queues;
      unfold heartbeat, p2p_heartbeat; keeps.
  - refine (Hlead _ _ _ _ _ _ E). apply answers_queues. unfold watchdog, reconnect. keeps.
  - refine (Hlead _ _ _ _ _ _ E). apply answers_queues.
    unfold mapping_changed, apply_port_mapping_snapshot. keeps.
  - assert (keeps queues (burst_round b)) as H by (unfold burst_round; keeps).
    specialize (H e1). rewrite E in H. exact (more_of_queues _ _ H).
  - done.
  - done.
Qed.

Lemma step_answers pr e e' :
  edge_step pr e e' →
  answered_more e e' ∨
  ∃ os path fresh cmd caller r, caller ∉ callers e ∧
    handle_command os path fresh cmd caller e = (r, e') ∧ r ≠ Panic.
Proof.
  intros [e1 e2 H|e1 os path fresh cmd caller r e2 _ Hp Hc E Hr];
    [left; by eapply loop_answers|right].
  exists os, path, fresh, cmd, caller, r. split; [|done].
  unfold callers. rewrite !elem_of_app, !in_option_list.
  pose proof (Hp PendingCreate). pose proof (Hp PendingJoin). pose proof (Hp PendingQuery).
  simpl in *. tauto.
Qed.

Lemma start_queues os now mapping collected i history config e :
  run_start os now mapping collected i history config = Ok e → callers e = [].
Proof.
  intros (dp & fp & base & adv & frame & _ & E)%start_run.
  match type of E with mseq ?m ?f ?e0 = _ =>
    assert (keeps queues (mseq m f)) as Hk by (unfold apply_port_mapping_snapshot; keeps);
    specialize (Hk e0); rewrite E in Hk end.
  injection Hk as H1 H2 H3 H4. unfold callers. by rewrite H1, H2, H3, H4.
Qed.

(** What is said to a command that cannot wait because another one does. *)
Definition refusal (w : Pending) : string :=
  match w with
  | PendingCreate => "another room creation is already in progress"
  | PendingJoin => "another join operation is already in progress"
  | PendingQuery => "another rooms query is already in progress"
  end.

(** The commands that wait, and where. *)
Definition waits_for (cmd : EdgeCommand) : option Pending :=
  match cmd with
  | CmdCreateRoom _ => Some PendingCreate
  | CmdJoinRoom _ => Some PendingJoin
  | CmdQueryRooms => Some PendingQuery
  | _ => None
  end.

Lemma busy_refused os path fresh cmd w caller other e :
  waits_for cmd = Some w → (w = PendingQuery ∨ e_room e = None) → pending w e = Some other →
  handle_command os path fresh cmd caller e = reply_to caller (Err (refusal w)) e.
Proof.
  intros Hw Hr Hp.
  destruct cmd; try discriminate Hw; injection Hw as <-; cbn [handle_command pending] in *;
    unfold create_room, join_room; rewrite (mseq_Ok mget _ e e e eq_refl).
  - destruct Hr as [?| ->]; [done|]. by rewrite Hp.
  - destruct Hr as [?| ->]; [done|]. by rewrite Hp.
  - by rewrite Hp.
Qed.

Lemma command_adds os path fresh cmd caller e :
  let e' := (handle_command os path fresh cmd caller e).2 in
  callers e' ≡ₚ caller :: callers e ∧ e_replies e `prefix_of` e_replies e'.
Proof.
  pose proof (calm_command os path fresh cmd caller e) as Hr.
  destruct (handle_command os path fresh cmd caller e) as [r e'] eqn:E.
  exact (taken_command os path fresh cmd caller e r e' E Hr).
Qed.

(** C16: every command is answered at most once, and none is lost.  Along any run of an edge
    the callers that wait or were answered are distinct, so that no one is answered twice or
    answered and kept waiting.  Every command, whatever the state, adds exactly its caller,
    who then waits or has an answer, and never unwinds; one that would have to wait where
    another already waits is answered at once with a refusal, and nothing else changes.
    Every other step, of the loop over the socket or of a task, leaves the callers as they
    are, though a waiting one may get its answer.  No step changes an answer given. *)
Theorem commands_answered pr e :
  edge_reachable pr e →
  NoDup (callers e) ∧
  (∀ e', loop_step pr e e' →
     callers e' ≡ₚ callers e ∧ e_replies e `prefix_of` e_replies e') ∧
  ∀ os path fresh cmd caller, ∃ r e',
    handle_command os path fresh cmd caller e = (r, e') ∧ r ≠ Panic ∧
    callers e' ≡ₚ caller :: callers e ∧ e_replies e `prefix_of` e_replies e' ∧
    ∀ w other, waits_for cmd = Some w → (w = PendingQuery ∨ e_room e = None) →
      pending w e = Some other →
      r = Ok tt ∧ e' = put_replies (e_replies e ++ [(caller, Err (refusal w))])%list e.
Proof.
  intros (os & now & mapping & collected & i & history & config & e0 & E0 & Hs).
  split; [|split].
  - apply start_queues in E0.
    assert (NoDup (callers e0)) as H0 by (rewrite E0; constructor). clear E0.
    induction Hs as [|e0 e1 e2 H1 _ IH]; [done|]. apply IH.
    apply step_answers in H1 as [[-> _]|(? & ? & ? & ? & caller & r & Hc & E & Hr)]; [done|].
    destruct (taken_command _ _ _ _ _ _ _ _ E Hr) as [-> _]. by constructor.
  - intros e'. apply loop_answers.
  - clear. intros os path fresh cmd caller.
    pose proof (calm_command os path fresh cmd caller e) as Hr.
    pose proof (command_adds os path fresh cmd caller e) as [H1 H2].
    pose proof (busy_refused os path fresh cmd) as Hb.
    destruct (handle_command os path fresh cmd caller e) as [r e'] eqn:E. exists r, e'.
    split_and!; try done. intros w other Hw Hroom Hp.
    specialize (Hb w caller other e Hw Hroom Hp). rewrite E in Hb. by injection Hb as -> ->.
Qed.
End Callers.

(** ** Entering a room *)
Section Entering.
Context `{L : Ipv4NetLib} `{Q : ArrayQueue} `{A : AeadLib} `{P : Etherparse} `{N : IpNetLib}
  `{R : RatelimitLib} `{K : Socket} `{T : TunIo} `{PC : Postcard} `{C : InviteCrypto}
  `{X : Hex} `{W : SnowLib} `{TL : Toml (N:=N)} `{F : Fs} `{HL : HistoryLib} `{PF : Platform}.
Implicit Types e : Edge.

(** All but the callers. *)
Definition rest e : Edge := put_replies [] (put_create None (put_join None (put_query None e))).

(** What a handler of an answer needs from the state before the activation. *)
Definition asked e := (e_invite e, e_history e, e_join e, e_create e, e_room_name e, e_replies e).
Lemma asked_routes {B} (m : M RouteTable string B) : keeps asked (on_routes m).
Proof. unfold on_routes. keeps. Qed.
#[local] Hint Resolve asked_routes : keeps.
Lemma asked_activate os room ip cidr : keeps asked (activate_room os room ip cidr).
Proof. unfold activate_room, room_device, on_dp, on_runtime. keeps. Qed.

Lemma entered_rest os room ip cidr e e1 e2 h :
  rest e2 = rest (put_history h e1) → entered os room ip cidr e e1 → entered os room ip cidr e e2.
Proof.
  intros E [H1 H2 H3 H4 H5]. unfold rest in E. destruct e1, e2. cbn in *.
  injection E as -> -> -> -> -> -> -> -> -> -> -> -> -> -> ->. by split.
Qed.

Lemma inv_rest e1 e2 h : rest e2 = rest (put_history h e1) → edge_inv e1 → edge_inv e2.
Proof.
  intros E. apply edge_inv_of_view. unfold rest in E. destruct e1, e2. cbn in *.
  by injection E as -> -> -> -> -> -> -> -> -> -> -> -> -> -> ->.
Qed.

(** Where an attempt to enter stands once it has its device: the one there was and nothing
    else changed, or one it made, which the runtime already shows. *)
Definition equipped (os : Os) (ip : VirtualIp) e (device : TunDevice) (made : bool) (e1 : Edge)
    : Prop :=
  if made then tun (e_dp e) = None ∧ ∃ degraded warning,
    create_tun_device_with_backend os (tun_name (settings e)) (VirtualIp_to_string ip) 24
      (tun_mtu (settings e)) (backend (settings e)) = Ok (device, degraded, warning) ∧
    e1 = put_runtime (set_device (device_mode_label (tun_mode device)) degraded
           (tun_effective_mtu device) warning (e_runtime e))
           (put_dp (set_tun (Some device) (e_dp e)) e)
  else tun (e_dp e) = Some device ∧ e1 = e.

(** Why an edge does not enter a room, with the error and all that is left of the attempt. *)
Inductive refused (os : Os) (room : RoomId) (ip : VirtualIp) (cidr : string) (e : Edge)
    : string → Edge → Prop :=
  | refused_other active :
      e_room e = Some active → active ≠ room →
      refused os room ip cidr e ("already in room " +:+ show_room active
        +:+ ", leave it before joining or creating another room") e
  | refused_device err :
      tun (e_dp e) = None →
      create_tun_device_with_backend os (tun_name (settings e)) (VirtualIp_to_string ip) 24
        (tun_mtu (settings e)) (backend (settings e)) = Err err →
      refused os room ip cidr e err e
  | refused_name device made e1 :
      equipped os ip e device made e1 → tun_if_name device = None →
      refused os room ip cidr e name_error e1
  | refused_cidr device made e1 :
      equipped os ip e device made e1 → net_parse cidr = None →
      refused os room ip cidr e (net_error cidr) e1
  | refused_route device made e1 name network err :
      equipped os ip e device made e1 → tun_if_name device = Some name →
      net_parse cidr = Some network → add_route os network name (e_routes e) = (Err err, e_routes e) →
      refused os room ip cidr e err (if made then put_dp (set_tun None (e_dp e1)) e1 else e1).

Lemma room_device_exact os ip e :
  match room_device os ip e with
  | (Ok (device, made), e1) => equipped os ip e device made e1
  | (Err err, e1) => e1 = e ∧ tun (e_dp e) = None ∧
      create_tun_device_with_backend os (tun_name (settings e)) (VirtualIp_to_string ip) 24
        (tun_mtu (settings e)) (backend (settings e)) = Err err
  | (Panic, _) => False
  end.
Proof.
  unfold room_device. rewrite (mseq_Ok mget _ e e e eq_refl).
  destruct (tun (e_dp e)) as [device|] eqn:Et; [by split|].
  pose proof (create_device_total os (tun_name (settings e)) (VirtualIp_to_string ip) 24
    (tun_mtu (settings e)) (backend (settings e))) as Hmade.
  destruct (create_tun_device_with_backend _ _ _ _ _ _) as [[[device degraded] warning]|err|] eqn:E;
    [| |done]; unfold mseq, mlift; [|done].
  split; [done|]. by exists degraded, warning.
Qed.

(** An attempt in full: the error and the state it leaves, or the fields it has set. *)
Lemma activate_exact os room ip cidr e r e1 :
  activate_room os room ip cidr e = (r, e1) →
  match r with
  | Ok _ => ∃ device routes rt, e1 = put_runtime rt (put_room (Some room) (put_routes routes
      (put_dp (set_room_id (Some room) (set_tun (Some device) (e_dp e))) e)))
  | Err err => refused os room ip cidr e err e1
  | Panic => True
  end.
Proof.
  unfold activate_room. rewrite (mseq_Ok mget _ e e e eq_refl).
  destruct (decide (e_room e = None ∨ e_room e = Some room)) as [Hr|Hr].
  2: { destruct (e_room e) as [active|] eqn:Ea; [|tauto].
       rewrite bool_decide_eq_false_2 by (intros ->; tauto). intros [= <- <-].
       apply refused_other; [done|]. intros ->. tauto. }
  match goal with |- context [mseq ?m _ e] => assert (m e = (Ok tt, e)) as Hg end.
  { destruct (e_room e); [|done]. by rewrite bool_decide_eq_true_2 by naive_solver. }
  rewrite (mseq_Ok _ _ _ _ _ Hg). clear Hg. pose proof (room_device_exact os ip e) as Hd.
  destruct (room_device os ip e) as [[[device made]|err|] e2] eqn:E1; [| |done].
  2: { unfold mseq at 1. rewrite E1. intros [= <- <-]. destruct Hd as (-> & ? & ?).
       by apply refused_device. }
  rewrite (mseq_Ok _ _ _ _ _ E1).
  destruct (tun_if_name device) as [name|] eqn:Hname; cbn [ok_or]; cycle 1.
  { intros [= <- <-]. by eapply refused_name. }
  rewrite (mseq_Ok (mlift (Ok name)) _ e2 name e2 eq_refl).
  destruct (apply_preference_total os (Config.prefer_virtual_interface (virtual_lan (settings e))) name)
    as ([applied perr] & Hp).
  rewrite Hp, (mseq_Ok (mlift (Ok (applied, perr))) _ e2 _ e2 eq_refl).
  destruct (net_parse cidr) as [network|] eqn:Hnet; cbn [ok_or]; cycle 1.
  { intros [= <- <-]. by eapply refused_cidr. }
  rewrite (mseq_Ok (mlift (Ok network)) _ e2 network e2 eq_refl).
  destruct (add_route_run os network name (e_routes e2)) as (r0 & t & Eadd & Hadd).
  assert (mcatch (on_routes (add_route os network name)) e2 =
    (match r0 with Panic => Panic | r => Ok r end, put_routes t e2)) as Hm.
  { unfold mcatch, on_routes, mzoom. rewrite Eadd. by destruct r0 as [[]| |]. }
  assert (e_routes e2 = e_routes e) as Er.
  { destruct made; cbn in Hd; [destruct Hd as (_ & ? & ? & _ & ->)|destruct Hd as [_ ->]]; done. }
  destruct r0 as [[]|err|]; [| |done]; rewrite (mseq_Ok _ _ _ _ _ Hm); clear Hm.
  - destruct (lan_routes_total os (route_cidrs (discovery (e_dp e2))) name t) as (errors & t' & El).
    rewrite (mseq_Ok mget _ _ _ _ eq_refl). cbn [e_dp put_routes].
    assert (on_routes (add_lan_discovery_routes os (route_cidrs (discovery (e_dp e2))) name)
      (put_routes t e2) = (Ok errors, put_routes t' (put_routes t e2))) as Hl.
    { unfold on_routes, mzoom. cbn [e_routes put_routes]. by rewrite El. }
    rewrite (mseq_Ok _ _ _ _ _ Hl). intros [= <- <-]. exists device, t'.
    destruct made; cbn in Hd; [destruct Hd as (_ & ? & ? & _ & ->)|destruct Hd as [Ht ->]];
      eexists; [reflexivity|]. rewrite <- Ht. destruct e as [? []]; reflexivity.
  - subst t. rewrite Er in Eadd.
    pose proof (refused_route os room ip cidr e device made e2 name network err Hd Hname Hnet Eadd)
      as Hre.
    assert (put_routes (e_routes e2) e2 = e2) as -> by (by destruct e2).
    destruct made; intros [= <- <-]; exact Hre.
Qed.

Lemma pending_reply_exact w r e :
  send_pending_reply w r e = (Ok tt, put_replies (e_replies e ++ ((λ caller, (caller, r))
    <$> option_list (pending w e)))%list (put_pending w None e)).
Proof.
  unfold send_pending_reply. rewrite (mseq_Ok mget _ e e e eq_refl).
  destruct (pending w e) as [caller|] eqn:E; [by destruct w|].
  cbn [option_list fmap list_fmap]. rewrite app_nil_r. unfold mreturn.
  destruct w, e; cbn in *; by subst.
Qed.

(** C17: the answer to a join decides everything at once.  When it arrives the edge either
    enters the room or does not, and in both cases nobody waits for it any more.  It enters
    only from no room or the same one, with the device there was or a new one, and then the
    route to the network of the room and those of the discovery are there, the runtime shows
    address, CIDR and interface, the room is filed in the history under the invite that was
    used, whoever asked is told so, and nothing of the edge but these is changed.  Otherwise
    there is one of five reasons: another room, no device, no name for it, a CIDR that does
    not parse, a route that is refused.  Then whoever asked is told the error, the runtime
    shows it, and every other field of the edge, its dataplane and its runtime is as it was,
    unless a device was made: the runtime keeps the mode, the degradation and the MTU of the
    device, and the device itself stays, except where the route was refused. *)
Theorem join_accepted pr os now draw supernode room ip cidr name addr e :
  edge_inv e →
  ∃ e', handle_control pr os now draw supernode (JoinAccept room ip cidr name) addr e = (Ok tt, e') ∧
    edge_inv e' ∧ e_join e' = None ∧
    ((entered os room ip cidr e e' ∧
      ∃ device routes rt, e' =
        put_replies (e_replies e ++ ((λ caller, (caller, Ok (VJoined (show_room room)
          (VirtualIp_to_string ip) cidr))) <$> option_list (e_join e)))%list
        (put_join None
        (put_history (match e_invite e with
           | Some invite => add_to_history (os_unix_secs os) (show_room room)
               (default ("Room-" +:+ show_room room) name) invite (e_history e)
           | None => e_history e
           end)
        (put_runtime rt (put_room (Some room) (put_routes routes
        (put_dp (set_room_id (Some room) (set_tun (Some device) (e_dp e))) e))))))) ∨
     (∃ err e1, refused os room ip cidr e err e1 ∧
      e' = put_replies (e_replies e ++ ((λ caller, (caller,
             Err ("failed to activate joined room: " +:+ err))) <$> option_list (e_join e)))%list
           (put_join None (put_runtime (set_last_error (Some err) (e_runtime e1)) e1)))).
Proof.
  intros He. cbn [handle_control]. unfold entered_room.
  destruct (activate_run os room ip cidr e He) as (r & e1 & E1 & He1 & Hr).
  pose proof (activate_exact _ _ _ _ _ _ _ E1) as Hx.
  pose proof (asked_activate os room ip cidr e) as Ha. rewrite E1 in Ha.
  injection Ha as A1 A2 A3 A4 A5 A6.
  assert (mcatch (activate_room os room ip cidr) e
    = (match r with Panic => Panic | _ => Ok r end, e1)) as E by (unfold mcatch; by rewrite E1; destruct r).
  destruct r as [[]|err|]; [| |done]; rewrite (mseq_Ok _ _ _ _ _ E); clear E.
  - rewrite (mseq_Ok mget _ e1 e1 e1 eq_refl), A1.
    set (h := match e_invite e with Some _ => _ | None => e_history e end).
    match goal with |- context [mseq ?m _ e1] =>
      assert (m e1 = (Ok tt, put_history h e1)) as E end.
    { subst h. unfold remember_room, mmodify. rewrite <- A2. destruct (e_invite e); [done|].
      by destruct e1. }
    rewrite (mseq_Ok _ _ _ _ _ E), pending_reply_exact. cbn [pending put_pending].
    eexists. split; [reflexivity|]. split; [by eapply (inv_rest e1 _ h)|]. split; [done|]. left.
    split; [by eapply (entered_rest _ _ _ _ e e1 _ h)|].
    destruct Hx as (device & routes & rt & ->). by exists device, routes, rt.
  - match goal with |- context [mseq (on_runtime ?f) _ _] =>
      rewrite (mseq_Ok (on_runtime f) _ e1 tt (put_runtime (f (e_runtime e1)) e1) eq_refl) end.
    rewrite pending_reply_exact. cbn [pending put_pending]. eexists. split; [reflexivity|].
    split; [|split; [done|right; exists err, e1]].
    + apply (inv_rest (put_runtime (set_last_error (Some err) (e_runtime e1)) e1) _ (e_history e1));
        [done|]. by apply (edge_inv_of_view e1).
    + split; [done|]. cbn. by rewrite A6, A3.
Qed.
End Entering.

(** ** Supernodes in turn *)
Lemma position_Some {B} (f : B → bool) l i :
  position f l = Some i → ∃ x, l !! i = Some x ∧ f x = true.
Proof.
  revert i. induction l as [|x l IH]; intros i; simpl; [done|].
  destruct (f x) eqn:E; [intros [= <-]; by exists x|].
  destruct (position f l) as [j|]; [|done]. intros [= <-]. by apply IH.
Qed.

Lemma position_lookup `{EqDecision B} (l : list B) x i :
  NoDup l → l !! i = Some x → position (λ y, bool_decide (y = x)) l = Some i.
Proof.
  revert i. induction l as [|y l IH]; intros i Hl Hi; [done|]. apply NoDup_cons in Hl as [Hy Hl].
  simpl. destruct i as [|i]; simpl in Hi.
  - injection Hi as ->. by rewrite bool_decide_eq_true_2.
  - rewrite bool_decide_eq_false_2, (IH i Hl Hi); [done|]. intros ->. by apply Hy, (list_elem_of_lookup_2 _ i).
Qed.

Lemma next_total current l : ∃ a, next_supernode_after current l = Ok a.
Proof.
  unfold next_supernode_after. case_bool_decide as Hl; [by eexists|].
  set (i := match position _ _ with Some idx => ((idx + 1) mod length l)%nat | None => 0%nat end).
  assert (i < length l)%nat as Hi.
  { subst i. destruct (position _ _); [apply Nat.mod_upper_bound|]; lia. }
  apply lookup_lt_is_Some in Hi as [a ->]. by exists a.
Qed.

(** The successor in a list without duplicates, around the end. *)
Lemma next_in_turn l i current :
  NoDup l → l !! i = Some current →
  next_supernode_after current l = from_option Ok Panic (l !! ((i + 1) mod length l)%nat).
Proof.
  intros Hl Hi. unfold next_supernode_after. pose proof (lookup_lt_Some _ _ _ Hi) as Hlt.
  case_bool_decide as Hn.
  - assert (length l = 1 ∧ i = 0)%nat as [H1 ->] by lia. rewrite H1. simpl. by rewrite Hi.
  - rewrite (position_lookup l current i Hl Hi). by destruct (l !! _).
Qed.

Section Rotation.
Context `{L : Ipv4NetLib} `{Q : ArrayQueue} `{A : AeadLib} `{P : Etherparse} `{N : IpNetLib}
  `{R : RatelimitLib} `{K : Socket} `{T : TunIo} `{PC : Postcard} `{C : InviteCrypto}
  `{X : Hex} `{W : SnowLib} `{TL : Toml (N:=N)} `{F : Fs} `{HL : HistoryLib} `{PF : Platform}.
Implicit Types e : Edge.

Definition late e (now : Z) : Prop := secs 25 < duration_since now (e_activity e).

(** What a tick of the watchdog does not change. *)
Definition watched e := (settings e, e_room e, e_activity e).

Lemma watched_on_runtime f : keeps watched (on_runtime f).
Proof. by intros e. Qed.
Lemma watched_send frame addr : keeps watched (send frame addr).
Proof. unfold send. keeps. Qed.
#[local] Hint Resolve watched_on_runtime watched_send : keeps.
Lemma keeps_watched os now : keeps watched (watchdog os now).
Proof. unfold watchdog, reconnect. keeps. Qed.

Lemma supernode_on_runtime f : keeps e_supernode (on_runtime f).
Proof. by intros e. Qed.
Lemma supernode_send frame addr : keeps e_supernode (send frame addr).
Proof. unfold send. keeps. Qed.
#[local] Hint Resolve supernode_on_runtime supernode_send : keeps.

Lemma send_ignored frame addr e :
  ∃ e', mignore (send frame addr) e = (Ok tt, e') ∧ e_supernode e' = e_supernode e ∧
    e_invite e' = e_invite e.
Proof.
  destruct (send_run frame addr e) as (r & t & E & Hr).
  exists (put_transport t e). split; [exact (mignore_run _ _ _ _ E Hr)|done].
Qed.

(** Silence while in a room: the next supernode is used from now on. *)
Lemma reconnect_run os e :
  ∃ e', reconnect os e = (Ok tt, e') ∧
    next_supernode_after (e_supernode e) (supernode_list (settings e)) = Ok (e_supernode e').
Proof.
  unfold reconnect. rewrite (mseq_Ok mget _ e e e eq_refl).
  destruct (next_total (e_supernode e) (supernode_list (settings e))) as [target Ht]. rewrite Ht.
  rewrite (mseq_Ok (mlift (lift (Ok target))) _ e target e eq_refl).
  match goal with |- context [mseq ?m _ e] =>
    assert (∃ e1, m e = (Ok tt, e1) ∧ e_supernode e1 = target) as (e1 & E1 & H1) end.
  { case_bool_decide as Hc; cbn [negb mwhen]; [by exists e|by eexists]. }
  rewrite (mseq_Ok _ _ _ _ _ E1).
  match goal with |- context [mignore (send ?f target)] =>
    destruct (send_ignored f target e1) as (e2 & E2 & H2 & _) end.
  rewrite (mseq_Ok _ _ _ _ _ E2).
  destruct (e_invite e) as [invite|]; [|exists e2; split; [done|congruence]].
  destruct (decode_invite invite) as [data|]; [|exists e2; split; [done|congruence]].
  match goal with |- context [mignore (send ?f target)] =>
    destruct (send_ignored f target e2) as (e3 & E3 & H3 & _) end.
  exists e3. split; [exact E3|congruence].
Qed.

Lemma watchdog_late os now e :
  late e now → is_Some (e_room e) →
  ∃ e', watchdog os now e = (Ok tt, e') ∧
    next_supernode_after (e_supernode e) (supernode_list (settings e)) = Ok (e_supernode e').
Proof.
  intros Hl Hr. unfold watchdog. rewrite (mseq_Ok mget _ e e e eq_refl).
  rewrite (bool_decide_eq_true_2 (is_Some _)) by done.
  rewrite bool_decide_eq_false_2 by (unfold late in Hl; lia). cbn [negb].
  match goal with |- context [mseq (on_runtime ?f) _ _] =>
    rewrite (mseq_Ok (on_runtime f) _ e tt (put_runtime (f (e_runtime e)) e) eq_refl) end.
  match goal with |- context [mseq (mmodify ?f) _ ?s] =>
    rewrite (mseq_Ok (mmodify f) _ s tt (f s) eq_refl);
    destruct (reconnect_run os (f s)) as (e' & E & H) end.
  by exists e'.
Qed.

(** Ticks with no traffic between them. *)
Definition ticks os (nows : list Z) e : Edge := foldl (λ e now, (watchdog os now e).2) e nows.

Lemma ticks_in_turn os nows e i :
  NoDup (supernode_list (settings e)) → is_Some (e_room e) →
  supernode_list (settings e) !! i = Some (e_supernode e) → Forall (late e) nows →
  supernode_list (settings e) !! ((i + length nows) mod length (supernode_list (settings e)))%nat
  = Some (e_supernode (ticks os nows e)).
Proof.
  revert e i. induction nows as [|now nows IH]; intros e i Hd Hr Hi Hl; simpl.
  - rewrite Nat.add_0_r, Nat.mod_small; [done|]. by eapply lookup_lt_Some.
  - apply Forall_cons in Hl as [Hn Hl].
    destruct (watchdog_late os now e Hn Hr) as (e1 & E1 & H1). rewrite E1. cbn [snd].
    pose proof (keeps_watched os now e) as Hw. rewrite E1 in Hw. injection Hw as W1 W2 W3.
    rewrite (next_in_turn _ i _ Hd Hi) in H1.
    destruct (supernode_list (settings e) !! ((i + 1) mod _)%nat) as [a|] eqn:Ha; [|done].
    injection H1 as ->.
    specialize (IH e1 ((i + 1) mod length (supernode_list (settings e)))%nat).
    rewrite W1, W2 in IH. specialize (IH Hd Hr Ha).
    rewrite Nat.Div0.add_mod_idemp_l in IH.
    replace (i + S (length nows))%nat with (i + 1 + length nows)%nat by lia. apply IH.
    eapply Forall_impl; [exact Hl|]. intros t. unfold late. by rewrite W3.
Qed.

(** C22: no supernode is forgotten.  When an edge in a room hears nothing for more than 25
    seconds, tick after tick of the watchdog, and its list of supernodes has no duplicates,
    then whichever of them it uses now, every one of the list is used after less ticks than
    the list is long; the ticks themselves never fail. *)
Theorem watchdog_rotates os nows e target :
  NoDup (supernode_list (settings e)) → is_Some (e_room e) →
  e_supernode e ∈ supernode_list (settings e) → target ∈ supernode_list (settings e) →
  Forall (late e) nows → (length (supernode_list (settings e)) ≤ length nows)%nat →
  ∃ k, (k < length (supernode_list (settings e)))%nat ∧
    e_supernode (ticks os (take k nows) e) = target.
Proof.
  intros Hd Hr [i Hi]%list_elem_of_lookup [j Hj]%list_elem_of_lookup Hl Hn.
  set (n := length (supernode_list (settings e))) in *.
  assert (i < n)%nat as Hin by (by eapply lookup_lt_Some).
  assert (j < n)%nat as Hjn by (by eapply lookup_lt_Some).
  exists ((j + n - i) mod n)%nat. split; [apply Nat.mod_upper_bound; lia|].
  set (k := ((j + n - i) mod n)%nat). assert (k < n)%nat as Hk by (apply Nat.mod_upper_bound; lia).
  pose proof (ticks_in_turn os (take k nows) e i Hd Hr Hi (Forall_take _ k _ Hl)) as H.
  rewrite length_take_le in H by lia. fold n in H.
  assert (((i + k) mod n)%nat = j) as E.
  { subst k. rewrite Nat.Div0.add_mod_idemp_r. replace (i + (j + n - i))%nat with (j + 1 * n)%nat by lia.
    rewrite Nat.Div0.mod_add. by apply Nat.mod_small. }
  rewrite E, Hj in H. by injection H.
Qed.
End Rotation.

(** A supernode that is listed twice, not side by side, hides those after its second
    mention: the first mention is the one that is found. *)
Lemma rotation_stuck a b c :
  a ≠ b → a ≠ c → b ≠ c →
  let l := normalize_supernodes a [b; c; b] in
  a ∈ l ∧ next_supernode_after a l = Ok b ∧ next_supernode_after b l = Ok c ∧
  next_supernode_after c l = Ok b.
Proof.
  intros Hab Hac Hbc l.
  assert (l = [a; b; c; b]) as ->.
  { subst l. unfold normalize_supernodes. simpl.
    repeat (rewrite bool_decide_eq_false_2 by congruence; simpl). done. }
  split; [apply list_elem_of_here|]. unfold next_supernode_after. simpl.
  split_and!; repeat (case_bool_decide; simpl in *; try congruence; try lia); done.
Qed.
