(* ===== verification/Serve.v ===== *)
(** The connections of the IPC server: [spawn_ipc_server] and [handle_ipc_connection] of
    crates/r2n-edge-lib/src/ipc.rs, between the bytes of the clients and the command loop.

    Each connection is a task that reads a line, serves it and writes the answer before it
    reads the next; a command that the edge has to answer goes through the channel of the
    command loop with a oneshot of its own, whose number is the caller of Edge.v. *)
From Stdlib Require Import ZArith Lia.
From stdpp Require Import base tactics numbers list gmap strings relations.
From S2P Require Import Prelude Bytes Net Text AddrText Common Proto Sorting Slab Etherparse.
From S2P Require Import Qos Crypto Noise Policy Rendezvous Discovery F32 Path Observability.
From S2P Require Import Transport Flood MacTable Dataplane Config Nat EdgeCore Edge EdgeFacts.
From S2P Require Import EdgeInv EdgeSpec Json Ipc IpcSpec.
Local Open Scope Z_scope.
Local Open Scope string_scope.

(** ** Lines *)

(** What [str::from_utf8] accepts. *)
Definition follows (c : Z) : bool := bool_decide (128 ≤ c < 192).
Definition second_of_3 (a b : Z) : bool :=
  if bool_decide (a = 224) then bool_decide (160 ≤ b < 192)
  else if bool_decide (a = 237) then bool_decide (128 ≤ b < 160) else follows b.
Definition second_of_4 (a b : Z) : bool :=
  if bool_decide (a = 240) then bool_decide (144 ≤ b < 192)
  else if bool_decide (a = 244) then bool_decide (128 ≤ b < 144) else follows b.
Fixpoint valid_utf8 (l : list Z) : bool :=
  match l with
  | [] => true
  | a :: l =>
      if bool_decide (a < 128) then valid_utf8 l
      else match l with
           | [] => false
           | b :: l =>
               if bool_decide (194 ≤ a < 224) then follows b && valid_utf8 l
               else match l with
                    | [] => false
                    | c :: l =>
                        if bool_decide (224 ≤ a < 240)
                        then second_of_3 a b && follows c && valid_utf8 l
                        else match l with
                             | [] => false
                             | d :: l => bool_decide (240 ≤ a < 245) && second_of_4 a b
                                           && follows c && follows d && valid_utf8 l
                             end
                    end
           end
  end.

Fixpoint take_line (l : list Z) : option (list Z * list Z) :=
  match l with
  | [] => None
  | c :: l =>
      if bool_decide (c = 10) then Some ([10], l)
      else match take_line l with
           | Some (line, rest) => Some (c :: line, rest)
           | None => None
           end
  end.

(** [read_line] on what has arrived: it waits, or comes to the end, or fails, or has a line,
    the last of which may lack its end. *)
Inductive LineRead := NoLineYet | EndOfInput | BadText | Line (line rest : list Z).
Definition read_line (ended : bool) (input : list Z) : LineRead :=
  match take_line input with
  | Some (line, rest) => if valid_utf8 line then Line line rest else BadText
  | None =>
      if ended then
        match input with
        | [] => EndOfInput
        | _ => if valid_utf8 input then Line input [] else BadText
        end
      else NoLineYet
  end.

Section Serve.
Context `{L : Ipv4NetLib} `{Q : ArrayQueue} `{A : AeadLib} `{P : Etherparse} `{N : IpNetLib}
  `{R : RatelimitLib} `{K : Socket} `{T : TunIo} `{PC : Postcard} `{C : InviteCrypto}
  `{X : Hex} `{W : SnowLib} `{TL : Toml (N:=N)} `{F : Fs} `{HL : HistoryLib} `{PF : Platform}
  `{RS : RuleSerde (N:=N)} `{J : JsonText}.
Implicit Types e : Edge.

(** ** A connection *)

(** Where its task is: at [read_line], at the channel with a command, or at the answer. *)
Inductive Serving :=
| Reading
| Sending (msg : Json) (caller : nat) (cmd : EdgeCommand)
| Waiting (msg : Json) (caller : nat).

(** The last three are what has come in, what was read of it and what was answered, with the
    caller if the edge had to answer: the code does not keep them. *)
Record Connection := mkConnection {
  cn_input : list Z; cn_ended : bool; cn_open : bool; cn_serving : Serving; cn_output : list Z;
  cn_received : list Z; cn_lines : list (list Z); cn_log : list (Json * option nat * Json);
}.
Definition new_connection : Connection := mkConnection [] false true Reading [] [] [] [].

Definition receive (bytes : list Z) (c : Connection) : Connection :=
  mkConnection (cn_input c ++ bytes) (cn_ended c) (cn_open c) (cn_serving c) (cn_output c)
    (cn_received c ++ bytes) (cn_lines c) (cn_log c).
Definition hang_up (c : Connection) : Connection :=
  mkConnection (cn_input c) true (cn_open c) (cn_serving c) (cn_output c)
    (cn_received c) (cn_lines c) (cn_log c).
Definition close (c : Connection) : Connection :=
  mkConnection (cn_input c) (cn_ended c) false (cn_serving c) (cn_output c)
    (cn_received c) (cn_lines c) (cn_log c).
Definition have_read (line rest : list Z) (c : Connection) : Connection :=
  mkConnection rest (cn_ended c) (cn_open c) (cn_serving c) (cn_output c)
    (cn_received c) (cn_lines c ++ [line]) (cn_log c).
Definition serving (x : Serving) (c : Connection) : Connection :=
  mkConnection (cn_input c) (cn_ended c) (cn_open c) x (cn_output c)
    (cn_received c) (cn_lines c) (cn_log c).

(** The answer is one line; that it cannot be written is not noticed. *)
Definition response_line (v : Json) : list Z := bytes_of (json_to_string v) ++ [10].
Definition respond (msg : Json) (caller : option nat) (v : Json) (c : Connection) : Connection :=
  mkConnection (cn_input c) (cn_ended c) (cn_open c) Reading (cn_output c ++ response_line v)
    (cn_received c) (cn_lines c) (cn_log c ++ [(msg, caller, v)]).

(** One round of the loop; [next] numbers the oneshots. *)
Definition connection_round (now : Z) (c : Connection) e (next : nat) : Connection * Edge * nat :=
  match read_line (cn_ended c) (cn_input c) with
  | NoLineYet => (c, e, next)
  | EndOfInput | BadText => (close c, e, next)
  | Line line rest =>
      let c := have_read line rest c in
      match json_from_str (string_of line) with
      | inl _ => (c, e, next)
      | inr msg =>
          match ipc_request now msg e with
          | (Ok (Answer v), e') => (respond msg None v c, e', next)
          | (Ok (Await cmd), e') => (serving (Sending msg next cmd) c, e', S next)
          | (Ok NoAnswer, e') => (c, e', next)
          | (_, e') => (close c, e', next)
          end
      end
  end.

(** ** The server *)
Definition COMMAND_CHANNEL_CAPACITY : nat := 32.

Record Served := mkServed {
  sv_edge : Edge; sv_queue : list (nat * EdgeCommand); sv_next : nat; sv_conns : list Connection;
}.
Definition put_conn (i : nat) (c : Connection) (s : Served) : Served :=
  mkServed (sv_edge s) (sv_queue s) (sv_next s) (<[i := c]> (sv_conns s)).

(** The other loops of the edge, a client that connects, sends or hangs up, a round of a
    connection, the channel, and the answer or its timeout.  Between the answer to [stop] and
    the end of the process, 50 milliseconds later, only answers are written. *)
Inductive serve_step (pr : profile) : Served → Served → Prop :=
| serve_loop e q n l e' :
    loop_step pr e e' → serve_step pr (mkServed e q n l) (mkServed e' q n l)
| serve_accept e q n l :
    serve_step pr (mkServed e q n l) (mkServed e q n (l ++ [new_connection]))
| serve_receive s i c bytes :
    sv_conns s !! i = Some c → cn_ended c = false →
    serve_step pr s (put_conn i (receive bytes c) s)
| serve_hang_up s i c :
    sv_conns s !! i = Some c → serve_step pr s (put_conn i (hang_up c) s)
| serve_round e q n l i c now c' e' n' :
    e_exited e = false → l !! i = Some c → cn_open c = true → cn_serving c = Reading →
    connection_round now c e n = (c', e', n') →
    serve_step pr (mkServed e q n l) (mkServed e' q n' (<[i := c']> l))
| serve_send e q n l i c msg caller cmd :
    e_exited e = false → l !! i = Some c → cn_serving c = Sending msg caller cmd →
    (length q < COMMAND_CHANNEL_CAPACITY)%nat →
    serve_step pr (mkServed e q n l)
      (mkServed e (q ++ [(caller, cmd)]) n (<[i := serving (Waiting msg caller) c]> l))
| serve_command e q n l os path fresh caller cmd r e' :
    e_exited e = false → handle_command os path fresh cmd caller e = (r, e') → r ≠ Panic →
    serve_step pr (mkServed e ((caller, cmd) :: q) n l) (mkServed e' q n l)
| serve_reply s i c msg caller r :
    sv_conns s !! i = Some c → cn_serving c = Waiting msg caller →
    (caller, r) ∈ e_replies (sv_edge s) →
    serve_step pr s
      (put_conn i (respond msg (Some caller) (wait_for_command_reply (Replied r)) c) s)
| serve_timeout s i c msg caller :
    sv_conns s !! i = Some c → cn_serving c = Waiting msg caller →
    serve_step pr s
      (put_conn i (respond msg (Some caller) (wait_for_command_reply ReplyTimeout) c) s).

(** The server is started before the edge takes up its work. *)
Definition serve_reachable (pr : profile) (s : Served) : Prop :=
  ∃ os now mapping collected i history config e0,
    run_start os now mapping collected i history config = Ok e0 ∧
    rtc (serve_step pr) (mkServed e0 [] 0 []) s.
End Serve.
