(* ===== verification/ServeSpec.v ===== *)
(** What the connections of the IPC server promise to their clients. *)
From Stdlib Require Import ZArith Lia.
From stdpp Require Import base tactics numbers list gmap strings relations.
From S2P Require Import Prelude Bytes Net Text AddrText Common Proto Sorting Slab Etherparse.
From S2P Require Import Qos Crypto Noise Policy Rendezvous Discovery F32 Path Observability.
From S2P Require Import Transport Flood MacTable Dataplane Config Nat EdgeCore Edge EdgeFacts.
From S2P Require Import EdgeInv EdgeSpec Json Ipc IpcSpec Serve.
Local Open Scope Z_scope.
Local Open Scope string_scope.

Section ServeSpec.
Context `{L : Ipv4NetLib} `{Q : ArrayQueue} `{A : AeadLib} `{P : Etherparse} `{N : IpNetLib}
  `{R : RatelimitLib} `{K : Socket} `{T : TunIo} `{PC : Postcard} `{C : InviteCrypto}
  `{X : Hex} `{W : SnowLib} `{TL : Toml (N:=N)} `{F : Fs} `{HL : HistoryLib} `{PF : Platform}
  `{RS : RuleSerde (N:=N)} `{J : JsonText}.
Implicit Types e : Edge.

(** ** Lines *)
Lemma take_line_app l line rest : take_line l = Some (line, rest) → l = (line ++ rest)%list.
Proof.
  revert line rest. induction l as [|c l IH]; intros line rest; [done|]. cbn [take_line].
  case_bool_decide as Hc; [by intros [= <- <-]; subst|].
  destruct (take_line l) as [[a b]|]; [|done]. intros [= <- <-]. cbn. f_equal. by apply IH.
Qed.

Lemma read_line_app ended input line rest :
  read_line ended input = Line line rest → input = (line ++ rest)%list.
Proof.
  unfold read_line. destruct (take_line input) as [[a b]|] eqn:E.
  - destruct (valid_utf8 a); [|done]. intros [= -> ->]. by apply take_line_app.
  - destruct ended; [|done]. destruct input as [|c input]; [done|].
    destruct (valid_utf8 _); [|done]. intros [= <- <-]. by rewrite app_nil_r.
Qed.

(** ** Requests *)
(** The request on a line, if it is one that is answered. *)
Definition request_on (line : list Z) : option Json :=
  match json_from_str (string_of line) with
  | inl _ => None
  | inr msg =>
      match as_str (json_index msg "command") with
      | Some command => if decide (command ∈ known_commands) then Some msg else None
      | None => None
      end
  end.

Lemma omap_line (lines : list (list Z)) line :
  omap request_on (lines ++ [line])%list = (omap request_on lines ++ option_list (request_on line))%list.
Proof. by rewrite omap_app. Qed.

(** The edge is asked [cmd] for the request. *)
Definition asks (msg : Json) (cmd : EdgeCommand) : Prop :=
  ∃ now e, ipc_request now msg e = (Ok (Await cmd), e).

(** The answer of a state of the daemon, or the one its command got, or the timeout. *)
Definition right_answer pr e (x : Json * option nat * Json) : Prop :=
  let '(msg, caller, v) := x in
  match caller with
  | None => ∃ now e0 e1, daemon_reachable pr e0 ∧ ipc_request now msg e0 = (Ok (Answer v), e1)
  | Some n => (∃ cmd, asks msg cmd) ∧
      (v = wait_for_command_reply ReplyTimeout ∨
       ∃ r, (n, r) ∈ e_replies e ∧ v = wait_for_command_reply (Replied r))
  end.

Definition open_request (x : Serving) : list Json :=
  match x with Reading => [] | Sending msg _ _ | Waiting msg _ => [msg] end.
Definition open_caller (x : Serving) : list nat :=
  match x with Reading => [] | Sending _ n _ | Waiting _ n => [n] end.
Definition callers_of (c : Connection) : list nat :=
  (omap (λ x : Json * option nat * Json, x.1.2) (cn_log c) ++ open_caller (cn_serving c))%list.

(** ** The invariant *)
Record conn_ok pr e (c : Connection) : Prop := {
  co_read : cn_received c = (concat (cn_lines c) ++ cn_input c)%list;
  co_written : cn_output c = concat ((λ x, response_line x.2) <$> cn_log c);
  co_order : omap request_on (cn_lines c)
    = (((λ x, x.1.1) <$> cn_log c) ++ open_request (cn_serving c))%list;
  co_right : Forall (right_answer pr e) (cn_log c);
  co_open : match cn_serving c with
            | Reading => True | Sending msg _ cmd => asks msg cmd | Waiting msg _ => ∃ cmd, asks msg cmd
            end;
  co_callers : NoDup (callers_of c);
}.

Definition taken_by (s : Served) : list nat := ((sv_queue s).*1 ++ callers (sv_edge s))%list.

Record served_inv pr (s : Served) : Prop := {
  si_edge : daemon_reachable pr (sv_edge s);
  si_conns : ∀ i c, sv_conns s !! i = Some c → conn_ok pr (sv_edge s) c;
  si_apart : ∀ i j ci cj n, sv_conns s !! i = Some ci → sv_conns s !! j = Some cj →
    n ∈ callers_of ci → n ∈ callers_of cj → i = j;
  si_bound : (∀ i c n, sv_conns s !! i = Some c → n ∈ callers_of c → (n < sv_next s)%nat) ∧
    ∀ n, n ∈ taken_by s → (n < sv_next s)%nat;
  si_taken : NoDup (taken_by s);
  si_sending : ∀ i c msg n cmd, sv_conns s !! i = Some c →
    cn_serving c = Sending msg n cmd → n ∉ taken_by s;
}.

(** What was answered stays right while answers are only added. *)
Lemma right_mono pr e e' x :
  e_replies e `prefix_of` e_replies e' → right_answer pr e x → right_answer pr e' x.
Proof.
  intros Hp. destruct x as [[msg [n|]] v]; [|done]. cbn. intros [H1 [H2|(r & H2 & H3)]].
  - split; [done|by left].
  - split; [done|]. right. exists r. split; [|done]. destruct Hp as [l ->]. apply elem_of_app. by left.
Qed.

Lemma conn_mono pr e e' c :
  e_replies e `prefix_of` e_replies e' → conn_ok pr e c → conn_ok pr e' c.
Proof.
  intros Hp [H1 H2 H3 H4 H5 H6]. split; try done.
  eapply Forall_impl; [exact H4|]. intros x. by apply right_mono.
Qed.

(** The edge takes a step that takes nobody new. *)
Lemma inv_edge pr s e' :
  daemon_reachable pr e' → answered_more (sv_edge s) e' → served_inv pr s →
  served_inv pr (mkServed e' (sv_queue s) (sv_next s) (sv_conns s)).
Proof.
  intros Hr [Hc Hp] [H1 H2 H3 [H4 H5] H6 H7].
  assert (Ht : (sv_queue s).*1 ++ callers e' ≡ₚ taken_by s) by (unfold taken_by; by rewrite Hc).
  split; cbn; unfold taken_by; cbn.
  - done.
  - intros i c Hi. eapply conn_mono; [exact Hp|by eapply H2].
  - done.
  - split; [done|]. intros n. rewrite Ht. apply H5.
  - by rewrite Ht.
  - intros i c msg n cmd Hi Hs. rewrite Ht. by eapply H7.
Qed.

(** A connection goes on without a new caller. *)
Lemma inv_conn pr s i c c' :
  sv_conns s !! i = Some c → conn_ok pr (sv_edge s) c' → callers_of c' = callers_of c →
  (∀ msg n cmd, cn_serving c' = Sending msg n cmd → cn_serving c = Sending msg n cmd) →
  served_inv pr s → served_inv pr (put_conn i c' s).
Proof.
  intros Hi Hc Hn Hs [H1 H2 H3 [H4 H5] H6 H7]. split; cbn [put_conn sv_conns sv_edge sv_next]; try done.
  - intros j d [(<- & <- & _)|[_ Hj]]%list_lookup_insert_Some; [done|by eapply H2].
  - intros j k cj ck n Hj Hk. apply list_lookup_insert_Some in Hj, Hk.
    destruct Hj as [(<- & <- & _)|[Hij Hj]], Hk as [(<- & <- & _)|[Hik Hk]]; rewrite ?Hn;
      intros Hnj Hnk; [done|by eapply H3..].
  - split; [|done]. intros j d n [(<- & <- & _)|[_ Hj]]%list_lookup_insert_Some; [rewrite Hn|];
      by eapply H4.
  - intros j d msg n cmd [(<- & <- & _)|[_ Hj]]%list_lookup_insert_Some Hd; [apply Hs in Hd|];
      by eapply H7.
Qed.

(** ** A round of a connection *)
Lemma request_case pr now msg line e :
  json_from_str (string_of line) = inr msg → e_exited e = false →
  ∃ r e', ipc_request now msg e = (Ok r, e') ∧ daemon_step pr e e' ∧ answered_more e e' ∧
    match r with
    | NoAnswer => request_on line = None
    | Answer _ => request_on line = Some msg
    | Await cmd => request_on line = Some msg ∧ e' = e
    end.
Proof.
  intros Hl He. destruct (request_served now msg e) as (r & e' & E & H).
  exists r, e'. split; [exact E|]. split; [by eapply daemon_ipc|].
  unfold request_on. rewrite Hl. destruct (as_str _) as [command|];
    [|destruct H as [-> ->]; split; [by apply more_of_queues|done]].
  destruct (decide _) as [Hc|Hc]; [|destruct H as [-> ->]; split; [by apply more_of_queues|done]].
  destruct H as (Hr & Hw & h & p & Hh & _).
  split; [subst e'; by apply more_of_queues|]. destruct r as [v|cmd|]; [done| |done].
  split; [done|by eapply Hw].
Qed.

Lemma reachable_more pr e e' : daemon_reachable pr e → daemon_step pr e e' → daemon_reachable pr e'.
Proof.
  intros (os & now & m & col & i & h & cfg & e0 & E0 & Hs) H.
  exists os, now, m, col, i, h, cfg, e0. split; [exact E0|]. by eapply rtc_r.
Qed.

(** A line that is read, and what its request makes of the connection. *)
Lemma line_ok pr e c line rest :
  cn_input c = (line ++ rest)%list → cn_serving c = Reading → conn_ok pr e c →
  request_on line = None → conn_ok pr e (have_read line rest c).
Proof.
  intros Hi Hs [H1 H2 H3 H4 H5 H6] Hr. split; cbn; try done.
  - rewrite H1, Hi, concat_app. cbn. by rewrite app_nil_r, app_assoc.
  - by rewrite omap_line, H3, Hr, app_nil_r.
Qed.

Lemma asked_ok pr e c line rest msg x :
  cn_input c = (line ++ rest)%list → cn_serving c = Reading → conn_ok pr e c →
  request_on line = Some msg → open_request x = [msg] →
  match x with
  | Reading => False | Sending msg _ cmd => asks msg cmd | Waiting msg _ => ∃ cmd, asks msg cmd
  end →
  Forall (λ n, n ∉ callers_of c) (open_caller x) →
  conn_ok pr e (serving x (have_read line rest c)).
Proof.
  intros Hi Hs [H1 H2 H3 H4 H5 H6] Hr Hx Hc Hn. split; cbn; try done.
  - rewrite H1, Hi, concat_app. cbn. by rewrite app_nil_r, app_assoc.
  - by rewrite omap_line, H3, Hs, Hx, Hr, app_nil_r.
  - by destruct x.
  - unfold callers_of in *. cbn. rewrite Hs in H6, Hn. cbn in H6, Hn. rewrite app_nil_r in H6, Hn.
    apply NoDup_app. split; [done|]. rewrite Forall_forall in Hn.
    split; [by intros n Hin Hx'%Hn|]. destruct x; cbn; [constructor|apply NoDup_singleton..].
Qed.

Lemma answered_ok pr e c msg caller v :
  conn_ok pr e c → open_request (cn_serving c) = [msg] → open_caller (cn_serving c) = [caller] →
  right_answer pr e (msg, Some caller, v) →
  conn_ok pr e (respond msg (Some caller) v c) ∧ callers_of (respond msg (Some caller) v c) = callers_of c.
Proof.
  intros [H1 H2 H3 H4 H5 H6] Hr Hc Hv.
  assert (callers_of (respond msg (Some caller) v c) = callers_of c) as E.
  { unfold callers_of. cbn. rewrite omap_app, Hc. cbn. by rewrite app_nil_r. }
  split; [|exact E]. split; cbn.
  - done.
  - rewrite H2, fmap_app, concat_app. cbn. by rewrite app_nil_r.
  - rewrite H3, Hr, fmap_app. cbn. by rewrite app_nil_r.
  - apply Forall_app_2; [done|by constructor].
  - done.
  - exact (eq_ind_r NoDup H6 E).
Qed.

Lemma answered_at_once_ok pr e c line rest msg v :
  cn_input c = (line ++ rest)%list → cn_serving c = Reading → conn_ok pr e c →
  request_on line = Some msg → right_answer pr e (msg, None, v) →
  let c' := respond msg None v (have_read line rest c) in
  conn_ok pr e c' ∧ callers_of c' = callers_of c.
Proof.
  intros Hi Hs [H1 H2 H3 H4 H5 H6] Hr Hv c'.
  assert (callers_of c' = callers_of c) as E.
  { unfold callers_of. cbn. rewrite omap_app, Hs. cbn. by rewrite app_nil_r. }
  split; [|exact E]. split; cbn.
  - rewrite H1, Hi, concat_app. cbn. by rewrite app_nil_r, app_assoc.
  - rewrite H2, fmap_app, concat_app. cbn. by rewrite app_nil_r.
  - by rewrite omap_line, H3, Hs, fmap_app, Hr, !app_nil_r.
  - apply Forall_app_2; [done|by constructor].
  - done.
  - exact (eq_ind_r NoDup H6 E).
Qed.

(** A connection takes the next number. *)
Lemma inv_numbered pr s i c c' :
  sv_conns s !! i = Some c → conn_ok pr (sv_edge s) c' →
  (∀ n, n ∈ callers_of c' → n ∈ callers_of c ∨ n = sv_next s) →
  (∀ msg n cmd, cn_serving c' = Sending msg n cmd → n = sv_next s) →
  served_inv pr s →
  served_inv pr (mkServed (sv_edge s) (sv_queue s) (S (sv_next s)) (<[i := c']> (sv_conns s))).
Proof.
  intros Hi Hc Hn Hs [H1 H2 H3 [H4 H5] H6 H7].
  assert (Hold : ∀ j d n, sv_conns s !! j = Some d → n ∈ callers_of d → n ≠ sv_next s).
  { intros j d n Hj Hd ->. specialize (H4 _ _ _ Hj Hd). lia. }
  split; cbn; try done.
  - intros j d [(<- & <- & _)|[_ Hj]]%list_lookup_insert_Some; [done|by eapply H2].
  - intros j k cj ck n Hj Hk. apply list_lookup_insert_Some in Hj, Hk.
    destruct Hj as [(<- & <- & _)|[Hij Hj]], Hk as [(<- & <- & _)|[Hik Hk]]; intros Hnj Hnk;
      [done| | |by eapply H3].
    + destruct (Hn _ Hnj) as [Ho| ->]; [by eapply H3|]. by destruct (Hold _ _ _ Hk Hnk).
    + destruct (Hn _ Hnk) as [Ho| ->]; [by eapply H3|]. by destruct (Hold _ _ _ Hj Hnj).
  - split.
    + intros j d n [(<- & <- & _)|[_ Hj]]%list_lookup_insert_Some Hd.
      * destruct (Hn _ Hd) as [Ho| ->]; [specialize (H4 _ _ _ Hi Ho)|]; lia.
      * specialize (H4 _ _ _ Hj Hd). lia.
    + intros n Hin. specialize (H5 n Hin). lia.
  - intros j d msg n cmd [(<- & <- & _)|[_ Hj]]%list_lookup_insert_Some Hd; [|by eapply H7].
    apply Hs in Hd as ->. intros Hin%H5. cbn in Hin. lia.
Qed.

Lemma round_inv pr e q n l i c now c' e' n' :
  e_exited e = false → l !! i = Some c → cn_serving c = Reading →
  connection_round now c e n = (c', e', n') →
  served_inv pr (mkServed e q n l) → served_inv pr (mkServed e' q n' (<[i := c']> l)).
Proof.
  intros He Hi Hs Hround Hinv. pose proof (si_conns _ _ Hinv i c Hi) as Hc. cbn in Hc.
  assert (Hsame : ∀ d, conn_ok pr e d → callers_of d = callers_of c → cn_serving d = Reading →
    served_inv pr (mkServed e q n (<[i := d]> l))).
  { intros d Hd Hn Hr. apply (inv_conn pr (mkServed e q n l) i c d Hi Hd Hn); [|done].
    by rewrite Hr. }
  unfold connection_round in Hround.
  destruct (read_line (cn_ended c) (cn_input c)) as [| | |line rest] eqn:Hline;
    [injection Hround as <- <- <-; apply Hsame; try done; by destruct Hc..|].
  apply read_line_app in Hline.
  destruct (json_from_str (string_of line)) as [err|msg] eqn:Hjson.
  { injection Hround as <- <- <-. apply Hsame; [|done..]. apply line_ok; try done.
    unfold request_on. by rewrite Hjson. }
  destruct (request_case pr now msg line e Hjson He) as (r & e1 & E & Hstep & Hmore & Hr).
  pose proof (reachable_more pr e e1 (si_edge _ _ Hinv) Hstep) as Hreach.
  pose proof (inv_edge pr (mkServed e q n l) e1 Hreach Hmore Hinv) as Hinv1. cbn in Hinv1.
  pose proof (si_conns _ _ Hinv1 i c Hi) as Hc1. cbn in Hc1.
  rewrite E in Hround. destruct r as [v|cmd|]; injection Hround as <- <- <-.
  - edestruct (answered_at_once_ok pr e1 c line rest msg v) as [Hok Hn]; try done.
    { exists now, e, e1. split; [exact (si_edge _ _ Hinv)|exact E]. }
    by apply (inv_conn pr (mkServed e1 q n l) i c).
  - destruct Hr as [Hr ->].
    assert (Forall (λ m, m ∉ callers_of c) [n]) as Hnew.
    { constructor; [|constructor]. intros Hin. apply (proj1 (si_bound _ _ Hinv)) with (1 := Hi) in Hin.
      cbn in Hin. lia. }
    apply (inv_numbered pr (mkServed e q n l) i c); [done| | | |done].
    + apply (asked_ok pr e c line rest msg (Sending msg n cmd)); try done. by exists now, e.
    + intros m. unfold callers_of. cbn. rewrite Hs. cbn. rewrite app_nil_r.
      intros [Hm|Hm%list_elem_of_singleton]%elem_of_app; [by left|by right].
    + by intros ? ? ? [= _ -> _].
  - by apply (inv_conn pr (mkServed e1 q n l) i c); [|by apply line_ok|..].
Qed.

(** The command at the head of the channel. *)
Lemma queue_head_inv pr e q n l os path fresh caller cmd r e' :
  e_exited e = false → handle_command os path fresh cmd caller e = (r, e') → r ≠ Panic →
  served_inv pr (mkServed e ((caller, cmd) :: q) n l) → served_inv pr (mkServed e' q n l).
Proof.
  intros He E Hr [H1 H2 H3 [H4 H5] H6 H7]. unfold taken_by in *. cbn in *.
  apply NoDup_cons in H6 as [Hnew H6]. apply not_elem_of_app in Hnew as [Hq Hnew].
  destruct (taken_command os path fresh cmd caller e r e' E Hr) as [Hc Hp].
  assert (Ht : q.*1 ++ callers e' ≡ₚ caller :: (q.*1 ++ callers e)) by (rewrite Hc; solve_Permutation).
  split; unfold taken_by; cbn.
  - eapply reachable_more; [exact H1|]. apply daemon_edge.
    apply (step_command pr e os path fresh cmd caller r e' He); [| |exact E|exact Hr].
    + intros w Hw. apply Hnew. unfold callers. rewrite !elem_of_app, !in_option_list.
      destruct w; cbn in Hw; tauto.
    + intros Hin. apply Hnew. unfold callers. rewrite !elem_of_app. tauto.
  - intros i c Hi. eapply conn_mono; [exact Hp|by eapply H2].
  - done.
  - split; [done|]. intros m. rewrite Ht. apply H5.
  - rewrite Ht. constructor; [|done]. rewrite elem_of_app. tauto.
  - intros i c msg m k Hi Hs. rewrite Ht. by eapply H7.
Qed.

(** A command that is passed on. *)
Lemma send_inv pr e q n l i c msg caller cmd :
  l !! i = Some c → cn_serving c = Sending msg caller cmd →
  served_inv pr (mkServed e q n l) →
  served_inv pr (mkServed e (q ++ [(caller, cmd)]) n (<[i := serving (Waiting msg caller) c]> l)).
Proof.
  intros Hi Hs Hinv. pose proof (si_conns _ _ Hinv i c Hi) as [C1 C2 C3 C4 C5 C6].
  rewrite Hs in C3, C5. assert (callers_of (serving (Waiting msg caller) c) = callers_of c) as Hn
    by (unfold callers_of; cbn; by rewrite Hs).
  pose proof (si_sending _ _ Hinv i c msg caller cmd Hi Hs) as Hfree. cbn in Hfree.
  pose proof (proj1 (si_bound _ _ Hinv) i c caller Hi) as Hb. cbn in Hb.
  assert (caller ∈ callers_of c) as Hin.
  { unfold callers_of. rewrite Hs. apply elem_of_app. right. by apply list_elem_of_singleton. }
  assert (served_inv pr (mkServed e q n (<[i := serving (Waiting msg caller) c]> l)))
    as [H1 H2 H3 [H4 H5] H6 H7].
  { apply (inv_conn pr (mkServed e q n l) i c); try done. split; try done; [by exists cmd|].
    by rewrite Hn. }
  unfold taken_by in *. cbn in *.
  assert (Ht : (q ++ [(caller, cmd)])%list.*1 ++ callers e ≡ₚ caller :: (q.*1 ++ callers e))
    by (rewrite fmap_app; cbn; solve_Permutation).
  split; unfold taken_by; cbn; try done.
  - split; [done|]. intros m. rewrite Ht. intros [->|Hm]%elem_of_cons; auto.
  - rewrite Ht. by constructor.
  - intros j d msg' m k Hj Hd. rewrite Ht. intros [->|Hm]%elem_of_cons; [|by eapply H7].
    assert (caller ∈ callers_of d) as Hd'.
    { unfold callers_of. rewrite Hd. apply elem_of_app. right. by apply list_elem_of_singleton. }
    apply list_lookup_insert_Some in Hj as [(-> & <- & _)|[Hij Hj]]; [by cbn in Hd|].
    by destruct (Hij (si_apart _ _ Hinv _ _ _ _ _ Hi Hj Hin Hd')).
Qed.

Lemma serve_inv pr s s' : serve_step pr s s' → served_inv pr s → served_inv pr s'.
Proof.
  intros [e q n l e' H|e q n l|s1 i c bytes Hi _|s1 i c Hi|e q n l i c now c' e' n' He Hi _ Hs H
    |e q n l i c msg caller cmd _ Hi Hs _|e q n l os path fresh caller cmd r e' He E Hr
    |s1 i c msg caller r Hi Hs Hr|s1 i c msg caller Hi Hs] Hinv.
  - apply (inv_edge pr (mkServed e q n l)); [|by eapply loop_answers|done].
    eapply reachable_more; [exact (si_edge _ _ Hinv)|]. by apply daemon_edge, step_loop.
  - assert (Hl : ∀ j d, (l ++ [new_connection])%list !! j = Some d → l !! j = Some d ∨ d = new_connection).
    { intros j d [Hj|[_ Hj]]%lookup_app_Some; [by left|right].
      by apply list_lookup_singleton_Some in Hj as [_ <-]. }
    destruct Hinv as [H1 H2 H3 [H4 H5] H6 H7]. split; cbn in *; try done.
    + intros j d [Hj| ->]%Hl; [by eapply H2|]. split; try done. constructor.
    + intros j k cj ck m [Hj| ->]%Hl [Hk| ->]%Hl Hm Hm'; try (by apply not_elem_of_nil in Hm);
        try (by apply not_elem_of_nil in Hm'). by eapply H3.
    + split; [|done]. intros j d m [Hj| ->]%Hl Hm; [by eapply H4|by apply not_elem_of_nil in Hm].
    + intros j d msg m cmd [Hj| ->]%Hl; [by eapply H7|done].
  - apply (inv_conn pr s1 i c); try done. destruct (si_conns _ _ Hinv i c Hi). split; try done.
    cbn. by rewrite app_assoc, <- co_read0.
  - apply (inv_conn pr s1 i c); try done. by destruct (si_conns _ _ Hinv i c Hi).
  - by eapply round_inv.
  - by eapply send_inv.
  - by eapply queue_head_inv.
  - pose proof (si_conns _ _ Hinv i c Hi) as Hc. pose proof (co_open _ _ _ Hc) as Ho. rewrite Hs in Ho.
    edestruct (answered_ok pr (sv_edge s1) c msg caller) as [H1 H2]; [done|by rewrite Hs..| |].
    { cbn. split; [exact Ho|]. right. by exists r. }
    by apply (inv_conn pr s1 i c).
  - pose proof (si_conns _ _ Hinv i c Hi) as Hc. pose proof (co_open _ _ _ Hc) as Ho. rewrite Hs in Ho.
    edestruct (answered_ok pr (sv_edge s1) c msg caller) as [H1 H2]; [done|by rewrite Hs..| |].
    { cbn. split; [exact Ho|]. by left. }
    by apply (inv_conn pr s1 i c).
Qed.

(** ** No connection is stuck *)
Definition some_os : Os :=
  mkOs (λ _ _ _ _ _, inl "") (λ _, inl "") (λ _, None) (λ _ _, RouteDone) (λ _ _, RouteDone) [] 0.
Definition some_config : EdgeConfig := EdgeConfig_default (mkNodeId []) [].

(** [c'] is [c] with the request it serves answered. *)
Definition served_request (c c' : Connection) : Prop :=
  cn_serving c' = Reading ∧ cn_lines c' = cn_lines c ∧ ∃ x, cn_log c' = (cn_log c ++ [x])%list.
Definition gets_answer pr i c (s : Served) : Prop :=
  ∃ s', rtc (serve_step pr) s s' ∧
    (e_exited (sv_edge s') = true ∨ ∃ c', sv_conns s' !! i = Some c' ∧ served_request c c').

Lemma waiting_answered pr i msg caller c e q n l :
  l !! i = Some c → cn_serving c = Waiting msg caller → gets_answer pr i c (mkServed e q n l).
Proof.
  intros Hi Hs. eexists.
  split; [by eapply rtc_once, (serve_timeout pr (mkServed e q n l) i c msg caller)|].
  right. eexists. split; [apply list_lookup_insert_eq, (lookup_lt_Some _ _ _ Hi)|].
  split; [done|]. split; [done|]. by eexists.
Qed.

Lemma sending_answered pr i msg caller cmd c q : ∀ e n l,
  e_exited e = false → l !! i = Some c → cn_serving c = Sending msg caller cmd →
  gets_answer pr i c (mkServed e q n l).
Proof.
  assert (Hroom : ∀ q e n l, e_exited e = false → l !! i = Some c →
    cn_serving c = Sending msg caller cmd → (length q < COMMAND_CHANNEL_CAPACITY)%nat →
    gets_answer pr i c (mkServed e q n l)).
  { clear q. intros q e n l He Hi Hs Hq.
    destruct (waiting_answered pr i msg caller (serving (Waiting msg caller) c) e
      (q ++ [(caller, cmd)])%list n (<[i := serving (Waiting msg caller) c]> l)) as (s' & H1 & H2).
    - apply list_lookup_insert_eq, (lookup_lt_Some _ _ _ Hi).
    - done.
    - exists s'. split; [|exact H2]. eapply rtc_l; [by eapply serve_send|exact H1]. }
  induction q as [|[k cmd0] q IH]; intros e n l He Hi Hs.
  { apply Hroom; try done. unfold COMMAND_CHANNEL_CAPACITY. cbn. lia. }
  destruct (handle_command some_os None some_config cmd0 k e) as [r e1] eqn:E.
  assert (serve_step pr (mkServed e ((k, cmd0) :: q) n l) (mkServed e1 q n l)) as Hstep.
  { eapply serve_command; [done|exact E|].
    pose proof (calm_command some_os None some_config cmd0 k e) as H. by rewrite E in H. }
  destruct (e_exited e1) eqn:He1.
  - exists (mkServed e1 q n l). split; [by apply rtc_once|by left].
  - destruct (IH e1 n l He1 Hi Hs) as (s' & H1 & H2).
    exists s'. split; [by eapply rtc_l|exact H2].
Qed.

Lemma serve_reachable_inv pr s : serve_reachable pr s → served_inv pr s.
Proof.
  intros (os & now & m & col & i & h & cfg & e0 & E0 & Hs).
  assert (served_inv pr (mkServed e0 [] 0 [])) as H0.
  { split; unfold taken_by; cbn; try done.
    - by exists os, now, m, col, i, h, cfg, e0.
    - split; [done|]. rewrite (start_queues _ _ _ _ _ _ _ _ E0). by intros n Hn%not_elem_of_nil.
    - rewrite (start_queues _ _ _ _ _ _ _ _ E0). constructor. }
  clear E0. induction Hs as [|s0 s1 s2 H1 _ IH]; [done|]. apply IH. by eapply serve_inv.
Qed.

(** C24: the connections of the IPC server answer their clients in order and from a state of
    the daemon.  In every reachable state of the daemon with its connections the edge is in a
    reachable state of the daemon, which discharges what the daemon assumes of callers.  On
    each connection what came in is the lines that were read and a rest; what was written is
    one line for each answer; and the requests answered, with the one being served, are those
    lines which are JSON and name a known command, in their order: nothing is answered twice
    or skipped, and nothing else is answered.  An answer is the one of a state of the daemon
    at that time, or, for a command the edge has to answer, what the edge gave to the number
    of this very request, or the timeout; no two requests share a number, on one connection or
    on two.  And while the process lives, every request that is being served can be answered
    on its connection, whatever waits in the channel. *)
Theorem connections_served pr s :
  serve_reachable pr s →
  daemon_reachable pr (sv_edge s) ∧
  (∀ i c, sv_conns s !! i = Some c →
    cn_received c = (concat (cn_lines c) ++ cn_input c)%list ∧
    cn_output c = concat ((λ x, response_line x.2) <$> cn_log c) ∧
    omap request_on (cn_lines c)
      = (((λ x, x.1.1) <$> cn_log c) ++ open_request (cn_serving c))%list ∧
    Forall (right_answer pr (sv_edge s)) (cn_log c) ∧ NoDup (callers_of c)) ∧
  (∀ i j ci cj n, sv_conns s !! i = Some ci → sv_conns s !! j = Some cj →
    n ∈ callers_of ci → n ∈ callers_of cj → i = j) ∧
  (∀ i c, sv_conns s !! i = Some c → cn_serving c ≠ Reading → e_exited (sv_edge s) = false →
    ∃ s', rtc (serve_step pr) s s' ∧
      (e_exited (sv_edge s') = true ∨ ∃ c', sv_conns s' !! i = Some c' ∧ served_request c c')).
Proof.
  intros Hs%serve_reachable_inv. split; [apply Hs|]. split; [|split].
  - intros i c Hi. destruct (si_conns _ _ Hs i c Hi) as [H1 H2 H3 H4 _ H6]. by split_and!.
  - apply (si_apart _ _ Hs).
  - intros i c Hi Hr He. destruct s as [e q n l]. cbn in *.
    destruct (cn_serving c) as [|msg caller cmd|msg caller] eqn:Hc; [done| |].
    + by eapply sending_answered.
    + by eapply waiting_answered.
Qed.
End ServeSpec.
