(* ===== verification/HandshakeSpec.v ===== *)
(** The handshake of two edges: whose key is installed on which side. *)
From Stdlib Require Import ZArith Lia.
From stdpp Require Import base tactics numbers list gmap strings.
From S2P Require Import Prelude Bytes Net Text AddrText Common Proto Sorting Slab Etherparse.
From S2P Require Import Qos Crypto Noise Policy Rendezvous Discovery F32 Path Observability.
From S2P Require Import Transport Flood MacTable Dataplane Config Nat EdgeCore Edge EdgeFacts.
From S2P Require Import EdgeInv.
Local Open Scope Z_scope.

Section Handshake.
Context `{L : Ipv4NetLib} `{Q : ArrayQueue} `{A : AeadLib} `{P : Etherparse} `{N : IpNetLib}
  `{R : RatelimitLib} `{K : Socket} `{T : TunIo} `{PC : Postcard} `{C : InviteCrypto}
  `{X : Hex} `{W : SnowLib} `{TL : Toml (N:=N)} `{F : Fs} `{HL : HistoryLib} `{PF : Platform}.
Implicit Types e a b : Edge.

(** The peer as the handshake sees it: its key, its session, the key offered to it, its
    cipher. *)
Definition hs_peer e (n : NodeId) : option PeerState := e_peers e !! n.

(** Frames of the peer are sealed with [c] and sent to [addr], on both levels. *)
Definition secured e (n : NodeId) (addr : SocketAddr) (c : Cipher A) : Prop :=
  (∃ p, hs_peer e n = Some p ∧ ps_cipher p = Some c ∧ ps_direct_addr p = Some addr) ∧
  ∀ q, peers (e_dp e) !! n = Some q → cipher q = Some c.

(** *** What a message does *)
Lemma respond_run eph n m e p r k r' m' r'' :
  hs_peer e n = Some p → ps_handshake p = None → build_responder (private_key (settings e)) = Some r →
  snow_read r m 128 = Some (k, r') → length k = 32%nat →
  snow_write eph r' [] 128 = Some (m', r'') → snow_finished r'' = true →
  handshake_message eph n m e = (Ok (Some m', Some k, true), e).
Proof.
  intros Hp Hh Hb Hr Hk Hw Hf. unfold handshake_message, hs_peer in *.
  rewrite (mseq_Ok mget _ e e e eq_refl), Hp, Hh. unfold responder. rewrite Hb. cbn [ok_or].
  unfold read_message. rewrite Hr. rewrite bool_decide_eq_true_2 by lia.
  unfold write_message. rewrite Hw. unfold is_handshake_finished. rewrite Hf.
  rewrite take_ge by lia. done.
Qed.

Lemma conclude_run eph n m e p s k s' :
  hs_peer e n = Some p → ps_handshake p = Some s → snow_read s m 128 = Some (k, s') →
  snow_finished s' = true →
  handshake_message eph n m e =
    (Ok (None, ps_pending_session_key p, true), put_peers (alter (set_handshake None) n (e_peers e)) e).
Proof.
  intros Hp Hh Hr Hf. unfold handshake_message, hs_peer in *.
  rewrite (mseq_Ok mget _ e e e eq_refl), Hp, Hh.
  unfold read_message. rewrite Hr. unfold is_handshake_finished. by rewrite Hf.
Qed.

Lemma clash_run eph n m e p s :
  hs_peer e n = Some p → ps_handshake p = Some s → snow_read s m 128 = None →
  handshake_message eph n m e =
    (Ok (None, None, false), put_peers (alter (set_handshake None) n (e_peers e)) e).
Proof.
  intros Hp Hh Hr. unfold handshake_message, hs_peer in *.
  rewrite (mseq_Ok mget _ e e e eq_refl), Hp, Hh. unfold read_message. by rewrite Hr.
Qed.

(** The answer, as it is sent. *)
Definition respond (n : NodeId) (response : option (list Z)) (addr : SocketAddr) : EM unit :=
  match response with
  | Some payload => mignore (send (Handshake n payload) addr)
  | None => mreturn tt
  end.
Lemma response_run n response addr e :
  respond n response addr e = (Ok tt, put_transport (match response with
    | Some payload => (send_control (Handshake n payload) addr (transport (e_dp e))).2
    | None => transport (e_dp e)
    end) e).
Proof.
  destruct response as [payload|]; simpl; [|by rewrite put_transport_id].
  destruct (send_run (Handshake n payload) addr e) as (r & t & E & Hr).
  rewrite (mignore_run _ _ _ _ E Hr). revert E. unfold send, mseq, mzoom.
  destruct (send_control _ addr _) as [[z|err|] t'] eqn:Es; simpl; by intros [= _ <-].
Qed.

(** What is counted for a peer of the dataplane. *)
Definition nonces e : gmap NodeId Z := next_nonce <$> peers (e_dp e).

Lemma nonces_alter n f d :
  (∀ q, next_nonce (f q) = next_nonce q) → next_nonce <$> alter f n (peers d) = next_nonce <$> peers d.
Proof.
  intros Hf. apply map_eq. intros m. rewrite !lookup_fmap. destruct (decide (m = n)) as [->|].
  - rewrite lookup_alter_eq. destruct (peers d !! n); simpl; [by rewrite Hf|done].
  - by rewrite lookup_alter_ne.
Qed.

Lemma install_run now eph n m addr e response key e1 p c :
  handshake_message eph n m e = (Ok (response, Some key, true), e1) →
  hs_peer e1 n = Some p → ps_cipher p = None → Crypto.new key = Ok c →
  ∃ e2, handshake now eph n m addr e = (Ok tt, e2) ∧ secured e2 n addr c ∧
    settings e2 = settings e1 ∧ nonces e2 = nonces e1 ∧
    transport (e_dp e2) = match response with
      | Some payload =>
          (send_control (Handshake (node_id (settings e1)) payload) addr (transport (e_dp e1))).2
      | None => transport (e_dp e1)
      end.
Proof.
  intros Hm Hp Hc Hk. unfold handshake, hs_peer in *. rewrite (mseq_Ok _ _ _ _ _ Hm).
  rewrite (mseq_Ok mget _ e1 e1 e1 eq_refl). cbv beta iota.
  rewrite (mseq_Ok _ _ _ _ _ (response_run (node_id (settings e1)) response addr e1)).
  rewrite Hp, Hc, Hk. cbn [lift].
  eexists. split; [reflexivity|]. unfold secured, hs_peer, nonces. cbn.
  split; [split|split; [done|split; [|done]]].
  - rewrite lookup_alter_eq, Hp. by eexists.
  - intros q. rewrite lookup_alter_eq. destruct (peers (e_dp e1) !! n); [|done]. by intros [= <-].
  - by apply nonces_alter.
Qed.

Lemma nothing_run now eph n m addr e e1 :
  handshake_message eph n m e = (Ok (None, None, false), e1) →
  handshake now eph n m addr e = (Ok tt, e1).
Proof.
  intros Hm. unfold handshake. rewrite (mseq_Ok _ _ _ _ _ Hm).
  by rewrite (mseq_Ok mget _ e1 e1 e1 eq_refl).
Qed.

(** *** Offering a key *)
Record offered e e1 n p m i' key : Prop := {
  of_peer : ∃ p', hs_peer e1 n = Some p' ∧ ps_handshake p' = Some i' ∧
    ps_pending_session_key p' = Some key ∧ ps_cipher p' = ps_cipher p;
  of_same : settings e1 = settings e ∧ nonces e1 = nonces e ∧
    transport (e_dp e1) = transport (e_dp e);
  of_burst : ∃ targets, e_bursts e1 = (e_bursts e ++ [mkBurst m targets burst_delays])%list;
}.

(** What adding candidates does not touch. *)
Definition offer_view e := (settings e, e_peers e, nonces e, transport (e_dp e), e_bursts e, e_advertised e).

Lemma keeps_add_candidate now n addr : keeps offer_view (on_dp (add_peer_candidate now n addr)).
Proof. intros e. unfold offer_view, nonces. cbn. by rewrite nonces_alter. Qed.

Lemma punch_run pr now key eph n cands e e1 p i m i' :
  punch_request pr now key eph n cands e = (Ok tt, e1) →
  hs_peer e n = Some p →
  build_initiator (private_key (settings e)) (peer_public_key (ps_info p)) = Some i →
  snow_write eph i key 128 = Some (m, i') →
  offered e e1 n p m i' key.
Proof.
  intros H Hp Hi Hw. unfold punch_request, hs_peer in *.
  rewrite (mseq_Ok mget _ e e e eq_refl), Hp in H.
  match type of H with mseq (on_peer ?n ?f) _ _ = _ =>
    rewrite (mseq_Ok (on_peer n f) _ e tt (put_peers (alter f n (e_peers e)) e) eq_refl) in H end.
  set (e0 := put_peers _ e) in H.
  match type of H with mseq (mforeach ?f ?l) _ _ = _ =>
    assert (keeps offer_view (mforeach f l)) as Hk by
      (apply keeps_mforeach; intros; apply keeps_add_candidate);
    specialize (Hk e0); destruct (mforeach f l e0) as [r e2] eqn:E end.
  injection Hk as V1 V2 V3 V4 V5 V6.
  destruct r as [[]| |]; [|unfold mseq in H; rewrite E in H; discriminate H..].
  rewrite (mseq_Ok _ _ _ _ _ E) in H. unfold mseq at 1, mlift in H.
  destruct (lift (build_candidate_pairs pr (e_advertised e) cands)) as [pairs| |]; [|done..].
  unfold initiator, write_message in H. rewrite Hi in H. cbn [ok_or] in H. rewrite Hw in H.
  injection H as <-. split; unfold hs_peer, nonces in *; cbn.
  - rewrite V2. subst e0. cbn. rewrite !lookup_alter_eq, Hp. by eexists.
  - by rewrite V1, V3, V4.
  - rewrite V5. by eexists.
Qed.

(** *** Two edges *)
Context `{!SnowLaws W}.

(** A peer nothing has been agreed with yet. *)
Definition fresh_peer e (n : NodeId) (p : PeerState) : Prop :=
  hs_peer e n = Some p ∧ ps_cipher p = None ∧ ps_handshake p = None.
(** [a] knows the public key of [b], and can start a handshake with it. *)
Definition knows a b (i : HandshakeState) : Prop :=
  ∃ p, fresh_peer a (node_id (settings b)) p ∧
    peer_public_key (ps_info p) = derive_public_key (private_key (settings b)) ∧
    build_initiator (private_key (settings a)) (peer_public_key (ps_info p)) = Some i.

Lemma offer_run pr now eph cands key a a1 b i :
  knows a b i → length key = 32%nat →
  punch_request pr now key eph (node_id (settings b)) cands a = (Ok tt, a1) →
  ∃ p m i', snow_write eph i key 128 = Some (m, i') ∧ snow_finished i' = false ∧
    ps_cipher p = None ∧ offered a a1 (node_id (settings b)) p m i' key.
Proof.
  intros (p & (Hp & Hc & Hh) & Hk & Hi) Hl H. rewrite Hk in Hi.
  destruct (snow_first (private_key (settings a)) (private_key (settings b)) i eph key 128 Hi
    ltac:(lia) ltac:(lia)) as (m & i' & Hw & Hf & _).
  exists p, m, i'. split; [done|]. split; [done|]. split; [done|].
  eapply punch_run; [exact H|exact Hp|by rewrite Hk|exact Hw].
Qed.

(** C19: two edges agree on a key.  When [a] is asked to punch towards [b], the message it
    repeats lets [b] install the key that was drawn, for the address the message came from,
    in its peer and in its dataplane, and answer; the answer makes [a] install the same key.
    [b] does so for a peer of that id whatever its public key is.  Neither side changes the
    nonces it counts for the other: both start from the same ones, under the same key. *)
Theorem handshake_agreement pr now eph cands key a a1 b i r q c addr_a addr_b now1 eph1 :
  knows a b i → build_responder (private_key (settings b)) = Some r →
  fresh_peer b (node_id (settings a)) q → length key = 32%nat → Crypto.new key = Ok c →
  punch_request pr now key eph (node_id (settings b)) cands a = (Ok tt, a1) →
  ∃ m targets b1 m',
    e_bursts a1 = (e_bursts a ++ [mkBurst m targets burst_delays])%list ∧
    handshake now1 eph1 (node_id (settings a)) m addr_a b = (Ok tt, b1) ∧
    secured b1 (node_id (settings a)) addr_a c ∧ nonces b1 = nonces b ∧
    transport (e_dp b1)
    = (send_control (Handshake (node_id (settings b)) m') addr_a (transport (e_dp b))).2 ∧
    ∀ now2 eph2, ∃ a2,
      handshake now2 eph2 (node_id (settings b)) m' addr_b a1 = (Ok tt, a2) ∧
      secured a2 (node_id (settings b)) addr_b c ∧ nonces a2 = nonces a.
Proof.
  intros Hkn Hb (Hq & Hqc & Hqh) Hl Hc Hpunch.
  destruct (offer_run _ _ _ _ _ _ _ _ _ Hkn Hl Hpunch) as (p & m & i' & Hw & Hf & Hpc & Hof).
  destruct Hkn as (p0 & _ & Hk & Hi). rewrite Hk in Hi.
  destruct (snow_first (private_key (settings a)) (private_key (settings b)) i eph key 128 Hi
    ltac:(lia) ltac:(lia)) as (m0 & i0 & Hw0 & _ & Hr).
  rewrite Hw in Hw0. injection Hw0 as <- <-.
  destruct (Hr r Hb) as (r' & Hread & _ & Hans).
  destruct (Hans eph1) as (m' & r'' & i'' & Hw' & Hfin & Hread' & Hfin').
  destruct Hof as [(p' & Hp' & Hph & Hpp & Hpc') (S1 & S2 & S3) [targets Ht]].
  pose proof (respond_run eph1 (node_id (settings a)) m b q r key r' m' r'' Hq Hqh Hb Hread Hl Hw' Hfin) as Hm.
  destruct (install_run now1 eph1 (node_id (settings a)) m addr_a b _ key b q c Hm Hq Hqc Hc)
    as (b1 & Hb1 & Hsec & _ & Hn & Htr).
  exists m, targets, b1, m'. split; [exact Ht|]. split; [exact Hb1|]. split; [exact Hsec|].
  split; [exact Hn|]. split; [exact Htr|]. intros now2 eph2.
  pose proof (conclude_run eph2 (node_id (settings b)) m' a1 p' i' [] i'' Hp' Hph Hread' Hfin') as Hm2. rewrite Hpp in Hm2.
  edestruct (install_run now2 eph2 (node_id (settings b)) m' addr_b a1 None key) as (a2 & Ha2 & Hsec2 & _ & Hn2 & _);
    [exact Hm2| | |exact Hc|].
  - unfold hs_peer in *. cbn. by rewrite lookup_alter_eq, Hp'.
  - cbn. by rewrite Hpc'.
  - exists a2. split; [exact Ha2|]. split; [exact Hsec2|]. rewrite Hn2. exact S2.
Qed.

(** One side of two that were asked at once: the first message of the other is taken for an
    answer and ends the session, the second is answered as if nothing had been offered. *)
Lemma crossed_run pr now eph cands key a a1 b i r j eph_b key_b m_b j' c addr now1 eph1 now2 eph2 :
  knows a b i → build_responder (private_key (settings a)) = Some r →
  length key = 32%nat → length key_b = 32%nat → Crypto.new key_b = Ok c →
  punch_request pr now key eph (node_id (settings b)) cands a = (Ok tt, a1) →
  build_initiator (private_key (settings b)) (derive_public_key (private_key (settings a))) = Some j →
  snow_write eph_b j key_b 128 = Some (m_b, j') →
  ∃ a2 a3, handshake now1 eph1 (node_id (settings b)) m_b addr a1 = (Ok tt, a2) ∧
    handshake now2 eph2 (node_id (settings b)) m_b addr a2 = (Ok tt, a3) ∧
    secured a3 (node_id (settings b)) addr c.
Proof.
  intros Hkn Hr Hl Hlb Hc Hpunch Hj Hwb.
  destruct (offer_run _ _ _ _ _ _ _ _ _ Hkn Hl Hpunch) as (p & m & i' & Hw & Hf & Hpc & Hof).
  destruct Hkn as (p0 & _ & Hk & Hi).
  destruct Hof as [(p' & Hp' & Hph & Hpp & Hpc') (S1 & S2 & S3) _].
  pose proof (snow_waiting _ _ _ _ _ _ _ _ _ _ _ _ _ _ _ Hi Hw Hj Hwb) as Hno.
  pose proof (clash_run eph1 (node_id (settings b)) m_b a1 p' i' Hp' Hph Hno) as H1.
  apply (nothing_run now1 eph1 (node_id (settings b)) m_b addr) in H1. set (a2 := put_peers _ a1) in H1.
  assert (hs_peer a2 (node_id (settings b)) = Some (set_handshake None p')) as Hp2.
  { unfold hs_peer in *. subst a2. cbn. by rewrite lookup_alter_eq, Hp'. }
  destruct (snow_first (private_key (settings b)) (private_key (settings a)) j eph_b key_b 128 Hj
    ltac:(lia) ltac:(lia)) as (m0 & j0 & Hw0 & _ & Hresp).
  rewrite Hwb in Hw0. injection Hw0 as <- <-.
  destruct (Hresp r Hr) as (r' & Hread & _ & Hans).
  destruct (Hans eph2) as (m' & r'' & i'' & Hw' & Hfin & _).
  rewrite <- S1 in Hr.
  pose proof (respond_run eph2 (node_id (settings b)) m_b a2 _ r key_b r' m' r'' Hp2 eq_refl Hr Hread Hlb Hw' Hfin) as Hm.
  destruct (install_run now2 eph2 (node_id (settings b)) m_b addr a2 _ key_b a2 _ c Hm Hp2) as (a3 & Ha3 & Hsec & _);
    [cbn; by rewrite Hpc'|exact Hc|].
  exists a2, a3. split; [exact H1|]. split; [exact Ha3|exact Hsec].
Qed.

(** C18: asked at once, two edges end with different keys.  The supernode asks both members
    of a pair to punch.  When each has made its offer before it hears of the other, and each
    then hears the other's offer twice, as the burst repeats it, then [a] has installed the
    key [b] drew and [b] the one [a] drew, and a cipher that is there is never replaced. *)
Theorem simultaneous_punch pr a b i j ra rb key_a key_b ca cb now_a now_b eph_a eph_b cands_a
    cands_b a1 b1 addr_a addr_b :
  knows a b i → knows b a j →
  build_responder (private_key (settings a)) = Some ra →
  build_responder (private_key (settings b)) = Some rb →
  length key_a = 32%nat → length key_b = 32%nat →
  Crypto.new key_a = Ok ca → Crypto.new key_b = Ok cb →
  punch_request pr now_a key_a eph_a (node_id (settings b)) cands_a a = (Ok tt, a1) →
  punch_request pr now_b key_b eph_b (node_id (settings a)) cands_b b = (Ok tt, b1) →
  ∃ m_a m_b targets_a targets_b,
    e_bursts a1 = (e_bursts a ++ [mkBurst m_a targets_a burst_delays])%list ∧
    e_bursts b1 = (e_bursts b ++ [mkBurst m_b targets_b burst_delays])%list ∧
    ∀ now1 eph1 now2 eph2, ∃ a2 a3 b2 b3,
      handshake now1 eph1 (node_id (settings b)) m_b addr_b a1 = (Ok tt, a2) ∧
      handshake now1 eph1 (node_id (settings a)) m_a addr_a b1 = (Ok tt, b2) ∧
      handshake now2 eph2 (node_id (settings b)) m_b addr_b a2 = (Ok tt, a3) ∧
      handshake now2 eph2 (node_id (settings a)) m_a addr_a b2 = (Ok tt, b3) ∧
      secured a3 (node_id (settings b)) addr_b cb ∧
      secured b3 (node_id (settings a)) addr_a ca.
Proof.
  intros Ha Hb Hra Hrb Hla Hlb Hca Hcb Hpa Hpb.
  destruct (offer_run _ _ _ _ _ _ _ _ _ Ha Hla Hpa) as (p & m_a & i' & Hwa & _ & _ & [_ _ [ta Hta]]).
  destruct (offer_run _ _ _ _ _ _ _ _ _ Hb Hlb Hpb) as (q & m_b & j' & Hwb & _ & _ & [_ _ [tb Htb]]).
  exists m_a, m_b, ta, tb. split; [exact Hta|]. split; [exact Htb|]. intros now1 eph1 now2 eph2.
  pose proof Ha as (? & _ & Hka & Hia). rewrite Hka in Hia.
  pose proof Hb as (? & _ & Hkb & Hib). rewrite Hkb in Hib.
  destruct (crossed_run pr now_a eph_a cands_a key_a a a1 b i ra j eph_b key_b m_b j' cb addr_b
    now1 eph1 now2 eph2 Ha Hra Hla Hlb Hcb Hpa Hib Hwb) as (a2 & a3 & A1 & A2 & A3).
  destruct (crossed_run pr now_b eph_b cands_b key_b b b1 a j rb i eph_a key_a m_a i' ca addr_a
    now1 eph1 now2 eph2 Hb Hrb Hlb Hla Hca Hpb Hia Hwa) as (b2 & b3 & B1 & B2 & B3).
  exists a2, a3, b2, b3. by split_and!.
Qed.

(** What a handshake message leaves alone: the dataplane, and for the peer the cipher and
    the direct address. *)
Definition bond (n : NodeId) e :=
  (peers (e_dp e), (λ p, (ps_cipher p, ps_direct_addr p)) <$> e_peers e !! n).

Lemma bond_handshake_slot n m x : keeps (bond n) (on_peer m (set_handshake x)).
Proof.
  intros e. unfold bond, on_peer, mmodify. cbn. f_equal. destruct (decide (m = n)) as [->|].
  - rewrite lookup_alter_eq. by destruct (e_peers e !! n).
  - by rewrite lookup_alter_ne.
Qed.
Lemma bond_count n f : keeps (bond n) (on_dp (count f)).
Proof. done. Qed.
Lemma bond_send n frame addr : keeps (bond n) (send frame addr).
Proof. unfold send. keeps. Qed.
#[local] Hint Resolve bond_handshake_slot bond_count bond_send : keeps.
Lemma bond_message n eph m payload : keeps (bond n) (handshake_message eph m payload).
Proof. unfold handshake_message, failed_handshake. keeps. Qed.

(** A cipher is never replaced or reset.  Whatever handshake messages arrive, from
    anyone, a peer that has a cipher keeps it, and the dataplane's copy of the peer keeps its
    cipher, replay window and paths: the repeated messages of a burst do no harm, and neither
    does an attacker; but a peer that lost its key is not heard again either. *)
Theorem cipher_never_reset now eph n m addr e p c :
  e_peers e !! n = Some p → ps_cipher p = Some c →
  let e' := (handshake now eph n m addr e).2 in
  peers (e_dp e') = peers (e_dp e) ∧
  ∃ p', e_peers e' !! n = Some p' ∧ ps_cipher p' = Some c ∧ ps_direct_addr p' = ps_direct_addr p.
Proof.
  intros Hp Hc e'.
  assert (bond n e' = bond n e) as Hbond.
  { subst e'. change (leads (λ s s', bond n s' = bond n s) (handshake now eph n m addr) e).
    unfold handshake. apply leads_mseq; [typeclasses eauto|apply leads_view, bond_message|].
    intros [[response key] completed] e1 E. apply leads_mget.
    pose proof (bond_message n eph n m e) as H1. rewrite E in H1.
    assert (∃ p', e_peers e1 !! n = Some p' ∧ ps_cipher p' = Some c) as (p' & Hp' & Hc').
    { injection H1 as _ H1. rewrite Hp in H1. destruct (e_peers e1 !! n) as [p'|]; [|done].
      injection H1 as H1 _. exists p'. split; [done|congruence]. }
    rewrite Hp'.
    apply leads_mseq; [typeclasses eauto|apply leads_view; keeps|]. intros _ e2 _.
    destruct key, completed; try done. by rewrite Hc'. }
  injection Hbond as H1 H2. split; [exact H1|]. rewrite Hp in H2.
  destruct (e_peers e' !! n) as [p'|]; [|done]. injection H2 as H2 H3.
  exists p'. split; [done|]. split; congruence.
Qed.
End Handshake.
