(* ===== verification/HistorySpec.v ===== *)
(** The history of rooms: what is kept of it. *)
From Stdlib Require Import ZArith Lia Sorted.
From stdpp Require Import base tactics numbers list strings.
From S2P Require Import Prelude Bytes Net Text AddrText Common Sorting Config Nat Etherparse.
From S2P Require Import Dataplane EdgeCore.
Local Open Scope Z_scope.

Lemma StronglySorted_app_le {B} (le : B → B → Prop) l k x y :
  StronglySorted le (l ++ k) → x ∈ l → y ∈ k → le x y.
Proof.
  induction l as [|z l IH]; simpl; intros Hs Hx Hy; [by apply not_elem_of_nil in Hx|].
  apply StronglySorted_inv in Hs as [Hs Hz]. apply elem_of_cons in Hx as [->|Hx]; [|by apply IH].
  rewrite Forall_forall in Hz. apply Hz, elem_of_app. by right.
Qed.

Lemma StronglySorted_prefix {B} (le : B → B → Prop) l k :
  StronglySorted le (l ++ k) → StronglySorted le l.
Proof.
  induction l as [|z l IH]; simpl; intros Hs; constructor; apply StronglySorted_inv in Hs as [Hs Hz].
  - by apply IH.
  - by apply Forall_app in Hz as [].
Qed.

#[export] Instance HistoryItem_eq_dec : EqDecision HistoryItem.
Proof. solve_decision. Defined.

Section History.
Context `{HL : HistoryLib} `{F : Fs} `{!HistoryLaws HL}.

Definition recent (l : list HistoryItem) : list HistoryItem :=
  take 20 (sort_by_key (λ i, - hi_last_joined i) l).

Lemma saved_loads l file :
  history_path = true → fs_readable = true →
  (∀ l, ∃ s, history_to_json l = Some s ∧ fs_write_failure s = None) →
  load_history (save_history l file) = recent l.
Proof.
  intros Hp Hr Hw. unfold save_history, load_history. rewrite Hp. cbn [negb].
  destruct (Hw (recent l)) as (s & Hs & Hf). unfold recent in *. rewrite Hs, Hf, Hr.
  by rewrite (history_roundtrip _ s Hs).
Qed.

(** The latest twenty: what is left out is not later than anything kept. *)
Lemma recent_spec l :
  (length (recent l) ≤ 20)%nat ∧
  StronglySorted (λ x y, hi_last_joined y ≤ hi_last_joined x) (recent l) ∧
  (recent l ⊆+ l) ∧
  ∀ x, x ∈ l → x ∉ recent l →
    length (recent l) = 20%nat ∧ ∀ y, y ∈ recent l → hi_last_joined x ≤ hi_last_joined y.
Proof.
  unfold recent. set (key := λ i, - hi_last_joined i). set (s := sort_by_key key l).
  pose proof (sort_by_key_perm key l : s ≡ₚ l) as Hp.
  pose proof (sort_by_key_sorted key l : StronglySorted _ s) as Hs.
  rewrite <- (take_drop 20 s) in Hs.
  split; [rewrite length_take; lia|]. split; [|split].
  - apply StronglySorted_prefix in Hs. revert Hs. generalize (take 20 s). intros k.
    induction 1 as [|x k _ IH Hx]; constructor; [done|]. eapply Forall_impl; [exact Hx|].
    intros y. unfold by_key, key. lia.
  - rewrite <- Hp. apply sublist_submseteq, sublist_take.
  - intros x Hx Hn. rewrite <- Hp in Hx. rewrite <- (take_drop 20 s) in Hx.
    apply elem_of_app in Hx as [Hx|Hx]; [done|]. split.
    + rewrite length_take. assert (length (drop 20 s) ≠ 0)%nat by (by destruct (drop 20 s);
        [apply not_elem_of_nil in Hx|]). rewrite length_drop in *. lia.
    + intros y Hy. pose proof (StronglySorted_app_le _ _ _ y x Hs Hy Hx) as H.
      unfold by_key, key in H. lia.
Qed.

(** The history holds the rooms joined last, each once.  After a room has been added,
    and written, what is loaded has at most twenty rooms, the latest first; it is the new
    entry and entries that were there of other rooms, and what was left out is no later than
    the twenty that are kept, so a room joined later than all others is there; and rooms
    that were distinct stay so. *)
Theorem history_recent unix_secs room name invite file :
  history_path = true → fs_readable = true →
  (∀ l, ∃ s, history_to_json l = Some s ∧ fs_write_failure s = None) →
  let before := load_history file in
  let after := load_history (add_to_history unix_secs room name invite file) in
  let new := mkHistory room name invite unix_secs in
  (length after ≤ 20)%nat ∧
  StronglySorted (λ x y, hi_last_joined y ≤ hi_last_joined x) after ∧
  (∀ x, x ∈ after → x = new ∨ (x ∈ before ∧ hi_room_id x ≠ room)) ∧
  (∀ x, x = new ∨ (x ∈ before ∧ hi_room_id x ≠ room) → x ∉ after →
     length after = 20%nat ∧ ∀ y, y ∈ after → hi_last_joined x ≤ hi_last_joined y) ∧
  ((∀ x, x ∈ before → hi_last_joined x < unix_secs) → new ∈ after) ∧
  (NoDup (hi_room_id <$> before) → NoDup (hi_room_id <$> after)).
Proof.
  intros Hp Hr Hw before after new. subst after. unfold add_to_history.
  rewrite (saved_loads _ file Hp Hr Hw). fold before.
  set (others := List.filter _ before). set (l := (others ++ [new])%list).
  assert (∀ x, x ∈ l ↔ x = new ∨ (x ∈ before ∧ hi_room_id x ≠ room)) as Hl.
  { intros x. subst l others. rewrite elem_of_app, list_elem_of_singleton, !list_elem_of_In,
      List.filter_In, negb_true_iff, bool_decide_eq_false. tauto. }
  destruct (recent_spec l) as (H1 & H2 & H3 & H4).
  assert (∀ x, x ∈ recent l → x ∈ l) as Hin by (intros x Hx; by eapply elem_of_submseteq).
  split; [exact H1|]. split; [exact H2|]. split; [intros x Hx; by apply Hl, Hin|].
  split; [intros x Hx; apply H4; by apply Hl|]. split.
  - intros Hlt. destruct (decide (new ∈ recent l)) as [|Hn]; [done|].
    destruct (H4 new (proj2 (Hl new) (or_introl eq_refl)) Hn) as [Hlen Hle].
    destruct (recent l) as [|y k] eqn:E; [done|]. pose proof (list_elem_of_here y k) as Hy.
    specialize (Hle y Hy). rewrite <- E in Hy, Hn, Hin. apply Hin, Hl in Hy as [->|[Hy _]].
    + rewrite E in Hn. destruct Hn. apply list_elem_of_here.
    + specialize (Hlt y Hy). simpl in Hle. lia.
  - intros Hnd. apply (fmap_submseteq hi_room_id) in H3.
    enough (NoDup (hi_room_id <$> l)) as Hnl.
    { apply submseteq_Permutation in H3 as [k Hk]. rewrite Hk in Hnl. by apply NoDup_app in Hnl as [? _]. }
    subst l. rewrite fmap_app. apply NoDup_app. split; [|split; [|apply NoDup_singleton]].
    + subst others. clear -Hnd. induction before as [|x k IH]; simpl; [constructor|].
      apply NoDup_cons in Hnd as [Hx Hk]. case_bool_decide; simpl; [by apply IH|].
      apply NoDup_cons. split; [|by apply IH]. intros Hin. apply Hx.
      apply list_elem_of_fmap in Hin as (y & -> & Hy). apply list_elem_of_fmap_2.
      apply list_elem_of_In. by apply list_elem_of_In, List.filter_In in Hy as [].
    + intros x (y & -> & Hy)%list_elem_of_fmap Hx. apply list_elem_of_In, List.filter_In in Hy.
      destruct Hy as [_ Hy%negb_true_iff%bool_decide_eq_false].
      apply Hy. by apply list_elem_of_singleton in Hx.
Qed.
End History.
