(* ===== verification/Supernode.v ===== *)
(** The supernode: crates/r2n-supernode-lib/src/lib.rs.

    A handler is one step on the state.  The random room id and join token of a new room are
    arguments.  A handler that waits for a lock it holds itself never returns: that is the
    error [Blocked]. *)
From Stdlib Require Import ZArith Lia.
From stdpp Require Import base tactics numbers list gmap strings pretty.
From S2P Require Import Prelude Bytes Net NetImpl Text AddrText Common Proto Slab Room Transport.
From S2P Require Import Etherparse Policy Discovery Config.
Local Open Scope Z_scope.
Local Open Scope string_scope.

Inductive SupernodeError :=
| ControlSendFailed | PoolError (e : RoomError) | RoomFailed (e : RoomError) | LocalAddrFailed
| InvalidBind | Blocked.

Section Supernode.
Context `{L : Ipv4NetLib} `{Q : ArrayQueue} `{K : Socket} `{P : Postcard} `{C : InviteCrypto}
  `{X : Hex}.

Record NodeInfo := mkNodeInfo {
  ni_node_id : NodeId;
  ni_addr : SocketAddr;
  ni_nat_type : NatType;
  ni_external_addr : option SocketAddr;
  ni_public_key : list Z;
  ni_candidates : list Candidate;
  ni_nickname : string;
  ni_local_networks : list Ipv4Net;
  ni_last_seen : Z;
}.

(** A relay task: a frame in its slot, its length, and where it goes. *)
Record Relay := mkRelay { relay_desc : PacketDesc; relay_len : nat; relay_to : SocketAddr }.

Record Supernode := mkSupernode {
  sn_transport : UdpTransport;
  nodes : gmap NodeId NodeInfo;
  addr_to_node : gmap SocketAddr NodeId;
  rooms : gmap RoomId Room;
  invite_signing_key : SigningKey;
  sn_slab : PacketSlab;
  config : SupernodeConfig;
  sn_pool : RoomAddressPool;
  relays : list Relay;
}.

Definition put_transport x s := mkSupernode x (nodes s) (addr_to_node s) (rooms s)
  (invite_signing_key s) (sn_slab s) (config s) (sn_pool s) (relays s).
Definition put_nodes x s := mkSupernode (sn_transport s) x (addr_to_node s) (rooms s)
  (invite_signing_key s) (sn_slab s) (config s) (sn_pool s) (relays s).
Definition put_addrs x s := mkSupernode (sn_transport s) (nodes s) x (rooms s)
  (invite_signing_key s) (sn_slab s) (config s) (sn_pool s) (relays s).
Definition put_rooms x s := mkSupernode (sn_transport s) (nodes s) (addr_to_node s) x
  (invite_signing_key s) (sn_slab s) (config s) (sn_pool s) (relays s).
Definition put_slab x s := mkSupernode (sn_transport s) (nodes s) (addr_to_node s) (rooms s)
  (invite_signing_key s) x (config s) (sn_pool s) (relays s).
Definition put_pool x s := mkSupernode (sn_transport s) (nodes s) (addr_to_node s) (rooms s)
  (invite_signing_key s) (sn_slab s) (config s) x (relays s).
Definition put_relays x s := mkSupernode (sn_transport s) (nodes s) (addr_to_node s) (rooms s)
  (invite_signing_key s) (sn_slab s) (config s) (sn_pool s) x.

Definition SM : Type → Type := M Supernode SupernodeError.

(** [transport] is what the bind gave, [key] the random signing key. *)
Definition new_with_config (transport : UdpTransport) (key : SigningKey) (c : SupernodeConfig)
    : outcome SupernodeError Supernode :=
  slab ← lift (default_pool (Z.to_nat 4096));
  pool ← map_err PoolError (RoomAddressPool_new (Config.address_pool c) (Config.room_prefix_len c));
  Ok (mkSupernode transport ∅ ∅ ∅ key slab c pool []).

(** ** Helpers *)
Definition send (frame : ControlFrame) (addr : SocketAddr) : SM unit :=
  let* _ := mzoom sn_transport put_transport (λ _, ControlSendFailed) (send_control frame addr) in
  mreturn tt.

Definition peer_info_for_member (s : Supernode) (m : Member) : PeerInfo :=
  mkPeerInfo (node_id m) (virtual_ip m) (nickname m)
    (match nodes s !! node_id m with
     | Some n => ni_public_key n
     | None => replicate 32 0
     end).

Definition public_supernode_addr (s : Supernode) : outcome SupernodeError string :=
  let local := a ← ok_or LocalAddrFailed (local_addr (sn_transport s)); Ok (show_addr a) in
  match public_addr (config s) with
  | Some addr => if negb (blank addr) then Ok addr else local
  | None => local
  end.

Definition parse_local_networks (networks : list string) : list Ipv4Net := omap net_parse networks.

Definition nets_overlap (a b : Ipv4Net) : bool :=
  bool_decide (net_network a ≤ net_broadcast b)%Z && bool_decide (net_network b ≤ net_broadcast a)%Z.

Definition room_subnet_conflicts (room_virtual_cidr : string) (local_networks : list Ipv4Net)
    : bool :=
  match net_parse room_virtual_cidr with
  | Some room_network => existsb (nets_overlap room_network) local_networks
  | None => false
  end.

Definition local_networks_of (s : Supernode) (n : NodeId) : list Ipv4Net :=
  match nodes s !! n with Some i => ni_local_networks i | None => [] end.

(** ** [RegisterNode] *)
Definition peers_to_update (s : Supernode) (n : NodeId) : list SocketAddr :=
  List.concat (List.map (λ room,
    if bool_decide (is_Some (members room !! n)) then
      omap (λ m, if bool_decide (node_id m ≠ n) then ni_addr <$> nodes s !! node_id m else None)
        (values (members room))
    else []) (map_to_list (rooms s)).*2).

Definition register_node (now : Z) (n : NodeId) (nat : NatType) (external : option SocketAddr)
    (public_key : list Z) (candidates : list Candidate) (nick : string)
    (local_networks : list string) (addr : SocketAddr) : SM unit :=
  let info := mkNodeInfo n addr nat external public_key candidates nick
                (parse_local_networks local_networks) now in
  do* mmodify (λ s, put_nodes (<[n := info]> (nodes s)) s) in
  do* mmodify (λ s, put_addrs (<[addr := n]> (addr_to_node s)) s) in
  do* send RegisterOk addr in
  let* s := mget in
  mforeach (λ peer_addr, mignore (send (PunchRequest n candidates) peer_addr))
    (peers_to_update s n).

(** ** [CreateRoom] *)
Definition create_room (pr : profile) (new_id : RoomId) (join_token : string) (name : string)
    (addr : SocketAddr) : SM unit :=
  let* s := mget in
  match addr_to_node s !! addr with
  | None => send (ErrorFrame 400 "node not registered") addr
  | Some n =>
      let* cidr := mzoom sn_pool put_pool PoolError
                     (allocate_with_avoidance pr new_id (local_networks_of s n)) in
      let cidr := net_to_string cidr in
      let nick := match nodes s !! n with Some i => ni_nickname i | None => "Owner" end in
      let '(added, room) := add_or_reuse_member n nick Owner
                              (Room_new new_id name n cidr join_token) in
      let* assigned_ip := mlift (map_err RoomFailed added) in
      do* mmodify (λ s, put_rooms (<[new_id := room]> (rooms s)) s) in
      let* primary := mlift (public_supernode_addr s) in
      let key := match nodes s !! n with Some i => ni_public_key i | None => replicate 32 0 end in
      let invite := sign (invite_signing_key s)
        (mkInviteData VERSION primary (config_peers (config s)) primary new_id key (Some cidr)
           (Some join_token) None None) in
      send (RoomCreated new_id assigned_ip cidr (encode_invite invite)) addr
  end.

(** ** [JoinRoom] *)
Definition fallback_cidr : string := "192.168.255.0/24".

(** [entry(room_id).or_insert_with(..)] *)
Definition entry_or_restore (pr : profile) (id : RoomId) (token room_name : option string)
    (n : NodeId) : SM Room :=
  let* s := mget in
  match rooms s !! id with
  | Some room => mreturn room
  | None =>
      let name := default ("Restored-" +:+ hex_encode (room_bytes id)) room_name in
      let '(r, pool) := allocate pr id (sn_pool s) in
      do* mmodify (put_pool pool) in
      let* cidr := mlift (match r with
                          | Ok net => Ok (net_to_string net)
                          | Err _ => Ok fallback_cidr
                          | Panic => Panic
                          end) in
      let room := Room_new id name n cidr (default "" token) in
      do* mmodify (λ s, put_rooms (<[id := room]> (rooms s)) s) in
      mreturn room
  end.

(** The address of the joining node, and the room with it. *)
Definition admit_member (id : RoomId) (n : NodeId) (room : Room) : SM VirtualIp :=
  let* s := mget in
  match members room !! n with
  | Some existing => mreturn (virtual_ip existing)
  | None =>
      let nick := match nodes s !! n with
                  | Some i => ni_nickname i
                  | None => "Peer" +:+ pretty (size (members room) + 1)%nat
                  end in
      let '(r, room) := add_or_reuse_member n nick Guest room in
      do* mmodify (λ s, put_rooms (<[id := room]> (rooms s)) s) in
      mlift (map_err RoomFailed r)
  end.

Definition tell_peers (n : NodeId) (frame : ControlFrame) (ms : list Member) : SM unit :=
  mforeach (λ m, let* s := mget in
    match nodes s !! node_id m with
    | Some existing => send frame (ni_addr existing)
    | None => mreturn tt
    end) (List.filter (λ m, negb (bool_decide (node_id m = n))) ms).

Definition punch_pairs (n : NodeId) (addr : SocketAddr) (peers : list PeerInfo) : SM unit :=
  let* s := mget in
  match nodes s !! n with
  | None => mreturn tt
  | Some new_node =>
      mforeach (λ p, let* s := mget in
        if bool_decide (peer_node_id p = n) then mreturn tt else
        match nodes s !! peer_node_id p with
        | Some existing =>
            do* send (PunchRequest n (ni_candidates new_node)) (ni_addr existing) in
            send (PunchRequest (peer_node_id p) (ni_candidates existing)) addr
        | None => mreturn tt
        end) peers
  end.

(** What follows once the node is in the room. *)
Definition announce_join (id : RoomId) (n : NodeId) (assigned_ip : VirtualIp)
    (addr : SocketAddr) : SM unit :=
  let* s := mget in
  match rooms s !! id with
  | None => mreturn tt
  | Some room =>
      let* joined := mlift (match members room !! n with Some m => Ok m | None => Panic end) in
      do* send (JoinAccept id assigned_ip (r_virtual_cidr room) (Some (r_name room))) addr in
      let peers := peer_info_for_member s <$> values (members room) in
      do* send (PeerList peers) addr in
      do* tell_peers n (PeerUpdate (peer_info_for_member s joined) ActionAdd)
            (values (members room)) in
      punch_pairs n addr peers
  end.

Definition join_room (pr : profile) (id : RoomId) (token room_name : option string)
    (addr : SocketAddr) : SM unit :=
  let* s := mget in
  match addr_to_node s !! addr with
  | None => send (JoinReject "node not registered") addr
  | Some n =>
      let* room := entry_or_restore pr id token room_name n in
      if negb (bool_decide (r_join_token room = default "" token)) then
        send (JoinReject "invalid invite token") addr
      else if room_subnet_conflicts (r_virtual_cidr room) (local_networks_of s n) then
        send (JoinReject "room subnet conflicts with a local network on this device") addr
      else
        let* assigned_ip := admit_member id n room in
        announce_join id n assigned_ip addr
  end.

(** ** [LeaveRoom]

    The room is held by [get_mut] to the end of the handler: to remove it from the map then
    is to wait for oneself. *)
Definition leave_room (id : RoomId) (addr : SocketAddr) : SM unit :=
  let* s := mget in
  match addr_to_node s !! addr, rooms s !! id with
  | Some n, Some room =>
      let left_room := remove_member n room in
      do* mmodify (λ s, put_rooms (<[id := left_room]> (rooms s)) s) in
      do* match members room !! n with
          | Some m =>
              mforeach (λ m', let* s := mget in
                match nodes s !! node_id m' with
                | Some existing =>
                    send (PeerUpdate (peer_info_for_member s m) ActionRemove) (ni_addr existing)
                | None => mreturn tt
                end) (values (members left_room))
          | None => mreturn tt
          end in
      if bool_decide (members left_room = ∅) then mthrow Blocked else mreturn tt
  | _, _ => mreturn tt
  end.

Definition rooms_list (s : Supernode) : list RoomDescription :=
  (λ room, mkRoomDescription (r_room_id room) (r_name room) (size (members room)))
    <$> (map_to_list (rooms s)).*2.

(** [draw] is the random room id and token. *)
Definition handle_control (pr : profile) (now : Z) (draw : RoomId * string)
    (frame : ControlFrame) (addr : SocketAddr) : SM unit :=
  match frame with
  | RegisterNode n nat external key candidates nick networks =>
      register_node now n nat external key candidates nick networks addr
  | CreateRoom name => create_room pr draw.1 draw.2 name addr
  | JoinRoom id token room_name => join_room pr id token room_name addr
  | LeaveRoom id => leave_room id addr
  | Heartbeat => mignore (send Heartbeat addr)
  | QueryRooms => let* s := mget in mignore (send (RoomsList (rooms_list s)) addr)
  | _ => mreturn tt
  end.

(** ** Relaying dataplane frames *)
Definition set_last_seen (now : Z) (i : NodeInfo) : NodeInfo :=
  mkNodeInfo (ni_node_id i) (ni_addr i) (ni_nat_type i) (ni_external_addr i) (ni_public_key i)
    (ni_candidates i) (ni_nickname i) (ni_local_networks i) now.

(** A datagram from a known address is a sign of life. *)
Definition touch (now : Z) (addr : SocketAddr) (s : Supernode) : Supernode :=
  match addr_to_node s !! addr with
  | Some n => put_nodes (alter (set_last_seen now) n (nodes s)) s
  | None => s
  end.

(** The frame is copied to a slot; a task of its own sends it later. *)
Definition handle_data (h : DataHeader) (recv_buf : list Z) : SM unit :=
  let frame_len := frame_len h in
  let* s := mget in
  match nodes s !! h_dst_node h with
  | None => mreturn tt
  | Some target =>
      match acquire (sn_slab s) with
      | (None, slab) => mmodify (put_slab slab)
      | (Some desc, slab) =>
          do* mmodify (put_slab slab) in
          if bool_decide (DEFAULT_FRAME_CAP < frame_len)%nat then
            mmodify (put_slab (Slab.release desc slab))
          else
            do* mzoom sn_slab put_slab id (with_slot_mut desc (
                  let* slot := mget in
                  let* frame := mlift (lift (slice recv_buf 0 frame_len)) in
                  let* slot := mlift (lift (copy_from_slice slot 0 frame_len frame)) in
                  mmodify (λ _, slot))) in
            mmodify (λ s, put_relays (relays s ++ [mkRelay desc frame_len (ni_addr target)])%list s)
      end
  end.

(** The task. *)
Definition run_relay (r : Relay) : SM unit :=
  let* s := mget in
  let* frame_slice := mlift (lift (get_slot_slice (relay_desc r) (sn_slab s))) in
  let* frame := mlift (lift (slice frame_slice 0 (relay_len r))) in
  do* mignore (mzoom sn_transport put_transport (λ _, ControlSendFailed)
                 (send_raw frame (relay_to r))) in
  mmodify (λ s, put_slab (Slab.release (relay_desc r) (sn_slab s)) s).

(** Errors of a handler are logged; one that blocks takes the loop with it. *)
Definition logged (m : SM unit) : SM unit := λ s,
  match m s with
  | (Err Blocked, s) => (Err Blocked, s)
  | (Err _, s) => (Ok tt, s)
  | r => r
  end.

(** One round of the receive loop of [run]. *)
Definition receive (pr : profile) (now : Z) (draw : RoomId * string) (buf : list Z) (len : nat)
    (from : SocketAddr) : SM unit :=
  match recv_packet buf len from with
  | Ok (PControl packet, addr) =>
      do* mmodify (touch now addr) in
      logged (handle_control pr now draw packet addr)
  | Ok (PData (h, _), addr) =>
      do* mmodify (touch now addr) in
      handle_data h buf
  | Err _ => mreturn tt
  | Panic => mlift Panic
  end.

(** ** The reaper: its own copies of the maps, made when the server starts *)
Record Reaper := mkReaper {
  rp_nodes : gmap NodeId NodeInfo;
  rp_addrs : gmap SocketAddr NodeId;
  rp_rooms : gmap RoomId Room;
}.

Definition dead_nodes (now : Z) (ns : gmap NodeId NodeInfo) : list NodeId :=
  (List.filter (λ ni, bool_decide (120 < as_secs (duration_since now (ni_last_seen ni.2))))
     (map_to_list ns)).*1.

Definition without (n : NodeId) (room : Room) : Room :=
  if bool_decide (is_Some (members room !! n)) then set_members (delete n (members room)) room
  else room.

Definition reap_node (n : NodeId) (r : Reaper) : M UdpTransport TransportError Reaper :=
  match rp_nodes r !! n with
  | None => mreturn r
  | Some info =>
      let ns := delete n (rp_nodes r) in
      let notify := PeerUpdate (mkPeerInfo n (mkVirtualIp [0; 0; 0; 0]) (ni_nickname info)
                                  (ni_public_key info)) ActionRemove in
      do* mforeach (λ room,
            mwhen (bool_decide (is_Some (members room !! n)))
              (mforeach (λ m, match ns !! node_id m with
                              | Some target => mignore (send_control notify (ni_addr target))
                              | None => mreturn tt
                              end) (values (members (without n room)))))
          (map_to_list (rp_rooms r)).*2 in
      mreturn (mkReaper ns (delete (ni_addr info) (rp_addrs r))
        (filter (λ e, members e.2 ≠ ∅) (without n <$> rp_rooms r)))
  end.

Fixpoint reap_nodes (ns : list NodeId) (r : Reaper) : M UdpTransport TransportError Reaper :=
  match ns with
  | [] => mreturn r
  | n :: ns => let* r := reap_node n r in reap_nodes ns r
  end.

(** One tick of the interval. *)
Definition reap (now : Z) (r : Reaper) : M UdpTransport TransportError Reaper :=
  reap_nodes (dead_nodes now (rp_nodes r)) r.

(** ** The management API: copies of the maps again *)
Record ManagementState := mkManagement {
  mg_nodes : gmap NodeId NodeInfo;
  mg_rooms : gmap RoomId Room;
  mg_peers : list string;
  mg_federation_id : string;
  mg_admin_token : string;
}.

Record RoomRow := mkRoomRow {
  row_room_id : string; row_name : string; row_cidr : string;
  row_members : nat; row_leases : nat;
}.
Record NodeRow := mkNodeRow {
  row_node_id : string; row_addr : string; row_nat_type : string; row_nickname : string;
  row_candidates : nat; row_last_seen_secs : Z;
}.

Inductive StatusCode := UNAUTHORIZED | BAD_REQUEST.

(** The two headers, when they are text. *)
Record Headers := mkHeaders { authorization : option string; x_r2n_admin_token : option string }.

Definition authorized (headers : Headers) (token : string) : bool :=
  if blank token then false else
  bool_decide (authorization headers = Some ("Bearer " +:+ token))
  || bool_decide (x_r2n_admin_token headers = Some token).

Definition show_nat (n : NatType) : string :=
  match n with
  | Open => "Open" | Cone => "Cone" | Symmetric => "Symmetric" | Unknown => "Unknown"
  end.

Definition guarded {A} (h : Headers) (m : ManagementState) (a : A) : outcome StatusCode A :=
  if authorized h (mg_admin_token m) then Ok a else Err UNAUTHORIZED.

Definition management_health : string := "ok".

Definition management_rooms (h : Headers) (m : ManagementState)
    : outcome StatusCode (list RoomRow) :=
  guarded h m ((λ room, mkRoomRow (hex_encode (room_bytes (r_room_id room))) (r_name room)
    (r_virtual_cidr room) (size (members room)) (size (ip_leases room)))
    <$> (map_to_list (mg_rooms m)).*2).

Definition management_nodes (now : Z) (h : Headers) (m : ManagementState)
    : outcome StatusCode (list NodeRow) :=
  guarded h m ((λ n, mkNodeRow (hex_encode (node_bytes (ni_node_id n))) (show_addr (ni_addr n))
    (show_nat (ni_nat_type n)) (ni_nickname n) (length (ni_candidates n))
    (as_secs (duration_since now (ni_last_seen n))))
    <$> (map_to_list (mg_nodes m)).*2).

(** Rooms, nodes, and active nodes. *)
Definition management_stats (h : Headers) (m : ManagementState)
    : outcome StatusCode (nat * nat * nat) :=
  guarded h m (size (mg_rooms m), size (mg_nodes m), size (mg_nodes m)).

Definition management_federation (h : Headers) (m : ManagementState)
    : outcome StatusCode (string * list string) :=
  guarded h m (mg_federation_id m, mg_peers m).

Definition management_kick_node (h : Headers) (node_id : string)
    : M ManagementState StatusCode bool := λ m,
  match (_ ← guarded h m tt;
         decoded ← ok_or BAD_REQUEST (hex_decode node_id);
         if bool_decide (length decoded = 32%nat) then Ok (mkNodeId decoded) else Err BAD_REQUEST)
  with
  | Ok n =>
      (Ok (bool_decide (is_Some (mg_nodes m !! n))),
       mkManagement (delete n (mg_nodes m)) (mg_rooms m) (mg_peers m) (mg_federation_id m)
         (mg_admin_token m))
  | Err e => (Err e, m)
  | Panic => (Panic, m)
  end.

(** The routes of the interface.  Matching a request against them is the web server's. *)
Inductive Method := GET | POST.
Inductive Handler := Health | RoomList | NodeList | Stats | Federation | KickNode.

Definition management_router : list (Method * string * Handler) :=
  [(GET, "/health", Health); (GET, "/rooms", RoomList); (GET, "/nodes", NodeList);
   (GET, "/stats", Stats); (GET, "/federation", Federation);
   (POST, "/nodes/:node_id/kick", KickNode)].

(** Where the interface is to listen and the state it gets: nowhere for a blank address.  A
    listener that then fails is only logged. *)
Definition spawn_management_api (s : Supernode)
    : outcome SupernodeError (option (SocketAddr * ManagementState)) :=
  let bind := trim (Config.management_bind (config s)) in
  if bool_decide (bind = EmptyString) then Ok None else
  addr ← ok_or InvalidBind (parse_socket_addr bind);
  Ok (Some (addr, mkManagement (nodes s) (rooms s) (config_peers (config s))
    (Config.federation_id (config s)) (Config.admin_token (config s)))).

(** What a line typed at the console prints. *)
Definition console_row (room : Room) : string :=
  "ID: " +:+ hex_encode (room_bytes (r_room_id room)) +:+ ", Name: " +:+ r_name room
    +:+ ", Members: " +:+ pretty (size (members room)).

Definition console_line (line : string) (rooms : gmap RoomId Room) : list string :=
  let line := trim line in
  if bool_decide (line = "rooms") || bool_decide (line = "list")
  then (["--- Active Rooms ---"]
        ++ (if decide (rooms = ∅) then ["No active rooms."]
            else console_row <$> (map_to_list rooms).*2)
        ++ ["--------------------"])%list
  else [].

(** ** The running server *)
Record Server := mkServer {
  live : Supernode;
  reaper : Reaper;
  management : option (SocketAddr * ManagementState);
  console : gmap RoomId Room;
}.

(** [run] up to the first datagram: the copies are made, and an address of the interface
    that cannot be read ends it. *)
Definition serving (s : Supernode) (api : option (SocketAddr * ManagementState)) : Server :=
  mkServer s (mkReaper (nodes s) (addr_to_node s) (rooms s)) api (rooms s).
Definition start (s : Supernode) : outcome SupernodeError Server :=
  serving s <$> spawn_management_api s.

Definition set_live s srv := mkServer s (reaper srv) (management srv) (console srv).

(** What can happen next: a datagram, the end of a relay, a tick, a request.  A request works
    on a clone of the state, which the extractor [State] makes for every call. *)
Inductive server_step (pr : profile) : Server → Server → Prop :=
| step_receive srv now draw buf len from s' :
    receive pr now draw buf len from (live srv) = (Ok tt, s') →
    server_step pr srv (set_live s' srv)
| step_relay srv l1 r l2 s' :
    relays (live srv) = (l1 ++ r :: l2)%list →
    run_relay r (put_relays (l1 ++ l2)%list (live srv)) = (Ok tt, s') →
    server_step pr srv (set_live s' srv)
| step_reap srv now r' t' :
    reap now (reaper srv) (sn_transport (live srv)) = (Ok r', t') →
    server_step pr srv (mkServer (put_transport t' (live srv)) r' (management srv)
                         (console srv))
| step_kick srv h id a m b m' :
    management srv = Some (a, m) →
    management_kick_node h id m = (b, m') →
    server_step pr srv srv.

(** The prefix length is a [u8]. *)
Definition server_started (srv : Server) : Prop :=
  ∃ transport key c s, u_ok 8 (Config.room_prefix_len c) ∧
    new_with_config transport key c = Ok s ∧ start s = Ok srv.

Definition server_reachable (pr : profile) (srv : Server) : Prop :=
  ∃ srv0, server_started srv0 ∧ rtc (server_step pr) srv0 srv.
End Supernode.
