(* ===== verification/SupernodeFacts.v ===== *)
(** What the supernode promises: its rooms and their addresses, who gets into a room, what
    leaving does, and the frames it relays. *)
From Stdlib Require Import ZArith Lia.
From stdpp Require Import base tactics numbers list gmap strings.
From S2P Require Import Prelude Bytes Net NetImpl Text Common Proto Slab Room Transport.
From S2P Require Import Etherparse Policy Discovery Config Supernode.
Local Open Scope Z_scope.
Local Open Scope string_scope.

Section Facts.
Context `{L : Ipv4NetLib} `{HL : !Ipv4NetLaws L} `{Q : ArrayQueue} `{K : Socket} `{P : Postcard}
  `{C : InviteCrypto} `{X : Hex}.
Implicit Types (s : Supernode).

(** ** Sending

    [quiet]: nothing but the transport changes, and only a failed send is an error. *)
Definition quiet {A} (m : SM A) : Prop := ∀ s,
  ∃ r t, m s = (r, put_transport t s) ∧ (is_ok r = true ∨ r = Err ControlSendFailed).

Lemma put_transport_same s : put_transport (sn_transport s) s = s.
Proof. by destruct s. Qed.

Lemma quiet_mreturn {A} (a : A) : quiet (mreturn a).
Proof. intros s. exists (Ok a), (sn_transport s). rewrite put_transport_same. auto. Qed.

Lemma quiet_mseq {A B} (m : SM A) (f : A → SM B) :
  quiet m → (∀ a, quiet (f a)) → quiet (mseq m f).
Proof.
  intros Hm Hf s. destruct (Hm s) as (r & t & E & Hr). unfold mseq. rewrite E.
  destruct r as [a|e|]; simpl in Hr; [|destruct Hr as [|[= ->]]; [done|eauto 6]|by destruct Hr].
  destruct (Hf a (put_transport t s)) as (r2 & t2 & E2 & Hr2). exists r2, t2. by rewrite E2.
Qed.

Lemma quiet_mget {A} (f : Supernode → SM A) : (∀ s, quiet (f s)) → quiet (let* s := mget in f s).
Proof. intros Hf s. exact (Hf s s). Qed.

Lemma quiet_mforeach {A} (f : A → SM unit) l : (∀ a, quiet (f a)) → quiet (mforeach f l).
Proof.
  intros Hf. induction l as [|a l IH]; [apply quiet_mreturn|]. by apply quiet_mseq.
Qed.

Lemma quiet_mignore {A} (m : SM A) : quiet m → quiet (mignore m).
Proof.
  intros Hm s. destruct (Hm s) as (r & t & E & Hr). unfold mignore. rewrite E.
  destruct r as [a|e|]; [eauto 6..|]. by destruct Hr.
Qed.

Lemma send_control_not_panic f a t t' : send_control f a t ≠ (Panic, t').
Proof.
  unfold send_control, send_to, mseq, mget, mlift, mreturn.
  destruct (check_family t a); [|done]. destruct (to_stdvec f); simpl; [|done].
  by destruct (socket_send _ _ _).
Qed.

Lemma quiet_send f a : quiet (send f a).
Proof.
  intros s. unfold send, mseq, mzoom, mreturn.
  destruct (send_control f a (sn_transport s)) as [[n|e|] t] eqn:E; simpl; [eauto 6..|].
  by apply send_control_not_panic in E.
Qed.

Lemma quiet_tell n frame ms : quiet (tell_peers n frame ms).
Proof.
  apply quiet_mforeach. intros m. apply quiet_mget. intros s.
  destruct (nodes s !! _); [apply quiet_send|apply quiet_mreturn].
Qed.

Lemma quiet_punch n addr peers : quiet (punch_pairs n addr peers).
Proof.
  apply quiet_mget. intros s. destruct (nodes s !! n); [|apply quiet_mreturn].
  apply quiet_mforeach. intros p. apply quiet_mget. intros s'.
  case_bool_decide; [apply quiet_mreturn|].
  destruct (nodes s' !! _); [|apply quiet_mreturn].
  apply quiet_mseq; [apply quiet_send|]. intros. apply quiet_send.
Qed.

(** Announcing a node that is in its room. *)
Lemma announce_run id n ip addr s room m :
  rooms s !! id = Some room → members room !! n = Some m →
  ∃ r t, announce_join id n ip addr s = (r, put_transport t s) ∧
    (is_ok r = true ∨ r = Err ControlSendFailed).
Proof.
  intros Hr Hm. unfold announce_join. rewrite (mseq_Ok mget _ s s s eq_refl), Hr, Hm.
  rewrite (mseq_Ok (mlift (Ok m)) _ s m s eq_refl).
  match goal with |- ∃ r t, ?prog s = _ ∧ _ => enough (quiet prog) as Hq by exact (Hq s) end.
  apply quiet_mseq; [apply quiet_send|]. intros _.
  apply quiet_mseq; [apply quiet_send|]. intros _.
  apply quiet_mseq; [apply quiet_tell|]. intros _. apply quiet_punch.
Qed.

(** ** Allocation *)
Lemma pool_bounds {pr p} : pool_reachable pr p → pool_inv p.
Proof. apply pool_reachable_inv. Qed.

(** An allocation never unwinds, keeps what is allocated, and records what it gives. *)
Lemma allocate_total pr id avoid p :
  pool_inv p →
  match allocate_with_avoidance pr id avoid p with
  | (Ok c, p') => allocations p' !! id = Some c ∧
      ∀ k c0, allocations p !! k = Some c0 → allocations p' !! k = Some c0
  | (Err _, p') => p' = p ∧ allocations p !! id = None
  | (Panic, _) => False
  end.
Proof.
  intros H. destruct (allocations p !! id) as [c|] eqn:Hc.
  { unfold allocate_with_avoidance, mseq, mget. by rewrite Hc. }
  pose proof (allocate_new pr p avoid id (pinv_ok p H) Hc) as Ha.
  destruct (allocate_with_avoidance _ _ _ _) as [[c|[]|] p']; simpl in Ha; try done;
    [|by destruct Ha as [-> _]].
  destruct Ha as [-> _]. simpl. rewrite lookup_insert_eq. split; [done|].
  intros k c0 Hk. rewrite lookup_insert_ne; [done|]. congruence.
Qed.

(** ** The invariant of the state *)
Record sn_inv (pr : profile) s : Prop := {
  si_pool : pool_reachable pr (sn_pool s);
  si_room : ∀ id room, rooms s !! id = Some room →
    r_room_id room = id ∧ room_reachable room ∧
    (r_virtual_cidr room = fallback_cidr ∨
     ∃ net, allocations (sn_pool s) !! id = Some net ∧ r_virtual_cidr room = net_to_string net);
}.

(** The invariant reads the pool and the rooms only. *)
Lemma sn_inv_same pr s s' :
  sn_inv pr s → sn_pool s' = sn_pool s → rooms s' = rooms s → sn_inv pr s'.
Proof. intros [H1 H2] Hp Hr. split; rewrite ?Hp, ?Hr; done. Qed.

(** Changing one room. *)
Lemma sn_inv_room pr s id room room' :
  sn_inv pr s → rooms s !! id = Some room → rtc room_step room room' →
  r_room_id room' = r_room_id room → r_virtual_cidr room' = r_virtual_cidr room →
  sn_inv pr (put_rooms (<[id := room']> (rooms s)) s).
Proof.
  intros [Hp H] Hr Hstep Hid Hc. split; [done|]. simpl. intros k r.
  rewrite lookup_insert. case_decide; [|apply H]. intros [= <-]. subst k.
  destruct (H id room Hr) as (E & Hre & Hcidr). rewrite Hid, Hc. split_and!; [done| |done].
  clear -Hre Hstep. induction Hstep as [|x y z Hxy _ IH]; [done|]. apply IH.
  by eapply room_next.
Qed.

(** Allocating more. *)
Lemma sn_inv_pool pr s p' :
  sn_inv pr s → pool_reachable pr p' →
  (∀ k c, allocations (sn_pool s) !! k = Some c → allocations p' !! k = Some c) →
  sn_inv pr (put_pool p' s).
Proof.
  intros [Hp H] Hp' Hk. split; [done|]. simpl. intros k r Hrk.
  destruct (H k r Hrk) as (? & ? & [?|(net & ? & ?)]); [by auto|].
  split_and!; [done..|]. right. exists net. split; [|done]. by apply Hk.
Qed.

(** Adding a room whose network is new. *)
Lemma sn_inv_new_room pr s id room p' :
  sn_inv pr s → pool_reachable pr p' →
  (∀ k c, allocations (sn_pool s) !! k = Some c → allocations p' !! k = Some c) →
  r_room_id room = id → room_reachable room →
  (r_virtual_cidr room = fallback_cidr ∨
   ∃ net, allocations p' !! id = Some net ∧ r_virtual_cidr room = net_to_string net) →
  sn_inv pr (put_rooms (<[id := room]> (rooms s)) (put_pool p' s)).
Proof.
  intros [Hp H] Hp' Hk Hid Hr Hc. split; [done|]. simpl. intros k r.
  rewrite lookup_insert. case_decide as E; [by intros [= <-]; subst k|].
  intros Hrk. destruct (H k r Hrk) as (? & ? & [?|(net & ? & ?)]); [by auto|].
  split_and!; [done..|]. right. exists net. split; [|done]. by apply Hk.
Qed.

(** Adding a member changes neither the id nor the network of the room. *)
Lemma add_member_fields n nick role room :
  let room' := (add_or_reuse_member n nick role room).2 in
  r_room_id room' = r_room_id room ∧ r_virtual_cidr room' = r_virtual_cidr room ∧
  r_join_token room' = r_join_token room.
Proof.
  unfold add_or_reuse_member, allocate_ip, mseq, mmodify, mreturn. cbv zeta.
  repeat case_match; simplify_eq/=; done.
Qed.

Lemma add_member_not_panic n nick role room room' :
  add_or_reuse_member n nick role room ≠ (Panic, room').
Proof.
  unfold add_or_reuse_member, allocate_ip, mseq, mmodify, mreturn. cbv zeta.
  repeat case_match; simplify_eq/=; done.
Qed.

Lemma add_member_in n nick role room ip room' :
  add_or_reuse_member n nick role room = (Ok ip, room') →
  members room' !! n = Some (mkMember n ip nick role).
Proof.
  unfold add_or_reuse_member, mseq, mmodify, mreturn.
  destruct (allocate_ip n role room) as [[ip'|e|] r] eqn:E; try done.
  intros [= <- <-]. simpl. apply lookup_insert_eq.
Qed.

(** ** Joining *)

(** The room a join works on: the one there is, or a new empty one under the token given. *)
Definition entered (pr : profile) s (id : RoomId) (token room_name : option string) (n : NodeId)
    (room : Room) s1 : Prop :=
  (rooms s !! id = Some room ∧ s1 = s) ∨
  (rooms s !! id = None ∧
   let '(r, p') := allocate pr id (sn_pool s) in
   room = Room_new id (default ("Restored-" +:+ hex_encode (room_bytes id)) room_name) n
            (match r with Ok net => net_to_string net | _ => fallback_cidr end)
            (default "" token) ∧
   s1 = put_rooms (<[id := room]> (rooms s)) (put_pool p' s)).

Lemma entry_run pr id token room_name n s :
  sn_inv pr s →
  ∃ room s1, entry_or_restore pr id token room_name n s = (Ok room, s1) ∧
    entered pr s id token room_name n room s1.
Proof.
  intros H. unfold entry_or_restore, entered. rewrite (mseq_Ok mget _ s s s eq_refl).
  destruct (rooms s !! id) as [room|]; [eauto 10|].
  pose proof (allocate_total pr id [] (sn_pool s) (pool_bounds (si_pool pr s H))) as Ha.
  unfold allocate. destruct (allocate_with_avoidance _ _ _ _) as [[net|e|] p']; [..|done];
    (do 2 eexists; split; [reflexivity|]; right; done).
Qed.

Lemma entered_inv pr s id token room_name n room s1 :
  sn_inv pr s → entered pr s id token room_name n room s1 →
  sn_inv pr s1 ∧ rooms s1 !! id = Some room ∧ nodes s1 = nodes s ∧
  addr_to_node s1 = addr_to_node s ∧ (∀ k, k ≠ id → rooms s1 !! k = rooms s !! k).
Proof.
  intros H [[Hr ->]|[Hr Hnew]]; [done|].
  pose proof (allocate_total pr id [] (sn_pool s) (pool_bounds (si_pool pr s H))) as Ha.
  pose proof (pool_next pr _ _ (si_pool pr s H) (step_allocate pr (sn_pool s) id [])) as Hp.
  unfold allocate in Hnew.
  destruct (allocate_with_avoidance pr id [] (sn_pool s)) as [r p']; simpl in Hp.
  destruct Hnew as [-> ->]. split.
  - apply sn_inv_new_room; [done|done| |done|apply room_start|].
    + intros k c Hc. destruct r as [net|e|]; [|by destruct Ha as [-> _]|done].
      by apply Ha.
    + destruct r as [net|e|]; [right; exists net; by destruct Ha|by left|by left].
  - simpl. rewrite lookup_insert_eq. split_and!; try done.
    intros k Hk. by rewrite lookup_insert_ne.
Qed.

(** The whole of a join on a room, as a state and a program that only sends. *)
Lemma join_run pr id token room_name addr n s room s1 :
  addr_to_node s !! addr = Some n →
  entry_or_restore pr id token room_name n s = (Ok room, s1) →
  join_room pr id token room_name addr s =
    (if negb (bool_decide (r_join_token room = default "" token)) then
       send (JoinReject "invalid invite token") addr
     else if room_subnet_conflicts (r_virtual_cidr room) (local_networks_of s n) then
       send (JoinReject "room subnet conflicts with a local network on this device") addr
     else
       let* assigned_ip := admit_member id n room in
       announce_join id n assigned_ip addr) s1.
Proof.
  intros Ha He. unfold join_room. rewrite (mseq_Ok mget _ s s s eq_refl), Ha.
  by rewrite (mseq_Ok _ _ _ _ _ He).
Qed.

Definition guest_name s (room : Room) (n : NodeId) : string :=
  match nodes s !! n with
  | Some i => ni_nickname i
  | None => "Peer" +:+ pretty.pretty (size (members room) + 1)%nat
  end.

Lemma admit_run id n room s :
  admit_member id n room s =
  match members room !! n with
  | Some m => (Ok (virtual_ip m), s)
  | None =>
      let '(r, room') := add_or_reuse_member n (guest_name s room n) Guest room in
      (map_err RoomFailed r, put_rooms (<[id := room']> (rooms s)) s)
  end.
Proof.
  unfold admit_member. rewrite (mseq_Ok mget _ s s s eq_refl).
  destruct (members room !! n); [done|]. fold (guest_name s room n).
  by destruct (add_or_reuse_member _ _ _ _) as [r room'].
Qed.

(** ** Leaving *)
Lemma leave_run id addr s n room :
  addr_to_node s !! addr = Some n → rooms s !! id = Some room →
  ∃ r t, leave_room id addr s
    = (r, put_transport t (put_rooms (<[id := remove_member n room]> (rooms s)) s)) ∧
    if bool_decide (members (remove_member n room) = ∅)
    then r = Err Blocked ∧ t = sn_transport s
    else r = Ok tt ∨ r = Err ControlSendFailed.
Proof.
  intros Ha Hr. unfold leave_room. rewrite (mseq_Ok mget _ s s s eq_refl), Ha, Hr.
  set (s1 := put_rooms (<[id := remove_member n room]> (rooms s)) s).
  match goal with |- context [mmodify ?f] =>
    rewrite (mseq_Ok (mmodify f) _ s tt s1 eq_refl) end.
  destruct (decide (members (remove_member n room) = ∅)) as [He|He].
  - rewrite !bool_decide_eq_true_2 by done. rewrite He.
    exists (Err Blocked), (sn_transport s). split; [|done].
    change (sn_transport s) with (sn_transport s1). rewrite put_transport_same.
    by destruct (members room !! n).
  - rewrite !bool_decide_eq_false_2 by done.
    match goal with |- ∃ r t, ?prog s1 = _ ∧ _ => enough (quiet prog) as Hq end.
    { destruct (Hq s1) as (r & t & E & Hr'). exists r, t. split; [exact E|].
      destruct Hr' as [Ho|]; [left|by right]. by destruct r as [[]| |]. }
    apply quiet_mseq; [|intros; apply quiet_mreturn].
    destruct (members room !! n); [|apply quiet_mreturn].
    apply quiet_mforeach. intros m'. apply quiet_mget. intros s'.
    destruct (nodes s' !! _); [apply quiet_send|apply quiet_mreturn].
Qed.

(** ** The invariant of the running server *)
Definition rooms_view s := (sn_pool s, rooms s).

Lemma quiet_keeps {A} (m : SM A) : quiet m → keeps rooms_view m.
Proof. intros Hm s. destruct (Hm s) as (r & t & E & _). by rewrite E. Qed.

Lemma send_keeps_rooms f a : keeps rooms_view (send f a).
Proof. apply quiet_keeps, quiet_send. Qed.
#[local] Hint Resolve send_keeps_rooms : keeps.

Lemma inv_of_view pr s s' : sn_inv pr s → rooms_view s' = rooms_view s → sn_inv pr s'.
Proof. intros H [= Hp Hr]. by apply (sn_inv_same pr s). Qed.

Lemma register_keeps now n nat ext key cands nick nets addr :
  keeps rooms_view (register_node now n nat ext key cands nick nets addr).
Proof. unfold register_node. keeps. Qed.

Lemma handle_data_keeps h buf : keeps rooms_view (handle_data h buf).
Proof. unfold handle_data. keeps. Qed.

Lemma run_relay_keeps r : keeps rooms_view (run_relay r).
Proof. unfold run_relay. keeps. Qed.

Lemma touch_view now addr s : rooms_view (touch now addr s) = rooms_view s.
Proof. unfold touch. by destruct (addr_to_node s !! addr). Qed.

Lemma create_inv pr id token name addr s :
  sn_inv pr s → sn_inv pr (create_room pr id token name addr s).2.
Proof.
  intros H. unfold create_room. rewrite (mseq_Ok mget _ s s s eq_refl).
  destruct (addr_to_node s !! addr) as [n|];
    [|by eapply inv_of_view; [exact H|apply send_keeps_rooms]].
  set (avoid := local_networks_of s n).
  pose proof (allocate_total pr id avoid (sn_pool s) (pool_bounds (si_pool pr s H))) as Ha.
  pose proof (pool_next pr _ _ (si_pool pr s H) (step_allocate pr (sn_pool s) id avoid)) as Hp.
  unfold mseq at 1, mzoom at 1.
  destruct (allocate_with_avoidance pr id avoid (sn_pool s)) as [[net|e|] p']; simpl in Hp;
    cbn [map_err]; [|destruct Ha as [-> _]; by eapply inv_of_view; [exact H|]|done].
  set (room0 := Room_new _ _ _ _ _).
  match goal with |- context [add_or_reuse_member n ?x Owner] => set (nick := x) end.
  destruct (add_or_reuse_member n nick Owner room0) as [added room] eqn:Hadd.
  assert (sn_inv pr (put_pool p' s)) as Hpool by (by apply sn_inv_pool; [..|apply Ha]).
  destruct added as [ip|e|]; [|exact Hpool|by apply add_member_not_panic in Hadd].
  assert (sn_inv pr (put_rooms (<[id := room]> (rooms s)) (put_pool p' s))) as Hroom.
  { pose proof (add_member_fields n nick Owner room0) as Hf. rewrite Hadd in Hf.
    cbn [snd] in Hf.
    destruct Hf as (Hid & Hcidr & _).
    apply sn_inv_new_room; [done|done|by apply Ha|by rewrite Hid| |].
    - eapply room_next; [apply room_start|].
      pose proof (step_add room0 n nick Owner) as Hst. rewrite Hadd in Hst. exact Hst.
    - right. exists net. split; [exact (proj1 Ha)|]. by rewrite Hcidr. }
  cbn [map_err mlift]. unfold mseq at 1, mlift at 1. unfold mseq at 1, mmodify at 1.
  unfold mseq at 1, mlift at 1.
  destruct (public_supernode_addr s) as [primary|e|]; [|exact Hroom..].
  eapply inv_of_view; [exact Hroom|apply send_keeps_rooms].
Qed.

Lemma join_inv pr id token room_name addr s :
  sn_inv pr s → sn_inv pr (join_room pr id token room_name addr s).2.
Proof.
  intros H. destruct (addr_to_node s !! addr) as [n|] eqn:Ha; cycle 1.
  { unfold join_room. rewrite (mseq_Ok mget _ s s s eq_refl), Ha.
    eapply inv_of_view; [exact H|apply send_keeps_rooms]. }
  destruct (entry_run pr id token room_name n s H) as (room & s1 & He & Hent).
  destruct (entered_inv _ _ _ _ _ _ _ _ H Hent) as (H1 & Hr1 & _).
  rewrite (join_run _ _ _ _ _ _ _ _ _ Ha He).
  destruct (negb _); [by eapply inv_of_view; [exact H1|apply send_keeps_rooms]|].
  destruct (room_subnet_conflicts _ _); [by eapply inv_of_view; [exact H1|apply send_keeps_rooms]|].
  unfold mseq at 1. rewrite admit_run. destruct (members room !! n) as [m|] eqn:Hm.
  { destruct (announce_run id n (virtual_ip m) addr s1 room m Hr1 Hm) as (r & t & -> & _).
    by eapply inv_of_view. }
  pose proof (add_member_fields n (guest_name s1 room n) Guest room) as Hf.
  pose proof (step_add room n (guest_name s1 room n) Guest) as Hst.
  pose proof (add_member_in n (guest_name s1 room n) Guest room) as Hin.
  destruct (add_or_reuse_member _ _ _ _) as [r room'] eqn:Hadd. simpl in Hf, Hst.
  destruct Hf as (Hid & Hcidr & _).
  assert (sn_inv pr (put_rooms (<[id := room']> (rooms s1)) s1)) as H2
    by (eapply sn_inv_room; [done|done|by apply rtc_once|done|done]).
  destruct r as [ip|e|]; [|exact H2..]. cbn [map_err].
  edestruct (announce_run id n ip addr (put_rooms (<[id := room']> (rooms s1)) s1))
    as (r & t & -> & _); [by apply lookup_insert_eq|by eapply Hin|].
  by eapply inv_of_view.
Qed.

Lemma leave_inv pr id addr s : sn_inv pr s → sn_inv pr (leave_room id addr s).2.
Proof.
  intros H. destruct (addr_to_node s !! addr) as [n|] eqn:Ha, (rooms s !! id) as [room|] eqn:Hr.
  2,3,4: unfold leave_room; rewrite (mseq_Ok mget _ s s s eq_refl), Ha, ?Hr; exact H.
  destruct (leave_run id addr s n room Ha Hr) as (r & t & -> & _).
  eapply (inv_of_view _ (put_rooms (<[id := remove_member n room]> (rooms s)) s)); [|done].
  eapply sn_inv_room; [done|done|apply rtc_once, step_remove|done|done].
Qed.

Lemma handle_inv pr now draw f addr s :
  sn_inv pr s → sn_inv pr (handle_control pr now draw f addr s).2.
Proof.
  intros H. destruct f; try exact H; simpl.
  - by apply create_inv.
  - by apply join_inv.
  - eapply inv_of_view; [exact H|apply register_keeps].
  - eapply inv_of_view; [exact H|]. apply keeps_mignore, send_keeps_rooms.
  - by apply leave_inv.
  - eapply inv_of_view; [exact H|]. unfold mseq, mget. apply keeps_mignore, send_keeps_rooms.
Qed.

Lemma receive_inv pr now draw buf len from s :
  sn_inv pr s → sn_inv pr (receive pr now draw buf len from s).2.
Proof.
  intros H. unfold receive. destruct (recv_packet buf len from) as [[[f|[h rg]] a]|e|]; try exact H.
  - unfold mseq, mmodify. assert (sn_inv pr (touch now a s)) as H1
      by (eapply inv_of_view; [exact H|apply touch_view]).
    pose proof (handle_inv pr now draw f a _ H1) as H2. unfold logged.
    by destruct (handle_control _ _ _ _ _ _) as [[|[]|] ?].
  - unfold mseq, mmodify. eapply inv_of_view; [exact H|].
    etrans; [apply handle_data_keeps|apply touch_view].
Qed.

Lemma started_inv pr transport key c s :
  (0 ≤ Config.room_prefix_len c)%Z → new_with_config transport key c = Ok s → sn_inv pr s.
Proof.
  unfold new_with_config. intros Hl. destruct (default_pool _) as [sl|[]|]; simpl; [|done].
  destruct (RoomAddressPool_new _ _) as [p| |] eqn:E; simpl; [|done..]. intros [= <-].
  split; simpl; [by eapply pool_start|]. intros *. by rewrite lookup_empty.
Qed.
End Facts.
