(* ===== verification/SupernodeSpec.v ===== *)
(** The properties of the supernode. *)
From Stdlib Require Import ZArith Lia.
From stdpp Require Import base tactics numbers list gmap strings.
From S2P Require Import Prelude Bytes Net NetImpl Text Common Proto Slab Room Transport.
From S2P Require Import Etherparse Policy Discovery Config Supernode SupernodeFacts.
Local Open Scope Z_scope.
Local Open Scope string_scope.

Section Spec.
Context `{L : Ipv4NetLib} `{HL : !Ipv4NetLaws L} `{Q : ArrayQueue} `{K : Socket} `{P : Postcard}
  `{C : InviteCrypto} `{X : Hex}.
Implicit Types (s : Supernode) (srv : Server).

Lemma start_serving s srv : start s = Ok srv → ∃ api, srv = serving s api.
Proof. unfold start. destruct (spawn_management_api s); [|done..]. intros [= <-]. eauto. Qed.

Lemma server_inv pr srv : server_reachable pr srv → sn_inv pr (live srv).
Proof.
  intros (srv0 & (tr & key & c & s0 & [Hc _] & Hnew & [api ->]%start_serving) & Hrun).
  assert (sn_inv pr (live (serving s0 api))) as H0 by (by eapply started_inv).
  revert H0. generalize (serving s0 api) Hrun. clear -HL. intros srv0 Hrun.
  induction Hrun as [|a b c Hab _ IH]; [done|]. intros Ha. apply IH. clear IH c.
  destruct Hab as [a now draw buf len from s' E|a l1 r l2 s' Hr E|a now r' t' E|a h id ad m b m' Hm E].
  - pose proof (receive_inv pr now draw buf len from _ Ha) as H. by rewrite E in H.
  - pose proof (run_relay_keeps r (put_relays (l1 ++ l2)%list (live a))) as H. rewrite E in H.
    eapply inv_of_view; [exact Ha|exact H].
  - by eapply inv_of_view.
  - done.
Qed.

(** C9: rooms are isolated, but for the fall-back network.  In every state of a running
    supernode a room is filed under its own id; its network is the one the pool recorded for
    it, inside the network of the pool, or else the fall-back 192.168.255.0/24 that rooms
    restored while the pool was exhausted share; its members hold distinct addresses, each
    strictly inside the room's network.  The networks of two rooms share no address when
    neither room is on the fall-back network; of rooms on it nothing is claimed. *)
Theorem rooms_isolated pr srv :
  server_reachable pr srv →
  (∀ id room, rooms (live srv) !! id = Some room →
     r_room_id room = id ∧
     (r_virtual_cidr room = fallback_cidr ∨
      ∃ net, allocations (sn_pool (live srv)) !! id = Some net ∧
        net_parse (r_virtual_cidr room) = Some net ∧
        (net_network (pool (sn_pool (live srv))) ≤ net_network net)%Z ∧
        (net_broadcast net ≤ net_broadcast (pool (sn_pool (live srv))))%Z) ∧
     (∀ n m, members room !! n = Some m → node_id m = n ∧
        ∃ net a, net_parse (r_virtual_cidr room) = Some net ∧ virtual_ip m = vip a ∧
          net_network net < a < net_broadcast net) ∧
     (∀ n1 n2 m1 m2, members room !! n1 = Some m1 → members room !! n2 = Some m2 →
        virtual_ip m1 = virtual_ip m2 → n1 = n2)) ∧
  (∀ id1 id2 room1 room2 net1 net2, id1 ≠ id2 →
     rooms (live srv) !! id1 = Some room1 → rooms (live srv) !! id2 = Some room2 →
     r_virtual_cidr room1 ≠ fallback_cidr → r_virtual_cidr room2 ≠ fallback_cidr →
     net_parse (r_virtual_cidr room1) = Some net1 → net_parse (r_virtual_cidr room2) = Some net2 →
     nets_overlap net1 net2 = false).
Proof.
  intros [Hpool Hrooms]%server_inv. split.
  - intros id room Hr. destruct (Hrooms id room Hr) as (Hid & Hre & Hnet).
    apply room_reachable_inv in Hre. split; [done|]. split.
    { destruct Hnet as [|(net & Ha & ->)]; [by left|right]. exists net.
      split; [done|]. split; [apply net_parse_to_string|]. apply pool_reachable_inv in Hpool.
      destruct (pinv_subnet _ Hpool _ _ Ha) as [k Hk].
      destruct (subnet_bounds _ k net (pinv_ok _ Hpool) Hk) as (-> & _ & ?).
      destruct Hk as ([? _] & _). split; [|done].
      pose proof (Z.pow_nonneg 2 (32 - Room.room_prefix_len (sn_pool (live srv)))). nia. }
    split.
    + intros n m Hm. destruct (inv_member room Hre n m Hm) as [? Hl]. split; [done|].
      destruct (inv_host room Hre n _ Hl) as (net & h & ? & ? & ? & ->).
      exists net, (net_network net + h)%Z. split_and!; try done; lia.
    + intros n1 n2 m1 m2 H1 H2 E. destruct (inv_member room Hre n1 m1 H1) as [_ L1].
      destruct (inv_member room Hre n2 m2 H2) as [_ L2]. rewrite E in L1.
      by eapply (inv_inj room Hre).
  - intros id1 id2 r1 r2 n1 n2 Hne H1 H2 F1 F2 P1 P2.
    destruct (Hrooms _ _ H1) as (_ & _ & [?|(c1 & A1 & E1)]); [done|].
    destruct (Hrooms _ _ H2) as (_ & _ & [?|(c2 & A2 & E2)]); [done|].
    rewrite E1, net_parse_to_string in P1. rewrite E2, net_parse_to_string in P2.
    injection P1 as <-. injection P2 as <-. apply pool_reachable_inv in Hpool as Hi.
    destruct (pinv_subnet _ Hi _ _ A1) as [i Hi1], (pinv_subnet _ Hi _ _ A2) as [j Hj].
    apply (subnets_disjoint (sn_pool (live srv)) i j); [apply Hi|done..|]. intros ->.
    rewrite (subnet_unique _ j c1 c2) in A1 by done. by apply Hne, (pinv_inj _ Hi id1 id2 c2).
Qed.

(** C12: who gets into a room.  A join from an unknown address is refused and changes nothing.
    Otherwise the room is the one there is, or a new empty one under the token given; a
    token that is not the room's, and a room whose network overlaps a network of the node,
    are refused and the room left as it is; a member keeps its address; and a new node is
    added as a guest, or the join fails when no address is free.  What follows only sends. *)
Theorem join_outcome pr id token room_name addr s :
  sn_inv pr s →
  let join := join_room pr id token room_name addr s in
  match addr_to_node s !! addr with
  | None => join = send (JoinReject "node not registered") addr s
  | Some n => ∃ room s1, entered pr s id token room_name n room s1 ∧
      rooms s1 !! id = Some room ∧
      if negb (bool_decide (r_join_token room = default "" token)) then
        join = send (JoinReject "invalid invite token") addr s1
      else if room_subnet_conflicts (r_virtual_cidr room) (local_networks_of s n) then
        join = send (JoinReject "room subnet conflicts with a local network on this device") addr s1
      else match members room !! n with
      | Some m => join = announce_join id n (virtual_ip m) addr s1 ∧
          ∃ r t, join = (r, put_transport t s1) ∧ (is_ok r = true ∨ r = Err ControlSendFailed)
      | None =>
          let '(added, room') := add_or_reuse_member n (guest_name s1 room n) Guest room in
          let s2 := put_rooms (<[id := room']> (rooms s1)) s1 in
          match added with
          | Ok ip => join = announce_join id n ip addr s2 ∧
              ∃ r t, join = (r, put_transport t s2) ∧ (is_ok r = true ∨ r = Err ControlSendFailed)
          | Err e => join = (Err (RoomFailed e), s2)
          | Panic => False
          end
      end
  end.
Proof.
  intros H join. destruct (addr_to_node s !! addr) as [n|] eqn:Ha; cycle 1.
  { unfold join, join_room. by rewrite (mseq_Ok mget _ s s s eq_refl), Ha. }
  destruct (entry_run pr id token room_name n s H) as (room & s1 & He & Hent).
  destruct (entered_inv _ _ _ _ _ _ _ _ H Hent) as (H1 & Hr1 & _).
  exists room, s1. split; [done|]. split; [done|]. unfold join.
  rewrite (join_run _ _ _ _ _ _ _ _ _ Ha He).
  destruct (negb _); [done|]. destruct (room_subnet_conflicts _ _); [done|].
  unfold mseq. rewrite admit_run. destruct (members room !! n) as [m|] eqn:Hm.
  { split; [done|]. by eapply announce_run. }
  pose proof (add_member_in n (guest_name s1 room n) Guest room) as Hin.
  destruct (add_or_reuse_member _ _ _ _) as [[ip|e|] room'] eqn:Hadd; cbn [map_err];
    [|done|by apply add_member_not_panic in Hadd].
  split; [done|]. eapply announce_run; [by apply lookup_insert_eq|by eapply Hin].
Qed.

(** Leaving a room.  A leave by a registered node takes the node out of the room and
    leaves every other room, and the pool, alone; when that leaves the room empty, also for
    a node that never was in it, the handler never returns, and the server with it; when
    others are left, they are told, and only a failed send is an error.  The address pool
    is never given a room's network back. *)
Theorem leave_outcome id addr s :
  match addr_to_node s !! addr, rooms s !! id with
  | Some n, Some room => ∃ r t,
      leave_room id addr s
        = (r, put_transport t (put_rooms (<[id := remove_member n room]> (rooms s)) s)) ∧
      if bool_decide (members (remove_member n room) = ∅)
      then r = Err Blocked ∧ t = sn_transport s
      else r = Ok tt ∨ r = Err ControlSendFailed
  | _, _ => leave_room id addr s = (Ok tt, s)
  end.
Proof.
  destruct (addr_to_node s !! addr) as [n|] eqn:Ha, (rooms s !! id) as [room|] eqn:Hr.
  - by apply leave_run.
  - unfold leave_room. by rewrite (mseq_Ok mget _ s s s eq_refl), Ha, Hr.
  - unfold leave_room. by rewrite (mseq_Ok mget _ s s s eq_refl), Ha.
  - unfold leave_room. by rewrite (mseq_Ok mget _ s s s eq_refl), Ha.
Qed.
End Spec.
