(* ===== verification/Programs.v ===== *)
(** The program of the supernode: [main] of apps/supernode/src/main.rs, from the
    configuration file to the running server; and what the crates r2n-daemon and r2n-tests
    hold, the function of the template of a new crate. *)
From Stdlib Require Import ZArith Lia.
From stdpp Require Import base tactics numbers list gmap strings pretty relations.
From S2P Require Import Prelude Bytes Net NetImpl Text AddrText AddrSpec Common Proto Slab Room.
From S2P Require Import Transport Etherparse Policy Discovery Config Supernode SupernodeFacts.
From S2P Require Import SupernodeSpec.
Local Open Scope Z_scope.
Local Open Scope string_scope.

Inductive MainError := MainConfig (err : ConfigError) | MainBind | MainSupernode (err : SupernodeError).

Section Programs.
Context `{L : Ipv4NetLib} `{Q : ArrayQueue} `{K : Socket} `{P : Postcard} `{C : InviteCrypto}
  `{X : Hex} `{N : IpNetLib} `{TL : Toml (N:=N)} `{F : Fs}.

(** The variable RUST_LOG comes before the file. *)
Definition main_log_level (rust_log : option string) (c : SupernodeConfig) : string :=
  default (supernode_log_level c) rust_log.
Definition main_addr (c : SupernodeConfig) : string := "0.0.0.0:" +:+ pretty (listen_port c).

(** [fresh] is the configuration that is written when there is none, with a token that is
    drawn; [bound] what binding a socket to an address gives. *)
Definition supernode_main (path : option string) (fresh : SupernodeConfig)
    (bound : string → option UdpTransport) (key : SigningKey)
    : M (option string) MainError Server :=
  let* config := mzoom id (λ x _, x) MainConfig (supernode_load_or_create path fresh) in
  let* transport := mlift (ok_or MainBind (bound (main_addr config))) in
  let* supernode := mlift (map_err MainSupernode (new_with_config transport key config)) in
  mlift (map_err MainSupernode (start supernode)).

(** [add] of crates/r2n-daemon/src/lib.rs. *)
Definition add (pr : profile) (left right : Z) : total Z := checked pr 64 (left + right).

(** ** Facts *)
Lemma main_addr_read c : u_ok 16 (listen_port c) →
  parse_socket_addr (main_addr c) = Some (mkSocketAddr (V4 0) (listen_port c)).
Proof.
  intros Hp. change (main_addr c) with (show_addr (mkSocketAddr (V4 0) (listen_port c))).
  apply addr_read. split; [unfold u_ok; cbn; lia|exact Hp].
Qed.

Lemma load_or_create_run `{!TomlLaws TL} path fresh file c file' :
  fs_readable = true → supernode_load_or_create path fresh file = (Ok c, file') →
  supernode_load file' = (Ok c, file') ∧ (file = None → c = fresh) ∧ (is_Some file → file' = file).
Proof.
  intros Hr. unfold supernode_load_or_create. destruct path as [p|]; [|done].
  rewrite (mseq_Ok mget _ file file file eq_refl). case_bool_decide as Hf.
  - intros E. assert (file' = file) as ->.
    { pose proof (load_shared_keeps file) as Hk. unfold supernode_load in E.
      destruct (mseq_inv _ _ _ _ E) as [(shared & f1 & E1 & E2)|[(? & ? & _ & ?)|(? & _ & ?)]]; [|done..].
      rewrite E1 in Hk. cbn in Hk. subst f1. destruct (supernode shared); [by injection E2|].
      destruct file as [content|]; [|by destruct Hf]. unfold read_to_string, mseq, mget in E2.
      rewrite Hr in E2. cbn in E2. by injection E2. }
    split; [exact E|]. split; [by intros ->; destruct Hf|done].
  - unfold mseq. pose proof (save_with (λ old, mkShared (edge old) (Some fresh)) file) as Hs.
    unfold supernode_save. cbv beta in Hs.
    destruct (mseq create_dir_all _ file) as [[u|err|] f1] eqn:E; [|done..].
    intros [= <- <-]. destruct Hs as (old & _ & Hl). split; [|split; [done|done]].
    unfold supernode_load. by rewrite (mseq_Ok _ _ _ _ _ (Hl Hr)).
Qed.

(** A supernode that comes up runs the configuration that its file holds from then on, which
    is the fresh one when there was no file, and otherwise the file is not touched; it listens
    on every interface at the port of that configuration; and in every state it reaches its
    rooms and addresses are as they should be. *)
Theorem supernode_boots `{!Ipv4NetLaws L} `{!TomlLaws TL} pr path fresh bound key file srv file' :
  fs_readable = true → supernode_main path fresh bound key file = (Ok srv, file') →
  ∃ c t, supernode_load file' = (Ok c, file') ∧ (file = None → c = fresh) ∧
    (is_Some file → file' = file) ∧ bound (main_addr c) = Some t ∧
    config (live srv) = c ∧ sn_transport (live srv) = t ∧
    (u_ok 16 (listen_port c) →
     parse_socket_addr (main_addr c) = Some (mkSocketAddr (V4 0) (listen_port c))) ∧
    (u_ok 8 (Config.room_prefix_len c) →
     ∀ srv', rtc (server_step pr) srv srv' → sn_inv pr (live srv')).
Proof.
  intros Hr E. unfold supernode_main in E.
  assert (∀ r f, supernode_load_or_create path fresh file = (r, f) →
    mzoom id (λ x _, x) MainConfig (supernode_load_or_create path fresh) file
      = (map_err MainConfig r, f)) as Hz by (intros r f E1; unfold mzoom, id; by rewrite E1).
  destruct (supernode_load_or_create path fresh file) as [[c| |] f1] eqn:E1;
    specialize (Hz _ _ eq_refl); cbn in Hz; [|unfold mseq in E; by rewrite Hz in E..].
  rewrite (mseq_Ok _ _ _ _ _ Hz) in E. unfold mlift, mseq in E.
  destruct (bound (main_addr c)) as [t|] eqn:Eb; cbn in E; [|done].
  destruct (new_with_config t key c) as [s| |] eqn:En; cbn in E; [|done..].
  destruct (start s) as [srv1| |] eqn:Es; cbn in E; [|done..]. injection E as -> ->.
  destruct (load_or_create_run path fresh file c file' Hr E1) as (H1 & H2 & H3).
  exists c, t. destruct (start_serving _ _ Es) as [api ->].
  assert (config s = c ∧ sn_transport s = t) as [<- <-].
  { unfold new_with_config in En. destruct (default_pool _) as [sl| |]; cbn in En; [|done..].
    destruct (RoomAddressPool_new _ _); cbn in En; [|done..]. by injection En as <-. }
  split; [exact H1|]. split; [exact H2|]. split; [exact H3|]. split; [exact Eb|].
  split; [done|]. split; [done|]. split; [apply main_addr_read|].
  intros Hp srv' Hrun. apply server_inv. exists (serving s api). split; [|exact Hrun].
  by exists (sn_transport s), key, (config s), s.
Qed.
End Programs.
