(* ===== verification/RelaySpec.v ===== *)
(** The relay, the reaper and the management interface of the supernode. *)
From Stdlib Require Import ZArith Lia.
From stdpp Require Import base tactics numbers list gmap strings.
From S2P Require Import Prelude Bytes Net NetImpl Text AddrText Common Proto Slab Room Transport.
From S2P Require Import Etherparse Policy Discovery Config Supernode SupernodeFacts.
Local Open Scope Z_scope.

Section Relay.
Context `{L : Ipv4NetLib} `{Q : ArrayQueue} `{HQ : !ArrayQueueLaws Q} `{K : Socket}
  `{P : Postcard} `{C : InviteCrypto} `{X : Hex}.
Implicit Types (s : Supernode).

(** ** The slots of the pending relays *)

(** Every pending relay has a slot of its own, and the frame it took, with the address it is
    for, is still there. *)
Record relay_ok (N : nat) s (frames : list (list Z * SocketAddr)) : Prop := {
  ro_slab : slab_inv N (sn_slab s, List.map relay_desc (relays s));
  ro_full : Forall (λ b, length b = DEFAULT_FRAME_CAP) (slots (sn_slab s));
  ro_frames : Forall2 (λ r f, length f.1 = relay_len r ∧ relay_to r = f.2 ∧
    ∃ b, slots (sn_slab s) !! Z.to_nat (slot (relay_desc r)) = Some b ∧ take (relay_len r) b = f.1)
    (relays s) frames;
}.

Lemma held_distinct N sl held :
  slab_inv N (sl, held) →
  NoDup (List.map slot held) ∧ (∀ d, d ∈ held → 0 ≤ slot d < Z.of_nat (length (slots sl))).
Proof.
  intros (Hp & _ & Hl). cbn [fst snd] in *. pose proof (slot_numbers_NoDup N) as Hnd.
  rewrite <- Hp in Hnd. split; [by apply NoDup_app in Hnd as (_ & _ & ?)|].
  intros d Hd. rewrite Hl. apply elem_of_slot_numbers. rewrite <- Hp. apply elem_of_app. right.
  by apply (list_elem_of_fmap_2 slot).
Qed.

Lemma slab_inv_permutation N sl held held' :
  held ≡ₚ held' → slab_inv N (sl, held) → slab_inv N (sl, held').
Proof.
  intros E (Hp & Hc). split; [|done]. cbn [fst snd] in *. rewrite <- Hp.
  apply Permutation_app_head. by rewrite (Permutation_map slot E).
Qed.

Lemma acquire_slots (sl : PacketSlab) r sl' : acquire sl = (r, sl') → slots sl' = slots sl.
Proof. unfold acquire. destruct (q_pop _) as [[? ?]|]; by intros [= _ <-]. Qed.

Lemma release_slots d (sl : PacketSlab) : slots (Slab.release d sl) = slots sl.
Proof. done. Qed.

Lemma Forall2_impl_l {A B} (R0 : A → Prop) (R1 R2 : A → B → Prop) l k :
  Forall R0 l → Forall2 R1 l k → (∀ x y, R0 x → R1 x y → R2 x y) → Forall2 R2 l k.
Proof. intros Hl H Himp. induction H; inversion Hl; subst; eauto. Qed.

(** A new slot is none of those in use. *)
Lemma frames_apart N sl d rs :
  slab_inv N (sl, d :: List.map relay_desc rs) →
  Forall (λ r, Z.to_nat (slot (relay_desc r)) ≠ Z.to_nat (slot d)) rs.
Proof.
  intros [Hnd Hin]%held_distinct. apply NoDup_cons in Hnd as [Hfresh _].
  apply Forall_forall. intros r Hr E.
  assert (relay_desc r ∈ List.map relay_desc rs) as Hd by (by apply (list_elem_of_fmap_2 relay_desc)).
  pose proof (Hin d ltac:(by left)). pose proof (Hin _ (list_elem_of_further _ d _ Hd)).
  apply Hfresh. replace (slot d) with (slot (relay_desc r)) by lia.
  by apply (list_elem_of_fmap_2 slot).
Qed.

(** ** Steps of the relay *)

(** Data frames arriving, control frames handled, and relay tasks run in any order, with the
    frames that are under way as they were received, each with the address its node had. *)
Inductive relay_step (pr : profile) : Supernode * list (list Z * SocketAddr)
    → Supernode * list (list Z * SocketAddr) → Prop :=
| rs_data s fs h buf s' :
    handle_data h buf s = (Ok tt, s') → relays s' = relays s →
    relay_step pr (s, fs) (s', fs)
| rs_data_new s fs h buf target r s' :
    handle_data h buf s = (Ok tt, s') → nodes s !! h_dst_node h = Some target →
    relays s' = relays s ++ [r] →
    relay_step pr (s, fs) (s', fs ++ [(take (frame_len h) buf, ni_addr target)])
| rs_control s fs now draw f addr s' :
    (handle_control pr now draw f addr s).2 = s' →
    relay_step pr (s, fs) (s', fs)
| rs_touch s fs now addr :
    relay_step pr (s, fs) (touch now addr s, fs)
| rs_run s l1 r l2 f1 f f2 s' :
    relays s = l1 ++ r :: l2 → length l1 = length f1 →
    run_relay r (put_relays (l1 ++ l2) s) = (Ok tt, s') →
    relay_step pr (s, f1 ++ f :: f2) (s', f1 ++ f2).

Definition relay_view s := (sn_slab s, relays s).

Lemma relay_ok_view N s s' fs : relay_view s' = relay_view s → relay_ok N s fs → relay_ok N s' fs.
Proof. intros [= E1 E2] [H1 H2 H3]. split; by rewrite ?E1, ?E2. Qed.

Lemma send_keeps_relay f a : keeps relay_view (send f a).
Proof. intros s. destruct (quiet_send f a s) as (r & t & E & _). by rewrite E. Qed.
#[local] Hint Resolve send_keeps_relay : keeps.

Lemma announce_keeps id n ip addr : keeps relay_view (announce_join id n ip addr).
Proof.
  unfold announce_join, tell_peers, punch_pairs. keeps.
Qed.
#[local] Hint Resolve announce_keeps : keeps.

Lemma control_keeps pr now draw f addr : keeps relay_view (handle_control pr now draw f addr).
Proof.
  destruct f; simpl; unfold create_room, join_room, leave_room, register_node, entry_or_restore,
    admit_member; keeps; try (apply keeps_mforeach; intros; keeps).
  all: try (apply keeps_mignore; keeps).
Qed.

Lemma touch_relay now addr s : relay_view (touch now addr s) = relay_view s.
Proof. unfold touch. by destruct (addr_to_node s !! addr). Qed.

(** The three things a data frame does: nothing to the slots, nothing after all, or a new
    relay whose slot holds the frame. *)
Lemma handle_data_run h buf s s' :
  handle_data h buf s = (Ok tt, s') →
  (relays s' = relays s ∧ (sn_slab s' = sn_slab s ∨
     ∃ d sl, acquire (sn_slab s) = (Some d, sl) ∧ sn_slab s' = Slab.release d sl)) ∨
  (∃ d sl b target, acquire (sn_slab s) = (Some d, sl) ∧ nodes s !! h_dst_node h = Some target ∧
     (frame_len h ≤ DEFAULT_FRAME_CAP)%nat ∧ (frame_len h ≤ length buf)%nat ∧
     (frame_len h ≤ length b)%nat ∧ slots sl !! Z.to_nat (slot d) = Some b ∧
     relays s' = relays s ++ [mkRelay d (frame_len h) (ni_addr target)] ∧
     sn_slab s' = mkPacketSlab
       (<[Z.to_nat (slot d) := take (frame_len h) buf ++ drop (frame_len h) b]> (slots sl))
       (free sl) (Slab.headroom sl)).
Proof.
  unfold handle_data. cbv zeta. rewrite (mseq_Ok mget _ s s s eq_refl).
  destruct (nodes s !! h_dst_node h) as [target|]; [|intros [= <-]; auto].
  destruct (acquire (sn_slab s)) as [[d|] sl] eqn:Ha; cycle 1.
  { intros [= <-]. left. split; [done|]. left. cbn. unfold acquire in Ha.
    by repeat case_match; simplify_eq. }
  case_bool_decide as Hcap.
  { rewrite (mseq_Ok (mmodify _) _ s tt _ eq_refl). intros [= <-]. left.
    split; [done|]. right. eauto. }
  rewrite (mseq_Ok (mmodify (put_slab sl)) _ s tt (put_slab sl s) eq_refl).
  unfold mseq at 1, mzoom, with_slot_mut. cbn [sn_slab put_slab].
  destruct (slots sl !! Z.to_nat (slot d)) as [b|] eqn:Hb; [|done].
  unfold mseq, mget, mlift, mmodify. unfold slice at 1.
  case_bool_decide as Hl; [|done]. cbn [lift]. rewrite Nat.sub_0_r, drop_0.
  unfold copy_from_slice. case_bool_decide as Hb2; [|done]. cbn [lift map_err].
  intros [= <-]. right. exists d, sl, b, target.
  rewrite length_take, Nat.sub_0_r in Hb2. split_and!; try done; lia.
Qed.

Lemma acquire_held N sl held d sl' :
  slab_inv N (sl, held) → acquire sl = (Some d, sl') →
  slab_inv N (sl', d :: held) ∧ slots sl' = slots sl.
Proof.
  intros H Ha. split; [|by eapply acquire_slots].
  by eapply slab_inv_step; [apply Slab.step_acquire|exact H].
Qed.

Lemma release_held N sl h1 d h2 :
  slab_inv N (sl, h1 ++ d :: h2) → slab_inv N (Slab.release d sl, h1 ++ h2).
Proof. intros H. by eapply slab_inv_step; [apply Slab.step_release|exact H]. Qed.

Lemma relay_ok_data N h buf s s' fs :
  relay_ok N s fs → handle_data h buf s = (Ok tt, s') →
  (relays s' = relays s ∧ relay_ok N s' fs) ∨
  (∃ r target, relays s' = relays s ++ [r] ∧ relay_len r = frame_len h ∧
     nodes s !! h_dst_node h = Some target ∧
     relay_ok N s' (fs ++ [(take (frame_len h) buf, ni_addr target)])).
Proof.
  intros [Hs Hf Hfr] Hd. destruct (handle_data_run h buf s s' Hd)
    as [[Hr Hsl]|(d & sl & b & target & Ha & Ht & Hc & Hlb & Hl & Hb & Hr & Hsl)].
  - left. split; [done|]. destruct Hsl as [Hsl|(d & sl & Ha & Hsl)].
    + split; rewrite ?Hr, ?Hsl; done.
    + destruct (acquire_held N _ _ d sl Hs Ha) as [Hi Hsame].
      pose proof (release_held N sl [] d _ Hi) as Hi2.
      split; rewrite ?Hr, ?Hsl, ?release_slots, ?Hsame; done.
  - right. do 2 eexists. split; [exact Hr|]. split; [done|]. split; [exact Ht|].
    destruct (acquire_held N _ _ d sl Hs Ha) as [Hi Hsame].
    destruct (held_distinct N _ _ Hi) as [Hnd Hin]. simpl in Hnd.
    apply NoDup_cons in Hnd as [Hfresh _].
    set (frame := take (frame_len h) buf ++ drop (frame_len h) b) in *.
    assert (length frame = length b) as Hlen
      by (unfold frame; rewrite length_app, length_take, length_drop; lia).
    assert (length b = DEFAULT_FRAME_CAP) as Hbl.
    { rewrite Hsame in Hb. rewrite Forall_forall in Hf. apply Hf. by eapply list_elem_of_lookup_2. }
    split; rewrite ?Hr, ?Hsl; cbn [slots free].
    + rewrite List.map_app. cbn [List.map relay_desc].
      apply (slab_inv_permutation _ _ (d :: List.map relay_desc (relays s)));
        [by rewrite Permutation_app_comm|].
      destruct Hi as (Hp & Hcap & Hn). split; [exact Hp|]. split; [exact Hcap|].
      cbn [fst slots]. by rewrite length_insert.
    + rewrite Hsame. apply Forall_insert; [done|]. by rewrite Hlen.
    + rewrite Hsame. apply Forall2_app.
      * apply (Forall2_impl_l (λ r, Z.to_nat (slot (relay_desc r)) ≠ Z.to_nat (slot d))
          _ _ _ _ (frames_apart _ _ _ _ Hi) Hfr).
        intros r f Hne (Hlf & Hto & b' & Hb' & Hf'). do 2 (split; [done|]). exists b'. split; [|done].
        by rewrite list_lookup_insert_ne.
      * apply Forall2_cons. split; [|done]. cbn [relay_len relay_desc relay_to fst snd].
        rewrite length_take. split; [lia|]. split; [done|]. exists frame. split.
        { rewrite <- Hsame. apply list_lookup_insert_eq. by eapply lookup_lt_Some. }
        unfold frame. rewrite take_app_length'; [done|]. rewrite length_take. lia.
Qed.

(** Running a relay task: it sends the frame that was received, and gives the slot back. *)
Lemma run_relay_run N s l1 r l2 f1 f f2 :
  relay_ok N s (f1 ++ f :: f2) → relays s = l1 ++ r :: l2 → length l1 = length f1 →
  let s0 := put_relays (l1 ++ l2) s in
  let s' := put_slab (Slab.release (relay_desc r) (sn_slab s))
              (put_transport (send_raw f.1 f.2 (sn_transport s)).2 s0) in
  run_relay r s0 = (Ok tt, s') ∧ relay_ok N s' (f1 ++ f2).
Proof.
  intros [Hs Hf Hfr] Hr Hl s0 s'. rewrite Hr in Hs, Hfr.
  apply Forall2_app_inv in Hfr as [Hfr1 Hfr2]; [|done].
  apply Forall2_cons in Hfr2 as [(Hlf & Hto & b & Hb & Htake) Hfr2]. split.
  - unfold run_relay. rewrite (mseq_Ok mget _ s0 s0 s0 eq_refl).
    assert (get_slot_slice (relay_desc r) (sn_slab s0) = Ok b) as ->
      by (unfold get_slot_slice, slot_frame; simpl; by rewrite Hb).
    rewrite (mseq_Ok (mlift (lift (Ok b))) _ s0 b s0 eq_refl).
    rewrite slice_Ok; [|lia|rewrite <- Hlf, <- Htake, length_take; lia].
    rewrite Nat.sub_0_r, drop_0, Htake.
    rewrite (mseq_Ok (mlift (lift (Ok f.1))) _ s0 f.1 s0 eq_refl), Hto.
    unfold mseq, mignore, mzoom. change (sn_transport s0) with (sn_transport s).
    subst s'. destruct (send_raw f.1 f.2 (sn_transport s)) as [[n|e|] t] eqn:E;
      [done|done|]. exfalso. revert E. unfold send_raw, send_to, mseq, mget, mreturn.
    destruct (check_family _ _); [|done]. by destruct (socket_send _ _ _).
  - rewrite List.map_app in Hs. split; simpl.
    + rewrite List.map_app. by apply release_held.
    + done.
    + by apply Forall2_app.
Qed.

Lemma slots_left N s fs : relay_ok N s fs → (available (sn_slab s) + length (relays s) = N)%nat.
Proof.
  intros [(Hp & _ & _) _ _]. cbn [fst snd] in Hp. apply Permutation_length in Hp.
  unfold available. rewrite q_len_spec. revert Hp. unfold slot_numbers.
  by rewrite length_app, !List.length_map, length_seq.
Qed.

Lemma relay_steps_ok N pr c c' :
  rtc (relay_step pr) c c' → relay_ok N c.1 c.2 → relay_ok N c'.1 c'.2.
Proof.
  induction 1 as [|a b c Hab _ IH]; [done|]. intros Ha. apply IH. clear IH c.
  destruct Hab as [s fs h buf s' Hd Hr|s fs h buf target r s' Hd Ht Hr|s fs now draw f addr s' Hc
    |s fs now addr|s l1 r l2 f1 f f2 s' Hr Hl Hrun]; cbn [fst snd] in *.
  - destruct (relay_ok_data N h buf s s' _ Ha Hd) as [[_ ?]|(r & ? & Hr2 & _)]; [done|].
    exfalso. rewrite Hr in Hr2. apply (f_equal length) in Hr2. rewrite length_app in Hr2.
    simpl in Hr2. lia.
  - destruct (relay_ok_data N h buf s s' _ Ha Hd) as [[Hr2 _]|(r2 & target2 & _ & _ & Ht2 & ?)];
      [|by assert (target2 = target) as -> by congruence].
    exfalso. rewrite Hr in Hr2. apply (f_equal length) in Hr2. rewrite length_app in Hr2.
    simpl in Hr2. lia.
  - subst s'. eapply relay_ok_view; [apply control_keeps|done].
  - eapply relay_ok_view; [apply touch_relay|done].
  - destruct (run_relay_run N s l1 r l2 f1 f f2 Ha Hr Hl) as [E Hok]. cbv zeta in E.
    rewrite E in Hrun. by injection Hrun as <-.
Qed.

Lemma fresh_relay_ok transport key c s :
  new_with_config transport key c = Ok s → relay_ok (Z.to_nat 4096) s [].
Proof.
  unfold new_with_config, default_pool.
  destruct (new_spec DEFAULT_FRAME_CAP (Z.to_nat 4096) DEFAULT_HEADROOM)
    as (sl & Hsl & _ & _ & Hslots & _); [lia..|].
  rewrite Hsl. cbn [lift mbind outcome_bind].
  destruct (RoomAddressPool_new _ _) as [p| |]; cbn [map_err mbind outcome_bind]; [|done..].
  intros [= <-]. split; simpl; [|rewrite Hslots|done].
  - eapply slab_inv_new; [|exact Hsl]. lia.
  - apply Forall_replicate. apply length_replicate.
Qed.

(** C11: relayed frames arrive as they were received.  However data frames, control frames
    and relay tasks interleave, every task that is pending sends, when it runs, exactly the
    bytes of the frame it was made for to the address its receiver had when the frame came;
    it cannot unwind; and the free slots are those no pending task holds. *)
Theorem relay_faithful pr transport key c s0 s fs :
  new_with_config transport key c = Ok s0 →
  rtc (relay_step pr) (s0, []) (s, fs) →
  (available (sn_slab s) + length (relays s) = Z.to_nat 4096)%nat ∧
  ∀ l1 r l2, relays s = l1 ++ r :: l2 →
    ∃ f1 f to f2, fs = f1 ++ (f, to) :: f2 ∧ length f1 = length l1 ∧ length f = relay_len r ∧
      run_relay r (put_relays (l1 ++ l2) s)
      = (Ok tt, put_slab (Slab.release (relay_desc r) (sn_slab s))
                  (put_transport (send_raw f to (sn_transport s)).2 (put_relays (l1 ++ l2) s))).
Proof.
  intros Hnew Hrun.
  pose proof (relay_steps_ok _ pr _ _ Hrun (fresh_relay_ok _ _ _ _ Hnew)) as Hok.
  cbn [fst snd] in Hok. split; [by eapply slots_left|].
  intros l1 r l2 Hr. pose proof (ro_frames _ _ _ Hok) as Hf. rewrite Hr in Hf.
  apply Forall2_app_inv_l in Hf as (f1 & fr & Hf1 & Hfr & ->).
  apply Forall2_cons_inv_l in Hfr as ([f to] & f2 & [Hlf _] & _ & ->).
  apply Forall2_length in Hf1. exists f1, f, to, f2. split_and!; try done.
  by apply (run_relay_run _ s l1 r l2 f1 (f, to) f2 Hok Hr).
Qed.
End Relay.

Section Copies.
Context `{L : Ipv4NetLib} `{Q : ArrayQueue} `{K : Socket} `{P : Postcard} `{C : InviteCrypto}
  `{X : Hex}.

Lemma reap_empty now r : rp_nodes r = ∅ → reap now r = mreturn r.
Proof. intros E. unfold reap, dead_nodes. by rewrite E, map_to_list_empty. Qed.

Definition stale (srv : Server) : Prop :=
  rp_nodes (reaper srv) = ∅ ∧ console srv = ∅ ∧
  match management srv with Some (_, m) => mg_nodes m = ∅ ∧ mg_rooms m = ∅ | None => True end.

Lemma started_stale s0 srv tr key c : new_with_config tr key c = Ok s0 → start s0 = Ok srv → stale srv.
Proof.
  intros Hnew Hs. assert (nodes s0 = ∅ ∧ rooms s0 = ∅) as [Hn Hr].
  { revert Hnew. unfold new_with_config. destruct (default_pool _) as [|[]|]; simpl; [|done].
    destruct (RoomAddressPool_new _ _); simpl; [|done..]. by intros [= <-]. }
  revert Hs. unfold start, spawn_management_api.
  destruct (bool_decide _); cbn [fmap outcome_fmap].
  - by intros [= <-].
  - destruct (parse_socket_addr _); cbn [ok_or mbind outcome_bind fmap outcome_fmap]; [|done].
    intros [= <-]. by split_and!.
Qed.

Lemma step_stale pr srv srv' : server_step pr srv srv' → stale srv → stale srv'.
Proof.
  intros Hs (H1 & H2 & H3).
  destruct Hs as [x now draw buf len from s' E|x l1 r l2 s' Hr E|x now r' t' E|]; [done|done| |done].
  rewrite reap_empty in E by done. by injection E as <- _.
Qed.

(** The request of a client that knows the token, in either of two headers. *)
Definition carries_token (token : string) (h : Headers) : Prop :=
  authorization h = Some ("Bearer " +:+ token) ∨ x_r2n_admin_token h = Some token.

Lemma authorized_spec h token :
  authorized h token = true ↔ trim token ≠ EmptyString ∧ carries_token token h.
Proof.
  unfold authorized, carries_token, blank. case_bool_decide; [naive_solver|].
  rewrite orb_true_iff, !bool_decide_eq_true. naive_solver.
Qed.

Lemma kick_nobody id h m :
  mg_nodes m = ∅ → authorized h (mg_admin_token m) = true →
  ((management_kick_node h id m).1 = Ok false ∨ (management_kick_node h id m).1 = Err BAD_REQUEST) ∧
  (management_kick_node h id m).2 = m.
Proof.
  intros Hn Ha. unfold management_kick_node, guarded. rewrite Ha, Hn. cbn [mbind outcome_bind].
  destruct (hex_decode id) as [l|]; cbn [ok_or mbind outcome_bind]; [|split; [by right|done]].
  destruct (bool_decide (length l = 32%nat)); [|split; [by right|done]].
  cbn [fst snd]. rewrite lookup_empty, delete_empty. split; [by left|].
  destruct m. cbn in *. by subst.
Qed.

(** C13: the reaper, the console and the management interface see the maps as they were when
    the server started: empty.  Whatever happens, a tick of the reaper sends nothing and
    changes nothing, so that a silent node stays registered and in its rooms; the console
    finds no room; the lists of rooms and nodes are empty; and kicking a node removes
    nothing.  Rooms, nodes, figures, federation and kicks are answered for a request that
    carries the token, as a bearer or in its own header, and refused as unauthorised
    for every other request, and for every request at all when the token is blank.  (The
    health check looks at no header and is answered for everybody.) *)
Theorem copies_are_stale pr srv :
  server_reachable pr srv →
  (∀ now t, reap now (reaper srv) t = (Ok (reaper srv), t)) ∧
  (∀ line, console_line line (console srv) = [] ∨ console_line line (console srv)
     = ["--- Active Rooms ---"; "No active rooms."; "--------------------"]) ∧
  ∀ a m, management srv = Some (a, m) →
  (∀ h, trim (mg_admin_token m) ≠ EmptyString → carries_token (mg_admin_token m) h →
     management_rooms h m = Ok [] ∧
     (∀ now, management_nodes now h m = Ok []) ∧
     management_stats h m = Ok (0, 0, 0)%nat ∧
     management_federation h m = Ok (mg_federation_id m, mg_peers m) ∧
     ∀ id, ((management_kick_node h id m).1 = Ok false ∨
            (management_kick_node h id m).1 = Err BAD_REQUEST) ∧
           (management_kick_node h id m).2 = m) ∧
  (∀ h, trim (mg_admin_token m) = EmptyString ∨ ¬ carries_token (mg_admin_token m) h →
     management_rooms h m = Err UNAUTHORIZED ∧
     (∀ now, management_nodes now h m = Err UNAUTHORIZED) ∧
     management_stats h m = Err UNAUTHORIZED ∧
     management_federation h m = Err UNAUTHORIZED ∧
     ∀ id, management_kick_node h id m = (Err UNAUTHORIZED, m)).
Proof.
  intros (srv0 & (tr & key & c & s0 & _ & Hnew & Hst) & Hrun).
  assert (stale srv) as (Hr & Hc & Hm).
  { apply (started_stale _ _ _ _ _ Hnew) in Hst. clear Hnew.
    induction Hrun; [done|]. eauto using step_stale. }
  split; [intros now t; by rewrite reap_empty|]. split.
  { intros line. unfold console_line. rewrite Hc.
    destruct (_ || _); [by right|by left]. }
  intros a m Em. rewrite Em in Hm. destruct Hm as [Hn Hm]. split.
  - intros h H1 H2. assert (authorized h (mg_admin_token m) = true) as Ha
      by (by apply authorized_spec).
    pose proof (λ id, kick_nobody id h m Hn Ha) as Hk.
    unfold management_rooms, management_nodes, management_stats, management_federation, guarded.
    rewrite Ha, Hn, Hm, !map_to_list_empty. by split_and!.
  - intros h H. assert (authorized h (mg_admin_token m) = false) as Ha.
    { apply not_true_iff_false. intros [? ?]%authorized_spec. by destruct H. }
    unfold management_rooms, management_nodes, management_stats,
      management_federation, management_kick_node, guarded. by rewrite Ha.
Qed.
End Copies.
