(* ===== verification/Network.v ===== *)
(** Two dataplanes and the network between them: what a node sends to a peer, packet after
    packet, and what the peer's device gets when the network loses, repeats, reorders and
    forges datagrams. *)
From Stdlib Require Import ZArith Lia.
From stdpp Require Import base tactics numbers list gmap strings.
From S2P Require Import Prelude Bytes Net Common Proto Slab Etherparse Qos Crypto Defense.
From S2P Require Import Policy Discovery F32 Path Observability Transport Flood MacTable.
From S2P Require Import Dataplane Overlay Delivery.
Local Open Scope Z_scope.

(** ** The sender *)
Section Sender.
Context `{Q : ArrayQueue} `{HQ : !ArrayQueueLaws Q} `{A : AeadLib} `{HA : !AeadLaws A}
  `{P : Etherparse} `{N : IpNetLib} `{R : RatelimitLib} `{K : Socket} `{T : TunIo}.
Implicit Types (d : DataPlane) (p : DataPeer).

(** A packet and the type it is sent with. *)
Definition Message : Type := DataPacketType * list Z.

(** One send after the other, as the loop over the device makes them, whatever they
    return; the datagrams each of them gave to the socket. *)
Fixpoint sends (n : NodeId) (ms : list Message) d : list (list (list Z)) * DataPlane :=
  match ms with
  | [] => ([], d)
  | m :: ms =>
      let d' := (send_to_peer n m.1 m.2 None false d).2 in
      let new := (drop (length (sent (transport d))) (sent (transport d'))).*1 in
      let '(out, d'') := sends n ms d' in (new :: out, d'')
  end.

(** The datagrams of a run of sends with the nonces they used: a send that fails sends
    nothing and may still use a nonce. *)
Inductive stream (room : RoomId) (local : NodeId) p
    : Z → list Message → list (list (list Z)) → list Z → Prop :=
  | stream_nil nonce : stream room local p nonce [] [] []
  | stream_failed nonce nonce' m ms out ns :
      nonce ≤ nonce' ≤ nonce + 1 → stream room local p nonce' ms out ns →
      stream room local p nonce (m :: ms) ([] :: out) (nonce :: ns)
  | stream_sent nonce m ms h body out ns :
      wire_frame room local p nonce (mkPacketId 0) 0 m.1 m.2 = Some (h, body) →
      header_ok h → h_payload_len h = Z.of_nat (length body) →
      stream room local p (nonce + 1) ms out ns →
      stream room local p nonce (m :: ms) ([header_bytes h ++ body] :: out) (nonce :: ns).

Lemma raw_sent frame target t :
  sent (send_raw frame target t).2 = sent t ++ [(frame, target)] ∨
  (send_raw frame target t).2 = t.
Proof.
  unfold send_raw, send_to, mseq, mget, mreturn.
  destruct (check_family t target); [|by right]. destruct (socket_send _ _ _); [by left|by right].
Qed.

Lemma new_datagram (s : list (list Z * SocketAddr)) x :
  (drop (length s) (s ++ [x])).*1 = [x.1].
Proof. by rewrite drop_app_length. Qed.

Lemma nothing_new (s : list (list Z * SocketAddr)) : (drop (length s) s).*1 = [].
Proof. by rewrite drop_ge by lia. Qed.

(** One send to a peer that has the key of [p] and the next nonce [x]. *)
Lemma send_step d n p x room m :
  dp_ok d → room_id d = Some room → peers d !! n = Some (set_nonce x p) → x + 1 < 2 ^ 64 →
  let d' := (send_to_peer n m.1 m.2 None false d).2 in
  let new := (drop (length (sent (transport d))) (sent (transport d'))).*1 in
  dp_ok d' ∧ room_id d' = Some room ∧ local_node_id d' = local_node_id d ∧
  ((new = [] ∧ ∃ x', x ≤ x' ≤ x + 1 ∧ peers d' !! n = Some (set_nonce x' p)) ∨
   (∃ h body, wire_frame room (local_node_id d) p x (mkPacketId 0) 0 m.1 m.2 = Some (h, body) ∧
      header_ok h ∧ h_payload_len h = Z.of_nat (length body) ∧
      new = [header_bytes h ++ body] ∧ peers d' !! n = Some (set_nonce (x + 1) p))).
Proof.
  intros Hok Hroom Hp Hx. destruct (send_outcome d n m.1 m.2 None false Hok)
    as (r & d' & -> & Hok' & Hout). cbn zeta. cbn [snd]. split; [exact Hok'|].
  destruct (dpo_peer d Hok n _ Hp) as [Hu _]. cbn in Hu.
  assert (∀ d', d' = d → room_id d' = Some room ∧ local_node_id d' = local_node_id d ∧
    (drop (length (sent (transport d))) (sent (transport d'))).*1 = [] ∧
    ∃ x', x ≤ x' ≤ x + 1 ∧ peers d' !! n = Some (set_nonce x' p)) as Hsame.
  { intros ? ->. rewrite nothing_new. split_and!; try done. exists x. split; [lia|done]. }
  case_bool_decide as Hlen; [destruct Hout as [_ E]; naive_solver|].
  rewrite Hroom, Hp in Hout.
  destruct (q_contents (free (slab d))) as [|y l]; [destruct Hout as [_ E]; naive_solver|].
  clear Hsame. destruct Hout as [[_ Hn _ _ Hr Hl _ _ _] Hout].
  assert (peers d' !! n = Some (set_nonce (x + 1) p)) as Hp'.
  { rewrite Hn, lookup_insert_eq. cbn [next_nonce set_nonce].
    rewrite wrap_small by (unfold u_ok in *; lia). done. }
  split; [congruence|]. split; [congruence|].
  change (frame_for d (set_nonce x p) room m.1 m.2 false)
    with (wire_frame room (local_node_id d) p x (mkPacketId 0) 0 m.1 m.2) in Hout.
  destruct (wire_frame _ _ _ _ _ _ _ _) as [[h body]|] eqn:Ew; cycle 1.
  { left. destruct Hout as (_ & _ & -> & _). rewrite nothing_new. split; [done|].
    exists (x + 1). split; [lia|done]. }
  assert (transport d' = (send_raw (header_bytes h ++ body) (target_of (set_nonce x p) None)
    (transport d)).2) as Ht by (destruct (send_raw _ _ _) as [[[]|e|] t]; naive_solver).
  rewrite Ht. destruct (raw_sent (header_bytes h ++ body) (target_of (set_nonce x p) None)
    (transport d)) as [-> | ->]; cycle 1.
  { left. rewrite nothing_new. split; [done|]. exists (x + 1). split; [lia|done]. }
  right. exists h, body. rewrite new_datagram.
  pose proof (wire_frame_header _ _ _ _ _ _ _ _ _ _ Ew) as Eh.
  assert (length body ≤ length m.2 + 16)%nat as Hb
    by (eapply (frame_body d (set_nonce x p) room m.1 m.2 false); exact Ew).
  rewrite max_payload in Hlen. split_and!; [done| |by rewrite Eh|done|done].
  rewrite Eh. apply wire_header_ok; [|done|unfold u_ok; simpl; lia|unfold byte_ok; lia|lia].
  by destruct (dpo_ids d Hok room n _ Hroom Hp).
Qed.

Lemma sends_stream_at n ms p room x d :
  dp_ok d → room_id d = Some room → peers d !! n = Some (set_nonce x p) →
  x + Z.of_nat (length ms) < 2 ^ 64 →
  ∃ ns, stream room (local_node_id d) p x ms (sends n ms d).1 ns.
Proof.
  revert x d. induction ms as [|m ms IH]; intros x d Hok Hroom Hp Hx; cbn [sends].
  { eexists. constructor. }
  cbn [length] in Hx.
  destruct (send_step d n p x room m Hok Hroom Hp) as (Hok' & Hroom' & Hl & Hout); [lia|].
  cbn zeta in *. set (d' := (send_to_peer n m.1 m.2 None false d).2) in *.
  destruct Hout as [(-> & x' & Hx' & Hp')|(h & body & Hw & Hh & Hlen & -> & Hp')].
  - destruct (IH x' d' Hok' Hroom' Hp') as [ns Hns]; [lia|]. rewrite Hl in Hns.
    destruct (sends n ms d') as [out d'']. eexists. by econstructor.
  - destruct (IH (x + 1) d' Hok' Hroom' Hp') as [ns Hns]; [lia|]. rewrite Hl in Hns.
    destruct (sends n ms d') as [out d'']. eexists. by econstructor.
Qed.

Lemma sends_stream n ms p room d :
  dp_ok d → room_id d = Some room → peers d !! n = Some p →
  next_nonce p + Z.of_nat (length ms) < 2 ^ 64 →
  ∃ ns, stream room (local_node_id d) p (next_nonce p) ms (sends n ms d).1 ns.
Proof.
  intros Hok Hroom Hp Hx. apply sends_stream_at; try done. by destruct p.
Qed.

(** The datagram of a message, if it was sent. *)
Lemma stream_lookup room local p x ms out ns j o dgram :
  stream room local p x ms out ns → out !! j = Some o → dgram ∈ o →
  ∃ m nonce h body, ms !! j = Some m ∧ ns !! j = Some nonce ∧
    wire_frame room local p nonce (mkPacketId 0) 0 m.1 m.2 = Some (h, body) ∧ header_ok h ∧
    h_payload_len h = Z.of_nat (length body) ∧ o = [dgram] ∧ dgram = header_bytes h ++ body.
Proof.
  intros Hs. revert j. induction Hs as [|x x' m ms out ns Hx Hs IH|x m ms h body out ns Hw Hh Hl Hs IH];
    intros j Ho Hd; [done|destruct j as [|j]; [|by apply (IH j)]..].
  - injection Ho as <-. by apply not_elem_of_nil in Hd.
  - injection Ho as <-. apply list_elem_of_singleton in Hd as ->. by exists m, x, h, body.
Qed.

Lemma stream_bounds room local p x ms out ns j nonce :
  stream room local p x ms out ns → ns !! j = Some nonce → x ≤ nonce ≤ x + Z.of_nat j.
Proof.
  intros Hs. revert j. induction Hs as [|x x' m ms out ns Hx Hs IH|x m ms h body out ns Hw Hh Hl Hs IH];
    intros j Hj; [done|destruct j as [|j]; [injection Hj as <-; lia|apply IH in Hj; lia]..].
Qed.

(** Nonces grow with every datagram, by no more than the number of sends between. *)
Lemma stream_grows room local p x ms out ns i j o ni nj :
  stream room local p x ms out ns → (i < j)%nat → out !! i = Some o → o ≠ [] →
  ns !! i = Some ni → ns !! j = Some nj → ni < nj ≤ ni + Z.of_nat (j - i).
Proof.
  intros Hs. revert i j. induction Hs as [|x x' m ms out ns Hx Hs IH|x m ms h body out ns Hw Hh Hl Hs IH];
    intros i j Hij Ho Hne Hi Hj; [done|destruct i as [|i], j as [|j]; try lia..]; cbn in Ho, Hi, Hj.
  - by injection Ho as <-.
  - replace (S j - S i)%nat with (j - i)%nat by lia. apply (IH i j); [lia|done..].
  - injection Hi as <-. apply (stream_bounds _ _ _ _ _ _ _ _ _ Hs) in Hj. lia.
  - replace (S j - S i)%nat with (j - i)%nat by lia. apply (IH i j); [lia|done..].
Qed.
End Sender.

(** ** The receiver *)
Section Receiver.
Context `{Q : ArrayQueue} `{A : AeadLib} `{HA : !AeadLaws A} `{P : Etherparse} `{N : IpNetLib}
  `{R : RatelimitLib} `{K : Socket} `{T : TunIo} `{PC : Postcard}.
Implicit Types (d : DataPlane) (p : DataPeer).

(** A datagram from the network: when, where from, its bytes and what the buffer of the
    socket holds behind them. *)
Record Arrival := mkArrival {
  arr_now : Z;
  arr_from : SocketAddr;
  arr_bytes : list Z;
  arr_slack : list Z;
}.

(** What the transport makes of it, when that is a data frame. *)
Definition data_of (x : Arrival) : option (DataHeader * list Z) :=
  let buf := arr_bytes x ++ arr_slack x in
  match recv_packet buf (length (arr_bytes x)) (arr_from x) with
  | Ok (PData (h, (first, last)), _) => (λ body, (h, body)) <$> ok (slice buf first last)
  | _ => None
  end.

(** The part of a round of the UDP loop that is about the dataplane. *)
Definition on_arrival (pr : profile) (x : Arrival) : DPM unit :=
  match data_of x with
  | Some (h, body) => handle_incoming_frame pr (arr_now x) h body (arr_from x)
  | None => mreturn tt
  end.

Definition device_log d : list (list Z) :=
  match tun d with Some t => tun_written t | None => [] end.

Definition is_from (src : NodeId) (x : Arrival) : bool :=
  match data_of x with Some (h, _) => bool_decide (h_src_node h = src) | None => false end.

(** One arrival after the other; what the frames of [src] wrote to the device. *)
Fixpoint receives (src : NodeId) (pr : profile) (xs : list Arrival) d
    : list (list Z) * DataPlane :=
  match xs with
  | [] => ([], d)
  | x :: xs =>
      let d' := (on_arrival pr x d).2 in
      let new := drop (length (device_log d)) (device_log d') in
      let '(log, d'') := receives src pr xs d' in
      ((if is_from src x then new ++ log else log), d'')
  end.

(** Whether a datagram opens as a frame of [src] under the key of [c]. *)
Definition opens_from (c : Cipher A) (src : NodeId) (x : Arrival) : bool :=
  match data_of x with
  | Some (h, body) =>
      bool_decide (h_src_node h = src) &&
      match encode_into h (replicate DATA_HEADER_SIZE 0) with
      | Ok aad => bool_decide (is_Some (frame_open c (mkFrame (h_nonce h) aad body)))
      | _ => false
      end
  | None => false
  end.

(** What an attacker without the key cannot make: a datagram that opens was sent. *)
Definition genuine (c : Cipher A) (src : NodeId) (dgrams : list (list Z)) (xs : list Arrival)
    : Prop :=
  Forall (λ x, opens_from c src x = true → arr_bytes x ∈ dgrams) xs.

(** The datagram of a sent frame is read as that frame. *)
Lemma data_of_sent x h body :
  header_ok h → h_version h = PROTOCOL_VERSION → h_payload_len h = Z.of_nat (length body) →
  arr_bytes x = header_bytes h ++ body → data_of x = Some (h, body).
Proof.
  intros Hh Hv Hl Hb. unfold data_of. rewrite Hb. pose proof (length_header_bytes h Hh) as Hhl.
  rewrite length_app, Hhl, <- app_assoc, recv_data by done.
  rewrite bool_decide_eq_true_2 by done. rewrite slice_Ok by (rewrite ?length_app; lia).
  rewrite drop_app_length' by done. cbn [ok]. by rewrite take_app_length' by lia.
Qed.

(** ** A stream of frames at the receiver *)
Section Stream.
Context {room : RoomId} {src : NodeId} {p : DataPeer} {cp : Cipher A} {first : Z}
  {ms : list Message} {out : list (list (list Z))} {ns : list Z}.
Hypothesis Hstream : stream room src p first ms out ns.
Hypothesis Hkey : cipher p = Some cp.
Hypothesis Hfirst : 0 ≤ first.

Definition nonces_of (js : list nat) : gset Z := list_to_set (omap (λ j, ns !! j) js).

(** The receiver has the key, and a window that covers the messages it has taken. *)
Record synced (js : list nat) d (t : TunDevice) (c : Cipher A) : Prop := {
  sy_tun : tun d = Some t;
  sy_cipher : ciphers d !! src = Some (Some c);
  sy_key : inner c = inner cp;
  sy_window : window_covers (nonces_of js) (window c);
}.

Lemma covers_mono (S1 S2 : gset Z) w : S1 ⊆ S2 → window_covers S2 w → window_covers S1 w.
Proof. intros Hsub [Hb HS]. split; [done|]. intros n Hn. by apply HS, Hsub. Qed.

Lemma check_new pr n w (S : gset Z) :
  0 ≤ n → window_covers S w → check_window pr n w = Ok tt → n ∉ S.
Proof.
  intros Hn [_ HS] Hc Hin. destruct (HS n Hin) as [Hle Hbit].
  apply check_window_Ok in Hc; [|done]. destruct Hc as [?|[Hd Hf]]; [lia|].
  rewrite Hbit in Hf by done. done.
Qed.

Lemma nonces_cons j n js : ns !! j = Some n → nonces_of (j :: js) = {[n]} ∪ nonces_of js.
Proof. intros Hj. unfold nonces_of. cbn [omap list_omap]. by rewrite Hj. Qed.

Lemma not_taken j n js : ns !! j = Some n → n ∉ nonces_of js → j ∉ js.
Proof.
  intros Hj Hn Hin. apply Hn. unfold nonces_of. apply elem_of_list_to_set, list_elem_of_omap.
  by exists j.
Qed.

(** A datagram that was sent, as the receiver sees it. *)
Lemma datagram_at x j : out !! j = Some [arr_bytes x] →
  ∃ m n h body, ms !! j = Some m ∧ ns !! j = Some n ∧
    wire_frame room src p n (mkPacketId 0) 0 m.1 m.2 = Some (h, body) ∧ header_ok h ∧
    data_of x = Some (h, body) ∧ h_nonce h = n ∧ h_src_node h = src ∧ 0 ≤ n.
Proof using Hstream Hkey Hfirst HA.
  intros Hj. destruct (stream_lookup _ _ _ _ _ _ _ _ _ _ Hstream Hj (list_elem_of_here _ _))
    as (m & n & h & body & Hm & Hn & Hw & Hh & Hl & _ & Hb).
  pose proof (wire_frame_header _ _ _ _ _ _ _ _ _ _ Hw) as Eh.
  exists m, n, h, body. split_and!; try done.
  - apply data_of_sent; try done. by rewrite Eh.
  - by rewrite Eh.
  - by rewrite Eh.
  - apply (stream_bounds _ _ _ _ _ _ _ _ _ Hstream) in Hn. lia.
Qed.

Lemma sent_somewhere dgram : dgram ∈ concat out → ∃ j, out !! j = Some [dgram].
Proof using Hstream HA.
  rewrite list_elem_of_In, in_concat. intros (o & Ho & Hx). apply list_elem_of_In in Ho, Hx.
  apply list_elem_of_lookup_1 in Ho as [j Hj]. exists j.
  by destruct (stream_lookup _ _ _ _ _ _ _ _ _ _ Hstream Hj Hx) as (_ & _ & _ & _ & _ & _ & _ & _ & _ & -> & _).
Qed.

Lemma frame_open_key (c c' : Cipher A) f : inner c = inner c' → frame_open c f = frame_open c' f.
Proof. unfold frame_open. by intros ->. Qed.

Lemma device_log_written d d' t packet :
  tun d = Some t → tun d' = Some (written t packet) → device_log d' = device_log d ++ [packet].
Proof. unfold device_log. by intros -> ->. Qed.

(** A frame of the sender: it writes nothing, or a message not taken before. *)
Lemma frame_step pr x js d t c h body :
  synced js d t c → data_of x = Some (h, body) → h_src_node h = src →
  (opens_from cp src x = true → arr_bytes x ∈ concat out) →
  let d' := (on_arrival pr x d).2 in
  ∃ c', (synced js d' t c' ∨
  ∃ j m, j ∉ js ∧ ms !! j = Some m ∧ synced (j :: js) d' (written t m.2) c').
Proof using Hstream Hkey Hfirst HA.
  intros [Ht Hc Hk Hw] Hx Hsrc Hgen. unfold on_arrival. rewrite Hx.
  destruct (handle_receiver pr (arr_now x) h body (arr_from x) d) as (_ & _ & _ & Hcs).
  unfold ciphers in Hc. rewrite lookup_fmap in Hc.
  destruct (peers d !! src) as [q|] eqn:Hq; [|done]. injection Hc as Hcq.
  rewrite Hsrc, Hq in Hcs.
  destruct (handle_tun pr (arr_now x) h body (arr_from x) d t Ht) as (r & d' & E & Hout).
  rewrite E in *. cbn [snd] in *.
  assert (∀ packet, accepts pr (arr_now x) h body d packet →
    header_valid (arr_now x) h d ∧ (open_frame pr h body q).1 = Ok packet) as Hacc.
  { intros packet (Hv & _ & _ & (q' & Hq' & Hop) & _). split; [done|].
    rewrite Hsrc, Hq in Hq'. injection Hq' as <-. by apply open_frame_opens. }
  destruct Hcs as [[Hcs Hnv]|[Hv Hcs]].
  { exists c. left. destruct Hout as [(packet & Hp & _)|[_ Ht']]; [by destruct (Hacc _ Hp)|].
    split; try done. rewrite Hcs. rewrite (ciphers_lookup _ _ _ Hq). by rewrite Hcq. }
  destruct (open_frame_cipher pr h body q c Hcq) as (c' & Hc' & Hk' & Hcase).
  assert (ciphers d' !! src = Some (Some c')) as Hcs' by (by rewrite Hcs, lookup_insert_eq, Hc').
  exists c'. destruct Hcase as [[Hno Hw']|(aad & packet & Hop & _ & Haad & Hfo & Hck & Hadv)].
  { left. destruct Hout as [(packet & Hp & _)|[_ Ht']].
    - apply Hacc in Hp as [_ Hp]. by destruct (Hno packet).
    - split; [done|done|congruence|by rewrite Hw']. }
  destruct (sent_somewhere (arr_bytes x)) as [j Hj].
  { apply Hgen. unfold opens_from. rewrite Hx, Hsrc, Haad.
    rewrite (bool_decide_eq_true_2 (src = src)) by done. apply bool_decide_eq_true_2.
    by rewrite (frame_open_key cp c). }
  destruct (datagram_at x j Hj) as (m & n & h' & body' & Hm & Hn & Hwf & Hh & Hx' & Hnonce & _ & Hn0).
  rewrite Hx in Hx'. injection Hx' as <- <-. rewrite Hnonce in *.
  pose proof (check_new pr n _ _ Hn0 Hw Hck) as Hnew.
  pose proof (advance_covers pr _ _ _ _ Hn0 Hw Hck Hadv) as Hcov.
  destruct Hout as [(packet' & Hp & _ & _ & Ht')|[_ Ht']].
  - right. exists j, m. split; [by eapply not_taken|]. split; [done|].
    apply Hacc in Hp as [_ Hp].
    destruct (wire_frame_unsealed _ _ _ cp c _ _ _ _ _ _ _ Hwf Hkey Hk Hh) as (Haad' & _ & Hopen).
    assert (opens pr h body q m.2) as Ho.
    { unfold opens. rewrite Hcq, Hnonce. exists (header_bytes h). split; [done|].
      split.
      { revert Hp. unfold open_frame. rewrite Hcq, Haad'. unfold decrypt_in_place, mseq, check_replay_window.
        destruct (poisoned c); done. }
      split; [done|]. by rewrite Hadv. }
    apply open_frame_opens in Ho. assert (packet' = m.2) as -> by congruence.
    split; [done|done|congruence|]. by rewrite (nonces_cons _ _ _ Hn).
  - left. split; [done|done|congruence|]. eapply covers_mono; [|done]. set_solver.
Qed.

(** Anything else leaves the sender's cipher alone. *)
Lemma other_step pr x js d t c :
  synced js d t c → is_from src x = false → ∃ t', synced js (on_arrival pr x d).2 t' c.
Proof.
  intros [Ht Hc Hk Hw] Hx. unfold on_arrival, is_from in *.
  destruct (data_of x) as [[h body]|]; [|by exists t].
  apply bool_decide_eq_false in Hx.
  destruct (handle_receiver pr (arr_now x) h body (arr_from x) d) as (_ & _ & _ & Hcs).
  destruct (handle_tun pr (arr_now x) h body (arr_from x) d t Ht) as (r & d' & E & Hout).
  rewrite E in *. cbn [snd] in *.
  assert (∃ t', tun d' = Some t') as [t' Ht']
    by (destruct Hout as [(? & _ & _ & _ & ->)|[_ ->]]; by eexists).
  exists t'. split; [done| |done..].
  destruct (peers d !! h_src_node h); [destruct Hcs as [[-> _]|[_ ->]]|by rewrite Hcs]; [done|].
  by rewrite lookup_insert_ne.
Qed.

(** The [j]th message is this packet. *)
Definition nth_packet (j : nat) (packet : list Z) : Prop := snd <$> ms !! j = Some packet.

(** Whatever arrives, what the sender's frames write are messages it sent, each once. *)
Lemma receives_once pr xs js d t c :
  synced js d t c → NoDup js → genuine cp src (concat out) xs →
  ∃ js', NoDup (js' ++ js) ∧ Forall2 nth_packet js' (receives src pr xs d).1.
Proof using Hstream Hkey Hfirst HA.
  revert js d t c. induction xs as [|x xs IH]; intros js d t c Hs Hnd Hgen; cbn [receives].
  { by exists []. }
  apply Forall_cons in Hgen as [Hx Hgen]. set (d' := (on_arrival pr x d).2).
  destruct (is_from src x) eqn:Hfrom; cycle 1.
  { destruct (other_step pr x js d t c Hs Hfrom) as [t' Hs'].
    destruct (IH js d' t' c Hs' Hnd Hgen) as (js' & Hnd' & Hlog). exists js'.
    by destruct (receives src pr xs d'). }
  unfold is_from in Hfrom. destruct (data_of x) as [[h body]|] eqn:Ex; [|done].
  apply bool_decide_eq_true in Hfrom.
  destruct (frame_step pr x js d t c h body Hs Ex Hfrom Hx)
    as (c' & [Hs'|(j & m & Hj & Hm & Hs')]); fold d' in Hs'.
  - destruct (IH js d' t c' Hs' Hnd Hgen) as (js' & Hnd' & Hlog). exists js'.
    assert (device_log d' = device_log d) as ->
      by (unfold device_log; by rewrite (sy_tun _ _ _ _ Hs), (sy_tun _ _ _ _ Hs')).
    rewrite drop_ge by lia. by destruct (receives src pr xs d').
  - destruct (IH (j :: js) d' _ c' Hs') as (js' & Hnd' & Hlog); [by constructor|done|].
    exists (j :: js'). rewrite (device_log_written d d' t m.2) by (by destruct Hs, Hs').
    rewrite drop_app_length. destruct (receives src pr xs d') as [log d'']. split.
    + eapply NoDup_Permutation_proper; [|exact Hnd']. simpl. by rewrite Permutation_middle.
    + simpl. constructor; [|done]. unfold nth_packet. by rewrite Hm.
Qed.

(** *** A network that only loses, repeats and reorders *)

(** The indices that have not come before, in the order they come. *)
Fixpoint firsts (seen js : list nat) : list nat :=
  match js with
  | [] => []
  | j :: js => if bool_decide (j ∈ seen) then firsts seen js else j :: firsts (j :: seen) js
  end.

(** Nothing is 64 or more ahead of, or behind, the highest index so far. *)
Fixpoint orderly (top : Z) (js : list nat) : Prop :=
  match js with
  | [] => True
  | j :: js => Z.abs (Z.of_nat j - top) < 64 ∧ orderly (Z.max top (Z.of_nat j)) js
  end.

Lemma policy_same ty packet d d' : traffic_policy d' = traffic_policy d →
  policy_allows_packet_type ty Inbound packet d' = policy_allows_packet_type ty Inbound packet d.
Proof. intros E. unfold policy_allows_packet_type, policy_allows. by rewrite E. Qed.

(** A frame the window refuses changes no cipher. *)
Lemma open_frame_stale pr h payload q c :
  cipher q = Some c → check_window pr (h_nonce h) (window c) = Err Aead →
  (∀ packet, (open_frame pr h payload q).1 ≠ Ok packet) ∧
  cipher (open_frame pr h payload q).2 = Some c.
Proof.
  intros Hc Hck. unfold open_frame. rewrite Hc. destruct (encode_into h _); [|done..].
  unfold decrypt_in_place, mseq, check_replay_window. rewrite Hck. by destruct (poisoned c).
Qed.

Section Orderly.
Context {me : NodeId} {b : DataPlane}.
Hypothesis Hdistinct : src ≠ me.
Hypothesis Hinfo : peer_node_id (info p) = me.
(** The messages that this receiver takes. *)
Hypothesis Hmessages : ∀ m, m ∈ ms → m.1 ∈ [IPv4; IPv6; Ethernet; Discovery] ∧
  policy_allows_packet_type m.1 Inbound m.2 b = Ok true ∧ ∀ k, tun_accepts k m.2 = true.

(** A receiver whose window is exactly the messages taken, the highest of them [top]. *)
Record in_step (old : gset Z) (js : list nat) (top : Z) d (t : TunDevice) (c : Cipher A)
    : Prop := {
  is_tun : tun d = Some t;
  is_peer : ciphers d !! src = Some (Some c);
  is_key : inner c = inner cp;
  is_alive : poisoned c = false;
  is_window : window_exact (old ∪ nonces_of js) (window c);
  is_old : ∀ n, n ∈ old → n < first;
  is_taken : ∀ j, j ∈ js → Z.of_nat j ≤ top ∧ ∃ x, out !! j = Some [x];
  is_top : (top = -1 ∧ last_nonce (window c) = first - 1) ∨
    ∃ j x, top = Z.of_nat j ∧ out !! j = Some [x] ∧ ns !! j = Some (last_nonce (window c));
  is_room : room_id d = Some room;
  is_me : local_node_id d = me;
  is_policy : traffic_policy d = traffic_policy b;
}.

Lemma top_near old js top d t c j x n :
  in_step old js top d t c → out !! j = Some [x] → ns !! j = Some n →
  Z.abs (n - last_nonce (window c)) ≤ Z.abs (Z.of_nat j - top) ∧
  (top < Z.of_nat j ↔ last_nonce (window c) < n).
Proof using Hstream.
  intros Hi Ho Hn. pose proof (stream_bounds _ _ _ _ _ _ _ _ _ Hstream Hn) as Hb.
  destruct (is_top _ _ _ _ _ _ Hi) as [[-> E]|(k & y & -> & Hk & En)]; [lia|].
  destruct (decide (j = k)) as [->|Hne]; [assert (n = last_nonce (window c)) by congruence; lia|].
  destruct (decide (j < k)%nat) as [Hlt|Hge].
  - pose proof (stream_grows _ _ _ _ _ _ _ _ _ _ _ _ Hstream Hlt Ho ltac:(done) Hn En). lia.
  - assert (k < j)%nat as Hlt by lia.
    pose proof (stream_grows _ _ _ _ _ _ _ _ _ _ _ _ Hstream Hlt Hk ltac:(done) En Hn). lia.
Qed.

(** Messages that were sent have nonces of their own. *)
Lemma fresh_nonce old js top d t c j x n :
  in_step old js top d t c → out !! j = Some [x] → ns !! j = Some n → j ∉ js →
  n ∉ old ∪ nonces_of js.
Proof using Hstream.
  intros Hi Ho Hn Hj [Hin|Hin]%elem_of_union.
  { apply (is_old _ _ _ _ _ _ Hi) in Hin.
    pose proof (stream_bounds _ _ _ _ _ _ _ _ _ Hstream Hn). lia. }
  unfold nonces_of in Hin. apply elem_of_list_to_set, list_elem_of_omap in Hin as (k & Hk & Hnk).
  destruct (is_taken _ _ _ _ _ _ Hi k Hk) as [_ [y Hy]].
  assert (j ≠ k) as Hne by (by intros ->).
  destruct (decide (j < k)%nat) as [Hlt|Hge].
  - pose proof (stream_grows _ _ _ _ _ _ _ _ _ _ _ _ Hstream Hlt Ho ltac:(done) Hn Hnk). lia.
  - assert (k < j)%nat as Hlt by lia.
    pose proof (stream_grows _ _ _ _ _ _ _ _ _ _ _ _ Hstream Hlt Hy ltac:(done) Hnk Hn). lia.
Qed.

Lemma peer_of_cipher d n c : ciphers d !! n = Some (Some c) →
  ∃ q, peers d !! n = Some q ∧ cipher q = Some c.
Proof.
  unfold ciphers. rewrite lookup_fmap. destruct (peers d !! n) as [q|]; [|done].
  intros [= E]. by exists q.
Qed.

(** A message that has been taken is not written again. *)
Lemma repeated_step pr x j old js top d t c :
  in_step old js top d t c → out !! j = Some [arr_bytes x] → j ∈ js →
  is_from src x = true ∧ in_step old js top (on_arrival pr x d).2 t c.
Proof using Hstream Hkey Hfirst HA.
  intros Hi Ho Hj.
  destruct (datagram_at x j Ho) as (m & n & h & body & Hm & Hn & Hw & Hh & Hx & Hnonce & Hsrc & Hn0).
  unfold is_from, on_arrival. rewrite Hx. split; [by apply bool_decide_eq_true_2|].
  destruct (handle_receiver pr (arr_now x) h body (arr_from x) d) as (Ep & Er & El & Hcs).
  destruct (handle_tun pr (arr_now x) h body (arr_from x) d t (is_tun _ _ _ _ _ _ Hi))
    as (r & d' & E & Hout).
  rewrite E in *. cbn [snd] in *. rewrite Hsrc in Hcs.
  destruct (peer_of_cipher d src c (is_peer _ _ _ _ _ _ Hi)) as (q & Hq & Hcq).
  rewrite Hq in Hcs.
  assert (check_window pr (h_nonce h) (window c) = Err Aead) as Hck.
  { rewrite Hnonce. destruct (check_window_result pr n (window c) Hn0) as [Hck|]; [|done].
    destruct (check_new pr n _ _ Hn0 (proj1 (is_window _ _ _ _ _ _ Hi)) Hck).
    apply elem_of_union_r. unfold nonces_of. apply elem_of_list_to_set, list_elem_of_omap.
    by exists j. }
  destruct (open_frame_stale pr h body q c Hcq Hck) as [Hno Hsame].
  assert (ciphers d' = ciphers d) as Hcd.
  { destruct Hcs as [[-> _]|[_ ->]]; [done|]. rewrite Hsame. apply insert_id.
    apply (is_peer _ _ _ _ _ _ Hi). }
  destruct Hout as [(packet & (_ & _ & _ & (q' & Hq' & Hop) & _) & _)|[_ Ht']].
  { rewrite Hsrc, Hq in Hq'. injection Hq' as <-. apply open_frame_opens in Hop. by destruct (Hno packet). }
  destruct Hi. split; congruence || done.
Qed.

(** The window takes a message that has not been taken, and so does the dataplane. *)
Lemma first_accepted pr now j old js top d t c m n h body x :
  in_step old js top d t c → out !! j = Some [x] → j ∉ js → Z.abs (Z.of_nat j - top) < 64 →
  ms !! j = Some m → ns !! j = Some n → 0 ≤ n →
  wire_frame room src p n (mkPacketId 0) 0 m.1 m.2 = Some (h, body) → header_ok h →
  ∃ q w', peers d !! src = Some q ∧ cipher q = Some c ∧ opens pr h body q m.2 ∧
    accepts pr now h body d m.2 ∧ advance_window pr n (window c) = Ok w' ∧
    window_exact ({[n]} ∪ (old ∪ nonces_of js)) w' ∧ last_nonce w' = Z.max n (last_nonce (window c)).
Proof using Hstream Hkey HA Hdistinct Hinfo Hmessages.
  intros Hi Ho Hj Htop Hm Hn Hn0 Hw Hh.
  destruct (top_near _ _ _ _ _ _ _ _ _ Hi Ho Hn) as [Hnear _].
  pose proof (fresh_nonce _ _ _ _ _ _ _ _ _ Hi Ho Hn Hj) as Hfresh.
  destruct (peer_of_cipher d src c (is_peer _ _ _ _ _ _ Hi)) as (q & Hq & Hcq).
  assert (check_window pr n (window c) = Ok tt) as Hck.
  { apply check_window_Ok; [done|]. destruct (decide (last_nonce (window c) < n)); [by left|right].
    split; [lia|]. apply not_true_iff_false. intros Ht. apply Hfresh.
    apply (proj2 (is_window _ _ _ _ _ _ Hi)) in Ht; [|lia].
    by replace (last_nonce (window c) - (last_nonce (window c) - n)) with n in Ht by lia. }
  destruct (advance_exact pr _ n (window c) Hn0 ltac:(lia) (is_window _ _ _ _ _ _ Hi) Hck)
    as (w' & Hadv & Hex & Hlast).
  destruct (Hmessages m) as (Hty & Hpol & _); [by eapply list_elem_of_lookup_2|].
  assert (matching pr n p q) as Hmatch.
  { unfold matching. rewrite Hkey, Hcq, Hadv. destruct Hi. by split_and!. }
  exists q, w'. split_and!; try done.
  - by eapply wire_frame_opens.
  - eapply wire_accepts; [exact Hw|done|by destruct Hi| | |done|done|done|].
    + by rewrite (is_me _ _ _ _ _ _ Hi).
    + by rewrite (is_me _ _ _ _ _ _ Hi).
    + by rewrite (policy_same _ _ _ _ (is_policy _ _ _ _ _ _ Hi)).
Qed.

(** Taking message [j] keeps the receiver in step. *)
Lemma in_step_take old js top d t c j x n d' t' c' :
  in_step old js top d t c → out !! j = Some [x] → ns !! j = Some n →
  tun d' = Some t' → ciphers d' !! src = Some (Some c') → inner c' = inner c →
  poisoned c' = false → window_exact ({[n]} ∪ (old ∪ nonces_of js)) (window c') →
  last_nonce (window c') = Z.max n (last_nonce (window c)) →
  traffic_policy d' = traffic_policy d → room_id d' = room_id d →
  local_node_id d' = local_node_id d →
  in_step old (j :: js) (Z.max top (Z.of_nat j)) d' t' c'.
Proof using Hstream.
  clear HA Hkey Hfirst Hdistinct Hinfo Hmessages.
  intros Hi Ho Hn Ht' Hc' Hk' Ha' Hex Hlast Ep Er El.
  destruct (top_near _ _ _ _ _ _ _ _ _ Hi Ho Hn) as [_ Hside].
  destruct Hi as [_ _ Hk _ _ Hold Htaken Htp Hr Hm' Hpo].
  split; [done|done|congruence|done| |done| | |congruence..].
  - rewrite (nonces_cons _ _ _ Hn).
    by replace (old ∪ ({[n]} ∪ nonces_of js)) with ({[n]} ∪ (old ∪ nonces_of js)) by set_solver.
  - intros k [->|Hk2]%elem_of_cons; [split; [lia|by eexists]|].
    destruct (Htaken k Hk2) as [? ?]. split; [lia|done].
  - right. rewrite Hlast. destruct (decide (top < Z.of_nat j)) as [Hlt|Hge].
    + exists j, x. apply Hside in Hlt as Hlt'. rewrite !Z.max_r, Z.max_l by lia. done.
    + rewrite Z.max_l by lia. assert (¬ last_nonce (window c) < n) by tauto. rewrite Z.max_r by lia.
      destruct Htp as [[-> _]|Htp]; [lia|done].
Qed.

(** A message that has not been taken is written. *)
Lemma first_step pr x j old js top d t c :
  in_step old js top d t c → out !! j = Some [arr_bytes x] → j ∉ js →
  Z.abs (Z.of_nat j - top) < 64 →
  is_from src x = true ∧ ∃ m c', ms !! j = Some m ∧
    in_step old (j :: js) (Z.max top (Z.of_nat j)) (on_arrival pr x d).2 (written t m.2) c'.
Proof using Hstream Hkey Hfirst HA Hdistinct Hinfo Hmessages.
  intros Hi Ho Hj Htop.
  destruct (datagram_at x j Ho) as (m & n & h & body & Hm & Hn & Hw & Hh & Hx & Hnonce & Hsrc & Hn0).
  unfold is_from, on_arrival. rewrite Hx. split; [by apply bool_decide_eq_true_2|].
  destruct (first_accepted pr (arr_now x) _ _ _ _ _ _ _ _ _ _ _ _ Hi Ho Hj Htop Hm Hn Hn0 Hw Hh)
    as (q & w' & Hq & Hcq & Hop & Hacc & Hadv & Hex & Hlast).
  destruct (handle_receiver pr (arr_now x) h body (arr_from x) d) as (Ep & Er & El & Hcs).
  destruct (handle_tun pr (arr_now x) h body (arr_from x) d t (is_tun _ _ _ _ _ _ Hi))
    as (r & d' & E & Hout).
  rewrite E in *. cbn [snd] in *. rewrite Hsrc, Hq in Hcs.
  destruct Hcs as [[_ Hnv]|[_ Hcs]]; [by destruct Hacc|].
  destruct Hout as [(packet & Hacc' & _ & _ & Ht')|[Hno _]]; cycle 1.
  { specialize (Hno _ Hacc). destruct (Hmessages m) as (_ & _ & Htakes);
      [by eapply list_elem_of_lookup_2|]. by rewrite Htakes in Hno. }
  assert (packet = m.2) as -> by (by eapply accepts_inj).
  apply open_frame_opens in Hop.
  destruct (open_frame_cipher pr h body q c Hcq)
    as (c' & Hc' & Hk' & [[Hbad _]|(_ & _ & _ & Halive & _ & _ & _ & Hadv')]); [by destruct (Hbad m.2)|].
  rewrite Hnonce, Hadv in Hadv'. injection Hadv' as ->.
  exists m, c'. split; [done|]. eapply in_step_take; try done.
  by rewrite Hcs, lookup_insert_eq, Hc'.
Qed.

(** Every message that arrives is written once, when it first arrives. *)
Lemma receives_orderly pr xs idx old js top d t c :
  in_step old js top d t c → Forall2 (λ x j, out !! j = Some [arr_bytes x]) xs idx →
  orderly top idx → Forall2 nth_packet (firsts js idx) (receives src pr xs d).1.
Proof using Hstream Hkey Hfirst HA Hdistinct Hinfo Hmessages.
  intros Hi Hxs. revert js top d t c Hi. induction Hxs as [|x j xs idx Ho Hxs IH];
    intros js top d t c Hi Hord; cbn [receives firsts]; [done|].
  destruct Hord as [Hnear Hord]. set (d' := (on_arrival pr x d).2). case_bool_decide as Hj.
  - destruct (repeated_step pr x j _ _ _ _ _ _ Hi Ho Hj) as [-> Hi']. fold d' in Hi'.
    assert (device_log d' = device_log d) as ->
      by (unfold device_log; by rewrite (is_tun _ _ _ _ _ _ Hi), (is_tun _ _ _ _ _ _ Hi')).
    rewrite drop_ge by lia. destruct (is_taken _ _ _ _ _ _ Hi j Hj) as [Hle _].
    rewrite Z.max_l in Hord by lia. specialize (IH _ _ _ _ _ Hi' Hord).
    by destruct (receives src pr xs d').
  - destruct (first_step pr x j _ _ _ _ _ _ Hi Ho Hj Hnear) as [-> (m & c' & Hm & Hi')].
    fold d' in Hi'. rewrite (device_log_written d d' t m.2) by (by destruct Hi, Hi').
    rewrite drop_app_length. specialize (IH _ _ _ _ _ Hi' Hord).
    destruct (receives src pr xs d') as [log d'']. simpl. constructor; [|done].
    unfold nth_packet. by rewrite Hm.
Qed.
End Orderly.
End Stream.
End Receiver.

(** ** The two nodes *)
Section Network.
Context `{Q : ArrayQueue} `{HQ : !ArrayQueueLaws Q} `{A : AeadLib} `{HA : !AeadLaws A}
  `{P : Etherparse} `{N : IpNetLib} `{R : RatelimitLib} `{K : Socket} `{T : TunIo}
  `{PC : Postcard}.
Implicit Types (a b : DataPlane) (p q : DataPeer).

(** Two nodes that have a key in common, each in its record of the other. *)
Record keyed a b room p (c : Cipher A) q (cq : Cipher A) t : Prop := {
  ky_a : dp_ok a;
  ky_room : room_id a = Some room;
  ky_peer_a : peers a !! local_node_id b = Some p;
  ky_cipher_a : cipher p = Some c;
  ky_peer_b : peers b !! local_node_id a = Some q;
  ky_cipher_b : cipher q = Some cq;
  ky_key : inner cq = inner c;
  ky_bitmap : u_ok 64 (bitmap (window cq));
  ky_tun : tun b = Some t;
}.

Lemma keyed_stream a b room p c q cq t ms :
  keyed a b room p c q cq t → next_nonce p + Z.of_nat (length ms) < 2 ^ 64 →
  (∃ ns, stream room (local_node_id a) p (next_nonce p) ms (sends (local_node_id b) ms a).1 ns) ∧
  0 ≤ next_nonce p.
Proof.
  intros H Hn. destruct H as [Ha Hr Hp _ _ _ _ _ _]. split; [by apply sends_stream|].
  destruct (dpo_peer a Ha _ _ Hp) as [Hu _]. unfold u_ok in Hu. lia.
Qed.

(** C5: what the frames of one node write to the device of another, over a network that an
    attacker controls.  A node sends any packets to a peer, some of which may fail.  Whatever
    datagrams then arrive at the peer, in whatever order and from whatever address, those of
    the node, repetitions of them, frames of other nodes, forgeries, anything else, as long
    as none opens under the key that was not sent: the frames that bear the name of the node
    write to the device only packets that it sent, and each of them at most once, in debug
    and release builds. *)
Theorem hostile_network pr a b room p c q cq t ms xs :
  keyed a b room p c q cq t → next_nonce p + Z.of_nat (length ms) < 2 ^ 64 →
  genuine cq (local_node_id a) (concat (sends (local_node_id b) ms a).1) xs →
  ∃ js, NoDup js ∧
    Forall2 (λ j packet, snd <$> ms !! j = Some packet) js
      (receives (local_node_id a) pr xs b).1.
Proof.
  intros Hk Hn Hgen. destruct (keyed_stream _ _ _ _ _ _ _ _ _ Hk Hn) as [[ns Hs] H0].
  destruct (receives_once Hs (ky_cipher_a _ _ _ _ _ _ _ _ Hk) H0 pr xs [] b t cq)
    as (js & Hnd & Hlog).
  - destruct Hk. split; [done| |done|].
    + rewrite (ciphers_lookup b _ q) by done. congruence.
    + split; [done|]. set_solver.
  - constructor.
  - unfold genuine in *. eapply Forall_impl; [exact Hgen|]. intros x Hx Hopen. apply Hx.
    rewrite <- Hopen. unfold opens_from. destruct (data_of x) as [[h body]|]; [|done].
    destruct (encode_into h _); [|done..].
    by rewrite (frame_open_key c cq) by (symmetry; by destruct Hk).
  - exists js. rewrite app_nil_r in Hnd. by split.
Qed.

(** C4: over a network that loses, repeats and reorders datagrams, but never by 64 or more,
    a packet whose datagram arrives is written exactly once.  The nodes share a room, the
    receiver's window has seen the sender's last nonce and is exact, as after a handshake,
    and it takes packets of these kinds.  Of the datagrams that arrive, each one some
    datagram of the run of sends, and each less than 64 sends from the highest one before
    it, the first of every packet is written to the device, in the order they arrive, and
    the rest write nothing. *)
Theorem lossy_network pr a b room p c q cq t ms xs idx old :
  keyed a b room p c q cq t → next_nonce p + Z.of_nat (length ms) < 2 ^ 64 →
  room_id b = Some room → local_node_id a ≠ local_node_id b →
  peer_node_id (info p) = local_node_id b → poisoned cq = false →
  window_exact old (window cq) → last_nonce (window cq) = next_nonce p - 1 →
  (∀ m, m ∈ ms → m.1 ∈ [IPv4; IPv6; Ethernet; Discovery] ∧
     policy_allows_packet_type m.1 Inbound m.2 b = Ok true ∧ ∀ k, tun_accepts k m.2 = true) →
  Forall2 (λ x j, (sends (local_node_id b) ms a).1 !! j = Some [arr_bytes x]) xs idx →
  orderly (-1) idx →
  Forall2 (λ j packet, snd <$> ms !! j = Some packet) (firsts [] idx)
    (receives (local_node_id a) pr xs b).1.
Proof.
  intros Hk Hn Hroom Hne Hinfo Halive Hex Hlast Hms Hxs Hord.
  destruct (keyed_stream _ _ _ _ _ _ _ _ _ Hk Hn) as [[ns Hs] H0].
  apply (receives_orderly Hs (ky_cipher_a _ _ _ _ _ _ _ _ Hk) H0 (me := local_node_id b) (b := b)
    Hne Hinfo Hms pr xs idx old [] (-1) b t cq); [|done..].
  destruct Hk as [_ _ _ _ Hq Hcq Hkey _ Ht]. split; try done.
  - rewrite (ciphers_lookup b _ q) by done. congruence.
  - unfold nonces_of. cbn [omap list_omap list_to_set]. by rewrite (right_id_L ∅ union).
  - intros n Hin. apply (proj1 Hex) in Hin as [? _]. lia.
  - intros j Hj. by apply not_elem_of_nil in Hj.
  - left. by split.
Qed.
End Network.

(** ** A run *)
Module Run.
#[local] Existing Instances list_queue toy_aead plain_etherparse Demo.no_nets Demo.free_flow
  toy_socket Demo.open_tun toy_postcard.

Definition messages : list Message := [(IPv4, [1; 2; 3]); (IPv4, [4; 5]); (IPv6, [6])].
Definition dgram (j : nat) : list Z :=
  default [] (concat (sends Demo.node_b messages Demo.at_a).1 !! j).
Definition arrives (bytes : list Z) : Arrival := mkArrival 5 Demo.relay bytes [0; 0].
(** The datagram with its last byte changed. *)
Definition forged (bytes : list Z) : list Z := take (length bytes - 1) bytes ++ [255].

Lemma demo_keyed : keyed Demo.at_a Demo.at_b Demo.the_room (Demo.peer_of Demo.node_b 2) toy_cipher
  (Demo.peer_of Demo.node_a 1) toy_cipher (mkTun Tun None None 1280 []).
Proof.
  split; try reflexivity; [apply Demo.at_a_ok|apply lookup_singleton_eq..|].
  split; vm_compute; congruence.
Qed.

Lemma hostile_network_witness :
  ∃ js, NoDup js ∧ Forall2 (λ j packet, snd <$> messages !! j = Some packet) js
    (receives Demo.node_a Release (arrives <$> [dgram 2; forged (dgram 0); dgram 0; dgram 0;
      [9; 9]; dgram 1]) Demo.at_b).1.
Proof.
  apply (hostile_network Release Demo.at_a Demo.at_b _ _ _ _ _ _ messages _ demo_keyed).
  - reflexivity.
  - unfold genuine. apply (bool_decide_unpack _). vm_compute. exact I.
Defined.

Lemma lossy_network_witness :
  Forall2 (λ j packet, snd <$> messages !! j = Some packet) [2; 0; 1]%nat
    (receives Demo.node_a Release (arrives <$> [dgram 2; dgram 0; dgram 2; dgram 0; dgram 1])
       Demo.at_b).1.
Proof.
  apply (lossy_network Release Demo.at_a Demo.at_b _ _ _ _ _ _ messages _ [2; 0; 2; 0; 1]%nat ∅
    demo_keyed); try reflexivity.
  - done.
  - apply window_exact_initial.
  - intros m. unfold messages. rewrite !elem_of_cons, elem_of_nil.
    intros [->|[->|[->|[]]]]; (split; [cbn; set_solver|by split]).
  - repeat (constructor; [vm_compute; reflexivity|]). constructor.
  - repeat (split; [reflexivity|]). exact I.
Defined.
End Run.
