(* ===== verification/Tasks.v ===== *)
(** Tasks that run side by side: an [async] function as the accesses it makes to what the
    tasks share, one step each, and a pool of such tasks under a scheduler. *)
From Stdlib Require Import ZArith Lia.
From stdpp Require Import base tactics list relations.
From S2P Require Import Prelude.

Section Tasks.
Context {S E : Type}.

(** A task is done, or waits for its next access. *)
Inductive task (B : Type) : Type :=
| Finished (r : outcome E B)
| Waits (m : S → task B * S).
#[local] Arguments Finished {B} r.
#[local] Arguments Waits {B} m.

Definition access {B} (m : M S E B) : task B := Waits (λ s, let '(r, s') := m s in (Finished r, s')).

(** [?] and [.await]: what follows runs when the first part gave a value. *)
Fixpoint tbind {B C} (t : task B) (f : B → task C) : task C :=
  match t with
  | Finished (Ok b) => f b
  | Finished (Err e) => Finished (Err e)
  | Finished Panic => Finished Panic
  | Waits m => Waits (λ s, let '(t', s') := m s in (tbind t' f, s'))
  end.

Definition tif (b : bool) (t : task unit) : task unit := if b then t else Finished (Ok tt).

(** The task with nothing beside it. *)
Fixpoint run_task {B} (t : task B) : M S E B :=
  match t with
  | Finished r => mlift r
  | Waits m => λ s, let '(t', s') := m s in run_task t' s'
  end.

(** One step of a pool: any task that is not done makes its next access. *)
Inductive pool_step {B} : list (task B) * S → list (task B) * S → Prop :=
| step_task ts s i m t' s' :
    ts !! i = Some (Waits m) → m s = (t', s') → pool_step (ts, s) (<[i := t']> ts, s').

Lemma run_access {B} (m : M S E B) s : run_task (access m) s = m s.
Proof. cbn. by destruct (m s). Qed.

Fixpoint task_ind' {B} (Q : task B → Prop) (HF : ∀ r, Q (Finished r))
    (HW : ∀ m, (∀ s, Q (m s).1) → Q (Waits m)) (t : task B) : Q t :=
  match t with
  | Finished r => HF r
  | Waits m => HW m (λ s, match m s as p return Q p.1 with
                          | (t', _) => task_ind' Q HF HW t'
                          end)
  end.

Lemma run_tbind {B C} (t : task B) (f : B → task C) s :
  run_task (tbind t f) s = mseq (run_task t) (λ b, run_task (f b)) s.
Proof.
  revert s. induction t as [[b|e|]|m IH] using task_ind'; intros s; [done..|].
  cbn. unfold mseq in *. specialize (IH s). cbn. destruct (m s) as [t' s']. by rewrite IH.
Qed.

(** In a pool, a part of a task can run without a break. *)
Lemma pool_runs {B C} (t : task B) (f : B → task C) ts i s r s' :
  ts !! i = Some (tbind t f) → run_task t s = (Ok r, s') →
  rtc pool_step (ts, s) (<[i := f r]> ts, s').
Proof.
  revert ts s. induction t as [[b|e|]|m IH] using task_ind'; intros ts s Hi Hr; cbn in *; try done.
  - injection Hr as -> ->. by rewrite list_insert_id.
  - specialize (IH s). destruct (m s) as [t' s1] eqn:Em. cbn in IH.
    eapply rtc_l; [eapply step_task; [exact Hi|cbn; rewrite Em; reflexivity]|].
    specialize (IH (<[i := tbind t' f]> ts) s1). rewrite list_insert_insert_eq in IH.
    apply IH; [|done]. apply list_lookup_insert_eq. by apply lookup_lt_Some in Hi.
Qed.

(** ... and so can a whole task. *)
Lemma pool_finishes {B} (t : task B) ts i s r s' :
  ts !! i = Some t → run_task t s = (r, s') →
  rtc pool_step (ts, s) (<[i := Finished r]> ts, s').
Proof.
  revert ts s. induction t as [r0|m IH] using task_ind'; intros ts s Hi Hr; cbn in *.
  - injection Hr as -> ->. by rewrite list_insert_id.
  - specialize (IH s). destruct (m s) as [t' s1] eqn:Em. cbn in IH.
    eapply rtc_l; [by eapply step_task|].
    specialize (IH (<[i := t']> ts) s1). rewrite list_insert_insert_eq in IH.
    apply IH; [|done]. apply list_lookup_insert_eq. by apply lookup_lt_Some in Hi.
Qed.
End Tasks.
Arguments task : clear implicits.
Arguments Finished {S E B} r.
Arguments Waits {S E B} m.
