(* ===== verification/Interleave.v ===== *)
(** Entering a room and leaving it, access by access (crates/r2n-edge-lib/src/lib.rs).

    A frame that lets the edge into a room is handled by the task that reads the socket, a
    command by the task that reads the channel, and [activate_room] and [deactivate_room] lock
    what they share anew at each access.  Here each function is the sequence of its accesses
    (Tasks.v); with nothing beside it, it is the handler of Edge.v, and beside the other one
    it can end in a state that no order of the handlers reaches. *)
From Stdlib Require Import ZArith Lia.
From stdpp Require Import base tactics numbers list gmap strings relations.
From S2P Require Import Prelude Bytes Net Text AddrText Common Proto Sorting Slab Etherparse.
From S2P Require Import Qos Crypto Noise Policy Rendezvous Discovery F32 Path Observability.
From S2P Require Import Transport Flood MacTable Dataplane Config Nat EdgeCore Edge EdgeFacts.
From S2P Require Import EdgeInv Json Ipc Tasks.
Local Open Scope Z_scope.
Local Open Scope string_scope.

Notation "'await*' x := t 'in' k" := (tbind t (λ x, k))
  (at level 200, x name, t at level 200, k at level 200) : r2n_scope.
Notation "'await_' t 'in' k" := (tbind t (λ _, k))
  (at level 200, t at level 200, k at level 200) : r2n_scope.

Section Interleave.
Context `{L : Ipv4NetLib} `{Q : ArrayQueue} `{A : AeadLib} `{P : Etherparse} `{N : IpNetLib}
  `{R : RatelimitLib} `{K : Socket} `{T : TunIo} `{PC : Postcard} `{C : InviteCrypto}
  `{X : Hex} `{W : SnowLib} `{TL : Toml (N:=N)} `{F : Fs} `{HL : HistoryLib} `{PF : Platform}
  `{RS : RuleSerde (N:=N)}.
Implicit Types e : Edge.
Abbreviation ET := (task Edge string).

(** ** Entering *)

(** What [activate_room] has found out when it begins to note the room. *)
Record Entering := mkEntering {
  en_interface : string; en_errors : list string; en_backend : BackendConfig;
  en_tun : TunDevice; en_requested : bool; en_applied : bool; en_preference_error : option string;
}.

Definition room_device_task (os : Os) (assigned_ip : VirtualIp) : ET (TunDevice * bool) :=
  await* e := access mget in
  match tun (e_dp e) with
  | Some device => Finished (Ok (device, false))
  | None =>
      await* made := access (mlift (create_tun_device_with_backend os (tun_name (settings e))
        (VirtualIp_to_string assigned_ip) 24 (tun_mtu (settings e)) (backend (settings e)))) in
      let '(device, degraded, warning) := made in
      await_ access (on_dp (set_tun (Some device))) in
      await_ access (on_runtime (set_device (device_mode_label (tun_mode device)) degraded
                                   (tun_effective_mtu device) warning)) in
      Finished (Ok (device, true))
  end.

(** Up to the routes. *)
Definition prepare_room (os : Os) (joined_room : RoomId) (assigned_ip : VirtualIp)
    (virtual_cidr : string) : ET Entering :=
  await* e := access mget in
  await_ match e_room e with
         | Some active_room =>
             if bool_decide (active_room = joined_room) then Finished (Ok tt)
             else Finished (Err ("already in room " +:+ show_room active_room
                                   +:+ ", leave it before joining or creating another room"))
         | None => Finished (Ok tt)
         end in
  await* found := room_device_task os assigned_ip in
  let '(device, created_tun) := found in
  await* interface_name := Finished (ok_or name_error (tun_if_name device)) in
  let requested := Config.prefer_virtual_interface (virtual_lan (settings e)) in
  await* preferred := access (mlift (apply_preference os requested interface_name)) in
  await* network := Finished (ok_or (net_error virtual_cidr) (net_parse virtual_cidr)) in
  await* added := access (mcatch (on_routes (add_route os network interface_name))) in
  match added with
  | Err err =>
      await_ tif created_tun (access (on_dp (set_tun None))) in
      Finished (Err err)
  | Panic => Finished Panic
  | Ok _ =>
      await* e := access mget in
      await* errors := access (on_routes (add_lan_discovery_routes os
                                 (route_cidrs (discovery (e_dp e))) interface_name)) in
      Finished (Ok (mkEntering interface_name errors (backend (settings e)) device requested
                      preferred.1 preferred.2))
  end.

(** From there on: the room, that of the dataplane, the runtime. *)
Definition note_room (joined_room : RoomId) (assigned_ip : VirtualIp) (virtual_cidr : string)
    (p : Entering) : ET unit :=
  await_ access (mmodify (put_room (Some joined_room))) in
  await_ access (on_dp (set_room_id (Some joined_room))) in
  access (on_runtime (set_active (VirtualIp_to_string assigned_ip) virtual_cidr (en_interface p)
    (en_errors p) (en_backend p) (tun_mode (en_tun p)) (tun_effective_mtu (en_tun p))
    (en_requested p) virtual_interface_preference_supported (en_applied p)
    (en_preference_error p))).

Definition activate_task (os : Os) (joined_room : RoomId) (assigned_ip : VirtualIp)
    (virtual_cidr : string) : ET unit :=
  await* p := prepare_room os joined_room assigned_ip virtual_cidr in
  note_room joined_room assigned_ip virtual_cidr p.

(** ** Leaving *)
Definition deactivate_task (os : Os) : ET unit :=
  await* e := access mget in
  await_ match rt_route_cidr (e_runtime e), rt_tun_name (e_runtime e) with
         | Some route_cidr, Some name =>
             await_ match net_parse route_cidr with
                    | Some network => access (mignore (on_routes (remove_route os network name)))
                    | None => Finished (Ok tt)
                    end in
             access (on_routes (remove_lan_discovery_routes os
                       (route_cidrs (discovery (e_dp e))) name))
         | _, _ => Finished (Ok tt)
         end in
  await_ access (mmodify (put_room None)) in
  await_ access (on_dp (set_tun None)) in
  await_ access (on_dp clear_peers) in
  await_ access (on_dp (set_room_id None)) in
  access (on_runtime set_inactive).

Definition quit_task (os : Os) (always : bool) : ET unit :=
  await* room := access (mgets (λ e, default no_room (e_room e))) in
  await_ access (mmodify (put_invite None)) in
  await* supernode := access (mgets e_supernode) in
  await_ tif (always || negb (bool_decide (room = no_room)))
           (access (mignore (send (LeaveRoom room) supernode))) in
  await_ access (mmodify (put_peers ∅)) in
  deactivate_task os.

(** ** With nothing beside it *)
Lemma run_seq {B B'} (t : ET B) (f : B → ET B') (m : EM B) (g : B → EM B') e :
  (∀ e, run_task t e = m e) → (∀ b e, run_task (f b) e = g b e) →
  run_task (tbind t f) e = mseq m g e.
Proof. intros Ht Hf. rewrite run_tbind. unfold mseq. rewrite Ht. destruct (m e) as [[]]; auto. Qed.

(** The same below what is run next. *)
Lemma run_seq_then {B B' B''} (t : ET B) (f : B → ET B') (k : B' → EM B'') (m : EM B)
    (g : B → EM B'') e :
  (∀ e, run_task t e = m e) → (∀ b e, mseq (run_task (f b)) k e = g b e) →
  mseq (run_task (tbind t f)) k e = mseq m g e.
Proof.
  intros Ht Hf. unfold mseq at 1. rewrite run_tbind. unfold mseq. rewrite Ht.
  destruct (m e) as [[b| |] e1]; [apply Hf|done|done].
Qed.

Lemma run_tif b (m : EM unit) e : run_task (tif b (access m)) e = mwhen b m e.
Proof. destruct b; [apply run_access|done]. Qed.

(** Each access of the task against the same step of the handler. *)
Ltac alone :=
  repeat first
  [ reflexivity
  | apply run_access
  | apply run_tif
  | apply run_seq; intros
  | apply run_seq_then; intros
  | match goal with
    | |- context [match ?x with _ => _ end] => destruct x
    end ].

Lemma room_device_alone os ip e : run_task (room_device_task os ip) e = room_device os ip e.
Proof. unfold room_device_task, room_device. alone. Qed.

Lemma deactivate_alone os e : run_task (deactivate_task os) e = deactivate_room os e.
Proof. unfold deactivate_task, deactivate_room. alone. Qed.

Lemma activate_alone os room ip cidr e :
  run_task (activate_task os room ip cidr) e = activate_room os room ip cidr e.
Proof.
  unfold activate_task, activate_room. rewrite run_tbind. unfold prepare_room.
  apply run_seq_then; intros; [apply run_access|].
  apply run_seq_then; intros; [alone|].
  apply run_seq_then; intros; [apply room_device_alone|]. destruct b1 as [device created].
  apply run_seq_then; intros; [alone|].
  apply run_seq_then; intros; [alone|]. destruct b2 as [applied preference_error].
  apply run_seq_then; intros; [alone|].
  apply run_seq_then; intros; [apply run_access|]. destruct b3 as [|err|]; [|alone..].
  apply run_seq_then; intros; [apply run_access|].
  apply run_seq_then; intros; [apply run_access|]. unfold note_room. alone.
Qed.

Lemma run_gets {B B'} (g : Edge → B) (f : B → ET B') e :
  run_task (tbind (access (mgets g)) f) e = run_task (f (g e)) e.
Proof. done. Qed.
Lemma run_modify {B'} g (f : unit → ET B') e :
  run_task (tbind (access (mmodify g)) f) e = run_task (f tt) (g e).
Proof. done. Qed.

Lemma quit_alone os always e : run_task (quit_task os always) e = quit_room os always e.
Proof.
  unfold quit_task, quit_room. rewrite (mseq_Ok mget _ e e e eq_refl).
  rewrite run_gets, run_modify, run_gets.
  rewrite (mseq_Ok (mmodify (put_invite None)) _ e tt _ eq_refl).
  apply run_seq; intros; [apply run_tif|].
  apply run_seq; intros; [apply run_access|apply deactivate_alone].
Qed.

(** ** Rules *)

(** A rule that is added by a connection: the policy is read and then put back whole. *)
Definition add_task (rule : TrafficRule) : ET Reaction :=
  await* policy := access (mgets policy_of) in
  if existsb (λ r, bool_decide (rule_id r = rule_id rule)) (rules policy)
  then Finished (Ok (Answer (error_json (rule_error_text (RuleExists (rule_id rule))))))
  else
    let policy := set_rules (rules policy ++ [rule])%list policy in
    await_ access (mmodify (put_policy policy)) in
    Finished (Ok (policy_answer policy)).

Lemma add_alone rule e : run_task (add_task rule) e = rule_request (rules_add rule) e.
Proof.
  unfold add_task, rule_request, rules_add, mcatch, mzoom, mseq, mget, mgets, mmodify. cbn.
  destruct (existsb _ _); [|done]. cbn. unfold mlift. f_equal.
  by destruct e as [? [] ? ? ? ? ? ? ? ? ? ? ? ? ? ? ? ? ? ?].
Qed.

(** Two connections that each add a rule, with ids of their own, are both told that theirs is
    in the policy, and one of the rules is lost. *)
Theorem rule_lost r1 r2 e :
  let known r := existsb (λ x, bool_decide (rule_id x = rule_id r)) (rules (policy_of e)) in
  known r1 = false → known r2 = false →
  let with_rule r := set_rules (rules (policy_of e) ++ [r])%list (policy_of e) in
  rtc pool_step ([add_task r1; add_task r2], e)
    ([Finished (Ok (policy_answer (with_rule r1))); Finished (Ok (policy_answer (with_rule r2)))],
     put_policy (with_rule r2) (put_policy (with_rule r1) e)).
Proof.
  intros known H1 H2 with_rule. unfold known in H1, H2.
  eapply rtc_l; [eapply (step_task _ _ 0); [reflexivity|cbn; rewrite H1; reflexivity]|].
  eapply rtc_l; [eapply (step_task _ _ 1); [reflexivity|cbn; rewrite H2; reflexivity]|].
  eapply rtc_l; [eapply (step_task _ _ 0); [reflexivity|cbn; reflexivity]|].
  eapply rtc_l; [eapply (step_task _ _ 1); [reflexivity|cbn; reflexivity]|].
  apply rtc_refl.
Qed.

(** ** Side by side *)
Definition task_done (r : outcome string unit) : ET unit := Finished r.

(** C15: in turn or at once.  Alone, the accesses of [activate_room] and those of leaving a
    room are the handlers, whatever their answer; so one after the other, in either order,
    they leave the parts of the edge in agreement: in the room with a device, or out of it.
    But they take no lock for their whole length: whenever the room can be entered, a command to
    leave that is handled between the routes and the note of the room lets both end well, and
    the edge is in the room, as its dataplane is, with no device, its route shown installed,
    the peers and the MAC table forgotten; [status] shows "Degraded" when the supernode is
    reachable, which no order of whole handlers brings. *)
Theorem leave_overtakes_join os os' room ip cidr e e1 :
  edge_inv e → activate_room os room ip cidr e = (Ok tt, e1) →
  (∀ e, run_task (activate_task os room ip cidr) e = activate_room os room ip cidr e) ∧
  (∀ always e, run_task (quit_task os' always) e = quit_room os' always e) ∧
  (∀ r r' e2 e3,
     (activate_room os room ip cidr e = (r, e2) ∧ quit_room os' true e2 = (r', e3)) ∨
     (quit_room os' true e = (r', e2) ∧ activate_room os room ip cidr e2 = (r, e3)) →
     edge_inv e3) ∧
  ∃ e2, rtc pool_step ([activate_task os room ip cidr; quit_task os' true], e)
              ([task_done (Ok tt); task_done (Ok tt)], e2) ∧
    e_room e2 = Some room ∧ room_id (e_dp e2) = Some room ∧ tun (e_dp e2) = None ∧
    rt_route_installed (e_runtime e2) = true ∧ rt_route_cidr (e_runtime e2) = Some cidr ∧
    e_peers e2 = ∅ ∧ mac_table (e_dp e2) = ∅ ∧
    status_text e2 = (if rt_supernode_reachable (e_runtime e2) then "Degraded"
                      else "Supernode Unreachable") ∧
    ¬ edge_inv e2.
Proof.
  intros He Ha.
  split; [apply activate_alone|]. split; [apply quit_alone|]. split.
  { intros r r' e2 e3 [[E1 E2]|[E1 E2]].
    - destruct (quit_run os' true e2) as (e4 & E & _). rewrite E in E2. injection E2 as <- <-.
      by eapply quit_inv.
    - destruct (quit_run os' true e) as (e4 & E & _). rewrite E in E1. injection E1 as <- <-.
      pose proof (quit_inv _ _ _ _ E) as H4.
      destruct (activate_run os room ip cidr e4 H4) as (r2 & e5 & E5 & H5 & _).
      rewrite E5 in E2. by injection E2 as <- <-. }
  pose proof (activate_alone os room ip cidr e) as Hp. rewrite Ha in Hp. unfold activate_task in Hp.
  rewrite run_tbind in Hp. unfold mseq in Hp.
  destruct (run_task (prepare_room os room ip cidr) e) as [[p| |] ea] eqn:Ep; [|done..]. clear Hp.
  destruct (quit_run os' true ea) as (eb & Eq & [L1 [L2 L3] [L4 L5] L6 _] & Lp & _).
  set (ec := (run_task (note_room room ip cidr p) eb).2).
  assert (Hn : run_task (note_room room ip cidr p) eb = (Ok tt, ec)).
  { subst ec. unfold note_room. by rewrite !run_tbind. }
  exists ec. split.
  { set (leave := quit_task os' true). set (note := note_room room ip cidr p).
    rewrite <- quit_alone in Eq.
    transitivity ([note; leave], ea); [|transitivity ([note; task_done (Ok tt)], eb)].
    - exact (pool_runs _ (note_room room ip cidr) [_; leave] 0 _ _ _ eq_refl Ep).
    - exact (pool_finishes leave [note; leave] 1 _ _ _ eq_refl Eq).
    - exact (pool_finishes note [note; task_done (Ok tt)] 0 _ _ _ eq_refl Hn). }
  assert (e_room ec = Some room ∧ tun (e_dp ec) = None) as [R1 R2] by done.
  split_and!; try done.
  - unfold status_text. rewrite R1, R2. rewrite bool_decide_eq_false_2 by (by intros []).
    by destruct (rt_supernode_reachable _).
  - intros [_ Hd _ _ _]. rewrite R1, R2 in Hd. by destruct Hd.
Qed.
End Interleave.
