(* ===== verification/Relayed.v ===== *)
(** A packet from edge to edge through the supernode: the dataplanes at both ends and the
    relay between them, composed. *)
From Stdlib Require Import ZArith Lia.
From stdpp Require Import base tactics numbers list gmap strings.
From S2P Require Import Prelude Bytes Net NetImpl Text AddrText Common Proto Slab Room Transport.
From S2P Require Import Etherparse Qos Crypto Defense Policy Discovery F32 Path Observability.
From S2P Require Import Flood MacTable Dataplane Overlay Delivery Config Supernode SupernodeFacts.
From S2P Require Import RelaySpec.
Local Open Scope Z_scope.

Section Relayed.
Context `{L : Ipv4NetLib} `{Q : ArrayQueue} `{HQ : !ArrayQueueLaws Q} `{A : AeadLib}
  `{HA : !AeadLaws A} `{P : Etherparse} `{N : IpNetLib} `{R : RatelimitLib} `{K : Socket}
  `{T : TunIo} `{PC : Postcard} `{C : InviteCrypto} `{X : Hex}.
Implicit Types (s : Supernode).

(** A frame for a known node that fits a slot is taken when a slot is free. *)
Lemma handle_data_takes n s fs h buf target :
  relay_ok n s fs → nodes s !! h_dst_node h = Some target → q_contents (free (sn_slab s)) ≠ [] →
  (frame_len h ≤ DEFAULT_FRAME_CAP)%nat → (frame_len h ≤ length buf)%nat →
  ∃ s' r, handle_data h buf s = (Ok tt, s') ∧ relays s' = relays s ++ [r] ∧ nodes s' = nodes s ∧
    sn_transport s' = sn_transport s ∧ relay_ok n s' (fs ++ [(take (frame_len h) buf, ni_addr target)]).
Proof.
  intros Hok Ht Hfree Hcap Hbuf. destruct (q_contents (free (sn_slab s))) as [|x l] eqn:Hq; [done|].
  destruct (q_pop_cons _ _ _ Hq) as (q & Hpop & _).
  assert (acquire (sn_slab s) = (Some (mkPacketDesc x 0 (Slab.headroom (sn_slab s)) 0 Slab.Bulk),
    mkPacketSlab (slots (sn_slab s)) q (Slab.headroom (sn_slab s)))) as Ha
    by (unfold acquire; by rewrite Hpop).
  destruct (acquire_held _ _ _ _ _ (ro_slab _ _ _ Hok) Ha) as [Hi _].
  destruct (held_distinct _ _ _ Hi) as [_ Hin].
  specialize (Hin _ ltac:(by left)). cbn [slot slots] in Hin.
  destruct (lookup_lt_is_Some_2 (slots (sn_slab s)) (Z.to_nat x)) as [b Hb]; [lia|].
  assert (length b = DEFAULT_FRAME_CAP) as Hlen.
  { pose proof (ro_full _ _ _ Hok) as Hf. rewrite Forall_forall in Hf. apply Hf.
    by eapply list_elem_of_lookup_2. }
  assert (∃ s', handle_data h buf s = (Ok tt, s') ∧ (∃ r, relays s' = relays s ++ [r]) ∧
    nodes s' = nodes s ∧ sn_transport s' = sn_transport s) as (s' & Hd & (r & Hr) & Hn & Htr).
  { unfold handle_data. cbv zeta. rewrite (mseq_Ok mget _ s s s eq_refl), Ht, Ha.
    rewrite (mseq_Ok (mmodify (put_slab _)) _ s tt _ eq_refl), bool_decide_eq_false_2 by lia.
    unfold mseq, mzoom, with_slot_mut, mget, mlift, mmodify. cbn [sn_slab put_slab slots slot].
    rewrite Hb, slice_Ok by lia. cbn [lift]. rewrite copy_from_slice_Ok by (rewrite ?length_take,
      ?length_drop; lia). cbn [lift]. eexists. split; [reflexivity|]. split; [by eexists|by split]. }
  exists s', r. split_and!; try done.
  destruct (relay_ok_data n h buf s s' fs Hok Hd) as [[Hsame _]|(r2 & tg & _ & _ & Ht2 & Hok')].
  - exfalso. rewrite Hr in Hsame. apply (f_equal length) in Hsame. rewrite length_app in Hsame.
    simpl in Hsame. lia.
  - by assert (tg = target) as -> by congruence.
Qed.

Lemma touch_nodes now addr s n target : nodes s !! n = Some target →
  ∃ target', nodes (touch now addr s) !! n = Some target' ∧ ni_addr target' = ni_addr target.
Proof.
  intros Hn. unfold touch. destruct (addr_to_node s !! addr) as [m|]; [|by eexists].
  cbn [nodes put_nodes]. destruct (decide (m = n)) as [->|Hne].
  - rewrite lookup_alter_eq, Hn. by eexists.
  - rewrite lookup_alter_ne by done. by eexists.
Qed.

(** What one round of the receive loop does with a datagram of a data frame. *)
Lemma receive_takes pr now draw n s fs h body slack from target :
  header_ok h → h_version h = PROTOCOL_VERSION → h_payload_len h = Z.of_nat (length body) →
  (DATA_HEADER_SIZE + length body ≤ DEFAULT_FRAME_CAP)%nat →
  relay_ok n s fs → nodes s !! h_dst_node h = Some target → q_contents (free (sn_slab s)) ≠ [] →
  let dgram := header_bytes h ++ body in
  ∃ s' r, receive pr now draw (dgram ++ slack) (length dgram) from s = (Ok tt, s') ∧
    relays s' = relays s ++ [r] ∧ sn_transport s' = sn_transport s ∧
    relay_ok n s' (fs ++ [(dgram, ni_addr target)]).
Proof.
  intros Hh Hv Hlen Hcap Hok Ht Hfree dgram. pose proof (length_header_bytes h Hh) as Hhl.
  assert (frame_len h = length dgram) as Hfl
    by (unfold frame_len, dgram; rewrite length_app, Hhl, Hlen; lia).
  destruct (touch_nodes now from s _ target Ht) as (target' & Ht' & <-).
  destruct (handle_data_takes n (touch now from s) fs h (dgram ++ slack) target')
    as (s' & r & Hd & Hr & _ & Htr & Hok'); try done.
  - eapply relay_ok_view; [apply touch_relay|done].
  - pose proof (touch_relay now from s) as E. unfold relay_view in E. injection E as -> _. done.
  - rewrite Hfl. unfold dgram. rewrite length_app, Hhl. lia.
  - rewrite Hfl, length_app. lia.
  - exists s', r. rewrite Hfl, take_app_length in Hok'. split_and!; try done.
    + assert (recv_packet (dgram ++ slack) (length dgram) from
        = Ok (PData (h, (DATA_HEADER_SIZE, (DATA_HEADER_SIZE + length body)%nat)), from)) as E.
      { unfold dgram. rewrite <- app_assoc, length_app, Hhl, recv_data by done.
        by rewrite bool_decide_eq_true_2. }
      unfold receive. rewrite E. by rewrite (mseq_Ok (mmodify (touch now from)) _ s tt _ eq_refl).
    + rewrite Hr. pose proof (touch_relay now from s) as E. unfold relay_view in E. by injection E as _ ->.
    + rewrite Htr. unfold touch. by destruct (addr_to_node s !! from).
Qed.

(** C6: a packet that is sent through the supernode comes out of the device of its receiver.
    An edge sends to a linked peer whose active path leads to a supernode.  The supernode, in
    any state it reaches with the receiver registered and fewer than 4096 frames under way,
    takes the datagram from any address and makes a task of it.  Whatever else arrives, is
    handled and is relayed before that task runs, when it runs and the socket takes the
    datagram, it sends the same bytes to the address the receiver had; and the receiver, at
    whatever address it hears from, parses them and writes exactly the packet to its device. *)
Theorem relayed_end_to_end pr a b p q room ty payload t h body k pr' tr key c s0 s fs target :
  linked pr a b p q room ty payload t →
  frame_for a p room ty payload false = Some (h, body) →
  socket_send (length (sent (transport a))) (header_bytes h ++ body) (target_of p None) = Some k →
  new_with_config tr key c = Ok s0 → rtc (relay_step pr') (s0, []) (s, fs) →
  nodes s !! local_node_id b = Some target → (length (relays s) < Z.to_nat 4096)%nat →
  ∃ a' dgram, send_to_peer (local_node_id b) ty payload None false a = (Ok tt, a') ∧
    sent (transport a') = sent (transport a) ++ [(dgram, target_of p None)] ∧
  ∀ now draw slack from, ∃ s1 r,
    receive pr' now draw (dgram ++ slack) (length dgram) from s = (Ok tt, s1) ∧
    relays s1 = relays s ++ [r] ∧ sn_transport s1 = sn_transport s ∧
  ∀ s2 f1 f2 l1 r2 l2 k2,
    rtc (relay_step pr') (s1, fs ++ [(dgram, ni_addr target)])
      (s2, f1 ++ (dgram, ni_addr target) :: f2) →
    relays s2 = l1 ++ r2 :: l2 → length l1 = length f1 →
    check_family (sn_transport s2) (ni_addr target) = true →
    socket_send (length (sent (sn_transport s2))) dgram (ni_addr target) = Some k2 →
    ∃ s3, run_relay r2 (put_relays (l1 ++ l2) s2) = (Ok tt, s3) ∧
      sent (sn_transport s3) = sent (sn_transport s2) ++ [(dgram, ni_addr target)] ∧
  ∀ now slack addr, ∃ range received b',
    recv_packet (dgram ++ slack) (length dgram) addr = Ok (PData (h, range), addr) ∧
    slice (dgram ++ slack) range.1 range.2 = Ok received ∧
    handle_incoming_frame pr now h received addr b = (Ok tt, b') ∧ tun b' = Some (written t payload).
Proof.
  intros Lk Hframe Hsock Hnew Hrun Ht Hfree.
  destruct (linked_sent _ _ _ _ _ _ _ _ _ _ _ _ Lk Hframe Hsock) as (a' & Hsend & Hsent).
  exists a', (header_bytes h ++ body). split; [exact Hsend|]. split; [exact Hsent|].
  pose proof (relay_steps_ok _ _ _ _ Hrun (fresh_relay_ok _ _ _ _ Hnew)) as Hok.
  cbn [fst snd] in Hok. destruct (linked_header_ok Lk Hframe) as [Hh Hpl].
  pose proof (linked_header Hframe) as Eh. pose proof (frame_body _ _ _ _ _ _ _ _ Hframe) as Hb.
  pose proof (lk_len _ _ _ _ _ _ _ _ _ Lk) as Hlen. rewrite max_payload in Hlen.
  intros now draw slack from.
  destruct (receive_takes pr' now draw (Z.to_nat 4096) s fs h body slack from target) as (s1 & r & Hr & Hrel & Htr & Hok1);
    try done.
  { by rewrite Eh. }
  { unfold DEFAULT_FRAME_CAP, DATA_HEADER_SIZE. lia. }
  { rewrite Eh. cbn. by rewrite (lk_id_a _ _ _ _ _ _ _ _ _ Lk). }
  { pose proof (slots_left _ _ _ Hok) as E. unfold available in E. rewrite q_len_spec in E.
    intros E0. rewrite E0 in E. simpl in E. lia. }
  exists s1, r. split; [exact Hr|]. split; [exact Hrel|]. split; [exact Htr|].
  intros s2 f1 f2 l1 r2 l2 k2 Hrun2 Hr2 Hl Hfam Hsock2.
  pose proof (relay_steps_ok _ _ _ _ Hrun2 Hok1) as Hok2. cbn [fst snd] in Hok2.
  destruct (run_relay_run _ s2 l1 r2 l2 f1 _ f2 Hok2 Hr2 Hl) as [Hsend2 _].
  eexists. split; [exact Hsend2|]. split.
  { cbn [sn_transport put_slab put_transport fst snd]. unfold send_raw, send_to, mseq, mget.
    by rewrite Hfam, Hsock2. }
  intros now2 slack2 addr. destruct (linked_received Lk Hframe slack2 addr) as [Hrecv Hslice].
  destruct (linked_written pr now2 addr _ _ _ _ _ _ _ _ _ _ Lk Hframe) as (b' & Hb' & Htun).
  exists (DATA_HEADER_SIZE, (DATA_HEADER_SIZE + length body)%nat), body, b'. by split_and!.
Qed.
End Relayed.
