(* ===== verification/InviteSpec.v ===== *)
(** The way of an invite: from the supernode that makes a room, through the edge that asked
    for it, to an edge that joins with the code, and back to the supernode. *)
From Stdlib Require Import ZArith Lia.
From stdpp Require Import base tactics numbers list gmap strings.
From S2P Require Import Prelude Bytes Net NetImpl Text AddrText AddrSpec Common Proto Sorting Slab.
From S2P Require Import Room Etherparse Qos Crypto Noise Policy Rendezvous Discovery F32 Path.
From S2P Require Import Observability Transport Flood MacTable Dataplane Config Nat EdgeCore Edge.
From S2P Require Import Json Ipc Supernode SupernodeFacts.
Local Open Scope string_scope.
Local Open Scope Z_scope.

Section Invite.
Context `{L : Ipv4NetLib} `{LL : !Ipv4NetLaws L} `{Q : ArrayQueue} `{A : AeadLib} `{P : Etherparse}
  `{N : IpNetLib} `{R : RatelimitLib} `{K : Socket} `{T : TunIo} `{PC : Postcard}
  `{C : InviteCrypto} `{CL : !InviteCryptoLaws C} `{X : Hex} `{W : SnowLib} `{TL : Toml (N:=N)}
  `{F : Fs} `{HL : HistoryLib} `{PF : Platform}.
Implicit Types (e : Edge) (s : Supernode).

(** ** The room is made *)
Definition invite_of s (id : RoomId) (tok primary cidr : string) (key : list Z) : InviteData :=
  sign (invite_signing_key s) (mkInviteData VERSION primary (config_peers (config s)) primary id key
    (Some cidr) (Some tok) None None).

Lemma create_run pr id tok name addr s n :
  sn_inv pr s → addr_to_node s !! addr = Some n →
  (Supernode.create_room pr id tok name addr s).1 = Ok tt →
  ∃ ip cidr key primary s1 room m,
    Supernode.create_room pr id tok name addr s =
      Supernode.send (RoomCreated id ip cidr (encode_invite (invite_of s id tok primary cidr key)))
        addr s1 ∧
    public_supernode_addr s = Ok primary ∧ rooms s1 !! id = Some room ∧ r_join_token room = tok ∧
    r_virtual_cidr room = cidr ∧ members room !! n = Some m ∧ virtual_ip m = ip.
Proof.
  intros H Ha Hok. unfold Supernode.create_room in Hok |- *.
  rewrite (mseq_Ok mget _ s s s eq_refl), Ha in Hok |- *.
  destruct (allocate_with_avoidance pr id (local_networks_of s n) (sn_pool s)) as [r p'] eqn:Ea.
  assert (mzoom sn_pool put_pool PoolError (allocate_with_avoidance pr id (local_networks_of s n)) s
    = (map_err PoolError r, put_pool p' s)) as E1 by (unfold mzoom; by rewrite Ea).
  destruct r as [net|e|]; cbn [map_err] in E1; [|by unfold mseq in Hok; rewrite E1 in Hok..].
  rewrite (mseq_Ok _ _ _ _ _ E1) in Hok |- *.
  set (nick := match nodes s !! n with Some i => ni_nickname i | None => "Owner" end) in *.
  set (room0 := Room_new id name n (net_to_string net) tok) in *.
  destruct (add_or_reuse_member n nick Owner room0) as [added room] eqn:Hadd.
  destruct added as [ip|e|]; [|done..].
  rewrite (mseq_Ok (mlift (map_err RoomFailed (Ok ip))) _ _ ip _ eq_refl) in Hok |- *.
  rewrite (mseq_Ok (mmodify (λ s, put_rooms (<[id:=room]> (rooms s)) s)) _ _ tt _ eq_refl)
    in Hok |- *.
  destruct (public_supernode_addr s) as [primary|e|] eqn:Hp; [|done..].
  rewrite (mseq_Ok (mlift (Ok primary)) _ _ primary _ eq_refl).
  pose proof (add_member_fields n nick Owner room0) as Hf. rewrite Hadd in Hf.
  destruct Hf as (_ & Hcidr & Htok). apply add_member_in in Hadd.
  eexists ip, _, _, primary, _, room, _. split; [reflexivity|]. split; [done|]. cbn.
  rewrite lookup_insert_eq. split_and!; [done|exact Htok|exact Hcidr|exact Hadd|done].
Qed.

(** ** The code is passed on *)
Lemma decode_normalized i supernode a :
  resolve_supernode_addr (primary_supernode_addr i) supernode = Some a →
  decode_invite (normalize_invite_code (encode_invite i) supernode)
    = Some (set_supernode_of_invite (show_addr a) i).
Proof.
  intros Ha. unfold normalize_invite_code. rewrite decode_encode_invite, Ha.
  apply decode_encode_invite.
Qed.

Lemma resolve_shown a fallback :
  addr_ok a → is_unspecified (sa_ip a) = false →
  resolve_supernode_addr (show_addr a) fallback = Some a.
Proof. intros Ha Hu. unfold resolve_supernode_addr. rewrite addr_read by done. cbn. by rewrite Hu. Qed.

Lemma primary_same i p :
  supernode_addr i = p → primary_supernode i = p → primary_supernode_addr i = p.
Proof. unfold primary_supernode_addr. intros -> ->. by destruct (is_empty p). Qed.

(** ** The room is joined *)
Definition joining (invite : string) (caller : nat) e : Edge :=
  put_invite (Some invite) (put_join (Some caller) e).

Lemma edge_join_run invite caller e i a :
  e_room e = None → e_join e = None → decode_invite invite = Some i →
  resolve_supernode_addr (primary_supernode_addr i) (e_supernode e) = Some a →
  let ask := Edge.send (JoinRoom (Common.room_id i) (token i) (remembered_name invite e)) a in
  (ask (joining invite caller e)).1 = Ok tt →
  Edge.join_room invite caller e = ask (joining invite caller e).
Proof.
  intros Hr Hj Hi Ha ask Hok. unfold Edge.join_room.
  rewrite (mseq_Ok mget _ e e e eq_refl), Hr, Hj, Hi, Ha.
  rewrite (mseq_Ok (mmodify (put_join (Some caller))) _ _ tt _ eq_refl).
  rewrite (mseq_Ok (mmodify (put_invite (Some invite))) _ _ tt _ eq_refl).
  change (put_invite (Some invite) (put_join (Some caller) e)) with (joining invite caller e).
  unfold mcatch. fold ask. unfold mseq at 1. destruct (ask _) as [[[]|err|] e'] eqn:E; try done.
Qed.

(** No address a guest could get is free in the room. *)
Definition room_full (room : Room) : Prop :=
  ∀ net, net_parse (r_virtual_cidr room) = Some net → ∀ h, preferred_host Guest ≤ h →
    net_network net + h < net_broadcast net →
    ∃ n, ip_leases room !! n = Some (vip (net_network net + h)).

Lemma add_guest room n nick :
  room_reachable room →
  match add_or_reuse_member n nick Guest room with
  | (Ok ip, room') => members room' = <[n := mkMember n ip nick Guest]> (members room)
  | (Err _, _) => room_full room
  | (Panic, _) => False
  end.
Proof.
  intros H%room_reachable_inv. unfold add_or_reuse_member, mseq.
  destruct (ip_leases room !! n) as [ip|] eqn:Hn.
  { by rewrite (allocate_ip_leased room n Guest ip). }
  pose proof (allocate_ip_fresh room n Guest H Hn) as Ha.
  destruct (allocate_ip n Guest room) as [[ip|err|] room']; [by destruct Ha as [-> _]| |done].
  destruct err; try done; destruct Ha as (_ & Ha).
  - destruct Ha as [_ Ha]. intros net Hnet. congruence.
  - destruct Ha as (net & Hp & Hf). intros net' Hp'. simplify_eq. exact Hf.
Qed.

(** The node is in the room, at an address of its own. *)
Definition admitted (room room' : Room) (n : NodeId) (ip : VirtualIp) : Prop :=
  r_virtual_cidr room' = r_virtual_cidr room ∧
  (∃ m, members room' !! n = Some m ∧ virtual_ip m = ip) ∧
  (∀ k m, members room' !! k = Some m → virtual_ip m = ip → k = n) ∧
  (∀ k, k ≠ n → members room' !! k = members room !! k).

Lemma member_alone room n m :
  room_reachable room → members room !! n = Some m →
  ∀ k m', members room !! k = Some m' → virtual_ip m' = virtual_ip m → k = n.
Proof.
  intros H%room_reachable_inv Hm k m' Hk E. destruct (inv_member room H n m Hm) as [_ H1].
  destruct (inv_member room H k m' Hk) as [_ H2]. rewrite E in H2. by apply (inv_inj room H k n _ H2).
Qed.

Lemma member_join pr id tok nm addr s n room :
  sn_inv pr s → rooms s !! id = Some room → r_join_token room = tok →
  addr_to_node s !! addr = Some n →
  room_subnet_conflicts (r_virtual_cidr room) (local_networks_of s n) = false →
  (∃ ip s1 room1, Supernode.join_room pr id (Some tok) nm addr s = announce_join id n ip addr s1 ∧
     rooms s1 !! id = Some room1 ∧ admitted room room1 n ip) ∨
  (∃ err s1, Supernode.join_room pr id (Some tok) nm addr s = (Err (RoomFailed err), s1) ∧
     room_full room).
Proof.
  intros H Hr <- Ha Hc. destruct (si_room pr s H id room Hr) as (_ & Hreach & _).
  assert (entry_or_restore pr id (Some (r_join_token room)) nm n s = (Ok room, s)) as He.
  { unfold entry_or_restore. by rewrite (mseq_Ok mget _ s s s eq_refl), Hr. }
  rewrite (join_run _ _ _ _ _ _ _ _ _ Ha He). cbn [default].
  rewrite bool_decide_eq_true_2 by done. cbn [negb]. rewrite Hc.
  pose proof (admit_run id n room s) as Hadm.
  destruct (members room !! n) as [m|] eqn:Hm.
  - left. exists (virtual_ip m), s, room. rewrite (mseq_Ok _ _ _ _ _ Hadm). split; [done|].
    split; [done|]. split_and!; [done|by exists m|by apply member_alone|done].
  - pose proof (add_guest room n (guest_name s room n) Hreach) as Hg.
    pose proof (add_member_fields n (guest_name s room n) Guest room) as Hf.
    pose proof (room_next _ _ Hreach (step_add room n (guest_name s room n) Guest)) as Hreach'.
    destruct (add_or_reuse_member n (guest_name s room n) Guest room) as [[ip|err|] room1];
      [left|right|done]; cbn [map_err snd] in *.
    + exists ip, (put_rooms (<[id:=room1]> (rooms s)) s), room1. rewrite (mseq_Ok _ _ _ _ _ Hadm).
      split; [done|]. split; [apply lookup_insert_eq|].
      assert (members room1 !! n = Some (mkMember n ip (guest_name s room n) Guest)) as Hin
        by (rewrite Hg; apply lookup_insert_eq).
      split_and!; [apply Hf|by eexists|by apply (member_alone room1 n _ Hreach' Hin)|].
      intros k Hk. by rewrite Hg, lookup_insert_ne.
    + exists err, (put_rooms (<[id:=room1]> (rooms s)) s). unfold mseq. by rewrite Hadm.
Qed.

(** C23: the code that a creator shares opens the room it is for.  When the supernode makes a
    room for a node, it sends it a code; the code this edge shares makes every edge that
    joins with it ask for this room, with its token, at the supernode as the creator reaches
    it, whatever supernode the joining edge uses itself and even when the supernode only
    knows an unspecified address of its own.  And in every state of the supernode that still
    has the room, such a request of a node whose networks do not overlap it puts the node in
    the room at an address no other member has, and announces it, unless no address is
    left. *)
Theorem invite_opens_room pr id tok name addr s n supernode :
  sn_inv pr s → addr_to_node s !! addr = Some n →
  (Supernode.create_room pr id tok name addr s).1 = Ok tt →
  ∃ ip cidr primary code s1,
    public_supernode_addr s = Ok primary ∧
    Supernode.create_room pr id tok name addr s =
      Supernode.send (RoomCreated id ip cidr code) addr s1 ∧
    (∃ room m, rooms s1 !! id = Some room ∧ r_join_token room = tok ∧ r_virtual_cidr room = cidr ∧
       members room !! n = Some m ∧ virtual_ip m = ip) ∧
    let shared := normalize_invite_code code supernode in
    (∀ a e caller, resolve_supernode_addr primary supernode = Some a → addr_ok a →
       is_unspecified (sa_ip a) = false → e_room e = None → e_join e = None →
       let ask := Edge.send (JoinRoom id (Some tok) (remembered_name shared e)) a in
       (ask (joining shared caller e)).1 = Ok tt →
       Edge.join_room shared caller e = ask (joining shared caller e)) ∧
    (∀ s2 room addr2 n2 nm, sn_inv pr s2 → rooms s2 !! id = Some room → r_join_token room = tok →
       addr_to_node s2 !! addr2 = Some n2 →
       room_subnet_conflicts (r_virtual_cidr room) (local_networks_of s2 n2) = false →
       (∃ ip2 s3 room3, Supernode.join_room pr id (Some tok) nm addr2 s2
            = announce_join id n2 ip2 addr2 s3 ∧
          rooms s3 !! id = Some room3 ∧ admitted room room3 n2 ip2) ∨
       (∃ err s3, Supernode.join_room pr id (Some tok) nm addr2 s2 = (Err (RoomFailed err), s3) ∧
          room_full room)).
Proof.
  intros H Ha Hok. destruct (create_run pr id tok name addr s n H Ha Hok)
    as (ip & cidr & key & primary & s1 & room & m & Hrun & Hp & Hr & Ht & Hc & Hm & Hip).
  exists ip, cidr, primary, (encode_invite (invite_of s id tok primary cidr key)), s1.
  split; [done|]. split; [done|]. split; [by exists room, m|]. intros shared. split.
  - intros a e caller Hres Haddr Hun He Hj ask Hsent.
    assert (decode_invite shared = Some (set_supernode_of_invite (show_addr a)
      (invite_of s id tok primary cidr key))) as Hd.
    { apply decode_normalized. by rewrite (primary_same _ primary). }
    apply (edge_join_run shared caller e _ a He Hj Hd); [|exact Hsent].
    rewrite (primary_same _ (show_addr a)) by done. by apply resolve_shown.
  - intros. by apply member_join.
Qed.

(** ** Addresses as text *)

(** An address that is passed on as text arrives as it was.  What the program prints of a
    supernode is resolved to that supernode wherever it is read, by an edge that joins and by
    the switch of the IPC server, IPv4 and IPv6 alike; only an unspecified address stands for
    the one of the reader's own supernode, with its own port unless that is zero; and a code
    whose address was resolved once stays as it is whoever resolves it again. *)
Theorem printed_supernode a fallback :
  addr_ok a →
  resolve_supernode_addr (show_addr a) fallback = Some
    (if is_unspecified (sa_ip a)
     then mkSocketAddr (sa_ip fallback) (if decide (sa_port a = 0) then sa_port fallback else sa_port a)
     else a) ∧
  switch_request (JObject [("command", JString "switch_supernode");
    ("supernode", JString (show_addr a))]) = Await (CmdSwitchSupernode a) ∧
  (is_unspecified (sa_ip a) = false → ∀ code i other,
     decode_invite code = Some i → resolve_supernode_addr (primary_supernode_addr i) other = Some a →
     let code' := normalize_invite_code code other in
     decode_invite code' = Some (set_supernode_of_invite (show_addr a) i) ∧
     normalize_invite_code code' fallback = code').
Proof.
  intros Ha. split_and!.
  - unfold resolve_supernode_addr. rewrite addr_read by done. cbn [mbind option_bind].
    destruct (is_unspecified (sa_ip a)); [|done]. case_decide; by case_bool_decide.
  - unfold switch_request. change (text_of _ "supernode" "") with (show_addr a).
    by rewrite addr_read.
  - intros Hu code i other Hd Hr code'.
    assert (code' = encode_invite (set_supernode_of_invite (show_addr a) i)) as E.
    { subst code'. unfold normalize_invite_code. by rewrite Hd, Hr. }
    rewrite E. split; [apply decode_encode_invite|]. unfold normalize_invite_code.
    rewrite decode_encode_invite, (primary_same _ (show_addr a)), resolve_shown by done. done.
Qed.
End Invite.
