(* ===== verification/Membership.v ===== *)
(** Who is in a room, as the supernode and the edges see it: what a join and a leave make the
    supernode send, and what the edges know of each other after they heard it. *)
From Stdlib Require Import ZArith Lia.
From stdpp Require Import base tactics numbers list gmap strings.
From S2P Require Import Prelude Bytes Net NetImpl Text AddrText Common Proto Sorting Slab Room.
From S2P Require Import Etherparse Qos Crypto Noise Policy Rendezvous Discovery F32 Path.
From S2P Require Import Observability Transport Flood MacTable Dataplane Config Nat EdgeCore Edge.
From S2P Require Import EdgeFacts Json Ipc Supernode SupernodeFacts InviteSpec.
Local Open Scope Z_scope.

(** ** What a handler of the supernode sends *)
Section Said.
Context `{L : Ipv4NetLib} `{Q : ArrayQueue} `{K : Socket} `{PC : Postcard} `{C : InviteCrypto}
  `{X : Hex}.
Implicit Types (s : Supernode) (t : UdpTransport).

(** The frame is among the datagrams. *)
Definition told (f : ControlFrame) (a : SocketAddr) (out : list (list Z * SocketAddr)) : Prop :=
  ∃ body, to_stdvec f = Some body ∧ (CONTROL_MAGIC ++ body, a) ∈ out.

(** When [m] succeeds it only sends, and among what it sends are the frames of [l] whose
    addresses are of the family of the socket. *)
Definition says s (m : SM unit) (l : list (ControlFrame * SocketAddr)) : Prop :=
  ∀ t s', m (put_transport t s) = (Ok tt, s') → ∃ t' out,
    s' = put_transport t' s ∧ local_addr t' = local_addr t ∧ sent t' = sent t ++ out ∧
    ∀ f a, (f, a) ∈ l → check_family t a = true → told f a out.

Lemma says_nothing s : says s (mreturn tt) [].
Proof.
  intros t s' [= <-]. exists t, []. rewrite app_nil_r. split_and!; try done.
  by intros f a ?%elem_of_nil.
Qed.

Lemma says_send s f a : says s (Supernode.send f a) [(f, a)].
Proof.
  intros t s'. unfold Supernode.send, mzoom, send_control, mseq, mget, mlift, mreturn.
  cbn [sn_transport put_transport]. destruct (check_family t a) eqn:Hf; cycle 1.
  { intros [= <-]. exists t, []. rewrite app_nil_r. split_and!; try done.
    intros f' a' [= -> ->]%list_elem_of_singleton. by rewrite Hf. }
  destruct (to_stdvec f) as [body|] eqn:Eb; cbn [ok_or]; [|done].
  unfold send_to. destruct (socket_send _ _ _); [|done]. intros [= <-].
  eexists _, [(CONTROL_MAGIC ++ body, a)]. split; [reflexivity|]. split_and!; try done.
  intros f' a' [= -> ->]%list_elem_of_singleton _. exists body. split; [done|].
  by apply list_elem_of_singleton.
Qed.

Lemma says_seq s m1 m2 l1 l2 : says s m1 l1 → says s m2 l2 →
  says s (mseq m1 (λ _, m2)) (l1 ++ l2).
Proof.
  intros H1 H2 t s'. unfold mseq.
  destruct (m1 (put_transport t s)) as [[[]| |] s1] eqn:E1; [|done..].
  destruct (H1 t s1 E1) as (t1 & o1 & -> & Hl1 & Hs1 & Ht1). intros E2.
  destruct (H2 t1 s' E2) as (t2 & o2 & -> & Hl2 & Hs2 & Ht2).
  exists t2, (o1 ++ o2). split; [done|]. split; [congruence|]. split; [by rewrite Hs2, Hs1, app_assoc|].
  intros f a [Hin|Hin]%elem_of_app Hf.
  - destruct (Ht1 f a Hin Hf) as (body & ? & ?). exists body. rewrite elem_of_app. auto.
  - assert (check_family t1 a = true) as Hf1 by (unfold check_family; by rewrite Hl1).
    destruct (Ht2 f a Hin Hf1) as (body & ? & ?). exists body. rewrite elem_of_app. auto.
Qed.

Lemma says_get s (k : Supernode → SM unit) l : (∀ t, says s (k (put_transport t s)) l) →
  says s (mseq mget k) l.
Proof. intros H t s'. exact (H t t s'). Qed.

Lemma says_each {B} s (f : B → SM unit) (l : list B) g : (∀ x, says s (f x) (g x)) →
  says s (mforeach f l) (flat_map g l).
Proof. intros Hf. induction l as [|x l IH]; [apply says_nothing|]. by apply says_seq. Qed.

(** A frame for everyone who is registered. *)
Definition addressed s (frame : ControlFrame) (m : Member) : list (ControlFrame * SocketAddr) :=
  match nodes s !! Room.node_id m with Some i => [(frame, ni_addr i)] | None => [] end.

Lemma says_member s frame m :
  says s (let* s := mget in match nodes s !! Room.node_id m with
    | Some existing => Supernode.send frame (ni_addr existing) | None => mreturn tt end) (addressed s frame m).
Proof.
  apply says_get. intros t. cbn [nodes put_transport]. unfold addressed.
  destruct (nodes s !! Room.node_id m); [apply says_send|apply says_nothing].
Qed.

Lemma says_punch s n addr peers : ∃ l, says s (punch_pairs n addr peers) l.
Proof.
  eexists. apply says_get. intros t. instantiate (1 := match nodes s !! n with
    | None => [] | Some i => flat_map _ peers end). cbn [nodes put_transport].
  destruct (nodes s !! n) as [i|]; [|apply says_nothing]. apply says_each. intros p. apply says_get.
  intros t2. cbn [nodes put_transport]. instantiate (1 := λ p, if bool_decide (peer_node_id p = n)
    then [] else match nodes s !! peer_node_id p with None => [] | Some j => _ end). cbn beta.
  case_bool_decide; [apply says_nothing|].
  destruct (nodes s !! peer_node_id p) as [j|]; [|apply says_nothing].
  apply says_seq; apply says_send.
Qed.

(** The members of a room but one. *)
Definition rest_of n (room : Room) : list Member :=
  List.filter (λ m, negb (bool_decide (Room.node_id m = n))) (values (members room)).

Lemma says_announce s id n ip addr room joined :
  rooms s !! id = Some room → members room !! n = Some joined →
  ∃ l, says s (announce_join id n ip addr) l ∧
    (PeerList (peer_info_for_member s <$> values (members room)), addr) ∈ l ∧
    ∀ m i, m ∈ rest_of n room → nodes s !! Room.node_id m = Some i →
      (PeerUpdate (peer_info_for_member s joined) ActionAdd, ni_addr i) ∈ l.
Proof.
  intros Hr Hn. set (update := PeerUpdate (peer_info_for_member s joined) ActionAdd).
  destruct (says_punch s n addr (peer_info_for_member s <$> values (members room))) as [lp Hp].
  eexists. split.
  - apply says_get. intros t. cbn [rooms put_transport]. rewrite Hr, Hn.
    change (peer_info_for_member (put_transport t s)) with (peer_info_for_member s).
    unfold mseq at 1, mlift at 1.
    apply says_seq; [apply says_send|]. apply says_seq; [apply says_send|].
    apply says_seq; [|exact Hp]. unfold tell_peers. apply says_each. apply says_member.
  - split; [right; by left|]. intros m i Hm Hi. right; right.
    apply elem_of_app; left. apply list_elem_of_In, in_flat_map. exists m.
    split; [by apply list_elem_of_In|]. unfold addressed. rewrite Hi. by left.
Qed.

Lemma says_leave s id addr n room left_member s' :
  addr_to_node s !! addr = Some n → rooms s !! id = Some room →
  members room !! n = Some left_member → leave_room id addr s = (Ok tt, s') →
  let s1 := put_rooms (<[id := remove_member n room]> (rooms s)) s in
  ∃ t' out, s' = put_transport t' s1 ∧ sent t' = sent (sn_transport s) ++ out ∧
    ∀ m i, m ∈ values (members (remove_member n room)) → nodes s !! Room.node_id m = Some i →
      check_family (sn_transport s) (ni_addr i) = true →
      told (PeerUpdate (peer_info_for_member s left_member) ActionRemove) (ni_addr i) out.
Proof.
  intros Ha Hr Hn. unfold leave_room. rewrite (mseq_Ok mget _ s s s eq_refl), Ha, Hr. cbv zeta.
  set (s1 := put_rooms _ s). match goal with |- context [mmodify ?f] =>
    rewrite (mseq_Ok (mmodify f) _ s tt s1 eq_refl) end.
  rewrite Hn. set (frame := PeerUpdate (peer_info_for_member s left_member) ActionRemove).
  match goal with |- mseq ?m _ s1 = _ → _ =>
    assert (says s1 m (flat_map (addressed s frame) (values (members (remove_member n room))))) as Hm end.
  { apply says_each. intros m. apply says_get. intros t. cbn [nodes put_transport s1 put_rooms].
    unfold addressed. destruct (nodes s !! Room.node_id m); [apply says_send|apply says_nothing]. }
  intros E. assert (∃ s2, s2 = s' ∧ mforeach (λ m', let* s := mget in
      match nodes s !! Room.node_id m' with
      | Some existing => Supernode.send (PeerUpdate (peer_info_for_member s left_member) ActionRemove)
                           (ni_addr existing)
      | None => mreturn tt
      end) (values (members (remove_member n room))) s1 = (Ok tt, s2)) as (s2 & -> & E2).
  { revert E. unfold mseq at 1. destruct (mforeach _ _ s1) as [[[]| |] s2]; [|done..].
    case_bool_decide; [done|]. intros [= <-]. by exists s2. }
  assert (put_transport (sn_transport s) s1 = s1) as E1 by (by destruct s).
  rewrite <- E1 in E2. destruct (Hm _ _ E2) as (t' & out & -> & _ & Hsent & Htold).
  exists t', out. split_and!; [done..|]. intros m i Hin Hi Hf. apply Htold; [|done].
  apply list_elem_of_In, in_flat_map. exists m. split; [by apply list_elem_of_In|].
  unfold addressed. rewrite Hi. by left.
Qed.
End Said.

(** ** What an edge knows *)
Section Known.
Context `{L : Ipv4NetLib} `{Q : ArrayQueue} `{A : AeadLib} `{P : Etherparse} `{N : IpNetLib}
  `{R : RatelimitLib} `{K : Socket} `{T : TunIo} `{PC : Postcard} `{C : InviteCrypto} `{X : Hex}
  `{W : SnowLib} `{TL : Toml (N:=N)} `{F : Fs} `{HL : HistoryLib} `{PF : Platform}.
Implicit Types (e : Edge) (infos : gmap NodeId PeerInfo).

(** The peers of the edge, which are those of its dataplane. *)
Definition knows e infos : Prop :=
  (ps_info <$> e_peers e) = infos ∧ (Dataplane.info <$> peers (e_dp e)) = infos.

Lemma edge_knows e : edge_inv e → ∃ infos, knows e infos.
Proof.
  intros H. exists (ps_info <$> e_peers e). split; [done|].
  pose proof (f_equal (fmap fst) (ei_links e H)) as E. unfold links, peer_links in E.
  by rewrite <- !map_fmap_compose in E.
Qed.

Lemma learn_run now supernode p e infos : knows e infos →
  ∃ e', learn_peer now supernode p e = (Ok tt, e') ∧ knows e' (<[peer_node_id p := p]> infos).
Proof.
  intros [H1 H2]. unfold learn_peer. rewrite (mseq_Ok mget _ e e e eq_refl).
  match goal with |- context [mmodify ?f] => rewrite (mseq_Ok (mmodify f) _ e tt (f e) eq_refl) end.
  unfold on_dp, mmodify. eexists. split; [reflexivity|]. unfold knows. cbn. split.
  - rewrite fmap_insert, H1. f_equal. by destruct (e_peers e !! peer_node_id p).
  - unfold upsert_peer. cbn. destruct (peers (e_dp e) !! peer_node_id p); cbn;
      by rewrite fmap_insert, H2.
Qed.

Lemma forget_run id e infos : knows e infos →
  ∃ e', forget_peer id e = (Ok tt, e') ∧ knows e' (delete id infos).
Proof.
  intros [H1 H2]. unfold forget_peer, on_dp, mseq, mmodify. eexists. split; [reflexivity|].
  unfold knows. cbn. by rewrite !fmap_delete, H1, H2.
Qed.

(** A loop over steps that change what is known. *)
Lemma each_run {B} (f : B → EM unit) (g : gmap NodeId PeerInfo → B → gmap NodeId PeerInfo) l e infos :
  (∀ x e infos, knows e infos → ∃ e', f x e = (Ok tt, e') ∧ knows e' (g infos x)) → knows e infos →
  ∃ e', mforeach f l e = (Ok tt, e') ∧ knows e' (fold_left g l infos).
Proof.
  intros Hf. revert e infos. induction l as [|x l IH]; intros e infos H; [by exists e|].
  destruct (Hf x e infos H) as (e1 & E1 & H1). destruct (IH e1 _ H1) as (e2 & E2 & H2).
  exists e2. split; [|exact H2]. cbn [mforeach]. by rewrite (mseq_Ok _ _ _ _ _ E1).
Qed.

Definition named (l : list PeerInfo) : gmap NodeId PeerInfo :=
  list_to_map ((λ p, (peer_node_id p, p)) <$> l).

Lemma fold_learned l infos : NoDup (peer_node_id <$> l) →
  fold_left (λ i p, <[peer_node_id p := p]> i) l infos = named l ∪ infos.
Proof.
  revert infos. induction l as [|p l IH]; intros infos; cbn; [by rewrite map_empty_union|].
  intros [Hp Hl]%NoDup_cons. rewrite IH by done. unfold named. cbn.
  rewrite <- insert_union_l, <- insert_union_r; [done|].
  apply not_elem_of_list_to_map_1. by rewrite <- list_fmap_compose.
Qed.

Lemma fold_forgotten (ids : list NodeId) infos id :
  fold_left (λ i k, delete k i) ids infos !! id = if decide (id ∈ ids) then None else infos !! id.
Proof.
  revert infos. induction ids as [|k ids IH]; intros infos; cbn [fold_left]; [done|]. rewrite IH.
  destruct (decide (id = k)) as [->|Hne].
  - rewrite lookup_delete_eq. destruct (decide (k ∈ k :: ids)) as [|Hk]; [by destruct (decide _)|].
    destruct Hk. by left.
  - rewrite lookup_delete_ne by done. repeat case_decide; set_solver.
Qed.

(** A list of peers is what is known afterwards, whatever was known. *)
Lemma listed_run now supernode l e infos :
  let others := List.filter (λ p, negb (bool_decide (peer_node_id p = node_id (settings e)))) l in
  NoDup (peer_node_id <$> others) → knows e infos →
  ∃ e', peer_list now supernode l e = (Ok tt, e') ∧ knows e' (named others).
Proof.
  intros others Hnd H. unfold peer_list. rewrite (mseq_Ok mget _ e e e eq_refl). fold others.
  destruct (each_run (learn_peer now supernode) (λ i p, <[peer_node_id p := p]> i) others e infos)
    as (e1 & E1 & H1); [intros; by apply learn_run|done|].
  rewrite (mseq_Ok _ _ _ _ _ E1), (mseq_Ok mget _ e1 e1 e1 eq_refl). cbv zeta.
  set (gone := List.filter _ _).
  destruct (each_run forget_peer (λ i k, delete k i) gone e1 _ ltac:(intros; by apply forget_run) H1)
    as (e2 & E2 & H2).
  exists e2. split; [exact E2|]. rewrite fold_learned in H1, H2 by done.
  enough (fold_left (λ i k, delete k i) gone (named others ∪ infos) = named others) as <- by exact H2.
  apply map_eq. intros id. rewrite fold_forgotten.
  assert (id ∈ peer_node_id <$> others ↔ is_Some (named others !! id)) as Hin.
  { unfold named. rewrite <- elem_of_dom, dom_list_to_map. rewrite elem_of_list_to_set.
    by rewrite <- list_fmap_compose. }
  assert (id ∈ gone ↔ is_Some (e_peers e1 !! id) ∧ id ∉ peer_node_id <$> others) as Hgone.
  { unfold gone. rewrite list_elem_of_In, filter_In, <- list_elem_of_In, negb_true_iff,
      bool_decide_eq_false. f_equiv. rewrite list_elem_of_fmap. split.
    - intros ([k st] & -> & Hk%elem_of_map_to_list). by exists st.
    - intros [st Hst]. exists (id, st). split; [done|]. by apply elem_of_map_to_list. }
  assert (is_Some (e_peers e1 !! id) ↔ is_Some ((named others ∪ infos) !! id)) as Hsame
    by (rewrite <- (proj1 H1), lookup_fmap; by rewrite fmap_is_Some).
  destruct (named others !! id) as [p|] eqn:Ep.
  - rewrite decide_False by (rewrite Hgone, Hin; intros [_ []]; by eexists).
    by apply lookup_union_Some_l.
  - case_decide as Hd; [done|]. rewrite lookup_union_r in * by done.
    destruct (infos !! id) eqn:Ei; [|done]. destruct Hd. apply Hgone. split.
    + apply Hsame. by eexists.
    + rewrite Hin. by intros [].
Qed.

Lemma seen_run now addr e : ∃ e1, supernode_seen now addr e = (Ok tt, e1) ∧
  settings e1 = settings e ∧ ∀ infos, knows e infos → knows e1 infos.
Proof.
  unfold supernode_seen. rewrite (mseq_Ok mget _ e e e eq_refl). unfold mwhen.
  case_bool_decide; eexists; (split; [reflexivity|]); (split; [done|]); by intros infos [].
Qed.

(** ** A room, and the edges of its members *)
Section Rooms.
Context `{LL : !Ipv4NetLaws L} `{!PostcardLaws PC}.
Implicit Types (s : Supernode).

(** The others in the room, as the supernode would introduce them. *)
Definition others s (room : Room) (n : NodeId) : gmap NodeId PeerInfo :=
  peer_info_for_member s <$> delete n (members room).

Lemma members_ids room : room_inv room →
  (Room.node_id <$> values (members room)) = (map_to_list (members room)).*1.
Proof.
  intros H. unfold values. rewrite <- list_fmap_compose. apply list_fmap_ext.
  intros i [k m] Hi%list_elem_of_lookup_2%elem_of_map_to_list. by destruct (inv_member room H k m Hi).
Qed.

Lemma named_members s n room : room_inv room →
  let listed := List.filter (λ p, negb (bool_decide (peer_node_id p = n)))
                  (peer_info_for_member s <$> values (members room)) in
  NoDup (peer_node_id <$> listed) ∧ named listed = others s room n.
Proof.
  intros H listed. assert (NoDup (peer_node_id <$> listed)) as Hnd.
  { apply (sublist_NoDup _ (peer_node_id <$> (peer_info_for_member s <$> values (members room))));
      [|by apply (fmap_sublist peer_node_id), filter_sublist]. rewrite <- list_fmap_compose.
    change (peer_node_id ∘ peer_info_for_member s) with Room.node_id.
    rewrite members_ids by done. apply NoDup_fst_map_to_list. }
  split; [done|]. apply map_eq. intros k. apply option_eq. intros p. unfold named, others.
  rewrite <- elem_of_list_to_map by (by rewrite <- list_fmap_compose).
  rewrite list_elem_of_fmap, lookup_fmap, fmap_Some. split.
  - intros (p' & [= -> <-] & Hp). unfold listed in Hp.
    rewrite list_elem_of_In, filter_In, <- list_elem_of_In, negb_true_iff, bool_decide_eq_false in Hp.
    destruct Hp as [(m & -> & [k Hk]%elem_values)%list_elem_of_fmap Hne]. exists m. split; [|done].
    destruct (inv_member room H k m Hk) as [Hid _]. cbn in *. rewrite Hid in *.
    by rewrite lookup_delete_ne.
  - intros (m & [Hne Hm]%lookup_delete_Some & ->). destruct (inv_member room H k m Hm) as [Hid _].
    exists (peer_info_for_member s m). split; [by cbn; rewrite Hid|]. unfold listed.
    rewrite list_elem_of_In, filter_In, <- list_elem_of_In, negb_true_iff, bool_decide_eq_false.
    cbn. split; [|congruence]. apply list_elem_of_fmap_2, elem_values. by exists k.
Qed.

(** From [s] to [s'] the supernode sent a datagram to [a] that takes every edge with [before]
    to one with [after]. *)
Definition heard s s' (a : SocketAddr) (before after : Edge → Prop) : Prop :=
  ∃ out dgram, sent (sn_transport s') = sent (sn_transport s) ++ out ∧ (dgram, a) ∈ out ∧
  ∀ pr os now draw slack from e, before e → ∃ e',
    udp_round pr os now draw (dgram ++ slack) (length dgram) from e = (Ok tt, e') ∧ after e'.

Lemma heard_frame s s' out f a (before after : Edge → Prop) :
  sent (sn_transport s') = sent (sn_transport s) ++ out → told f a out →
  (∀ pr os now draw supernode from e1, (∃ e, before e ∧ settings e1 = settings e ∧
     ∀ infos, knows e infos → knows e1 infos) → ∃ e',
     Edge.handle_control pr os now draw supernode f from e1 = (Ok tt, e') ∧ after e') →
  heard s s' a before after.
Proof.
  intros Hs (body & Ef & Hin) Hf. exists out, (CONTROL_MAGIC ++ body). split; [done|]. split; [done|].
  intros pr os now draw slack from e He. unfold udp_round. rewrite (recv_control f body slack from Ef).
  destruct (seen_run now from e) as (e1 & E1 & H1 & H2).
  rewrite (mseq_Ok mget _ e e e eq_refl), (mseq_Ok _ _ _ _ _ E1).
  apply Hf. exists e. by split_and!.
Qed.

(** The three frames that say who is there. *)
Lemma list_heard s s' s0 room n a :
  room_inv room → (∃ out, sent (sn_transport s') = sent (sn_transport s) ++ out ∧
    told (PeerList (peer_info_for_member s0 <$> values (members room))) a out) →
  heard s s' a (λ e, edge_inv e ∧ node_id (settings e) = n) (λ e', knows e' (others s0 room n)).
Proof.
  intros Hroom (out & Hs & Ht). apply (heard_frame _ _ _ _ _ _ _ Hs Ht).
  intros pr os now draw supernode from e1 (e & [He Hn] & Hset & Hk).
  destruct (edge_knows e He) as [infos Hi]. apply Hk in Hi. cbn [Edge.handle_control].
  rewrite <- Hset in Hn. destruct (named_members s0 n room Hroom) as [Hnd Hnamed].
  rewrite <- Hnamed. rewrite <- Hn in *. by apply (listed_run now supernode _ e1 infos).
Qed.

Lemma add_heard s s' a p m infos : peer_node_id p ≠ m →
  (∃ out, sent (sn_transport s') = sent (sn_transport s) ++ out ∧ told (PeerUpdate p ActionAdd) a out) →
  heard s s' a (λ e, node_id (settings e) = m ∧ knows e infos)
    (λ e', knows e' (<[peer_node_id p := p]> infos)).
Proof.
  intros Hne (out & Hs & Ht). apply (heard_frame _ _ _ _ _ _ _ Hs Ht).
  intros pr os now draw supernode from e1 (e & [Hn Hi] & Hset & Hk). apply Hk in Hi.
  cbn [Edge.handle_control]. rewrite (mseq_Ok mget _ e1 e1 e1 eq_refl).
  rewrite bool_decide_eq_false_2 by congruence. by apply learn_run.
Qed.

Lemma remove_heard s s' a p infos :
  (∃ out, sent (sn_transport s') = sent (sn_transport s) ++ out ∧ told (PeerUpdate p ActionRemove) a out) →
  heard s s' a (λ e, knows e infos) (λ e', knows e' (delete (peer_node_id p) infos)).
Proof.
  intros (out & Hs & Ht). apply (heard_frame _ _ _ _ _ _ _ Hs Ht).
  intros pr os now draw supernode from e1 (e & Hi & _ & Hk). apply forget_run. by apply Hk.
Qed.

(** A room with a new member, as the others see it. *)
Lemma others_join s room n joined m :
  members room !! n = None → m ≠ n → Room.node_id joined = n → ∀ room',
  members room' = <[n := joined]> (members room) →
  others s room' m = <[n := peer_info_for_member s joined]> (others s room m).
Proof.
  intros Hn Hne Hid room' E. unfold others. rewrite E, delete_insert_ne by done.
  by rewrite fmap_insert.
Qed.

Lemma others_leave s room n m :
  others s (remove_member n room) m = delete n (others s room m).
Proof. unfold others. cbn. by rewrite delete_delete, fmap_delete. Qed.

(** A join that succeeds and puts the node in the room is one that is announced. *)
Lemma join_announced pr id token name addr n s s' room' joined :
  sn_inv pr s → addr_to_node s !! addr = Some n →
  (∀ room, rooms s !! id = Some room → members room !! n = None) →
  Supernode.join_room pr id token name addr s = (Ok tt, s') →
  rooms s' !! id = Some room' → members room' !! n = Some joined →
  ∃ room ip s2, (rooms s !! id = Some room ∨ rooms s !! id = None ∧ members room = ∅) ∧
    members room' = <[n := joined]> (members room) ∧ Room.node_id joined = n ∧ room_inv room' ∧
    rooms s2 !! id = Some room' ∧ nodes s2 = nodes s ∧ sn_transport s2 = sn_transport s ∧
    announce_join id n ip addr s2 = (Ok tt, s') ∧ nodes s' = nodes s.
Proof.
  intros H Ha Hnot Hjoin Hr' Hm'. destruct (entry_run pr id token name n s H) as (room & s1 & He & Hent).
  destruct (entered_inv _ _ _ _ _ _ _ _ H Hent) as (H1 & Hr1 & Hn1 & _).
  assert (sn_transport s1 = sn_transport s ∧ members room !! n = None ∧
    (rooms s !! id = Some room ∨ rooms s !! id = None ∧ members room = ∅)) as (Ht1 & Hno & Hwas).
  { destruct Hent as [[Hr ->]|[Hr E]]; [by split_and!; [|apply Hnot|left]|].
    destruct (allocate _ _ _) as [r p']. destruct E as [-> ->]. split_and!; auto. }
  rewrite (join_run _ _ _ _ _ _ _ _ _ Ha He) in Hjoin.
  assert (∀ f, Supernode.send f addr s1 ≠ (Ok tt, s')) as Hrej.
  { intros f E. rewrite <- (put_transport_same s1) in E.
    destruct (says_send s1 f addr _ _ E) as (t' & out & -> & _). cbn in Hr'. congruence. }
  destruct (negb _); [by apply Hrej in Hjoin|].
  destruct (room_subnet_conflicts _ _); [by apply Hrej in Hjoin|]. clear Hrej.
  destruct (si_room pr s1 H1 id room Hr1) as (_ & Hreach & _).
  pose proof (admit_run id n room s1) as Hadm. rewrite Hno in Hadm.
  pose proof (add_guest room n (guest_name s1 room n) Hreach) as Hg.
  pose proof (room_next _ _ Hreach (step_add room n (guest_name s1 room n) Guest)) as Hreach2.
  destruct (add_or_reuse_member n (guest_name s1 room n) Guest room) as [[ip|err|] room2]; [| |done].
  2: { unfold mseq in Hjoin. by rewrite Hadm in Hjoin. }
  rewrite (mseq_Ok _ _ _ _ _ Hadm) in Hjoin. set (s2 := put_rooms (<[id := room2]> (rooms s1)) s1) in *.
  assert (∃ t', s' = put_transport t' s2) as [t' ->].
  { destruct (announce_run id n ip addr s2 room2 _ (lookup_insert_eq _ _ _)
      ltac:(rewrite Hg; apply lookup_insert_eq)) as (r & t' & E & _). exists t'. congruence. }
  assert (room' = room2) as -> by (cbn in Hr'; rewrite lookup_insert_eq in Hr'; congruence).
  assert (joined = mkMember n ip (guest_name s1 room n) Guest) as ->
    by (rewrite Hg, lookup_insert_eq in Hm'; congruence).
  exists room, ip, s2. split_and!; try done. by apply room_reachable_inv.
Qed.

Lemma others_nodes s s' room m : nodes s' = nodes s → others s' room m = others s room m.
Proof. intros E. unfold others, peer_info_for_member. by rewrite E. Qed.

Lemma join_heard pr id token name addr n s s' room' joined :
  sn_inv pr s → addr_to_node s !! addr = Some n →
  (∀ room, rooms s !! id = Some room → members room !! n = None) →
  Supernode.join_room pr id token name addr s = (Ok tt, s') →
  rooms s' !! id = Some room' → members room' !! n = Some joined →
  check_family (sn_transport s) addr = true →
  heard s s' addr (λ e, edge_inv e ∧ node_id (settings e) = n) (λ e', knows e' (others s' room' n)) ∧
  ∀ room m i, rooms s !! id = Some room → is_Some (members room !! m) → nodes s !! m = Some i →
    check_family (sn_transport s) (ni_addr i) = true →
    heard s s' (ni_addr i) (λ e, node_id (settings e) = m ∧ knows e (others s room m))
      (λ e', knows e' (others s' room' m)).
Proof.
  intros H Ha Hnot Hjoin Hr' Hm' Hfam.
  destruct (join_announced pr id token name addr n s s' room' joined)
    as (room & ip & s2 & Hwas & Hins & Hid & Hinv & Hr2 & Hn2 & Ht2 & Hann & Hn'); try done.
  destruct (says_announce s2 id n ip addr room' joined Hr2 Hm') as (l & Hsays & Hlist & Hupd).
  rewrite <- (put_transport_same s2) in Hann. destruct (Hsays _ _ Hann) as (t' & out & E & _ & Hs & Htold).
  rewrite Ht2 in Hs, Htold.
  assert (sent (sn_transport s') = sent (sn_transport s) ++ out) as Hsent by (by rewrite E).
  assert (peer_info_for_member s2 = peer_info_for_member s') as Einfo
    by (rewrite E; reflexivity).
  split.
  - apply (list_heard s s' s' room' n addr Hinv). exists out. split; [exact Hsent|]. rewrite <- Einfo.
    by apply Htold.
  - intros room0 m i Hr0 [m0 Hm0] Hi Hf.
    assert (room0 = room) as -> by (destruct Hwas as [|[? _]]; congruence).
    assert (m ≠ n) as Hne by (intros ->; rewrite (Hnot room Hr0) in Hm0; done).
    rewrite (others_join s' room n joined m (Hnot room Hr0) Hne Hid room' Hins).
    rewrite (others_nodes s s' room m Hn').
    replace (<[n := peer_info_for_member s' joined]> (others s room m))
      with (<[peer_node_id (peer_info_for_member s' joined) := peer_info_for_member s' joined]>
              (others s room m)) by (cbn; by rewrite Hid).
    apply (add_heard s s' (ni_addr i) (peer_info_for_member s' joined) m); [by cbn; rewrite Hid|].
    exists out. split; [exact Hsent|]. rewrite <- Einfo. apply Htold; [|exact Hf].
    assert (members room' !! m = Some m0) as Hm by (by rewrite Hins, lookup_insert_ne).
    destruct (inv_member room' Hinv m m0 Hm) as [Hmid _].
    apply (Hupd m0 i); [|by rewrite Hmid, Hn2]. unfold rest_of.
    rewrite list_elem_of_In, filter_In, <- list_elem_of_In, negb_true_iff, bool_decide_eq_false, Hmid.
    split; [apply elem_values; by exists m|done].
Qed.

Lemma leave_heard pr id addr n s s' room left_member m i :
  sn_inv pr s → addr_to_node s !! addr = Some n → rooms s !! id = Some room →
  members room !! n = Some left_member → leave_room id addr s = (Ok tt, s') →
  m ≠ n → is_Some (members room !! m) → nodes s !! m = Some i →
  check_family (sn_transport s) (ni_addr i) = true →
  heard s s' (ni_addr i) (λ e, knows e (others s room m))
    (λ e', knows e' (others s' (remove_member n room) m)).
Proof.
  intros H Ha Hr Hn Hleave Hne [m0 Hm0] Hi Hf.
  destruct (si_room pr s H id room Hr) as (_ & Hreach & _). apply room_reachable_inv in Hreach as Hinv.
  destruct (inv_member room Hinv n _ Hn) as [Hid _]. destruct (inv_member room Hinv m m0 Hm0) as [Hmid _].
  destruct (says_leave s id addr n room left_member s' Ha Hr Hn Hleave) as (t' & out & E & Hs & Htold).
  rewrite others_leave, (others_nodes s s') by (by rewrite E).
  replace (delete n (others s room m)) with (delete (peer_node_id (peer_info_for_member s left_member))
    (others s room m)) by (cbn; by rewrite Hid).
  apply (remove_heard s s' (ni_addr i) (peer_info_for_member s left_member)).
  exists out. split; [by rewrite E|]. apply (Htold m0 i); [|by rewrite Hmid|exact Hf].
  apply elem_values. exists m. cbn. by rewrite lookup_delete_ne.
Qed.

(** C10: the edges of a room agree with the supernode on who is in it.  When a join puts a node
    into a room, the supernode sends its edge a datagram after which it knows exactly the
    other members with their addresses, whatever it knew before; and it sends the edge of
    every other member one that takes what it should know before the join to what it should
    know after it.  When a member leaves and others stay, the edge of each of them is sent
    one that does the same.  What an edge knows is also what its dataplane sends to. *)
Theorem members_agree pr s :
  sn_inv pr s →
  (∀ id token name addr n s' room' joined,
     addr_to_node s !! addr = Some n →
     (∀ room, rooms s !! id = Some room → members room !! n = None) →
     Supernode.join_room pr id token name addr s = (Ok tt, s') →
     rooms s' !! id = Some room' → members room' !! n = Some joined →
     check_family (sn_transport s) addr = true →
     heard s s' addr (λ e, edge_inv e ∧ node_id (settings e) = n)
       (λ e', knows e' (others s' room' n)) ∧
     ∀ room m i, rooms s !! id = Some room → is_Some (members room !! m) → nodes s !! m = Some i →
       check_family (sn_transport s) (ni_addr i) = true →
       heard s s' (ni_addr i) (λ e, node_id (settings e) = m ∧ knows e (others s room m))
         (λ e', knows e' (others s' room' m))) ∧
  (∀ id addr n s' room left_member m i,
     addr_to_node s !! addr = Some n → rooms s !! id = Some room →
     members room !! n = Some left_member → leave_room id addr s = (Ok tt, s') →
     m ≠ n → is_Some (members room !! m) → nodes s !! m = Some i →
     check_family (sn_transport s) (ni_addr i) = true →
     heard s s' (ni_addr i) (λ e, knows e (others s room m))
       (λ e', knows e' (others s' (remove_member n room) m))).
Proof.
  intros H. split.
  - intros id token name addr n s' room' joined. by apply join_heard.
  - intros id addr n s' room left_member m i. by apply (leave_heard pr).
Qed.
End Rooms.
End Known.
