(* ===== verification/SupernodeDemo.v ===== *)
(** A supernode with one node and one room. *)
From Stdlib Require Import ZArith Lia.
From stdpp Require Import base tactics numbers list gmap strings.
From S2P Require Import Prelude Bytes Net NetImpl Text AddrText Common Proto Slab Room Transport.
From S2P Require Import Etherparse Policy Discovery Config Supernode SupernodeFacts.
From S2P Require Import SupernodeSpec RelaySpec.
Local Open Scope Z_scope.
Local Open Scope string_scope.

Definition demo_id : NodeId := mkNodeId (replicate 32 9).
Definition demo_room_id : RoomId := mkRoomId (replicate 16 4).
Definition demo_register : ControlFrame :=
  RegisterNode demo_id Cone None (replicate 32 1) [] "nick" [].
Definition demo_join : ControlFrame := JoinRoom demo_room_id (Some "token") None.

(** Two frames are enough here. *)
Definition two_frames : Postcard := {|
  Transport.to_stdvec f := Some [0];
  Transport.from_bytes l := match l with
    | [1] => Some demo_register | [2] => Some demo_join | _ => None end |}.

#[local] Existing Instances cidr_lib list_queue toy_socket two_frames toy_crypto plain_hex.

Definition demo_addr : SocketAddr := mkSocketAddr (V4 (ipv4 10 1 1 1)) 5000.
Definition demo_transport : UdpTransport := mkTransport (Some (mkSocketAddr (V4 0) 7777)) [].
Definition demo_key : SigningKey (InviteCrypto:=toy_crypto) := 3.
Definition demo_config : SupernodeConfig := SupernodeConfig_default "secret".
Definition demo_pool : RoomAddressPool :=
  match RoomAddressPool_new default_address_pool default_room_prefix_len with
  | Ok p => p | _ => mkPool net_10_0_0_0_24 24 ∅ end.
Definition demo_base (sl : PacketSlab) : Supernode :=
  mkSupernode demo_transport ∅ ∅ ∅ demo_key sl demo_config demo_pool [].

Lemma demo_pool_ok :
  RoomAddressPool_new default_address_pool default_room_prefix_len = Ok demo_pool.
Proof.
  assert (is_ok (RoomAddressPool_new default_address_pool default_room_prefix_len) = true) as H
    by (vm_compute; reflexivity).
  unfold demo_pool. by destruct (RoomAddressPool_new _ _).
Qed.

Lemma demo_new :
  ∃ sl, new_with_config demo_transport demo_key demo_config = Ok (demo_base sl).
Proof.
  unfold new_with_config, default_pool.
  destruct (new_spec DEFAULT_FRAME_CAP (Z.to_nat 4096) DEFAULT_HEADROOM) as (sl & Hsl & _); [lia..|].
  rewrite Hsl. exists sl. cbn [lift mbind outcome_bind].
  change (Config.address_pool demo_config) with default_address_pool.
  change (Config.room_prefix_len demo_config) with default_room_prefix_len.
  by rewrite demo_pool_ok.
Qed.

(** The datagrams of the registration and of the join. *)
Definition register_dgram : list Z := [82; 50; 78; 67; 1].
Definition join_dgram : list Z := [82; 50; 78; 67; 2].
Definition after (dgram : list Z) (s : Supernode) : outcome SupernodeError unit * Supernode :=
  receive Release 1 (demo_room_id, "drawn") dgram 5 demo_addr s.
Definition demo_state (sl : PacketSlab) : Supernode :=
  (after join_dgram (after register_dgram (demo_base sl)).2).2.

Lemma after_Ok dgram s : is_ok (after dgram s).1 = true → after dgram s = (Ok tt, (after dgram s).2).
Proof. by destruct (after dgram s) as [[[]| |] ?]. Qed.

(** The management interface listens where the default configuration says. *)
Definition demo_api : option (SocketAddr * ManagementState) :=
  Some (mkSocketAddr (V4 (ipv4 127 0 0 1)) 7778, mkManagement ∅ ∅ [] "default" "secret").
Definition demo_served (sl : PacketSlab) : Server := serving (demo_base sl) demo_api.
Definition demo_server (sl : PacketSlab) : Server := set_live (demo_state sl) (demo_served sl).

Lemma demo_start_ok sl : start (demo_base sl) = Ok (demo_served sl).
Proof.
  unfold start, spawn_management_api.
  assert (trim (management_bind (config (demo_base sl))) = "127.0.0.1:7778") as ->
    by (vm_compute; reflexivity).
  rewrite bool_decide_eq_false_2 by done.
  assert (parse_socket_addr "127.0.0.1:7778" = Some (mkSocketAddr (V4 (ipv4 127 0 0 1)) 7778)) as ->
    by (vm_compute; reflexivity).
  reflexivity.
Qed.

Lemma demo_reachable sl :
  new_with_config demo_transport demo_key demo_config = Ok (demo_base sl) →
  server_reachable Release (demo_server sl).
Proof.
  intros Hnew. exists (demo_served sl). split.
  { exists demo_transport, demo_key, demo_config, (demo_base sl).
    split; [change (u_ok 8 24); unfold u_ok; lia|]. split; [exact Hnew|apply demo_start_ok]. }
  set (srv := set_live (after register_dgram (demo_base sl)).2 (demo_served sl)).
  apply (rtc_l _ _ srv); [|apply rtc_once].
  - apply (step_receive Release (demo_served sl) 1 (demo_room_id, "drawn") register_dgram 5
      demo_addr). apply after_Ok. vm_compute. reflexivity.
  - apply (step_receive Release srv 1 (demo_room_id, "drawn") join_dgram 5 demo_addr).
    apply after_Ok. vm_compute. reflexivity.
Qed.

Lemma demo_member sl :
  ∃ room m, rooms (demo_state sl) !! demo_room_id = Some room ∧ members room !! demo_id = Some m ∧
    r_virtual_cidr room = "192.168.200.0/24" ∧ virtual_ip m = mkVirtualIp [192; 168; 200; 2].
Proof.
  assert (match rooms (demo_state sl) !! demo_room_id with
          | Some room => match members room !! demo_id with
             | Some m => bool_decide (r_virtual_cidr room = "192.168.200.0/24")
                         && bool_decide (virtual_ip m = mkVirtualIp [192; 168; 200; 2])
             | None => false end
          | None => false end = true) as H by (vm_compute; reflexivity).
  destruct (rooms (demo_state sl) !! demo_room_id) as [room|] eqn:Hr; [|done].
  destruct (members room !! demo_id) as [m|] eqn:Hm; [|done].
  apply andb_true_iff in H as [H1%bool_decide_eq_true H2%bool_decide_eq_true]. eauto 10.
Qed.

Lemma rooms_isolated_witness :
  ∃ srv room m, server_reachable Release srv ∧ rooms (live srv) !! demo_room_id = Some room ∧
    members room !! demo_id = Some m ∧
    ∃ net a, net_parse (r_virtual_cidr room) = Some net ∧ virtual_ip m = vip a ∧
      net_network net < a < net_broadcast net.
Proof.
  destruct demo_new as [sl Hnew]. pose proof (demo_reachable sl Hnew) as Hr.
  destruct (demo_member sl) as (room & m & H1 & H2 & _).
  exists (demo_server sl), room, m.
  split; [exact Hr|]. split; [exact H1|]. split; [exact H2|].
  destruct (proj1 (rooms_isolated Release _ Hr) demo_room_id room H1) as (_ & _ & Hm & _).
  exact (proj2 (Hm demo_id m H2)).
Defined.

(** A registered node, a request with the token and one with another. *)
Lemma copies_are_stale_witness :
  ∃ srv a m, server_reachable Release srv ∧ is_Some (nodes (live srv) !! demo_id) ∧
    (∀ now t, reap now (reaper srv) t = (Ok (reaper srv), t)) ∧
    management srv = Some (a, m) ∧
    management_stats (mkHeaders None (Some "secret")) m = Ok (0, 0, 0)%nat ∧
    management_stats (mkHeaders (Some "Bearer guess") None) m = Err UNAUTHORIZED.
Proof.
  destruct demo_new as [sl Hnew]. pose proof (demo_reachable sl Hnew) as Hr.
  exists (demo_server sl), (mkSocketAddr (V4 (ipv4 127 0 0 1)) 7778),
    (mkManagement ∅ ∅ [] "default" "secret").
  split; [exact Hr|]. split; [|split; [|split; [reflexivity|]]].
  - assert (bool_decide (is_Some (nodes (demo_state sl) !! demo_id)) = true) as E
      by (vm_compute; reflexivity).
    exact (proj1 (bool_decide_eq_true _) E).
  - exact (proj1 (copies_are_stale Release _ Hr)).
  - destruct (proj2 (proj2 (copies_are_stale Release _ Hr)) _ _ eq_refl) as [Hyes Hno].
    assert (trim "secret" ≠ EmptyString) as Ht by (vm_compute; discriminate).
    split.
    + destruct (Hyes (mkHeaders None (Some "secret")) Ht (or_intror eq_refl)) as (_ & _ & H & _).
      exact H.
    + assert (¬ carries_token "secret" (mkHeaders (Some "Bearer guess") None)) as Hg
        by (intros [E|E]; discriminate E).
      destruct (Hno (mkHeaders (Some "Bearer guess") None) (or_intror Hg)) as (_ & _ & H & _).
      exact H.
Defined.

Lemma join_outcome_witness :
  ∃ sl, join_room Release demo_room_id (Some "wrong") None demo_addr (demo_state sl)
    = send (JoinReject "invalid invite token") demo_addr (demo_state sl).
Proof.
  destruct demo_new as [sl Hnew]. exists sl.
  pose proof (server_inv Release _ (demo_reachable sl Hnew)) as Hinv.
  pose proof (join_outcome Release demo_room_id (Some "wrong") None demo_addr (demo_state sl) Hinv)
    as H. cbv zeta in H.
  destruct (demo_member sl) as (room0 & m & H1 & _).
  destruct (addr_to_node (demo_state sl) !! demo_addr) as [n|] eqn:Ha.
  2: { assert (bool_decide (is_Some (addr_to_node (demo_state sl) !! demo_addr)) = true) as E
         by (vm_compute; reflexivity). rewrite Ha in E. discriminate E. }
  destruct H as (room & s1 & [[Hr ->]|[Hr _]] & Hr1 & H); [|congruence].
  assert (bool_decide (r_join_token room = "wrong") = false) as Ht.
  { assert (match rooms (demo_state sl) !! demo_room_id with
            | Some room => bool_decide (r_join_token room = "wrong") | None => true end = false) as E
      by (vm_compute; reflexivity). by rewrite Hr in E. }
  change (default "" (Some "wrong")) with "wrong" in H. rewrite Ht in H. exact H.
Defined.

(** Running the only relay there is: a frame for the node, taken while it waits. *)
Definition relay_header : DataHeader :=
  mkDataHeader PROTOCOL_VERSION 0 IPv4 0 0 demo_room_id demo_id demo_id demo_id
    (mkSessionId 1) 1 (mkPacketId 0) 4.
Definition relay_dgram : list Z := (header_bytes relay_header ++ [1; 2; 3; 4])%list.

(** The slab in full: the frames of a new one are shared. *)
Definition demo_slab : PacketSlab :=
  match default_pool (Z.to_nat 4096) with
  | Ok sl => sl
  | _ => mkPacketSlab [] (([], 1%nat) : Queue) 0
  end.

Lemma demo_slab_new :
  new_with_config demo_transport demo_key demo_config = Ok (demo_base demo_slab).
Proof.
  unfold demo_slab, new_with_config, default_pool.
  destruct (new_spec DEFAULT_FRAME_CAP (Z.to_nat 4096) DEFAULT_HEADROOM) as (sl & Hsl & _); [lia..|].
  rewrite Hsl. cbn [lift mbind outcome_bind].
  change (Config.address_pool demo_config) with default_address_pool.
  change (Config.room_prefix_len demo_config) with default_room_prefix_len.
  by rewrite demo_pool_ok.
Qed.

Definition registered : Supernode :=
  (handle_control Release 1 (demo_room_id, "drawn") demo_register demo_addr (demo_base demo_slab)).2.
Definition relaying : Supernode := (handle_data relay_header relay_dgram registered).2.

(** Over abstract states, so that none of the frames is ever computed for them. *)
Lemma ran_Ok {S E} (m : M S E unit) s : is_ok (m s).1 = true → m s = (Ok tt, (m s).2).
Proof. by destruct (m s) as [[[]| |] ?]. Qed.

Lemma length_none {A} (l : list A) : length l = 0%nat → l = [].
Proof. by destruct l. Qed.

Lemma length_single {A} (l : list A) : length l = 1%nat → ∃ r, l = [r].
Proof. destruct l as [|r [|]]; [done| |done]. by exists r. Qed.

Lemma relaying_one :
  handle_data relay_header relay_dgram registered = (Ok tt, relaying) ∧
  relays registered = [] ∧ ∃ r, relays relaying = [r].
Proof.
  assert (is_ok (handle_data relay_header relay_dgram registered).1 = true ∧
          length (relays registered) = 0%nat ∧ length (relays relaying) = 1%nat) as (H1 & H2 & H3)
    by (vm_compute; auto).
  split; [exact (ran_Ok _ _ H1)|]. split; [exact (length_none _ H2)|exact (length_single _ H3)].
Qed.

Lemma registered_at :
  ∃ target, nodes registered !! h_dst_node relay_header = Some target ∧ ni_addr target = demo_addr.
Proof.
  assert (match nodes registered !! h_dst_node relay_header with
          | Some target => bool_decide (ni_addr target = demo_addr) | None => false end = true) as H
    by (vm_compute; reflexivity).
  destruct (nodes registered !! h_dst_node relay_header) as [target|]; [|done].
  exists target. split; [done|]. exact (proj1 (bool_decide_eq_true _) H).
Qed.

Lemma relay_faithful_witness :
  ∃ r, relays relaying = [r] ∧ length relay_dgram = relay_len r ∧
    run_relay r (put_relays [] relaying)
    = (Ok tt, put_slab (Slab.release (relay_desc r) (sn_slab relaying))
         (put_transport (send_raw relay_dgram demo_addr (sn_transport relaying)).2
            (put_relays [] relaying))).
Proof.
  destruct relaying_one as (Hd & Hr0 & r & Hr). exists r. split; [exact Hr|].
  destruct registered_at as (target & Ht & Haddr).
  assert (rtc (relay_step Release) (demo_base demo_slab, []) (relaying, [(relay_dgram, demo_addr)])) as Hrun.
  { apply (rtc_l _ _ (registered, [])); [|apply rtc_once].
    { exact (rs_control Release (demo_base demo_slab) [] 1 (demo_room_id, "drawn") demo_register
        demo_addr registered eq_refl). }
    pose proof (rs_data_new Release registered [] relay_header relay_dgram target r relaying Hd Ht) as H.
    rewrite Hr, Hr0, Haddr in H. exact (H eq_refl). }
  destruct (proj2 (relay_faithful Release _ _ _ _ _ _ demo_slab_new Hrun) [] r [] Hr)
    as (f1 & f & to & f2 & Hf & Hl1 & Hlen & Hsend).
  destruct f1; [|discriminate Hl1]. simpl in Hf. injection Hf as Hf Hto _. subst f to.
  split; [exact Hlen|exact Hsend].
Defined.
