(* ===== verification/RelayedDemo.v ===== *)
(** The packet of Delivery's demonstration, through the supernode of SupernodeDemo. *)
From Stdlib Require Import ZArith Lia.
From stdpp Require Import base tactics numbers list gmap strings.
From S2P Require Import Prelude Bytes Net NetImpl Text AddrText Common Proto Slab Room Transport.
From S2P Require Import Etherparse Qos Crypto Defense Policy Discovery F32 Path Observability.
From S2P Require Import Flood MacTable Dataplane Overlay Delivery Config Supernode SupernodeFacts.
From S2P Require Import RelaySpec Relayed SupernodeDemo.
Local Open Scope Z_scope.

#[local] Existing Instances cidr_lib list_queue toy_aead plain_etherparse Demo.no_nets
  Demo.free_flow toy_socket Demo.open_tun two_frames toy_crypto plain_hex.

Definition sender : DataPlane := Demo.node Demo.node_a demo_id 2.
Definition receiver : DataPlane := Demo.node demo_id Demo.node_a 1.
Definition relayed_frame : DataHeader * list Z :=
  default (Demo.demo_frame)
    (frame_for sender (Demo.peer_of demo_id 2) Demo.the_room IPv4 Demo.hello false).

Lemma demo_ends_linked :
  linked Release sender receiver (Demo.peer_of demo_id 2) (Demo.peer_of Demo.node_a 1)
    Demo.the_room IPv4 Demo.hello (mkTun Tun None None 1280 []).
Proof. apply Demo.nodes_linked; [apply Demo.replicate_node; unfold byte_ok; lia..|done]. Qed.

Lemma registered_reached : rtc (relay_step Release) (demo_base demo_slab, []) (registered, []).
Proof.
  apply rtc_once. exact (rs_control Release (demo_base demo_slab) [] 1 (demo_room_id, "drawn"%string)
    demo_register demo_addr registered eq_refl).
Qed.

Lemma registered_idle :
  length (relays registered) = 0%nat ∧ check_family (sn_transport registered) demo_addr = true.
Proof. vm_compute. auto. Qed.

Lemma relayed_end_to_end_witness :
  ∃ a' dgram s1 r s3 b',
    send_to_peer demo_id IPv4 Demo.hello None false sender = (Ok tt, a') ∧
    sent (transport a') = [(dgram, Demo.relay)] ∧
    receive Release 7 (demo_room_id, "drawn"%string) (dgram ++ [0]) (length dgram) Demo.relay registered
    = (Ok tt, s1) ∧ relays s1 = [r] ∧
    run_relay r (put_relays [] s1) = (Ok tt, s3) ∧
    (∃ before, sent (sn_transport s3) = before ++ [(dgram, demo_addr)]) ∧
    tun b' = Some (mkTun Tun None None 1280 [Demo.hello]).
Proof.
  destruct registered_at as (target & Ht & Haddr). destruct registered_idle as [Hidle Hfam].
  apply length_none in Hidle.
  destruct (relayed_end_to_end (K:=toy_socket) Release sender receiver _ _ Demo.the_room IPv4 Demo.hello _
    relayed_frame.1 relayed_frame.2 (length (header_bytes relayed_frame.1 ++ relayed_frame.2)) Release _ _ _ _ registered [] target
    demo_ends_linked eq_refl eq_refl demo_slab_new registered_reached Ht
    ltac:(rewrite Hidle; simpl; lia)) as (a' & dgram & Hsend & Hsent & H).
  destruct (H 7 (demo_room_id, "drawn"%string) [0] Demo.relay) as (s1 & r & Hrecv & Hr & Htr & H2).
  rewrite Hidle in Hr.
  destruct (H2 s1 [] [] [] r [] (length dgram) (rtc_refl _ _) Hr eq_refl
    ltac:(rewrite Htr, Haddr; exact Hfam) eq_refl) as (s3 & Hrun & Hout & H3).
  destruct (H3 9 [] Demo.relay) as (range & received & b' & _ & _ & _ & Htun).
  exists a', dgram, s1, r, s3, b'. rewrite Haddr in Hout.
  exact (conj Hsend (conj Hsent (conj Hrecv (conj Hr (conj Hrun
    (conj (ex_intro _ _ Hout) Htun)))))).
Defined.
