(* ===== verification/EdgeDemo.v ===== *)
(** An edge that asks for the rooms and is told that it joined one, and two edges that agree
    on a key, or do not. *)
From Stdlib Require Import ZArith Lia Ascii.
From stdpp Require Import base tactics numbers list gmap strings relations.
From S2P Require Import Prelude Bytes Net NetImpl Text AddrText Common Proto Sorting Slab.
From S2P Require Import Etherparse Qos Crypto Noise Policy Rendezvous Discovery F32 Path.
From S2P Require Import Observability Transport Flood MacTable Dataplane Delivery Config Nat.
From S2P Require Import EdgeCore Edge EdgeFacts EdgeInv EdgeSpec HandshakeSpec HistorySpec.
Local Open Scope Z_scope.
Local Open Scope string_scope.

Definition joined_room : RoomId := mkRoomId (replicate 16 4).
Definition told : ControlFrame :=
  JoinAccept joined_room (mkVirtualIp [10; 0; 0; 2]) "10.0.0.0/24" (Some "den").

(** The one frame that arrives. *)
Definition one_frame : Postcard := {|
  Transport.to_stdvec f := Some [0];
  Transport.from_bytes l := match l with [1] => Some told | _ => None end |}.

Definition no_history : HistoryLib := {|
  history_path := true;
  history_to_json l := match l with [] => Some "[]" | _ => None end;
  history_from_json s := if bool_decide (s = "[]") then Some [] else None |}.
Definition linux : Platform := {|
  target_windows := false; name_error := "no name"; net_error s := "bad " +:+ s;
  transport_error _ := "transport" |}.

#[local] Existing Instances cidr_lib list_queue toy_aead plain_etherparse no_rules Demo.free_flow
  toy_socket Demo.open_tun one_frame toy_crypto plain_hex toy_snow one_toml good_disk no_history
  linux.

Definition demo_os : Os := {|
  os_build _ _ _ _ _ := inr (Some "r2n0"); os_prefer _ := inr false; os_no_ifindex _ := None;
  os_route_add _ _ := RouteDone; os_route_delete _ _ := RouteDone; os_interfaces := [];
  os_unix_secs := 1000 |}.

Definition server : SocketAddr := mkSocketAddr (V4 (ipv4 1 2 3 4)) 7777.
Definition other : SocketAddr := mkSocketAddr (V4 (ipv4 5 6 7 8)) 7777.
Definition me : NodeId := mkNodeId (replicate 32 1).
Definition you : NodeId := mkNodeId (replicate 32 2).

Definition demo_settings (id : NodeId) (key : list Z) : EdgeSettings :=
  mkSettings id key "nick" "r2n0" [server; other] 1400 BackendConfig_default
    VirtualLanConfig_default degraded_fingerprint [].
Definition demo_discovery : DiscoveryManager := mkDiscoveryManager DiscoveryConfig_default tt.
Definition demo_init : EdgeInit :=
  mkInit (demo_settings me (replicate 32 11)) (mkTransport None []) None server demo_discovery
    TrafficPolicy_default.

Definition demo_dp (sl : PacketSlab) : DataPlane :=
  mkDataPlane me (mkTransport None []) None None ∅ demo_discovery Observability.new sl
    (Qos.new (Z.to_nat 2048)) 1 Flood.new ∅ TrafficPolicy_default false 1400.
Definition demo_start (sl : PacketSlab) : Edge :=
  let e := initial_edge demo_init (Dataplane.start (demo_dp sl)) degraded_fingerprint [] [] 5 None None in
  (send (register_frame demo_os e None []) server
     ((apply_port_mapping_snapshot 5 PortMappingSnapshot_default) e).2).2.

Lemma demo_run_start :
  ∃ sl, run_start demo_os 5 PortMappingSnapshot_default None demo_init None None
    = Ok (demo_start sl).
Proof.
  unfold run_start, Dataplane.new, default_pool.
  destruct (new_spec DEFAULT_FRAME_CAP (Z.to_nat 4096) DEFAULT_HEADROOM) as (sl & Hsl & _); [lia..|].
  rewrite Hsl. exists sl. reflexivity.
Qed.

Definition asked_rooms (sl : PacketSlab) : Edge :=
  (handle_command demo_os None (EdgeConfig_default me []) CmdQueryRooms 5 (demo_start sl)).2.
Definition in_room (sl : PacketSlab) : Edge :=
  (udp_round Release demo_os 9 (mkDraw [] 0) [82; 50; 78; 67; 1] 5 server (asked_rooms sl)).2.

Lemma ran_ok {S E} (m : M S E unit) s : is_ok (m s).1 = true → m s = (Ok tt, (m s).2).
Proof. by destruct (m s) as [[[]| |] ?]. Qed.

(** Over abstract states, so that they are not computed. *)
Lemma udp_ran pr os now draw buf len from e :
  e_exited e = false → is_ok (udp_round pr os now draw buf len from e).1 = true →
  edge_step pr e (udp_round pr os now draw buf len from e).2.
Proof. intros He Hok. exact (step_loop pr _ _ (step_udp pr e os now draw buf len from _ He (ran_ok _ _ Hok))). Qed.

Lemma command_ran pr os path fresh cmd caller e :
  e_exited e = false → callers e = [] → is_ok (handle_command os path fresh cmd caller e).1 = true →
  edge_step pr e (handle_command os path fresh cmd caller e).2.
Proof.
  intros He Hc Hok. unfold callers in Hc. apply app_nil in Hc as [Hc1 Hc].
  apply app_nil in Hc as [Hc2 Hc]. apply app_nil in Hc as [Hc3 Hc4].
  apply (step_command pr e os path fresh cmd caller (Ok tt) _ He); [|by rewrite Hc4; apply not_elem_of_nil
    |exact (ran_ok _ _ Hok)|done].
  intros []; simpl; [by destruct (e_create e)|by destruct (e_join e)|by destruct (e_query e)].
Qed.

Lemma edge_demo_reachable :
  ∃ sl, edge_reachable Release (asked_rooms sl) ∧ edge_reachable Release (in_room sl).
Proof.
  destruct demo_run_start as [sl Hs]. exists sl.
  assert (rtc (edge_step Release) (demo_start sl) (asked_rooms sl)) as H1.
  { apply rtc_once.
    apply (command_ran Release demo_os None (EdgeConfig_default me []) CmdQueryRooms 5 (demo_start sl));
      vm_compute; reflexivity. }
  split; exists demo_os, 5, PortMappingSnapshot_default, None, demo_init, None, None, (demo_start sl);
    (split; [exact Hs|]); [exact H1|]. eapply rtc_r; [exact H1|].
  apply (udp_ran Release demo_os 9 (mkDraw [] 0) [82; 50; 78; 67; 1] 5 server (asked_rooms sl));
    vm_compute; reflexivity.
Qed.

Lemma edge_consistent_witness :
  ∃ e, edge_reachable Release e ∧ e_room e = Some joined_room ∧ edge_inv e.
Proof.
  destruct edge_demo_reachable as (sl & _ & H). exists (in_room sl). split; [exact H|].
  split; [vm_compute; reflexivity|exact (edge_consistent Release _ H)].
Defined.

(** Of two queries for the rooms the second is refused at once. *)
Lemma commands_answered_witness :
  ∃ e, edge_reachable Release e ∧ callers e = [5%nat] ∧ NoDup (callers e) ∧
    handle_command demo_os None (EdgeConfig_default me []) CmdQueryRooms 6 e
    = (Ok tt, put_replies (e_replies e ++ [(6%nat, Err (refusal PendingQuery))])%list e).
Proof.
  destruct edge_demo_reachable as (sl & H & _). exists (asked_rooms sl). split; [exact H|].
  assert (pending PendingQuery (asked_rooms sl) = Some 5%nat) as Hp by (vm_compute; reflexivity).
  split; [vm_compute; reflexivity|].
  destruct (commands_answered Release _ H) as (Hnd & _ & Hcmd). split; [exact Hnd|].
  destruct (Hcmd demo_os None (EdgeConfig_default me []) CmdQueryRooms 6%nat)
    as (r & e' & E & _ & _ & _ & Hbusy).
  destruct (Hbusy PendingQuery 5%nat eq_refl (or_introl eq_refl) Hp) as [Hr He'].
  rewrite E, Hr, He'. reflexivity.
Defined.

Lemma join_accepted_witness :
  ∃ sl, edge_inv (asked_rooms sl) ∧
    e_room (handle_control Release demo_os 9 (mkDraw [] 0) server told server (asked_rooms sl)).2
      = Some joined_room ∧
    edge_inv (handle_control Release demo_os 9 (mkDraw [] 0) server told server (asked_rooms sl)).2.
Proof.
  destruct edge_demo_reachable as (sl & H & _). exists sl.
  pose proof (reachable_inv Release _ H) as Hinv.
  split; [exact Hinv|]. split; [vm_compute; reflexivity|].
  destruct (join_accepted Release demo_os 9 (mkDraw [] 0) server joined_room
    (mkVirtualIp [10; 0; 0; 2]) "10.0.0.0/24" (Some "den") server (asked_rooms sl) Hinv)
    as (e' & E & He & _).
  unfold told. rewrite E. exact He.
Defined.

(** Three ticks in silence come back to the first of two supernodes. *)
Lemma watchdog_rotates_witness :
  ∃ sl, (∃ k, (k < 2)%nat ∧
    e_supernode (ticks demo_os (take k [secs 40; secs 45]) (in_room sl)) = other) ∧
    e_supernode (ticks demo_os [secs 40; secs 45] (in_room sl)) = server.
Proof.
  destruct demo_run_start as [sl _]. exists sl. split; [|vm_compute; reflexivity].
  assert (supernode_list (settings (in_room sl)) = [server; other]) as El by (vm_compute; reflexivity).
  assert (e_supernode (in_room sl) = server) as Es by (vm_compute; reflexivity).
  assert (e_room (in_room sl) = Some joined_room) as Er by (vm_compute; reflexivity).
  assert (e_activity (in_room sl) = 9) as Ea by (vm_compute; reflexivity).
  pose proof (watchdog_rotates demo_os [secs 40; secs 45] (in_room sl) other) as H.
  rewrite El in H. apply H.
  - apply NoDup_cons. split; [|apply NoDup_singleton]. by rewrite list_elem_of_singleton.
  - by rewrite Er.
  - rewrite Es. apply list_elem_of_here.
  - apply list_elem_of_further, list_elem_of_here.
  - unfold late. rewrite Ea. repeat constructor.
  - simpl. lia.
Defined.

(** Lists of entries as numbers, written in binary. *)
#[export] Instance HistoryItem_countable : Countable HistoryItem.
Proof.
  refine (inj_countable' (λ i, (hi_room_id i, hi_name i, hi_invite_code i, hi_last_joined i))
    (λ '(a, b, c, d), mkHistory a b c d) _). by intros [].
Defined.
Fixpoint write_pos (p : positive) : string :=
  match p with
  | xH => EmptyString
  | xO p => String "0"%char (write_pos p)
  | xI p => String "1"%char (write_pos p)
  end.
Fixpoint read_pos (s : string) : positive :=
  match s with
  | EmptyString => xH
  | String c s => if bool_decide (c = "1"%char) then xI (read_pos s) else xO (read_pos s)
  end.
Lemma read_write_pos p : read_pos (write_pos p) = p.
Proof. induction p as [p IH|p IH|]; simpl; [| |done]; by rewrite IH. Qed.

Definition binary_history : HistoryLib := {|
  history_path := true;
  history_to_json l := Some (write_pos (countable.encode l));
  history_from_json s := countable.decode (read_pos s) |}.
#[export] Instance binary_history_laws : HistoryLaws binary_history.
Proof. split. intros l s [= <-]. simpl. by rewrite read_write_pos, decode_encode. Qed.

Lemma history_recent_witness :
  mkHistory "room" "den" "invite" 7
    ∈ load_history (HL:=binary_history) (add_to_history (HL:=binary_history) 7 "room" "den" "invite" None).
Proof.
  apply (history_recent (HL:=binary_history) 7 "room" "den" "invite" None); [done|done| |].
  - intros l. by eexists.
  - intros x Hx. by apply not_elem_of_nil in Hx.
Defined.

(** ** Two edges *)
Definition key_of (id : NodeId) : list Z := if bool_decide (id = me) then replicate 32 11 else replicate 32 22.
Definition with_peer_of (id other_id : NodeId) (sl : PacketSlab) : Edge :=
  let e := initial_edge
    (mkInit (demo_settings id (key_of id)) (mkTransport None []) None server demo_discovery
       TrafficPolicy_default) (demo_dp sl) degraded_fingerprint [] [] 5 None None in
  put_peers {[ other_id := build_peer_state
    (mkPeerInfo other_id (mkVirtualIp [10; 0; 0; 3]) "" (derive_public_key (key_of other_id))) ]} e.
Definition at_me (sl : PacketSlab) := with_peer_of me you sl.
Definition at_you (sl : PacketSlab) := with_peer_of you me sl.
#[local] Existing Instance toy_snow_laws.

Definition my_cipher (k : Z) : Cipher toy_aead := mkCipher (A:=toy_aead) (replicate 32 k) (mkReplayWindow 0 0) false.
Definition offer (k : Z) (target : NodeId) (e : Edge) : Edge :=
  (punch_request Release 6 (replicate 32 k) 0 target [] e).2.

Lemma handshake_agreement_witness :
  ∃ sl m b1 m' a2,
    handshake 7 0 me m other (at_you sl) = (Ok tt, b1) ∧ secured b1 me other (my_cipher 5) ∧
    handshake 8 0 you m' server (offer 5 you (at_me sl)) = (Ok tt, a2) ∧
    secured a2 you server (my_cipher 5).
Proof.
  destruct demo_run_start as [sl _]. exists sl.
  destruct (handshake_agreement Release 6 0 [] (replicate 32 5) (at_me sl) (offer 5 you (at_me sl))
    (at_you sl) (ToyInitiator (key_of you)) (ToyResponder (key_of you))
    (build_peer_state (mkPeerInfo me (mkVirtualIp [10; 0; 0; 3]) "" (key_of me)))
    (my_cipher 5) other server 7 0) as (m & targets & b1 & m' & _ & H1 & H2 & _ & _ & H3).
  - exists (build_peer_state (mkPeerInfo you (mkVirtualIp [10; 0; 0; 3]) "" (key_of you))).
    by split_and!.
  - reflexivity.
  - by split_and!.
  - reflexivity.
  - reflexivity.
  - apply ran_ok. vm_compute. reflexivity.
  - destruct (H3 8 0) as (a2 & H4 & H5 & _). exists m, b1, m', a2. by split_and!.
Defined.

Lemma simultaneous_punch_witness :
  ∃ sl m_a m_b a2 a3 b2 b3,
    handshake 7 0 you m_b server (offer 5 you (at_me sl)) = (Ok tt, a2) ∧
    handshake 7 0 me m_a other (offer 6 me (at_you sl)) = (Ok tt, b2) ∧
    handshake 8 0 you m_b server a2 = (Ok tt, a3) ∧
    handshake 8 0 me m_a other b2 = (Ok tt, b3) ∧
    secured a3 you server (my_cipher 6) ∧ secured b3 me other (my_cipher 5).
Proof.
  destruct demo_run_start as [sl _]. exists sl.
  destruct (simultaneous_punch Release (at_me sl) (at_you sl)
    (ToyInitiator (key_of you)) (ToyInitiator (key_of me))
    (ToyResponder (key_of me)) (ToyResponder (key_of you)) (replicate 32 5) (replicate 32 6)
    (my_cipher 5) (my_cipher 6) 6 6 0 0 [] [] (offer 5 you (at_me sl)) (offer 6 me (at_you sl))
    other server) as (m_a & m_b & ta & tb & _ & _ & H).
  - exists (build_peer_state (mkPeerInfo you (mkVirtualIp [10; 0; 0; 3]) "" (key_of you))).
    by split_and!.
  - exists (build_peer_state (mkPeerInfo me (mkVirtualIp [10; 0; 0; 3]) "" (key_of me))).
    by split_and!.
  - reflexivity.
  - reflexivity.
  - reflexivity.
  - reflexivity.
  - reflexivity.
  - reflexivity.
  - apply ran_ok. vm_compute. reflexivity.
  - apply ran_ok. vm_compute. reflexivity.
  - destruct (H 7 0 8 0) as (a2 & a3 & b2 & b3 & Hab). exists m_a, m_b, a2, a3, b2, b3. exact Hab.
Defined.

(** Garbage from anyone leaves a secured peer alone. *)
Definition secure_you (sl : PacketSlab) : Edge :=
  put_peers (alter (set_direct server (my_cipher 5)) you (e_peers (at_me sl))) (at_me sl).
Lemma cipher_never_reset_witness :
  ∃ sl p', e_peers (handshake 9 0 you [1; 2; 3] other (secure_you sl)).2 !! you = Some p' ∧
    ps_cipher p' = Some (my_cipher 5) ∧ ps_direct_addr p' = Some server.
Proof.
  destruct demo_run_start as [sl _]. exists sl.
  destruct (cipher_never_reset 9 0 you [1; 2; 3] other (secure_you sl)
    (set_direct server (my_cipher 5) (build_peer_state
      (mkPeerInfo you (mkVirtualIp [10; 0; 0; 3]) "" (key_of you)))) (my_cipher 5))
    as [_ (p' & H1 & H2 & H3)].
  - reflexivity.
  - reflexivity.
  - exists p'. by split_and!.
Defined.
