(* ===== verification/MembershipDemo.v ===== *)
(** Another node joins the room of SupernodeDemo, and its edge hears of it. *)
From Stdlib Require Import ZArith Lia.
From stdpp Require Import base tactics numbers list gmap strings.
From S2P Require Import Prelude Bytes Net NetImpl Text AddrText Common Proto Sorting Slab Room.
From S2P Require Import Etherparse Qos Crypto Noise Policy Rendezvous Discovery F32 Path.
From S2P Require Import Observability Transport Flood MacTable Dataplane Delivery Config Nat EdgeCore.
From S2P Require Import Edge EdgeFacts EdgeInv Supernode SupernodeFacts SupernodeSpec Membership.
From S2P Require Import SupernodeDemo EdgeDemo.
Local Open Scope string_scope.
Local Open Scope list_scope.
Local Open Scope Z_scope.

#[local] Instance PeerInfo_eq_dec : EqDecision PeerInfo.
Proof. solve_decision. Defined.
#[local] Instance PeerAction_eq_dec : EqDecision PeerAction.
Proof. solve_decision. Defined.
#[local] Instance RoomDescription_eq_dec : EqDecision RoomDescription.
Proof. solve_decision. Defined.
#[local] Instance ControlFrame_eq_dec : EqDecision ControlFrame.
Proof. solve_decision. Defined.

(** The encoding of the frames of a table by their place in it. *)
Definition table_frames (table : list ControlFrame) : Postcard := {|
  to_stdvec f := (λ x, [Z.of_nat x.1]) <$> list_find (λ g, g = f) table;
  from_bytes l := match l with [z] => table !! Z.to_nat z | _ => None end |}.

Lemma table_frames_laws table : PostcardLaws (table_frames table).
Proof.
  split. intros f l ([i g] & Hf & ->)%fmap_Some. apply list_find_Some in Hf as (Hi & -> & _). cbn.
  by rewrite Nat2Z.id.
Qed.

#[local] Existing Instances cidr_lib list_queue toy_aead plain_etherparse no_rules Demo.free_flow
  toy_socket Demo.open_tun toy_crypto plain_hex toy_snow one_toml good_disk no_history linux.

(** The state: a second node is registered, at an address of its own. *)
Definition second_addr : SocketAddr := mkSocketAddr (V4 (ipv4 10 1 1 2)) 5000.
Definition second : NodeInfo :=
  mkNodeInfo me second_addr Cone None (replicate 32 2) [] "second" [] 1.
Definition before_join : Supernode :=
  Supernode.put_addrs (<[second_addr := me]> (addr_to_node (demo_state demo_slab)))
    (Supernode.put_nodes (<[me := second]> (nodes (demo_state demo_slab))) (demo_state demo_slab)).
Definition joining (P : Postcard) : outcome SupernodeError unit * Supernode :=
  Supernode.join_room (P:=P) Release demo_room_id (Some "token") None second_addr before_join.

(** The frames of the join, as far as another encoding shows them. *)
Definition shown : Supernode := (joining two_frames).2.
Definition shown_room : Room :=
  default (Room_new demo_room_id "" me "" "") (rooms shown !! demo_room_id).
Definition join_frames : list ControlFrame :=
  [JoinAccept demo_room_id (mkVirtualIp [192; 168; 200; 3]) (r_virtual_cidr shown_room)
     (Some (r_name shown_room));
   PeerList (peer_info_for_member shown <$> values (members shown_room));
   PunchRequest me []; PunchRequest demo_id []]
  ++ ((λ m, PeerUpdate (peer_info_for_member shown m) ActionAdd)
      <$> option_list (members shown_room !! me)).
#[local] Instance join_postcard : Postcard := table_frames join_frames.
#[local] Instance join_postcard_laws : PostcardLaws join_postcard := table_frames_laws join_frames.

Definition after_join : Supernode := (joining join_postcard).2.

Lemma pair_ok {S E} (r : outcome E unit * S) : is_ok r.1 = true → r = (Ok tt, r.2).
Proof. by destruct r as [[[]| |] ?]. Qed.

Lemma join_ok :
  Supernode.join_room Release demo_room_id (Some "token") None second_addr before_join
  = (Ok tt, after_join).
Proof.
  assert (is_ok (joining join_postcard).1 = true) as H by (vm_compute; reflexivity).
  apply pair_ok in H. unfold joining in H at 1. exact H.
Qed.

Lemma not_there room : rooms before_join !! demo_room_id = Some room → members room !! me = None.
Proof.
  assert (match rooms before_join !! demo_room_id with
          | Some room => bool_decide (members room !! me = None) | None => false end = true) as H
    by (vm_compute; reflexivity).
  intros Hr. rewrite Hr in H. exact (proj1 (bool_decide_eq_true _) H).
Qed.

Lemma there_now : ∃ room joined, rooms after_join !! demo_room_id = Some room ∧
  members room !! me = Some joined ∧ is_Some (members room !! demo_id).
Proof.
  assert (match rooms after_join !! demo_room_id with
          | Some room => match members room !! me with
              | Some _ => bool_decide (is_Some (members room !! demo_id)) | None => false end
          | None => false end = true) as H by (vm_compute; reflexivity).
  destruct (rooms after_join !! demo_room_id) as [room|]; [|done].
  destruct (members room !! me) as [joined|] eqn:Hm; [|done].
  exists room, joined. split_and!; [done|exact Hm|exact (proj1 (bool_decide_eq_true _) H)].
Qed.

(** Over abstract states, so that they are not computed. *)
Lemma told_inv pr s ns l : sn_inv pr s → sn_inv pr (Supernode.put_addrs l (Supernode.put_nodes ns s)).
Proof. intros H. by apply (sn_inv_same pr s). Qed.

Lemma before_join_inv : sn_inv Release before_join.
Proof. exact (told_inv _ _ _ _ (server_inv Release _ (demo_reachable demo_slab demo_slab_new))). Qed.

Lemma second_known : addr_to_node before_join !! second_addr = Some me ∧
  check_family (sn_transport before_join) second_addr = true.
Proof.
  split; [|vm_compute; reflexivity]. apply lookup_insert_eq.
Qed.

Lemma demo_edge_inv : ∃ sl, edge_inv (demo_start sl) ∧ node_id (settings (demo_start sl)) = me.
Proof.
  destruct demo_run_start as [sl Hs]. exists sl.
  split; [exact (proj1 (start_inv _ _ _ _ _ _ _ _ Hs))|reflexivity].
Qed.

Lemma members_agree_witness :
  ∃ room out dgram e', rooms after_join !! demo_room_id = Some room ∧
    is_Some (others after_join room me !! demo_id) ∧
    sent (sn_transport after_join) = sent (sn_transport before_join) ++ out ∧
    (dgram, second_addr) ∈ out ∧ knows e' (others after_join room me) ∧
    ∃ sl, udp_round Release demo_os 9 (mkDraw [] 0) (dgram ++ []) (length dgram) server (demo_start sl)
      = (Ok tt, e').
Proof.
  destruct there_now as (room & joined & Hr & Hm & Hother). destruct second_known as [Ha Hf].
  destruct demo_edge_inv as (sl & Hinv & Hid).
  destruct (proj1 (members_agree (PC:=join_postcard) (K:=toy_socket) Release before_join before_join_inv) demo_room_id (Some "token") None
    second_addr me after_join room joined Ha not_there join_ok Hr Hm Hf)
    as ((out & dgram & Hsent & Hin & Hheard) & _).
  destruct (Hheard Release demo_os 9 (mkDraw [] 0) [] server (demo_start sl) (conj Hinv Hid))
    as (e' & Hrun & Hknows).
  exists room, out, dgram, e'. split; [exact Hr|]. split.
  - unfold others. rewrite lookup_fmap, lookup_delete_ne by done. by apply fmap_is_Some.
  - exact (conj Hsent (conj Hin (conj Hknows (ex_intro _ sl Hrun)))).
Defined.
