(* ===== verification/AndroidDemo.v ===== *)
(** An edge that joins a room on Android, and the descriptor it is given afterwards. *)
From Stdlib Require Import ZArith Lia.
From stdpp Require Import base tactics numbers list gmap strings.
From S2P Require Import Prelude Bytes Net NetImpl Text AddrText Common Proto Sorting Slab.
From S2P Require Import Etherparse Qos Crypto Noise Policy Rendezvous Discovery F32 Path.
From S2P Require Import Observability Transport Flood MacTable Dataplane Delivery Config Nat.
From S2P Require Import EdgeCore Systems Edge EdgeFacts Json Ipc Android AndroidSpec.
From S2P Require Import HandshakeSpec EdgeDemo.
Local Open Scope string_scope.
Local Open Scope Z_scope.

#[local] Existing Instances cidr_lib list_queue toy_aead plain_etherparse no_rules Demo.free_flow
  toy_socket Demo.open_tun one_frame toy_crypto plain_hex toy_snow one_toml good_disk no_history
  linux.

Definition phone_ip : VirtualIp := mkVirtualIp [10; 0; 0; 2].
Definition phone_fd : FdOs :=
  {| fd_flags := 2050; fd_setfl _ := None; fd_error := ""; fd_clone := None |}.
Definition phone_msg : Json := JObject [("command", JString "register_tun_fd"); ("mtu", JInt 1400)].

(** [demo_start] is of any slab, which is not looked at. *)
Definition on_phone (sl : Slab.PacketSlab) : Edge :=
  (activate_room_android joined_room phone_ip "10.0.0.0/24" (demo_start sl)).2.

Lemma android_room_witness : ∃ sl,
  e_room (on_phone sl) = Some joined_room ∧ tun (e_dp (on_phone sl)) = None ∧
  ∃ device e2, register_tun_fd phone_fd (Ok 7) phone_msg (on_phone sl)
      = (Ok [waiting_for_fd; ok_message "TUN device registered successfully"], e2) ∧
    tun (e_dp e2) = Some device ∧ tun_ipv4 device = Some (of_octets [10; 0; 0; 2]) ∧
    tun_if_name device = Some "r2n0".
Proof.
  destruct demo_run_start as [sl _]. exists sl.
  destruct (android_room joined_room phone_ip "10.0.0.0/24" (demo_start sl)) as (r & e1 & E & H).
  { split; [reflexivity|]. by apply bytes_ok_check. }
  assert ((activate_room_android joined_room phone_ip "10.0.0.0/24" (demo_start sl)).1 = Ok tt) as Hr
    by (vm_compute; reflexivity).
  unfold on_phone. rewrite E in *. cbn [fst snd] in *. subst r.
  destruct H as (_ & _ & Hroom & _ & Ht & _ & _ & _ & Hreg).
  split; [exact Hroom|]. split; [rewrite Ht; reflexivity|].
  destruct (Hreg phone_fd (Ok 7) phone_msg ltac:(discriminate)) as (line & e2 & Er & [Hl|[[t Hl] _]]).
  - destruct Hl as [-> [device [Hd _ Hip Hn _ _ _]]]. exists device, e2.
    split; [exact Er|]. split; [exact Hd|]. split; [exact Hip|exact Hn].
  - exfalso. subst line. assert ((register_tun_fd phone_fd (Ok 7) phone_msg e1).1 =
      Ok [waiting_for_fd; ok_message "TUN device registered successfully"]) as E1 by reflexivity.
    rewrite Er in E1. discriminate.
Defined.
