(* ===== verification/ClientDemo.v ===== *)
(** A daemon in a room whose status is asked for, a rule that is entered, and a daemon that
    is started with another supernode than its configuration has. *)
From Stdlib Require Import ZArith Lia Ascii.
From stdpp Require Import base tactics numbers list gmap strings relations.
From S2P Require Import Prelude Bytes Net NetImpl Text AddrText Common Proto Sorting Slab.
From S2P Require Import Etherparse Qos Crypto Noise Policy Rendezvous Discovery F32 Path.
From S2P Require Import Observability Transport Flood MacTable Dataplane Delivery Config Nat.
From S2P Require Import EdgeCore Edge EdgeFacts EdgeInv HandshakeSpec Json Ipc IpcSpec Cli CliSpec.
From S2P Require Import CliPrint CliPrintSpec.
From S2P Require Import Tasks Interleave EdgeSpec Serve ServeSpec EdgeDemo.
Local Open Scope string_scope.
Local Open Scope Z_scope.

(** ** A reader of rules *)
Definition read_enum {B} (l : list (string * B)) (v : Json) : option B :=
  s ← as_str v; snd <$> List.find (λ x, bool_decide (x.1 = s)) l.
Definition read_opt {B} (f : Json → option B) (v : Json) : option (option B) :=
  match v with JNull => Some None | _ => Some <$> f v end.
Definition read_range (v : Json) : option PortRange :=
  match json_index v "start", json_index v "end" with
  | JInt a, JInt b => Some (mkPortRange a b)
  | _, _ => None
  end.
Definition read_ranges (v : Json) : option (list PortRange) := l ← as_array v; mapM read_range l.
Definition read_net (v : Json) : option (@IpNet no_rules) := _ ← as_str v; Some tt.

Definition read_rule (v : Json) : option (@TrafficRule no_rules) :=
  let at_key := json_index v in
  id ← as_str (at_key "id"); enabled ← as_bool (at_key "enabled");
  action ← read_enum [("allow", Allow); ("deny", Deny)] (at_key "action");
  direction ← read_enum [("inbound", Inbound); ("outbound", Outbound); ("both", Both)]
    (at_key "direction");
  src ← read_opt read_net (at_key "src_cidr"); dst ← read_opt read_net (at_key "dst_cidr");
  protocol ← read_enum [("any", AnyProtocol); ("tcp", Tcp); ("udp", Udp); ("icmp", Icmp)]
    (at_key "protocol");
  src_ports ← read_ranges (at_key "src_ports"); dst_ports ← read_ranges (at_key "dst_ports");
  description ← read_opt as_str (at_key "description");
  Some (mkRule id enabled action direction src dst protocol src_ports dst_ports description).

Definition plain_serde : RuleSerde (N:=no_rules) := {|
  ipnet_to_string _ := "net";
  rule_from_value v := match read_rule v with Some r => inr r | None => inl "not a rule" end |}.
#[local] Existing Instances no_rules plain_serde.

Lemma read_ranges_json l : read_ranges (JArray (range_json <$> l)) = Some l.
Proof.
  unfold read_ranges. cbn [as_array mbind option_bind].
  apply mapM_Some_2, Forall2_fmap_l, Forall_Forall2_diag, Forall_true. by intros [].
Qed.

Lemma plain_serde_laws : RuleSerdeLaws (N:=no_rules).
Proof.
  split. intros [id enabled action direction src dst protocol src_ports dst_ports description].
  cbn [rule_from_value plain_serde]. unfold read_rule.
  pose proof (read_ranges_json src_ports) as H1. pose proof (read_ranges_json dst_ports) as H2.
  unfold rule_json. cbn [rule_src_ports rule_dst_ports].
  revert H1 H2. generalize (JArray (range_json <$> src_ports)), (JArray (range_json <$> dst_ports)).
  intros j1 j2 H1 H2.
  destruct action, direction, protocol, src as [[]|], dst as [[]|], description;
    lazy -[read_ranges]; rewrite H1; lazy -[read_ranges]; by rewrite H2.
Qed.

Definition ascii_case : Unicode := {| to_lowercase s := string_of (lower_ascii <$> bytes_of s) |}.
Lemma ascii_case_laws : UnicodeLaws ascii_case.
Proof. by split. Qed.
#[local] Existing Instances ascii_case ascii_case_laws plain_serde_laws cidr_lib list_queue toy_aead
  plain_etherparse Demo.free_flow toy_socket Demo.open_tun one_frame toy_crypto plain_hex toy_snow
  one_toml good_disk no_history linux.

(** ** The status of an edge in a room *)
Lemma status_shows_witness :
  ∃ e, daemon_reachable Release e ∧ json_index (status_json 7 e) "status" = JString "Connected" ∧
    ipc_request 7 (JObject [("command", JString "status")]) e = (Ok (Answer (status_json 7 e)), e).
Proof.
  destruct edge_demo_reachable as (sl & _ & os & now & mapping & collected & i & history & config
    & e0 & H0 & Hs).
  assert (daemon_reachable Release (in_room sl)) as H.
  { exists os, now, mapping, collected, i, history, config, e0. split; [exact H0|].
    clear H0. induction Hs as [|x y z H1 _ IH]; [apply rtc_refl|].
    apply rtc_l with y; [by apply daemon_edge|exact IH]. }
  destruct (status_shows Release 7 (in_room sl) H) as (H1 & _ & _ & _ & H5).
  exists (in_room sl). split; [exact H|]. split; [|exact H5].
  rewrite H1. vm_compute. reflexivity.
Defined.

(** ** A room that is left while it is entered *)
Definition out_of_room (sl : PacketSlab) : Edge := (quit_room demo_os true (in_room sl)).2.

Lemma leave_overtakes_join_witness :
  ∃ sl e2, edge_inv (out_of_room sl) ∧
    rtc pool_step ([activate_task demo_os joined_room (mkVirtualIp [10; 0; 0; 2]) "10.0.0.0/24";
                    quit_task demo_os true], out_of_room sl)
                  ([task_done (Ok tt); task_done (Ok tt)], e2) ∧
    e_room e2 = Some joined_room ∧ tun (e_dp e2) = None ∧ ¬ edge_inv e2.
Proof.
  destruct demo_run_start as [sl _]. exists sl.
  assert (edge_inv (out_of_room sl)) as He.
  { destruct (quit_run demo_os true (in_room sl)) as (e' & E & _).
    unfold out_of_room. rewrite E. exact (quit_inv _ _ _ _ E). }
  assert (is_ok (activate_room demo_os joined_room (mkVirtualIp [10; 0; 0; 2]) "10.0.0.0/24"
    (out_of_room sl)).1 = true) as Ha by (vm_compute; reflexivity).
  destruct (leave_overtakes_join demo_os demo_os joined_room (mkVirtualIp [10; 0; 0; 2])
    "10.0.0.0/24" (out_of_room sl) _ He (ran_ok _ _ Ha)) as (_ & _ & _ & e2 & H & H1 & _ & H2 & H3).
  exists e2. split; [exact He|]. split; [exact H|]. split; [exact H1|]. split; [exact H2|apply H3].
Defined.

(** ** A client that asks for the rooms, sends a line that says nothing and asks for the status *)
Definition two_requests : JsonText := {|
  json_to_string _ := "{}";
  json_from_str s :=
    if bool_decide (bytes_of s = [114; 10]) then inr (JObject [("command", JString "active")])
    else if bool_decide (bytes_of s = [115; 10]) then inr (JObject [("command", JString "status")])
    else inl "not JSON" |}.
#[local] Existing Instance two_requests.

(** What a round, the command loop and a timeout make of the one connection. *)
Definition after_round (s : Served) : Served :=
  let '(c, e, n) := connection_round 7 (default new_connection (sv_conns s !! 0%nat))
                      (sv_edge s) (sv_next s) in
  mkServed e (sv_queue s) n (<[0%nat := c]> (sv_conns s)).
Definition asked_of (s : Served) (k : nat * EdgeCommand) : Served :=
  mkServed (handle_command demo_os None (EdgeConfig_default me []) k.2 k.1 (sv_edge s)).2 [] (sv_next s)
    (sv_conns s).

Definition with_client (sl : PacketSlab) : Served :=
  mkServed (demo_start sl) [] 0 [receive [114; 10; 120; 10; 115; 10] new_connection].
Definition passed_on (s : Served) (msg : Json) : Served :=
  mkServed (sv_edge s) [(0%nat, CmdQueryRooms)] (sv_next s)
    (<[0%nat := serving (Waiting msg 0) (default new_connection (sv_conns s !! 0%nat))]> (sv_conns s)).
Definition timed_out (s : Served) (msg : Json) : Served :=
  put_conn 0 (respond msg (Some 0%nat) (wait_for_command_reply ReplyTimeout)
                (default new_connection (sv_conns s !! 0%nat))) s.
Definition active_request : Json := JObject [("command", JString "active")].
Definition serve_demo (sl : PacketSlab) : Served :=
  after_round (after_round (timed_out (asked_of (passed_on (after_round (with_client sl))
    active_request) (0%nat, CmdQueryRooms)) active_request)).

Lemma round_ran s :
  e_exited (sv_edge s) = false → (∃ c, sv_conns s !! 0%nat = Some c ∧ cn_open c = true ∧
    cn_serving c = Reading) → serve_step Release s (after_round s).
Proof.
  destruct s as [e q n l]. cbn [sv_edge sv_conns]. intros He (c & Hc & Ho & Hs). unfold after_round.
  cbn [sv_edge sv_conns sv_queue sv_next]. rewrite Hc. change (default new_connection (Some c)) with c.
  destruct (connection_round 7 c e n) as [[c' e'] n'] eqn:E. by eapply serve_round.
Qed.

Lemma command_taken s k :
  e_exited (sv_edge s) = false → sv_queue s = [k] →
  is_ok (handle_command demo_os None (EdgeConfig_default me []) k.2 k.1 (sv_edge s)).1 = true →
  serve_step Release s (asked_of s k).
Proof.
  destruct s as [e q n l], k as [caller cmd]. cbn [sv_edge sv_queue fst snd]. intros He -> Hr.
  by eapply serve_command; [|apply ran_ok, Hr|].
Qed.

Lemma serve_demo_reachable sl :
  run_start demo_os 5 PortMappingSnapshot_default None demo_init None None = Ok (demo_start sl) →
  serve_reachable Release (serve_demo sl).
Proof.
  intros Hs. exists demo_os, 5, PortMappingSnapshot_default, None, demo_init, None, None, (demo_start sl).
  split; [exact Hs|]. clear Hs. eapply rtc_l; [apply serve_accept|]. cbn [app].
  eapply rtc_l; [by apply (serve_receive _ _ 0 new_connection [114; 10; 120; 10; 115; 10])|].
  change (put_conn _ _ _) with (with_client sl).
  eapply rtc_l; [apply round_ran; [vm_compute; reflexivity|by eexists]|].
  eapply rtc_l.
  { apply (serve_send Release (sv_edge (after_round (with_client sl))) [] 1
      (sv_conns (after_round (with_client sl))) 0
      (default new_connection (sv_conns (after_round (with_client sl)) !! 0%nat))
      active_request 0 CmdQueryRooms); vm_compute; try reflexivity. lia. }
  match goal with |- rtc _ (mkServed ?e _ ?n ?l) _ =>
    change (mkServed e _ n l) with (passed_on (after_round (with_client sl)) active_request) end.
  eapply rtc_l; [apply (command_taken _ (0%nat, CmdQueryRooms)); vm_compute; reflexivity|].
  eapply rtc_l.
  { apply (serve_timeout Release (asked_of (passed_on (after_round (with_client sl)) active_request)
      (0%nat, CmdQueryRooms)) 0 (default new_connection
      (sv_conns (passed_on (after_round (with_client sl)) active_request) !! 0%nat))
      active_request 0); vm_compute; reflexivity. }
  eapply rtc_l; [apply round_ran; [vm_compute; reflexivity|by eexists]|].
  apply rtc_once, round_ran; [vm_compute; reflexivity|by eexists].
Qed.

Lemma connections_served_witness :
  ∃ s c, serve_reachable Release s ∧ sv_conns s !! 0%nat = Some c ∧
    length (cn_lines c) = 3%nat ∧ length (cn_log c) = 2%nat ∧
    cn_output c = concat ((λ x, response_line x.2) <$> cn_log c) ∧
    Forall (right_answer Release (sv_edge s)) (cn_log c).
Proof.
  destruct demo_run_start as [sl Hs]. apply serve_demo_reachable in Hs.
  exists (serve_demo sl), (default new_connection (sv_conns (serve_demo sl) !! 0%nat)).
  assert (sv_conns (serve_demo sl) !! 0%nat
    = Some (default new_connection (sv_conns (serve_demo sl) !! 0%nat))) as Hc by reflexivity.
  destruct (connections_served Release _ Hs) as (_ & H & _).
  destruct (H 0%nat _ Hc) as (_ & H2 & _ & H4 & _).
  split; [exact Hs|]. split; [exact Hc|]. split; [vm_compute; reflexivity|].
  split; [vm_compute; reflexivity|]. split; [exact H2|exact H4].
Defined.

(** ** A rule *)
Definition block_ssh : @TrafficRule no_rules :=
  mkRule "r1" true Deny Inbound None (Some tt) Tcp [mkPortRange 22 22; mkPortRange 8000 8100] []
    None.
Definition block_ssh_args : RuleArgs :=
  mkRuleArgs "r1" "Deny" "INBOUND" "tcp" None (Some "net") (Some "22-22,8000-8100") None None.

Lemma block_ssh_denoted : denotes block_ssh_args block_ssh.
Proof.
  split; try reflexivity.
  1-3: split; [by apply (bool_decide_unpack _); vm_compute|by eexists].
  - split; [|by left]. repeat constructor; cbn; lia.
  - split; [constructor|by right].
Qed.

Lemma rule_entered_witness :
  ∃ e e', ipc_request 7 (add_command (rule_json block_ssh)) e = (Ok (policy_answer (policy_of e')), e')
    ∧ rules (policy_of e') = [block_ssh].
Proof.
  destruct demo_run_start as [sl _]. exists (demo_start sl).
  destruct (rule_entered 7 block_ssh_args block_ssh (demo_start sl) block_ssh_denoted)
    as (_ & e' & H & Hp).
  - apply not_elem_of_nil.
  - exists e'. split; [exact H|]. rewrite Hp. reflexivity.
Defined.

(** ** A room that is created, and an empty history that is printed *)
Definition no_percent : Percent := {| percent _ := None |}.
#[local] Existing Instance no_percent.

Lemma client_commands_witness :
  ∃ e, (run_dialog 7 (ask (with_text "create" "name" "den")) e []).1.1 = [CmdCreateRoom "den"] ∧
    ∃ res, heard 7 (ask (plain "history")) e [] = Some res ∧
      printed (DoRoom RoomHistory) res ≠ Panic.
Proof.
  destruct demo_run_start as [sl _]. exists (demo_start sl). split.
  - pose proof (client_commands 7 (DoRoom (RoomCreate "den")) _ (demo_start sl) [] eq_refl) as H.
    cbn [room_dialog] in H. destruct (run_dialog _ _ _ _) as [[cs r] e'].
    exact (proj1 (proj1 H)).
  - eexists. split; [reflexivity|].
    pose proof (client_commands 7 (DoRoom RoomHistory) _ (demo_start sl) [] eq_refl) as H.
    cbn [room_dialog] in H. destruct (run_dialog _ _ _ _) as [[cs r] e'].
    intros Hp. apply (proj2 H _ eq_refl) in Hp as [_ Hp]. by apply Exists_nil in Hp.
Defined.

(** ** A daemon told of another supernode *)
#[local] Instance net_eq_dec : EqDecision (@IpNet no_rules).
Proof. intros [] []. by left. Defined.
#[local] Instance PortRange_eq_dec : EqDecision PortRange.
Proof. solve_decision. Defined.
#[local] Instance TrafficRule_eq_dec : EqDecision (@TrafficRule no_rules).
Proof. solve_decision. Defined.
#[local] Instance TrafficPolicy_eq_dec : EqDecision (@TrafficPolicy no_rules).
Proof. solve_decision. Defined.
#[local] Instance DiscoveryConfig_eq_dec : EqDecision DiscoveryConfig.
Proof. solve_decision. Defined.
#[local] Instance BackendMode_eq_dec : EqDecision BackendMode.
Proof. solve_decision. Defined.
#[local] Instance BackendConfig_eq_dec : EqDecision BackendConfig.
Proof. solve_decision. Defined.
#[local] Instance VirtualLanConfig_eq_dec : EqDecision VirtualLanConfig.
Proof. solve_decision. Defined.
#[local] Instance EdgeConfig_eq_dec : EqDecision (@EdgeConfig no_rules).
Proof. solve_decision. Defined.

Definition old_config : @EdgeConfig no_rules :=
  set_supernodes ["a:1"] (set_default_supernode "a:1" (EdgeConfig_default me [])).
Definition new_config : @EdgeConfig no_rules := (override_config (Some "b:2") None old_config).1.
(** A file of one of the two configurations. *)
Definition two_toml : Toml (N:=no_rules) := {|
  toml_shared s := if bool_decide (s = "old") then Some (mkShared (Some old_config) None)
                   else if bool_decide (s = "new") then Some (mkShared (Some new_config) None)
                   else None;
  toml_edge _ := None; toml_supernode _ := None;
  toml_print c := match c with
                  | mkShared (Some x) None => if bool_decide (x = new_config) then Some "new" else None
                  | _ => None
                  end;
|}.
Lemma two_toml_laws : TomlLaws two_toml.
Proof.
  split. intros [[x|] [y|]] s; cbn; try done. case_bool_decide; [|done]. intros [= <-]. by subst.
Qed.
Definition two_hosts : Resolver := {|
  lookup_host s := if bool_decide (s = "a:1") then Some [server]
                   else if bool_decide (s = "b:2") then Some [other] else None |}.

Definition demo_daemon := daemon (TL:=two_toml) (RV:=two_hosts) (Some "config.toml") old_config
  (Some "b:2") None (Some (mkTransport None [])) (Some "old").

Lemma daemon_start_witness :
  ∃ i, demo_daemon = (Ok i, Some "new") ∧ init_supernode i = other ∧
    edge_load (T:=two_toml) (Some "new") = (Ok (normalize new_config), Some "new") ∧
    ∀ a, a ∈ supernode_list (init_settings i) → a = other ∨ ∃ x rest, lookup_host (Resolver:=two_hosts) x = Some (a :: rest).
Proof.
  assert (is_ok demo_daemon.1 = true ∧ demo_daemon.2 = Some "new"
    ∧ (init_supernode <$> ok demo_daemon.1) = Some other) as (H1 & H2 & H3) by (by vm_compute).
  pose proof (daemon_start (TL:=two_toml) (RV:=two_hosts) (TomlLaws0:=two_toml_laws)
    (Some "config.toml") old_config (Some "b:2") None (Some (mkTransport None [])) (Some "old")
    eq_refl) as H. fold demo_daemon in H.
  assert (edge_load_or_create (T:=two_toml) (Some "config.toml") old_config (Some "old")
    = (Ok old_config, Some "old")) as E by (by vm_compute).
  rewrite E in H. destruct demo_daemon as [[i|err|] file']; [|discriminate H1..].
  cbn in H2, H3. injection H3 as H3. subst file'.
  destruct H as (c & [= <-] & _ & _ & Hl & _ & _ & Hn & _).
  exists i. split; [done|]. split; [done|]. split; [exact Hl|].
  intros a Ha. apply Hn in Ha as [->|(x & rest & _ & Hx)]; [by left|right; by exists x, rest].
Defined.
