(* ===== verification/InviteDemo.v ===== *)
(** A room made on a supernode that only knows its unspecified address, and an edge that joins
    it with the code. *)
From Stdlib Require Import ZArith Lia.
From stdpp Require Import base tactics numbers list gmap strings relations.
From S2P Require Import Prelude Bytes Net NetImpl Text AddrText AddrSpec Common Proto Sorting Slab.
From S2P Require Import Room Etherparse Qos Crypto Noise Policy Rendezvous Discovery F32 Path.
From S2P Require Import Observability Transport Flood MacTable Dataplane Delivery Config Nat.
From S2P Require Import EdgeCore Edge HandshakeSpec Supernode SupernodeFacts SupernodeSpec InviteSpec.
From S2P Require Import SupernodeDemo EdgeDemo.
Local Open Scope string_scope.
Local Open Scope Z_scope.

#[local] Existing Instances cidr_lib list_queue toy_aead plain_etherparse no_rules Demo.free_flow
  toy_socket Demo.open_tun two_frames toy_crypto toy_crypto_laws plain_hex toy_snow one_toml good_disk
  no_history linux.

Definition new_room : RoomId := mkRoomId (replicate 16 6).
Definition registered (sl : PacketSlab) : Supernode := (after register_dgram (demo_base sl)).2.

Lemma registered_inv sl :
  new_with_config demo_transport demo_key demo_config = Ok (demo_base sl) →
  sn_inv Release (registered sl).
Proof.
  intros Hnew. apply receive_inv. by apply (started_inv Release demo_transport demo_key demo_config).
Qed.

Lemma invite_opens_room_witness :
  ∃ s s1 ip cidr code,
    Supernode.create_room Release new_room "tok" "den" demo_addr s
      = Supernode.send (RoomCreated new_room ip cidr code) demo_addr s1 ∧
    ∀ e, e_room e = None → e_join e = None →
      let shared := normalize_invite_code code server in
      let ask := Edge.send (JoinRoom new_room (Some "tok") (remembered_name shared e)) server in
      (ask (joining shared 3 e)).1 = Ok tt → Edge.join_room shared 3 e = ask (joining shared 3 e).
Proof.
  destruct demo_new as [sl Hnew].
  assert (addr_to_node (registered sl) !! demo_addr = Some demo_id) as Ha by (vm_compute; reflexivity).
  destruct (invite_opens_room Release new_room "tok" "den" demo_addr (registered sl) demo_id server
    (registered_inv sl Hnew) Ha) as (ip & cidr & primary & code & s1 & Hp & Hrun & _ & Hjoin & _).
  - vm_compute. reflexivity.
  - assert (public_supernode_addr (registered sl) = Ok "0.0.0.0:7777") as Hpub
      by (vm_compute; reflexivity).
    rewrite Hpub in Hp. injection Hp as <-.
    assert (resolve_supernode_addr "0.0.0.0:7777" server = Some server) as Hres
      by (vm_compute; reflexivity).
    assert (addr_ok server) as Hok by (repeat split; vm_compute; congruence).
    exists (registered sl), s1, ip, cidr, code. split; [exact Hrun|]. intros e He Hj.
    exact (Hjoin server e 3%nat Hres Hok eq_refl He Hj).
Defined.

Lemma printed_supernode_witness :
  let a := mkSocketAddr (V6 (of_groups [8193; 3512; 0; 0; 1; 0; 0; 1])) 7777 in
  show_addr a = "[2001:db8::1:0:0:1]:7777" ∧ resolve_supernode_addr (show_addr a) server = Some a.
Proof.
  split; [by vm_compute|].
  exact (proj1 (printed_supernode (mkSocketAddr (V6 (of_groups [8193; 3512; 0; 0; 1; 0; 0; 1])) 7777)
    server ltac:(repeat split; vm_compute; congruence))).
Defined.
